(** * FinancialAgent: ingestion, normalisation and fingerprinting of bank
      statements

    A shallow embedding of the ingestion pipeline of [finagent]:

    - [tools/normalization.py]: amount parsing, value-date extraction,
      text and description normalisation, the transaction fingerprint;
    - [tools/csv_ingest.py], [tools/excel_ingest.py], [tools/pdf_ingest.py]:
      the three format-specific ingestion functions, over an explicit model
      of the SQLite tables they read and write;
    - [agents/spending_tools.py]: the spend-by-category report;
    - [tools/categorizer.py]: the keyword categoriser;
    - [cli.py]: the ingestion of a folder of documents.

    Conventions of the embedding.

    - A Python [str] is a list of Unicode code points ([N]).  The functions
      that depend on the interpreter's Unicode tables ([str.lower],
      [str.upper], [str.isdigit], NFKD, the classes [\d] and [\w]) follow
      CPython 3.11 exactly on code points below 256; beyond that range they
      act as the identity (resp. answer [false]).  [str.isspace] and the
      class [\s] are exact on every code point.
    - A Python [int] is a [Z].  A [float] is an IEEE-754 binary64 value kept
      exactly, as a mantissa and a binary exponent.
    - A Python exception is a value [Raise e] of the result type [res]; a
      [try]/[except] block is a [match] on that result.
    - The SQLite connection is an explicit [db] record threaded through the
      ingestion functions; every table is the list of its rows in rowid
      order. *)

From Stdlib Require Import ZArith NArith List String Ascii Bool Lia.
From Stdlib Require Import Sorting.Sorted Sorting.Permutation.
Import ListNotations.

Set Implicit Arguments.
Local Open Scope Z_scope.

(* ===================================================================== *)
(** * Python values: results and exceptions *)
(* ===================================================================== *)

(** An exception: [type(e).__name__] and [str(e)]. *)
Record exn := Exn { exn_name : list N; exn_text : list N }.

Inductive res (A : Type) : Type :=
| Ok (a : A)
| Raise (e : exn).
Arguments Ok {A} a.
Arguments Raise {A} e.

Definition bind {A B : Type} (c : res A) (k : A -> res B) : res B :=
  match c with
  | Ok a => k a
  | Raise e => Raise e
  end.

Notation "x <- c ;; k" := (bind c (fun x => k))
  (at level 61, c at next level, right associativity).

Definition is_ok {A : Type} (c : res A) : bool :=
  match c with Ok _ => true | Raise _ => false end.

(* ===================================================================== *)
(** * Python strings *)
(* ===================================================================== *)

Module PyStr.

Definition char := N.
Definition str := list char.

(** A Rocq string literal (one byte per character, so ASCII text) as a
    Python string. *)
Definition py (s : string) : str := map N_of_ascii (list_ascii_of_string s).

Fixpoint str_eqb (a b : str) : bool :=
  match a, b with
  | [], [] => true
  | x :: a', y :: b' => N.eqb x y && str_eqb a' b'
  | _, _ => false
  end.

Definition in_range (lo hi c : N) : bool := (N.leb lo c && N.leb c hi)%bool.

(** [str.isspace] on one character; also the regular-expression class
    [\s] for [str] patterns. *)
Definition isspace (c : char) : bool :=
  (in_range 9 13 c || in_range 28 32 c || N.eqb c 133 || N.eqb c 160
   || N.eqb c 5760 || in_range 8192 8202 c || N.eqb c 8232 || N.eqb c 8233
   || N.eqb c 8239 || N.eqb c 8287 || N.eqb c 12288)%bool.

(** ASCII decimal digits: the class [\d] and the digits of [float] and
    [int] literals. *)
Definition isdecimal (c : char) : bool := in_range 48 57 c.

(** [str.isdigit] on one character: the decimal digits and the
    superscripts two, three and one. *)
Definition isdigit_char (c : char) : bool :=
  (isdecimal c || N.eqb c 178 || N.eqb c 179 || N.eqb c 185)%bool.

(** [s.isdigit()]: false on the empty string. *)
Definition isdigit (s : str) : bool :=
  match s with
  | [] => false
  | _ => forallb isdigit_char s
  end.

Definition lower_char (c : char) : char :=
  if in_range 65 90 c then (c + 32)%N
  else if (in_range 192 222 c && negb (N.eqb c 215))%bool then (c + 32)%N
  else c.

Definition lower (s : str) : str := map lower_char s.

(** [str.upper] may lengthen the text: the sharp s becomes [SS]. *)
Definition upper_char (c : char) : str :=
  if in_range 97 122 c then [(c - 32)%N]
  else if (in_range 224 254 c && negb (N.eqb c 247))%bool then [(c - 32)%N]
  else if N.eqb c 223 then [83%N; 83%N]
  else if (N.eqb c 181 || N.eqb c 956)%bool then [924%N]
  else if N.eqb c 255 then [376%N]
  else [c].

Definition upper (s : str) : str := flat_map upper_char s.

Fixpoint lstrip (s : str) : str :=
  match s with
  | c :: s' => if isspace c then lstrip s' else s
  | [] => []
  end.

Definition rstrip (s : str) : str := rev (lstrip (rev s)).

Definition strip (s : str) : str := rstrip (lstrip s).

(** [s.replace(old, new)] for a one-character [old]. *)
Definition replace (old : char) (new : str) (s : str) : str :=
  flat_map (fun c => if N.eqb c old then new else [c]) s.

(** [old in s] for a one-character [old]. *)
Definition contains (c : char) (s : str) : bool := existsb (N.eqb c) s.

(** [sep.join(parts)]. *)
Fixpoint join (sep : str) (parts : list str) : str :=
  match parts with
  | [] => []
  | [p] => p
  | p :: rest => p ++ sep ++ join sep rest
  end.

(** [s[i:j]] for [0 <= i <= j]. *)
Definition slice (i j : nat) (s : str) : str := firstn (j - i) (skipn i s).

(** [a or b] on strings: the empty string is falsy. *)
Definition or_str (a b : str) : str :=
  match a with [] => b | _ => a end.

(** [a or None]. *)
Definition or_none (a : str) : option str :=
  match a with [] => None | _ => Some a end.

(** The decimal digits of a positive number, most significant first. *)
Fixpoint digits_of (fuel : nat) (n : Z) (acc : str) : str :=
  match fuel with
  | O => acc
  | S f =>
      let acc' := Z.to_N (48 + n mod 10) :: acc in
      if n <? 10 then acc' else digits_of f (n / 10) acc'
  end.

(** [str(n)] for an [int]. *)
Definition str_of_Z (n : Z) : str :=
  let body := digits_of (S (Z.to_nat (Z.log2 (Z.abs n)))) (Z.abs n) [] in
  if n <? 0 then 45%N :: body else body.

(** [f"{n:0<w>d}"] for a non-negative [n]. *)
Definition zero_pad (w : nat) (n : Z) : str :=
  let d := str_of_Z n in
  repeat 48%N (w - List.length d) ++ d.

Definition nbsp : char := 160%N.

End PyStr.
Import PyStr.

(* ===================================================================== *)
(** * Python floats *)
(* ===================================================================== *)

Module PyFloat.

(** A binary64 value: [Fin m e] is the number [m * 2^e]. *)
Inductive float :=
| Fin (m e : Z)
| Inf (negative : bool)
| NaN.

(** Round-half-to-even of the rational [a / b], for [0 < b]. *)
Definition div_half_even (a b : Z) : Z :=
  let q := a / b in
  let r := a mod b in
  match (2 * r) ?= b with
  | Lt => q
  | Gt => q + 1
  | Eq => if Z.even q then q else q + 1
  end.

(** [floor (log2 (n / b))] for positive [n] and [b]. *)
Definition ilog2_ratio (n b : Z) : Z :=
  let k := Z.log2 n - Z.log2 b in
  if 0 <=? k
  then (if b * 2 ^ k <=? n then k else k - 1)
  else (if b <=? n * 2 ^ (- k) then k else k - 1).

(** The binary64 number nearest to [a / b] (ties to even), for [0 < b]:
    53 bits of precision, exponents from -1074, overflow to infinity. *)
Definition round64 (a b : Z) : float :=
  if a =? 0 then Fin 0 0
  else
    let n := Z.abs a in
    let q := Z.max (ilog2_ratio n b - 52) (-1074) in
    let m := if 0 <=? q then div_half_even n (b * 2 ^ q)
             else div_half_even (n * 2 ^ (- q)) b in
    if (971 <? q) || ((q =? 971) && (2 ^ 53 <=? m))
    then Inf (a <? 0)
    else Fin (if a <? 0 then - m else m) q.

(** The float nearest to [m * 10^x]: what [float] returns for a decimal
    literal. *)
Definition of_decimal (m x : Z) : float :=
  if 0 <=? x then round64 (m * 10 ^ x) 1 else round64 m (10 ^ (- x)).

(** [x * y]. *)
Definition mul (x y : float) : float :=
  match x, y with
  | NaN, _ | _, NaN => NaN
  | Inf s, Inf t => Inf (xorb s t)
  | Inf s, Fin m _ => if m =? 0 then NaN else Inf (xorb s (m <? 0))
  | Fin m _, Inf s => if m =? 0 then NaN else Inf (xorb s (m <? 0))
  | Fin m1 e1, Fin m2 e2 =>
      let m := m1 * m2 in
      let e := e1 + e2 in
      if 0 <=? e then round64 (m * 2 ^ e) 1 else round64 m (2 ^ (- e))
  end.

(** [float(n)] for a small [int]. *)
Definition of_Z (n : Z) : float := round64 n 1.

(** [int(round(x))]: round-half-to-even to an [int]; infinities and NaN
    raise. *)
Definition round_to_int (x : float) : res Z :=
  match x with
  | Fin m e =>
      Ok (if 0 <=? e then m * 2 ^ e else div_half_even m (2 ^ (- e)))
  | Inf _ =>
      Raise (Exn (py "OverflowError")
                 (py "cannot convert float infinity to integer"))
  | NaN =>
      Raise (Exn (py "ValueError")
                 (py "cannot convert float NaN to integer"))
  end.

(** ** [float(s)] on a string

    After stripping white space: an optional sign, then [inf], [infinity]
    or [nan] in any letter case, or a decimal number with optional
    fraction and exponent whose digit groups may be separated by single
    underscores. *)

Definition digit_val (c : char) : Z := Z.of_N c - 48.

(** The rest of a digit part: [(["_"] digit)*]. *)
Fixpoint digits_tail (s : str) : list Z * str :=
  match s with
  | c :: s' =>
      if isdecimal c then
        let (ds, r) := digits_tail s' in (digit_val c :: ds, r)
      else if N.eqb c 95 then
        match s' with
        | d :: s'' =>
            if isdecimal d then
              let (ds, r) := digits_tail s'' in (digit_val d :: ds, r)
            else ([], s)
        | [] => ([], s)
        end
      else ([], s)
  | [] => ([], [])
  end.

(** A digit part: [digit (["_"] digit)*]. *)
Definition digitpart (s : str) : option (list Z * str) :=
  match s with
  | c :: s' =>
      if isdecimal c then
        let (ds, r) := digits_tail s' in Some (digit_val c :: ds, r)
      else None
  | [] => None
  end.

Definition Z_of_digits (ds : list Z) : Z :=
  fold_left (fun a d => 10 * a + d) ds 0.

(** [[sign]]: the sign read, and the rest. *)
Definition read_sign (s : str) : bool * str :=
  match s with
  | 43%N :: s' => (false, s')
  | 45%N :: s' => (true, s')
  | _ => (false, s)
  end.

(** [number ::= [digitpart] "." digitpart | digitpart ["."]]: the digits
    before and after the point, and the rest. *)
Definition read_number (s : str) : option (list Z * list Z * str) :=
  match digitpart s with
  | Some (ip, r) =>
      match r with
      | 46%N :: r' =>
          match digitpart r' with
          | Some (fp, r'') => Some (ip, fp, r'')
          | None => Some (ip, [], r')
          end
      | _ => Some (ip, [], r)
      end
  | None =>
      match s with
      | 46%N :: r' =>
          match digitpart r' with
          | Some (fp, r'') => Some ([], fp, r'')
          | None => None
          end
      | _ => None
      end
  end.

(** [[exponent]]: the decimal exponent (0 when absent); [None] when an
    exponent is begun and malformed. *)
Definition read_exponent (s : str) : option (Z * str) :=
  match s with
  | c :: s' =>
      if (N.eqb c 101 || N.eqb c 69)%bool then
        let (neg, s'') := read_sign s' in
        match digitpart s'' with
        | Some (ds, r) =>
            Some (if neg then - Z_of_digits ds else Z_of_digits ds, r)
        | None => None
        end
      else Some (0, s)
  | [] => Some (0, [])
  end.

Definition float_error (s : str) : exn :=
  Exn (py "ValueError")
      (py "could not convert string to float: '" ++ s ++ py "'").

Definition float_of_str (s0 : str) : res float :=
  let s := strip s0 in
  let (neg, body) := read_sign s in
  let lb := lower body in
  if (str_eqb lb (py "inf") || str_eqb lb (py "infinity"))%bool
  then Ok (Inf neg)
  else if str_eqb lb (py "nan") then Ok NaN
  else
    match read_number body with
    | Some (ip, fp, r) =>
        match read_exponent r with
        | Some (x, []) =>
            let m := Z_of_digits (ip ++ fp) in
            Ok (of_decimal (if neg then - m else m)
                           (x - Z.of_nat (List.length fp)))
        | _ => Raise (float_error s0)
        end
    | None => Raise (float_error s0)
    end.

End PyFloat.

(* ===================================================================== *)
(** * tools/normalization.py: amounts *)
(* ===================================================================== *)

(** [parse_eu_amount_to_cents(amount_str, debit_credit)]. *)
Definition parse_eu_amount_to_cents (amount_str debit_credit : str) : res Z :=
  let s := replace nbsp (py " ") (replace 46%N [] (strip amount_str)) in
  let s := replace 32%N [] s in
  let s := if contains 44%N s then replace 44%N (py ".") s else s in
  val <- PyFloat.float_of_str s ;;
  cents <- PyFloat.round_to_int (PyFloat.mul val (PyFloat.of_Z 100)) ;;
  if str_eqb (lower (strip debit_credit)) (py "af")
  then Ok (- Z.abs cents)
  else Ok (Z.abs cents).

(* ===================================================================== *)
(** * Regular expressions ([re]) *)
(* ===================================================================== *)

Module Re.

(** The fragment of the pattern language that the program uses. *)
Inductive re :=
| Chr (p : char -> bool)                      (* one character of a class *)
| Eps                                         (* the empty pattern *)
| Cat (r1 r2 : re)                            (* r1 r2 *)
| Rep (r : re) (lo : nat) (hi : option nat)   (* greedy r{lo,hi} *)
| Grp (r : re)                                (* the capturing group 1 *)
| WordB.                                      (* \b *)

Definition star (r : re) : re := Rep r 0 None.
Definition plus (r : re) : re := Rep r 1 None.
Definition opt (r : re) : re := Rep r 0 (Some 1%nat).
Definition times (n : nat) (r : re) : re := Rep r n (Some n).

Definition seq (rs : list re) : re := fold_right Cat Eps rs.

(** A literal text, compared exactly. *)
Definition lit (s : string) : re :=
  seq (map (fun c => Chr (N.eqb c)) (py s)).

(** A literal text under [re.IGNORECASE]. *)
Definition lit_ci (s : string) : re :=
  seq (map (fun c => Chr (fun x => N.eqb (lower_char x) (lower_char c)))
           (py s)).

Definition space : re := Chr isspace.                     (* \s *)
Definition nonspace : re := Chr (fun c => negb (isspace c)).  (* \S *)
Definition digit : re := Chr isdecimal.                   (* \d *)
Definition upper_AZ : re := Chr (in_range 65 90).         (* [A-Z] *)

(** The class [\w]: letters, digits and the underscore. *)
Definition isword (c : char) : bool :=
  (in_range 48 57 c || in_range 65 90 c || in_range 97 122 c || N.eqb c 95
   || N.eqb c 170 || N.eqb c 178 || N.eqb c 179 || N.eqb c 181
   || N.eqb c 185 || N.eqb c 186 || in_range 188 190 c
   || (in_range 192 255 c && negb (N.eqb c 215) && negb (N.eqb c 247)))%bool.

Definition isword_opt (c : option char) : bool :=
  match c with Some x => isword x | None => false end.

(** What a match returns: the text of group 1 when it took part, and the
    text left after the match. *)
Definition outcome := option (option str * str).
Definition cont := option str -> option char -> str -> outcome.

(** Backtracking matcher in continuation style.  [prev] is the character
    before the current position (for [\b]); repetitions try one more
    iteration first, and an iteration must consume text. *)
Fixpoint mt (r : re) (cap : option str) (prev : option char) (s : str)
            (k : cont) {struct r} : outcome :=
  match r with
  | Chr p =>
      match s with
      | c :: s' => if p c then k cap (Some c) s' else None
      | [] => None
      end
  | Eps => k cap prev s
  | Cat r1 r2 =>
      mt r1 cap prev s (fun cap' prev' s' => mt r2 cap' prev' s' k)
  | Rep r1 lo hi =>
      (fix loop (fuel lo : nat) (hi : option nat) (cap : option str)
               (prev : option char) (s : str) {struct fuel} : outcome :=
         match fuel with
         | O => None
         | S fuel' =>
             let more :=
               match hi with
               | Some O => None
               | _ =>
                   mt r1 cap prev s
                      (fun cap' prev' s' =>
                         if (List.length s' <? List.length s)%nat
                         then loop fuel' (pred lo) (option_map pred hi)
                                   cap' prev' s'
                         else None)
               end in
             match more with
             | Some x => Some x
             | None => match lo with O => k cap prev s | S _ => None end
             end
         end) (S (List.length s)) lo hi cap prev s
  | Grp r1 =>
      mt r1 cap prev s
         (fun _ prev' s' =>
            k (Some (firstn (List.length s - List.length s') s)) prev' s')
  | WordB =>
      if xorb (isword_opt prev) (isword_opt (hd_error s))
      then k cap prev s else None
  end.

(** [pattern.match] at the current position. *)
Definition match_here (r : re) (prev : option char) (s : str) : outcome :=
  mt r None prev s (fun cap _ rest => Some (cap, rest)).

(** The length of the match at the current position. *)
Definition match_len (r : re) (prev : option char) (s : str) : option nat :=
  match match_here r prev s with
  | Some (_, rest) => Some (List.length s - List.length rest)%nat
  | None => None
  end.

(** [pattern.search(s)]: the leftmost match; returns group 1. *)
Fixpoint search_from (r : re) (prev : option char) (s : str) : outcome :=
  match match_here r prev s with
  | Some x => Some x
  | None =>
      match s with
      | c :: s' => search_from r (Some c) s'
      | [] => None
      end
  end.

Definition search (r : re) (s : str) : outcome := search_from r None s.

(** [pattern.sub(repl, s)]: every leftmost non-overlapping match is
    replaced.  [skip] counts the characters of the current match still to
    be dropped.  Every pattern the program substitutes matches at least
    one character. *)
Fixpoint sub_from (r : re) (repl : str) (skip : nat) (prev : option char)
                  (s : str) : str :=
  match s with
  | [] => []
  | c :: s' =>
      match skip with
      | S n => sub_from r repl n (Some c) s'
      | O =>
          match match_len r prev s with
          | Some (S n) => repl ++ sub_from r repl n (Some c) s'
          | _ => c :: sub_from r repl O (Some c) s'
          end
      end
  end.

Definition sub (r : re) (repl : str) (s : str) : str :=
  sub_from r repl O None s.

End Re.

(* ===================================================================== *)
(** * [unicodedata] and [datetime] *)
(* ===================================================================== *)

Module Unicodedata.

(** The compatibility decompositions of the code points below 256. *)
Definition nfkd_table : list (N * list N) :=
  [(160, [32]); (168, [32; 776]); (170, [97]); (175, [32; 772]);
   (178, [50]); (179, [51]); (180, [32; 769]); (181, [956]);
   (184, [32; 807]); (185, [49]); (186, [111]); (188, [49; 8260; 52]);
   (189, [49; 8260; 50]); (190, [51; 8260; 52]); (192, [65; 768]);
   (193, [65; 769]); (194, [65; 770]); (195, [65; 771]); (196, [65; 776]);
   (197, [65; 778]); (199, [67; 807]); (200, [69; 768]); (201, [69; 769]);
   (202, [69; 770]); (203, [69; 776]); (204, [73; 768]); (205, [73; 769]);
   (206, [73; 770]); (207, [73; 776]); (209, [78; 771]); (210, [79; 768]);
   (211, [79; 769]); (212, [79; 770]); (213, [79; 771]); (214, [79; 776]);
   (217, [85; 768]); (218, [85; 769]); (219, [85; 770]); (220, [85; 776]);
   (221, [89; 769]); (224, [97; 768]); (225, [97; 769]); (226, [97; 770]);
   (227, [97; 771]); (228, [97; 776]); (229, [97; 778]); (231, [99; 807]);
   (232, [101; 768]); (233, [101; 769]); (234, [101; 770]);
   (235, [101; 776]); (236, [105; 768]); (237, [105; 769]);
   (238, [105; 770]); (239, [105; 776]); (241, [110; 771]);
   (242, [111; 768]); (243, [111; 769]); (244, [111; 770]);
   (245, [111; 771]); (246, [111; 776]); (249, [117; 768]);
   (250, [117; 769]); (251, [117; 770]); (252, [117; 776]);
   (253, [121; 769]); (255, [121; 776])]%N.

Definition nfkd_char (c : char) : str :=
  match find (fun e => N.eqb (fst e) c) nfkd_table with
  | Some (_, d) => d
  | None => [c]
  end.

(** [unicodedata.normalize("NFKD", s)]. *)
Definition normalize_NFKD (s : str) : str := flat_map nfkd_char s.

End Unicodedata.

Module Datetime.

Definition is_leap (y : Z) : bool :=
  ((y mod 4 =? 0) && (negb (y mod 100 =? 0) || (y mod 400 =? 0)))%bool.

Definition days_in_month (y m : Z) : Z :=
  if m =? 2 then (if is_leap y then 29 else 28)
  else if ((m =? 4) || (m =? 6) || (m =? 9) || (m =? 11))%bool then 30
  else 31.

(** [date.isoformat()]. *)
Definition isoformat (y m d : Z) : str :=
  zero_pad 4 y ++ py "-" ++ zero_pad 2 m ++ py "-" ++ zero_pad 2 d.

Definition dv (c : char) : Z := Z.of_N c - 48.

(** The directive [%d]: [3[0-1]|[1-2]\d|0[1-9]|[1-9]| [1-9]], every
    alternative that matches, in order. *)
Definition read_day (s : str) : list (Z * str) :=
  (match s with
   | a :: b :: r =>
       if (N.eqb a 51 && in_range 48 49 b)%bool then [(30 + dv b, r)]
       else if (in_range 49 50 a && isdecimal b)%bool
       then [(10 * dv a + dv b, r)]
       else if (N.eqb a 48 && in_range 49 57 b)%bool then [(dv b, r)]
       else []
   | _ => []
   end)
  ++ (match s with
      | a :: r => if in_range 49 57 a then [(dv a, r)] else []
      | _ => []
      end)
  ++ (match s with
      | a :: b :: r =>
          if (N.eqb a 32 && in_range 49 57 b)%bool then [(dv b, r)] else []
      | _ => []
      end).

(** The directive [%m]: [1[0-2]|0[1-9]|[1-9]]. *)
Definition read_month (s : str) : list (Z * str) :=
  (match s with
   | a :: b :: r =>
       if (N.eqb a 49 && in_range 48 50 b)%bool then [(10 + dv b, r)]
       else if (N.eqb a 48 && in_range 49 57 b)%bool then [(dv b, r)]
       else []
   | _ => []
   end)
  ++ (match s with
      | a :: r => if in_range 49 57 a then [(dv a, r)] else []
      | _ => []
      end).

(** The directive [%Y]: four digits. *)
Definition read_year (s : str) : list (Z * str) :=
  match s with
  | a :: b :: c :: d :: r =>
      if forallb isdecimal [a; b; c; d]
      then [(1000 * dv a + 100 * dv b + 10 * dv c + dv d, r)]
      else []
  | _ => []
  end.

Definition read_dash (s : str) : list str :=
  match s with
  | 45%N :: r => [r]
  | _ => []
  end.

(** Every way to read a prefix of [s] as [%d-%m-%Y], in the order the
    matcher tries them. *)
Definition read_dmy (s : str) : list (Z * Z * Z * str) :=
  flat_map (fun dr =>
    flat_map (fun r1 =>
      flat_map (fun mr =>
        flat_map (fun r2 =>
          map (fun yr => (fst dr, fst mr, fst yr, snd yr))
              (read_year r2))
          (read_dash (snd mr)))
        (read_month r1))
      (read_dash (snd dr)))
    (read_day s).

(** [datetime.strptime(s, "%d-%m-%Y").date().isoformat()]. *)
Definition strptime_dmy_iso (s : str) : res str :=
  match read_dmy s with
  | (d, m, y, rest) :: _ =>
      match rest with
      | _ :: _ =>
          Raise (Exn (py "ValueError")
                     (py "unconverted data remains: " ++ rest))
      | [] =>
          if y <? 1 then
            Raise (Exn (py "ValueError")
                       (py "year " ++ str_of_Z y ++ py " is out of range"))
          else if days_in_month y m <? d then
            Raise (Exn (py "ValueError")
                       (py "day is out of range for month"))
          else Ok (isoformat y m d)
      end
  | [] =>
      Raise (Exn (py "ValueError")
                 (py "time data '" ++ s
                     ++ py "' does not match format '%d-%m-%Y'"))
  end.

End Datetime.

(* ===================================================================== *)
(** * tools/normalization.py: text *)
(* ===================================================================== *)

Import Re.

(** [_VALUTADATUM_RE = Valutadatum:\s*(\d{2}-\d{2}-\d{4})]. *)
Definition date_dmy_re : re :=
  seq [times 2 digit; lit "-"; times 2 digit; lit "-"; times 4 digit].

Definition _VALUTADATUM_RE : re :=
  seq [lit "Valutadatum:"; star space; Grp date_dmy_re].

(** [try_extract_value_date(text)]. *)
Definition try_extract_value_date (text : str) : res (option str) :=
  match search _VALUTADATUM_RE text with
  | Some (Some g1, _) =>
      d <- Datetime.strptime_dmy_iso g1 ;; Ok (Some d)
  | _ => Ok None
  end.

(** [normalize_text(value)]. *)
Definition normalize_text (value : str) : str :=
  let v := strip value in
  let v := Unicodedata.normalize_NFKD v in
  sub (plus space) (py " ") v.

(** The patterns of the volatile tokens, all under [re.IGNORECASE].

    Time stamps: [Datum/Tijd:\s*\d{2}-\d{2}-\d{4}\s*\d{2}:\d{2}:\d{2}]. *)
Definition timestamp_re : re :=
  seq [lit_ci "Datum/Tijd:"; star space; times 2 digit; lit_ci "-";
       times 2 digit; lit_ci "-"; times 4 digit; star space;
       times 2 digit; lit_ci ":"; times 2 digit; lit_ci ":"; times 2 digit].

(** Card sequence numbers: [Pasvolgnr:\s*\d+]. *)
Definition pasvolgnr_re : re :=
  seq [lit_ci "Pasvolgnr:"; star space; plus digit].

(** Terminal identifiers: [Term:\s*\S+]. *)
Definition term_re : re :=
  seq [lit_ci "Term:"; star space; plus nonspace].

(** The marker [Apple Pay]. *)
Definition apple_pay_re : re := lit_ci "Apple Pay".

(** Transaction identifiers: [Transactie:\s*\S+]. *)
Definition transactie_re : re :=
  seq [lit_ci "Transactie:"; star space; plus nonspace].

(** The list [patterns], in the order the patterns are applied. *)
Definition patterns : list re :=
  [timestamp_re; pasvolgnr_re; term_re; apple_pay_re; transactie_re].

(** [normalize_description(desc)]. *)
Definition normalize_description (desc : str) : str :=
  let v := normalize_text desc in
  let v := fold_left (fun v p => sub p [] v) patterns v in
  strip (sub (plus space) (py " ") v).

(* ===================================================================== *)
(** * [hashlib.sha256] *)
(* ===================================================================== *)

Module Hashlib.

(** A byte is a [Z] in [0, 256); a word is a [Z] in [0, 2^32). *)
Definition w32 (x : Z) : Z := x mod 2 ^ 32.
Definition add32 (x y : Z) : Z := w32 (x + y).
Definition rotr (n x : Z) : Z :=
  Z.lor (Z.shiftr x n) (w32 (Z.shiftl x (32 - n))).
Definition not32 (x : Z) : Z := 2 ^ 32 - 1 - x.

Definition Ch (x y z : Z) : Z := Z.lxor (Z.land x y) (Z.land (not32 x) z).
Definition Maj (x y z : Z) : Z :=
  Z.lxor (Z.lxor (Z.land x y) (Z.land x z)) (Z.land y z).
Definition Sigma0 (x : Z) : Z :=
  Z.lxor (Z.lxor (rotr 2 x) (rotr 13 x)) (rotr 22 x).
Definition Sigma1 (x : Z) : Z :=
  Z.lxor (Z.lxor (rotr 6 x) (rotr 11 x)) (rotr 25 x).
Definition sigma0 (x : Z) : Z :=
  Z.lxor (Z.lxor (rotr 7 x) (rotr 18 x)) (Z.shiftr x 3).
Definition sigma1 (x : Z) : Z :=
  Z.lxor (Z.lxor (rotr 17 x) (rotr 19 x)) (Z.shiftr x 10).

(** [n] is prime. *)
Definition is_prime (n : Z) : bool :=
  forallb (fun d => negb (n mod Z.of_nat d =? 0))
          (List.seq 2 (Z.to_nat n - 2)).

(** The primes from 2 up to [bound]. *)
Definition primes_to (bound : nat) : list Z :=
  filter is_prime (map Z.of_nat (List.seq 2 (bound - 1))).

(** The largest [r + x], [x < 2^bits], whose cube is at most [n]. *)
Fixpoint cube_root (bits : nat) (n r : Z) : Z :=
  match bits with
  | O => r
  | S k =>
      let r' := r + 2 ^ Z.of_nat k in
      cube_root k n (if r' * r' * r' <=? n then r' else r)
  end.

(** The round constants: the first 32 bits of the fractional parts of the
    cube roots of the first 64 primes. *)
Definition K256 : list Z :=
  Eval vm_compute in
    map (fun p => w32 (cube_root 35 (p * 2 ^ 96) 0)) (primes_to 311).

(** The [n] low bytes of [x], most significant first. *)
Fixpoint be_bytes (n : nat) (x : Z) : list Z :=
  match n with
  | O => []
  | S k => be_bytes k (x / 256) ++ [x mod 256]
  end.

(** The message followed by the bit 1, zeros, and its length in bits on
    eight bytes: a multiple of 64 bytes. *)
Definition pad (msg : list Z) : list Z :=
  let len := Z.of_nat (List.length msg) in
  let zeros := Z.to_nat ((55 - len) mod 64) in
  msg ++ [128] ++ repeat 0 zeros ++ be_bytes 8 (8 * len).

Fixpoint words_of (fuel : nat) (bs : list Z) : list Z :=
  match fuel, bs with
  | S f, a :: b :: c :: d :: rest =>
      (((a * 256 + b) * 256 + c) * 256 + d) :: words_of f rest
  | _, _ => []
  end.

(** The message schedule, latest word first: [rw] holds [W t-1, W t-2, ...]. *)
Fixpoint extend (n : nat) (rw : list Z) : list Z :=
  match n with
  | O => rw
  | S k =>
      let w := add32 (add32 (sigma1 (nth 1 rw 0)) (nth 6 rw 0))
                     (add32 (sigma0 (nth 14 rw 0)) (nth 15 rw 0)) in
      extend k (w :: rw)
  end.

Definition schedule (block : list Z) : list Z :=
  rev (extend 48 (rev (words_of 16 block))).

Record state := St { sa : Z; sb : Z; sc : Z; sd : Z;
                     se : Z; sf : Z; sg : Z; sh : Z }.

Definition round (s : state) (kw : Z * Z) : state :=
  let t1 := add32 (add32 (add32 (sh s) (Sigma1 (se s)))
                         (add32 (Ch (se s) (sf s) (sg s)) (fst kw)))
                  (snd kw) in
  let t2 := add32 (Sigma0 (sa s)) (Maj (sa s) (sb s) (sc s)) in
  St (add32 t1 t2) (sa s) (sb s) (sc s) (add32 (sd s) t1) (se s) (sf s)
     (sg s).

Definition compress (h : state) (block : list Z) : state :=
  let s := fold_left round (combine K256 (schedule block)) h in
  St (add32 (sa h) (sa s)) (add32 (sb h) (sb s)) (add32 (sc h) (sc s))
     (add32 (sd h) (sd s)) (add32 (se h) (se s)) (add32 (sf h) (sf s))
     (add32 (sg h) (sg s)) (add32 (sh h) (sh s)).

Fixpoint blocks (fuel : nat) (h : state) (bs : list Z) : state :=
  match fuel with
  | O => h
  | S f =>
      match bs with
      | [] => h
      | _ => blocks f (compress h (firstn 64 bs)) (skipn 64 bs)
      end
  end.

(** The initial hash value: the first 32 bits of the fractional parts of
    the square roots of the first 8 primes. *)
Definition init : state :=
  Eval vm_compute in
    match map (fun p => w32 (Z.sqrt (p * 2 ^ 64))) (primes_to 19) with
    | [a; b; c; d; e; f; g; h] => St a b c d e f g h
    | _ => St 0 0 0 0 0 0 0 0
    end.

(** [hashlib.sha256(msg).digest()]. *)
Definition sha256 (msg : list Z) : list Z :=
  let p := pad msg in
  let s := blocks (List.length p) init p in
  flat_map (be_bytes 4)
           [sa s; sb s; sc s; sd s; se s; sf s; sg s; sh s].

Definition hex_digit (x : Z) : char :=
  Z.to_N (if x <? 10 then 48 + x else 87 + x).

(** [hashlib.sha256(msg).hexdigest()]. *)
Definition sha256_hexdigest (msg : list Z) : str :=
  flat_map (fun b => [hex_digit (b / 16); hex_digit (b mod 16)])
           (sha256 msg).

(** [s.encode("utf-8")], for text without surrogate code points. *)
Definition utf8_char (c : char) : list Z :=
  let x := Z.of_N c in
  if x <? 128 then [x]
  else if x <? 2048 then [192 + x / 64; 128 + x mod 64]
  else if x <? 65536
  then [224 + x / 4096; 128 + (x / 64) mod 64; 128 + x mod 64]
  else [240 + x / 262144; 128 + (x / 4096) mod 64; 128 + (x / 64) mod 64;
        128 + x mod 64].

Definition encode_utf8 (s : str) : list Z := flat_map utf8_char s.

End Hashlib.

(* ===================================================================== *)
(** * tools/normalization.py: the transaction fingerprint *)
(* ===================================================================== *)

(** The dataclass [TxnHashInput]. *)
Record TxnHashInput := {
  account_id : Z;
  booking_date : str;
  value_date : option str;
  amount_cents : Z;
  currency : str;
  debit_credit : str;
  counterparty_iban_or_name : str;
  normalized_description : str
}.

(** [x or ""] on an optional string: [None] and the empty string are
    falsy. *)
Definition or_empty (x : option str) : str :=
  match x with Some s => s | None => [] end.

(** The list [parts] of [compute_txn_hash]. *)
Definition hash_parts (inp : TxnHashInput) : list str :=
  [ str_of_Z (account_id inp);
    booking_date inp;
    or_empty (value_date inp);
    str_of_Z (amount_cents inp);
    upper (currency inp);
    upper (debit_credit inp);
    upper (normalize_text (counterparty_iban_or_name inp));
    upper (normalized_description inp) ].

(** [compute_txn_hash(inp)]. *)
Definition compute_txn_hash (inp : TxnHashInput) : str :=
  let blob := Hashlib.encode_utf8 (join (py "|") (hash_parts inp)) in
  Hashlib.sha256_hexdigest blob.

(* ===================================================================== *)
(** * The SQLite store *)
(* ===================================================================== *)

Module Sqlite.

Record document := {
  doc_id : Z;
  doc_path : str;
  doc_sha256 : str;
  doc_source_type : str;
  doc_bank_hint : option str
}.

Record account := {
  acc_id : Z;
  acc_institution : str;
  acc_iban : option str;
  acc_account_no : option str
}.

Record transaction := {
  txn_id : Z;
  txn_account_id : Z;
  txn_document_id : Z;
  txn_hash : str;
  txn_booking_date : str;
  txn_value_date : option str;
  txn_amount_cents : Z;
  txn_currency : str;
  txn_debit_credit : str;
  txn_counterparty_name : option str;
  txn_counterparty_iban : option str;
  txn_description : str;
  txn_category_id : option Z
}.

Record parse_event := {
  ev_document_id : Z;
  ev_stage : str;
  ev_ok : Z;
  ev_message : str
}.

Record category := { cat_id : Z; cat_code : str }.

(** The connection: the tables as this connection sees them, each in
    rowid order, and the counter read by [SELECT changes()]. *)
Record db := {
  documents : list document;
  accounts : list account;
  transactions : list transaction;
  parse_events : list parse_event;
  categories : list category;
  changes : Z
}.

Definition empty_db : db :=
  {| documents := []; accounts := []; transactions := [];
     parse_events := []; categories := []; changes := 0 |}.

(** The rowid given to a new row: one more than the largest in use. *)
Definition next_rowid (ids : list Z) : Z := 1 + fold_right Z.max 0 ids.

(** The SQL operator [IS] on nullable text. *)
Definition is_same (a b : option str) : bool :=
  match a, b with
  | None, None => true
  | Some x, Some y => str_eqb x y
  | _, _ => false
  end.

(** [SELECT id FROM documents WHERE sha256=?], [fetchone()]. *)
Definition select_document (conn : db) (sha : str) : option Z :=
  option_map doc_id
    (find (fun d => str_eqb (doc_sha256 d) sha) (documents conn)).

(** [INSERT INTO documents(path, sha256, source_type, bank_hint)]; returns
    [cur.lastrowid]. *)
Definition insert_document (conn : db) (path sha kind : str)
                           (hint : option str) : db * Z :=
  let id := next_rowid (map doc_id (documents conn)) in
  ({| documents := documents conn
                   ++ [{| doc_id := id; doc_path := path; doc_sha256 := sha;
                          doc_source_type := kind; doc_bank_hint := hint |}];
      accounts := accounts conn;
      transactions := transactions conn;
      parse_events := parse_events conn;
      categories := categories conn;
      changes := 1 |}, id).

(** [INSERT INTO parse_events(document_id, stage, ok, message)]. *)
Definition insert_parse_event (conn : db) (doc : Z) (stage : string)
                              (ok : Z) (message : str) : db :=
  {| documents := documents conn;
     accounts := accounts conn;
     transactions := transactions conn;
     parse_events := parse_events conn
                     ++ [{| ev_document_id := doc; ev_stage := py stage;
                            ev_ok := ok; ev_message := message |}];
     categories := categories conn;
     changes := 1 |}.

Definition account_matches (inst : str) (iban account_no : option str)
                           (a : account) : bool :=
  (str_eqb (acc_institution a) inst && is_same (acc_iban a) iban
   && is_same (acc_account_no a) account_no)%bool.

(** [SELECT id FROM accounts WHERE institution=? AND iban IS ? AND
    account_no IS ?], [fetchone()]. *)
Definition select_account (conn : db) (inst : str)
                          (iban account_no : option str) : option Z :=
  option_map acc_id
    (find (account_matches inst iban account_no) (accounts conn)).

(** [INSERT INTO accounts(institution, iban, account_no)]; returns
    [cur.lastrowid]. *)
Definition insert_account (conn : db) (inst : str)
                          (iban account_no : option str) : db * Z :=
  let id := next_rowid (map acc_id (accounts conn)) in
  ({| documents := documents conn;
      accounts := accounts conn
                  ++ [{| acc_id := id; acc_institution := inst;
                         acc_iban := iban; acc_account_no := account_no |}];
      transactions := transactions conn;
      parse_events := parse_events conn;
      categories := categories conn;
      changes := 1 |}, id).

Definition set_changes (conn : db) (n : Z) : db :=
  {| documents := documents conn;
     accounts := accounts conn;
     transactions := transactions conn;
     parse_events := parse_events conn;
     categories := categories conn;
     changes := n |}.

(** Modelled from the spec: [db/schema.sql] is not among the sources.  The
    spec gives the account identity as the triple (institution, IBAN,
    account number) with null-aware equality, so [INSERT OR IGNORE INTO
    accounts] is absorbed when that triple is present. *)
Definition insert_or_ignore_account (conn : db) (inst : str)
                                    (iban account_no : option str) : db :=
  match select_account conn inst iban account_no with
  | Some _ => set_changes conn 0
  | None => fst (insert_account conn inst iban account_no)
  end.

(** Modelled from the spec: [db/schema.sql] is not among the sources.  The
    spec declares the fingerprint column of [transactions] unique, so
    [INSERT OR IGNORE INTO transactions] is absorbed, leaving every row as
    it is, when a row with the same [txn_hash] exists.  The row passed in
    carries every column but the rowid. *)
Definition insert_or_ignore_transaction (conn : db) (t : transaction) : db :=
  if existsb (fun u => str_eqb (txn_hash u) (txn_hash t)) (transactions conn)
  then set_changes conn 0
  else
    let id := next_rowid (map txn_id (transactions conn)) in
    {| documents := documents conn;
       accounts := accounts conn;
       transactions :=
         transactions conn
         ++ [{| txn_id := id;
                txn_account_id := txn_account_id t;
                txn_document_id := txn_document_id t;
                txn_hash := txn_hash t;
                txn_booking_date := txn_booking_date t;
                txn_value_date := txn_value_date t;
                txn_amount_cents := txn_amount_cents t;
                txn_currency := txn_currency t;
                txn_debit_credit := txn_debit_credit t;
                txn_counterparty_name := txn_counterparty_name t;
                txn_counterparty_iban := txn_counterparty_iban t;
                txn_description := txn_description t;
                txn_category_id := None |}];
       parse_events := parse_events conn;
       categories := categories conn;
       changes := 1 |}.

End Sqlite.
Import Sqlite.

(* ===================================================================== *)
(** * tools/csv_ingest.py *)
(* ===================================================================== *)

(** The dataclass [IngestStats]. *)
Record IngestStats := { docs_new : Z; tx_seen : Z; tx_new : Z }.

Definition stats0 : IngestStats := {| docs_new := 0; tx_seen := 0; tx_new := 0 |}.

Definition seen (s : IngestStats) : IngestStats :=
  {| docs_new := docs_new s; tx_seen := tx_seen s + 1; tx_new := tx_new s |}.

Definition count_new (s : IngestStats) : IngestStats :=
  {| docs_new := docs_new s; tx_seen := tx_seen s; tx_new := tx_new s + 1 |}.

(** [_ensure_account(conn, iban, account_no)]. *)
Definition _ensure_account (conn : db) (iban account_no : option str)
  : db * Z :=
  match select_account conn (py "ING") iban account_no with
  | Some id => (conn, id)
  | None => insert_account conn (py "ING") iban account_no
  end.

(** The direction stored with a transaction:
    ["DEBIT" if debit_credit.lower() == "af" else "CREDIT"]. *)
Definition direction_of (debit_credit : str) : str :=
  if str_eqb (lower debit_credit) (py "af") then py "DEBIT" else py "CREDIT".

(** The local variables of one iteration, at the point where the account
    is looked up. *)
Record row_fields := {
  rf_booking_iso : str;
  rf_description : str;
  rf_value_date : option str;
  rf_debit_credit : str;
  rf_amount_cents : Z;
  rf_counterparty_iban : option str;
  rf_counterparty_name : option str;
  rf_account_iban : option str
}.

(** The end of the [try] block, shared by the CSV and the spreadsheet
    path: account, fingerprint, [INSERT OR IGNORE], [SELECT changes()]. *)
Definition store_row (doc_id : Z) (f : row_fields)
                     (cs : db * IngestStats) : db * IngestStats :=
  let (conn, stats) := cs in
  let (conn, account_id) := _ensure_account conn (rf_account_iban f) None in
  let norm_desc := normalize_description (rf_description f) in
  let cp_ref :=
    match rf_counterparty_iban f with
    | Some i => i
    | None => or_empty (rf_counterparty_name f)
    end in
  let txn_hash :=
    compute_txn_hash
      {| account_id := account_id;
         booking_date := rf_booking_iso f;
         value_date := rf_value_date f;
         amount_cents := rf_amount_cents f;
         currency := py "EUR";
         debit_credit := direction_of (rf_debit_credit f);
         counterparty_iban_or_name := cp_ref;
         normalized_description := norm_desc |} in
  let conn :=
    insert_or_ignore_transaction conn
      {| txn_id := 0;
         txn_account_id := account_id;
         txn_document_id := doc_id;
         txn_hash := txn_hash;
         txn_booking_date := rf_booking_iso f;
         txn_value_date := rf_value_date f;
         txn_amount_cents := rf_amount_cents f;
         txn_currency := py "EUR";
         txn_debit_credit := direction_of (rf_debit_credit f);
         txn_counterparty_name := rf_counterparty_name f;
         txn_counterparty_iban := rf_counterparty_iban f;
         txn_description := rf_description f;
         txn_category_id := None |} in
  if 0 <? changes conn then (conn, count_new stats) else (conn, stats).

(** The text of a parse event for a failed row:
    [f"{prefix}: {type(e).__name__}: {e}"]. *)
Definition row_error (prefix : string) (e : exn) : str :=
  py prefix ++ py ": " ++ exn_name e ++ py ": " ++ exn_text e.

(** One iteration of the row loop: the counter, the [try] block, and the
    handler that records a failed row. *)
Definition row_step (prefix : string) (doc_id : Z)
                    (cs : db * IngestStats) (body : res row_fields)
  : db * IngestStats :=
  let cs := (fst cs, seen (snd cs)) in
  match body with
  | Ok f => store_row doc_id f cs
  | Raise e =>
      (insert_parse_event (fst cs) doc_id "parse" 0 (row_error prefix e),
       snd cs)
  end.

(** A row as [csv.DictReader] yields it: the values by column name;
    [None] is the value of a column the record is too short for. *)
Definition dict_row := list (str * option str).

(** A file as [ingest_csv_ing] reads it: its path, the digest of its
    bytes ([_sha256_file]), and what [csv.reader] yields for its text, the
    header record apart. *)
Record csv_file := {
  csv_path : str;
  csv_sha256 : str;
  csv_fieldnames : list str;
  csv_records : list (list str)
}.

(** [dict(zip(fieldnames, row))], then the columns the record does not
    reach. *)
Fixpoint zip_row (fieldnames : list str) (row : list str) : dict_row :=
  match fieldnames, row with
  | k :: ks, v :: vs => (k, Some v) :: zip_row ks vs
  | k :: ks, [] => (k, None) :: zip_row ks []
  | [], _ => []
  end.

(** The rows of [csv.DictReader]: empty records are skipped. *)
Definition dict_rows (f : csv_file) : list dict_row :=
  map (zip_row (csv_fieldnames f))
      (filter (fun r => match r with [] => false | _ => true end)
              (csv_records f)).

(** [row.get(key, default)]: the last binding of a repeated column name
    wins; [None] is a present column holding [None]. *)
Definition get (row : dict_row) (key : string) (default : string)
  : option str :=
  match find (fun kv => str_eqb (fst kv) (py key)) (rev row) with
  | Some (_, v) => v
  | None => Some (py default)
  end.

Definition none_has_no_strip : exn :=
  Exn (py "AttributeError") (py "'NoneType' object has no attribute 'strip'").

(** [v.strip()] on a value that may be [None]. *)
Definition strip_of (v : option str) : res str :=
  match v with
  | Some s => Ok (strip s)
  | None => Raise none_has_no_strip
  end.

(** The booking date of the CSV and spreadsheet paths: eight digits
    become [YYYY-MM-DD], anything else is kept. *)
Definition booking_iso_of (booking_date : str) : str :=
  if ((List.length booking_date =? 8)%nat && isdigit booking_date)%bool
  then slice 0 4 booking_date ++ py "-" ++ slice 4 6 booking_date
       ++ py "-" ++ slice 6 8 booking_date
  else booking_date.

(** The [try] block of [ingest_csv_ing] up to the account lookup. *)
Definition csv_row_fields (row : dict_row) : res row_fields :=
  booking_date <- strip_of (get row "Datum" "") ;;
  let booking_iso := booking_iso_of booking_date in
  notes <- strip_of (get row "Mededelingen" "") ;;
  description <- match notes with
                 | [] => strip_of (get row "Naam / Omschrijving" "")
                 | _ => Ok notes
                 end ;;
  value_date <- try_extract_value_date description ;;
  debit_credit <- strip_of (get row "Af Bij" "") ;;
  amount_str <- match get row "Bedrag (EUR)" "0" with
                | Some s => Ok s
                | None => Raise none_has_no_strip
                end ;;
  amount_cents <- parse_eu_amount_to_cents amount_str debit_credit ;;
  let counterparty_iban :=
    or_none (strip (or_empty (get row "Tegenrekening" ""))) in
  name <- strip_of (get row "Naam / Omschrijving" "") ;;
  let counterparty_name := or_none name in
  account_str <- strip_of (get row "Rekening" "") ;;
  Ok {| rf_booking_iso := booking_iso;
        rf_description := description;
        rf_value_date := value_date;
        rf_debit_credit := debit_credit;
        rf_amount_cents := amount_cents;
        rf_counterparty_iban := counterparty_iban;
        rf_counterparty_name := counterparty_name;
        rf_account_iban := Some account_str |}.

(** The summary event at the end of a run. *)
Definition summary (prefix : string) (stats : IngestStats) : str :=
  py prefix ++ py ": seen=" ++ str_of_Z (tx_seen stats) ++ py ", new="
     ++ str_of_Z (tx_new stats).

(** The document a file resolves to, as the first lines of
    [ingest_csv_ing] find or create it, with its "ingest" event. *)
Definition register_csv (conn : db) (f : csv_file)
  : db * Z * IngestStats :=
  match select_document conn (csv_sha256 f) with
  | Some doc_id =>
      (insert_parse_event conn doc_id "ingest" 1
         (py "Already imported; reprocessing parse only"),
       doc_id, stats0)
  | None =>
      let (conn, doc_id) :=
        insert_document conn (csv_path f) (csv_sha256 f) (py "csv")
                        (Some (py "ING")) in
      (insert_parse_event conn doc_id "ingest" 1
         (py "New document imported"),
       doc_id,
       {| docs_new := 1; tx_seen := 0; tx_new := 0 |})
  end.

(** [ingest_csv_ing(conn, csv_path)]. *)
Definition ingest_csv_ing (conn : db) (f : csv_file) : db * IngestStats :=
  let '(conn, doc_id, stats) := register_csv conn f in
  let (conn, stats) :=
    fold_left (fun cs row => row_step "row error" doc_id cs
                                      (csv_row_fields row))
              (dict_rows f) (conn, stats) in
  (insert_parse_event conn doc_id "parse" 1 (summary "parsed rows" stats),
   stats).

(* ===================================================================== *)
(** * tools/excel_ingest.py *)
(* ===================================================================== *)

(** Which optional libraries can be imported at run time. *)
Record environment := {
  has_xlrd : bool;
  has_openpyxl : bool;
  has_pdfplumber : bool
}.

Definition module_not_found (name : string) : exn :=
  Exn (py "ModuleNotFoundError") (py "No module named '" ++ py name ++ py "'").

(** A cell value as the workbook libraries return it: [None], a [str], a
    number (an [int], [float] or [bool]) given by its [str()] text and by
    the date [xlrd.xldate_as_tuple(v, 0)] yields for it ([None] when that
    call raises), or any other object, given by its [str()] text. *)
Inductive cell :=
| CNone
| CStr (s : str)
| CNum (text : str) (xldate : option (Z * Z * Z))
| CObj (text : str).

(** A workbook file: its path with [path.suffix], the digest of its
    bytes, and what the library that reads it returns: the stripped header
    texts and the data rows, or the exception it raises. *)
Record xls_file := {
  xls_path : str;
  xls_suffix : str;
  xls_sha256 : str;
  xls_book : res (list str * list (list cell))
}.

(** [str.casefold] on one character. *)
Definition casefold_char (c : char) : str :=
  if N.eqb c 223 then [115%N; 115%N]
  else if N.eqb c 181 then [956%N]
  else [lower_char c].

Definition casefold (s : str) : str := flat_map casefold_char s.

(** [_rows_from_xlsx] or [_rows_from_xls], chosen by the suffix; each
    imports its library first. *)
Definition load_rows (env : environment) (f : xls_file)
  : res (list str * list (list cell)) :=
  if str_eqb (lower (xls_suffix f)) (py ".xlsx")
  then (if has_openpyxl env then xls_book f
        else Raise (module_not_found "openpyxl"))
  else (if has_xlrd env then xls_book f
        else Raise (module_not_found "xlrd")).

(** [lst.index(v)] when [v in lst]. *)
Fixpoint index_of (v : str) (l : list str) : option nat :=
  match l with
  | [] => None
  | x :: l' =>
      if str_eqb x v then Some O else option_map S (index_of v l')
  end.

(** The local function [idx(name_variants)]. *)
Fixpoint idx (norm_headers : list str) (name_variants : list string)
  : option nat :=
  match name_variants with
  | [] => None
  | v :: vs =>
      match index_of (py v) norm_headers with
      | Some i => Some i
      | None => idx norm_headers vs
      end
  end.

Definition str_of_cell (v : cell) : str :=
  match v with
  | CNone => py "None"
  | CStr s => s
  | CNum t _ => t
  | CObj t => t
  end.

(** The local function [cell(i)]. *)
Definition cell_text (r : list cell) (i : option nat) : str :=
  match i with
  | None => []
  | Some n =>
      match nth_error r n with
      | None => []
      | Some CNone => []
      | Some v => strip (str_of_cell v)
      end
  end.

(** The booking date of a spreadsheet row: eight digits, else a serial
    date when the date cell is a number and [xlrd] converts it, else the
    text of the cell. *)
Definition xls_booking_iso (env : environment) (r : list cell)
                           (idx_datum : option nat) : str :=
  let raw_date := cell_text r idx_datum in
  if (isdigit raw_date && (List.length raw_date =? 8)%nat)%bool
  then slice 0 4 raw_date ++ py "-" ++ slice 4 6 raw_date ++ py "-"
       ++ slice 6 8 raw_date
  else if has_xlrd env then
    match nth_error r (match idx_datum with Some n => n | None => O end) with
    | Some (CNum _ (Some (y, m, d))) =>
        zero_pad 4 y ++ py "-" ++ zero_pad 2 m ++ py "-" ++ zero_pad 2 d
    | _ => raw_date
    end
  else raw_date.

(** The column positions resolved from the header row. *)
Record columns := {
  idx_datum : option nat;
  idx_name : option nat;
  idx_rek : option nat;
  idx_tegen : option nat;
  idx_afbij : option nat;
  idx_bedrag : option nat;
  idx_mut : option nat;
  idx_meded : option nat
}.

Definition resolve_columns (headers : list str) : columns :=
  let norm_headers := map (fun h => casefold (strip h)) headers in
  {| idx_datum := idx norm_headers ["datum"; "date"]%string;
     idx_name := idx norm_headers ["naam / omschrijving"; "naam/omschrijving";
                                   "omschrijving"; "description"]%string;
     idx_rek := idx norm_headers ["rekening"; "iban"; "account"]%string;
     idx_tegen := idx norm_headers ["tegenrekening"; "counterparty";
                                    "iban tegenrekening"]%string;
     idx_afbij := idx norm_headers ["af bij"; "af/bij"; "sign"]%string;
     idx_bedrag := idx norm_headers ["bedrag (eur)"; "bedrag"; "amount";
                                     "amount (eur)"]%string;
     idx_mut := idx norm_headers ["mutatiesoort"; "type"]%string;
     idx_meded := idx norm_headers ["mededelingen"; "details"; "memo"]%string
  |}.

(** The [try] block of [ingest_xls] up to the account lookup. *)
Definition xls_row_fields (env : environment) (cols : columns)
                          (r : list cell) : res row_fields :=
  let booking_iso := xls_booking_iso env r (idx_datum cols) in
  let description :=
    or_str (cell_text r (idx_meded cols)) (cell_text r (idx_name cols)) in
  value_date <- try_extract_value_date description ;;
  let debit_credit := or_str (cell_text r (idx_afbij cols)) (py "Af") in
  amount_cents <-
    parse_eu_amount_to_cents (or_str (cell_text r (idx_bedrag cols)) (py "0"))
                             debit_credit ;;
  let counterparty_iban := or_none (cell_text r (idx_tegen cols)) in
  let counterparty_name := or_none (cell_text r (idx_name cols)) in
  let account_str := or_str (cell_text r (idx_rek cols)) [] in
  Ok {| rf_booking_iso := booking_iso;
        rf_description := description;
        rf_value_date := value_date;
        rf_debit_credit := debit_credit;
        rf_amount_cents := amount_cents;
        rf_counterparty_iban := counterparty_iban;
        rf_counterparty_name := counterparty_name;
        rf_account_iban := or_none account_str |}.

(** [s.lstrip(".")]. *)
Fixpoint lstrip_dots (s : str) : str :=
  match s with
  | 46%N :: s' => lstrip_dots s'
  | _ => s
  end.

(** The document a workbook resolves to, as the first lines of
    [ingest_xls] find or create it. *)
Definition register_xls (conn : db) (f : xls_file) : db * Z * IngestStats :=
  match select_document conn (xls_sha256 f) with
  | Some doc_id => (conn, doc_id, stats0)
  | None =>
      let (conn, doc_id) :=
        insert_document conn (xls_path f) (xls_sha256 f)
                        (lstrip_dots (lower (xls_suffix f)))
                        (Some (py "ING")) in
      (conn, doc_id, {| docs_new := 1; tx_seen := 0; tx_new := 0 |})
  end.

Definition is_module_not_found (e : exn) : bool :=
  str_eqb (exn_name e) (py "ModuleNotFoundError").

(** [ingest_xls(conn, xls_path)]: the connection after the call, and the
    statistics returned or the exception raised to the caller. *)
Definition ingest_xls (env : environment) (conn : db) (f : xls_file)
  : db * res IngestStats :=
  let '(conn, doc_id, stats) := register_xls conn f in
  match load_rows env f with
  | Raise e =>
      if is_module_not_found e
      then (insert_parse_event conn doc_id "parse" 0
              (py "Excel parser missing: " ++ exn_text e),
            Ok stats)
      else (conn, Raise e)
  | Ok (headers, rows) =>
      let cols := resolve_columns headers in
      let (conn, stats) :=
        fold_left (fun cs r => row_step "xls row error" doc_id cs
                                        (xls_row_fields env cols r))
                  rows (conn, stats) in
      (insert_parse_event conn doc_id "parse" 1 (summary "excel rows" stats),
       Ok stats)
  end.

(* ===================================================================== *)
(** * tools/pdf_ingest.py *)
(* ===================================================================== *)

(** [_DATE_RE = \b(\d{2}-\d{2}-\d{4})\b]. *)
Definition _DATE_RE : re := seq [WordB; Grp date_dmy_re; WordB].

(** [_IBAN_RE = \b([A-Z]{2}\d{2}[A-Z]{4}\d{10})\b]. *)
Definition _IBAN_RE : re :=
  seq [WordB;
       Grp (seq [times 2 upper_AZ; times 2 digit; times 4 upper_AZ;
                 times 10 digit]);
       WordB].

(** [_AMOUNT_RE = ([-+]?\d{1,3}(?:\.\d{3})*,\d{2})]. *)
Definition _AMOUNT_RE : re :=
  Grp (seq [opt (Chr (fun c => (N.eqb c 45 || N.eqb c 43)%bool));
            Rep digit 1 (Some 3%nat);
            star (seq [lit "."; times 3 digit]);
            lit ","; times 2 digit]).

(** The characters at which [str.splitlines] breaks a line. *)
Definition is_linebreak (c : char) : bool :=
  (in_range 10 13 c || in_range 28 30 c || N.eqb c 133 || N.eqb c 8232
   || N.eqb c 8233)%bool.

(** [s.splitlines()]; [cur] is the current line, reversed. *)
Fixpoint splitlines_from (cur : str) (s : str) : list str :=
  match s with
  | [] => match cur with [] => [] | _ => [rev cur] end
  | c :: s' =>
      if N.eqb c 13 then
        match s' with
        | 10%N :: s'' => rev cur :: splitlines_from [] s''
        | _ => rev cur :: splitlines_from [] s'
        end
      else if is_linebreak c then rev cur :: splitlines_from [] s'
      else splitlines_from (c :: cur) s'
  end.

Definition splitlines (s : str) : list str := splitlines_from [] s.

(** [_extract_lines(text)]. *)
Definition _extract_lines (text : str) : list str :=
  map strip
      (filter (fun ln => match strip ln with [] => false | _ => true end)
              (splitlines text)).

(** [_guess_account_iban(text)]. *)
Definition _guess_account_iban (text : str) : option str :=
  match search _IBAN_RE text with
  | Some (Some g1, _) => Some g1
  | _ => None
  end.

(** [_iter_tx_candidates(lines)]: the triples (date, description, amount
    text) it yields. *)
Fixpoint _iter_tx_candidates (lines : list str) : list (str * str * str) :=
  match lines with
  | [] => []
  | ln :: rest =>
      match search _DATE_RE ln, search _AMOUNT_RE ln with
      | Some (Some date, _), Some (Some amt, _) =>
          let desc := sub _AMOUNT_RE [] (sub _DATE_RE [] ln) in
          let desc := or_str (strip desc) (hd [] rest) in
          (date, desc, amt) :: _iter_tx_candidates rest
      | _, _ => _iter_tx_candidates rest
      end
  end.

(** A page as [pdfplumber] presents it: the tables [extract_tables()]
    reports (none when it reports none or raises), and what
    [extract_text()] returns or raises. *)
Record page := {
  page_tables : list (list (list (option str)));
  page_text : res (option str)
}.

(** A PDF file: its path, the digest of its bytes, and its pages, or the
    exception raised on opening it. *)
Record pdf_file := {
  pdf_path : str;
  pdf_sha256 : str;
  pdf_pages : res (list page)
}.

(** The list [texts] built from the pages. *)
Fixpoint page_texts (pages : list page) : res (list str) :=
  match pages with
  | [] => Ok []
  | p :: ps =>
      here <- match page_tables p with
              | [] => t <- page_text p ;; Ok [or_empty t]
              | tables =>
                  Ok (flat_map
                        (fun tbl => map (fun row => join (py " ")
                                                         (map or_empty row))
                                        tbl)
                        tables)
              end ;;
      rest <- page_texts ps ;;
      Ok (here ++ rest)
  end.

(** The document a PDF resolves to, as the first lines of
    [ingest_pdf_generic] find or create it. *)
Definition register_pdf (conn : db) (f : pdf_file) : db * Z * IngestStats :=
  match select_document conn (pdf_sha256 f) with
  | Some doc_id => (conn, doc_id, stats0)
  | None =>
      let (conn, doc_id) :=
        insert_document conn (pdf_path f) (pdf_sha256 f) (py "pdf") None in
      (conn, doc_id, {| docs_new := 1; tx_seen := 0; tx_new := 0 |})
  end.

(** The account of a PDF: the first IBAN found in its text, else the
    bucket of unknown accounts. *)
Definition pdf_account (conn : db) (full_text : str) : db * res Z :=
  let '(iban, account_no) :=
    match _guess_account_iban full_text with
    | Some i => (Some i, None)
    | None => (None, Some (py "UNKNOWN_PDF"))
    end in
  let conn := insert_or_ignore_account conn (py "ING") iban account_no in
  match select_account conn (py "ING") iban account_no with
  | Some id => (conn, Ok id)
  | None =>
      (conn, Raise (Exn (py "TypeError")
                        (py "'NoneType' object is not subscriptable")))
  end.

(** What one candidate line turns into, before the fingerprint. *)
Record pdf_fields := {
  pf_booking_iso : str;
  pf_debit_credit_hint : str;
  pf_amount_cents : Z;
  pf_description : str
}.

(** The [try] block of the candidate loop, up to the fingerprint. *)
Definition pdf_row_fields (cand : str * str * str) : res pdf_fields :=
  let '(date_str, desc_raw, amt_str) := cand in
  booking_iso <- Datetime.strptime_dmy_iso date_str ;;
  let debit_credit_hint :=
    if contains 45%N (strip amt_str) then py "Af" else py "Bij" in
  amount_cents <-
    parse_eu_amount_to_cents (replace 45%N [] amt_str) debit_credit_hint ;;
  Ok {| pf_booking_iso := booking_iso;
        pf_debit_credit_hint := debit_credit_hint;
        pf_amount_cents := amount_cents;
        pf_description := desc_raw |}.

(** The end of the [try] block: fingerprint, [INSERT OR IGNORE],
    [SELECT changes()]. *)
Definition pdf_store_row (doc_id account_id : Z) (f : pdf_fields)
                         (cs : db * IngestStats) : db * IngestStats :=
  let (conn, stats) := cs in
  let norm_desc := normalize_description (pf_description f) in
  let txn_hash :=
    compute_txn_hash
      {| account_id := account_id;
         booking_date := pf_booking_iso f;
         value_date := None;
         amount_cents := pf_amount_cents f;
         currency := py "EUR";
         debit_credit := direction_of (pf_debit_credit_hint f);
         counterparty_iban_or_name := [];
         normalized_description := norm_desc |} in
  let conn :=
    insert_or_ignore_transaction conn
      {| txn_id := 0;
         txn_account_id := account_id;
         txn_document_id := doc_id;
         txn_hash := txn_hash;
         txn_booking_date := pf_booking_iso f;
         txn_value_date := None;
         txn_amount_cents := pf_amount_cents f;
         txn_currency := py "EUR";
         txn_debit_credit := direction_of (pf_debit_credit_hint f);
         txn_counterparty_name := None;
         txn_counterparty_iban := None;
         txn_description := pf_description f;
         txn_category_id := None |} in
  if 0 <? changes conn then (conn, count_new stats) else (conn, stats).

(** One iteration of the candidate loop. *)
Definition pdf_row_step (doc_id account_id : Z) (cs : db * IngestStats)
                        (cand : str * str * str) : db * IngestStats :=
  let cs := (fst cs, seen (snd cs)) in
  match pdf_row_fields cand with
  | Ok f => pdf_store_row doc_id account_id f cs
  | Raise e =>
      (insert_parse_event (fst cs) doc_id "parse" 0
                          (row_error "pdf row error" e),
       snd cs)
  end.

(** The body of the outer [try] of [ingest_pdf_generic], once
    [pdfplumber] is imported: the connection it leaves, the statistics,
    and the exception it raises, if any. *)
Definition pdf_parse (conn : db) (doc_id : Z) (stats : IngestStats)
                     (f : pdf_file) : db * IngestStats * option exn :=
  match (pages <- pdf_pages f ;; page_texts pages) with
  | Raise e => (conn, stats, Some e)
  | Ok texts =>
      let full_text := join [10%N] texts in
      let lines := _extract_lines full_text in
      match pdf_account conn full_text with
      | (conn, Raise e) => (conn, stats, Some e)
      | (conn, Ok account_id) =>
          let (conn, stats) :=
            fold_left (pdf_row_step doc_id account_id)
                      (_iter_tx_candidates lines) (conn, stats) in
          (insert_parse_event conn doc_id "parse" 1
                              (summary "pdf parsed" stats),
           stats, None)
      end
  end.

(** [ingest_pdf_generic(conn, pdf_path)]. *)
Definition ingest_pdf_generic (env : environment) (conn : db) (f : pdf_file)
  : db * IngestStats :=
  let '(conn, doc_id, stats) := register_pdf conn f in
  if has_pdfplumber env then
    match pdf_parse conn doc_id stats f with
    | (conn, stats, None) => (conn, stats)
    | (conn, stats, Some e) =>
        if is_module_not_found e
        then (insert_parse_event conn doc_id "parse" 0
                (py "pdfplumber not installed; cannot parse PDF."),
              stats)
        else (insert_parse_event conn doc_id "parse" 0
                (row_error "pdf error" e),
              stats)
    end
  else
    (insert_parse_event conn doc_id "parse" 0
       (py "pdfplumber not installed; cannot parse PDF."),
     stats).

(* ===================================================================== *)
(** * agents/spending_tools.py *)
(* ===================================================================== *)

(** The order of text values in SQLite (the [BINARY] collation):
    lexicographic on code points. *)
Fixpoint str_leb (a b : str) : bool :=
  match a, b with
  | [], _ => true
  | _ :: _, [] => false
  | x :: a', y :: b' =>
      if N.ltb x y then true
      else if N.ltb y x then false
      else str_leb a' b'
  end.

(** [x BETWEEN lo AND hi]. *)
Definition between (lo hi x : str) : bool := (str_leb lo x && str_leb x hi)%bool.

(** [COALESCE(c.code, 'UNCATEGORIZED')] over the left join with
    [categories] on the category id. *)
Definition category_code (conn : db) (t : transaction) : str :=
  match txn_category_id t with
  | None => py "UNCATEGORIZED"
  | Some id =>
      match find (fun c => cat_id c =? id) (categories conn) with
      | Some c => cat_code c
      | None => py "UNCATEGORIZED"
      end
  end.

(** [SUM(CASE WHEN t.debit_credit=<dir> THEN t.amount_cents ELSE 0 END)]. *)
Definition sum_where (dir : string) (ts : list transaction) : Z :=
  fold_right
    (fun t acc =>
       (if str_eqb (txn_debit_credit t) (py dir)
        then txn_amount_cents t else 0) + acc)
    0 ts.

(** The distinct values of a list, in the order of first occurrence. *)
Fixpoint distinct (l : list str) : list str :=
  match l with
  | [] => []
  | x :: l' => x :: filter (fun y => negb (str_eqb x y)) (distinct l')
  end.

(** A row of the report: category, debit total, credit total. *)
Definition report_row := (str * Z * Z)%type.

Definition row_debit (r : report_row) : Z := snd (fst r).

(** [ORDER BY debit DESC], as a stable insertion sort; the order SQLite
    gives to rows of equal debit total is not specified. *)
Fixpoint insert_desc (r : report_row) (l : list report_row)
  : list report_row :=
  match l with
  | [] => [r]
  | x :: l' =>
      if row_debit x <? row_debit r then r :: l else x :: insert_desc r l'
  end.

Definition order_by_debit_desc (l : list report_row) : list report_row :=
  fold_right insert_desc [] l.

(** The transactions the [WHERE] clause keeps. *)
Definition in_range_rows (conn : db) (start_date end_date : str)
  : list transaction :=
  filter (fun t => between start_date end_date (txn_booking_date t))
         (transactions conn).

(** The rows of one category. *)
Definition group (conn : db) (cat : str) (ts : list transaction)
  : list transaction :=
  filter (fun t => str_eqb (category_code conn t) cat) ts.

(** The rows fetched by the query of [spend_by_category(start_date,
    end_date)]; the function then prints one line per row. *)
Definition spend_by_category (conn : db) (start_date end_date : str)
  : list report_row :=
  let ts := in_range_rows conn start_date end_date in
  order_by_debit_desc
    (map (fun cat => (cat, sum_where "DEBIT" (group conn cat ts),
                      sum_where "CREDIT" (group conn cat ts)))
         (distinct (map (category_code conn) ts))).

(* ===================================================================== *)
(** * tools/categorizer.py *)
(* ===================================================================== *)

(** [DEFAULT_CATEGORY_MAP]: keyword and category code, in the order of
    the dict. *)
Definition DEFAULT_CATEGORY_MAP : list (string * string) :=
  [("albert heijn", "GROCERIES"); ("jumbo", "GROCERIES");
   ("lidle", "GROCERIES"); ("action", "HOUSEHOLD");
   ("brabantwonen", "RENT"); ("huur", "RENT"); ("vgz", "HEALTH");
   ("nn schadeverzekering", "INSURANCE"); ("verzekering", "INSURANCE");
   ("ing creditcard", "CREDIT_CARD"); ("betaalpakket", "BANK_FEES");
   ("rente", "INTEREST"); ("amazon", "SHOPPING");
   ("washin7", "TRANSPORT")]%string.

(** The dataclass [CategorizeStats]. *)
Record CategorizeStats := {
  merchants_new : Z;
  categories_new : Z;
  tx_updated : Z
}.

(** [SELECT id FROM categories WHERE code=?], [fetchone()]. *)
Definition select_category (conn : db) (code : str) : option Z :=
  option_map cat_id
    (find (fun c => str_eqb (cat_code c) code) (categories conn)).

(** [INSERT INTO categories(code, label)]; returns [cur.lastrowid].  The
    table is kept by its columns [id] and [code]: the label written,
    [label or code.title()], is read nowhere in the program. *)
Definition insert_category (conn : db) (code : str) : db * Z :=
  let id := next_rowid (map cat_id (categories conn)) in
  ({| documents := documents conn;
      accounts := accounts conn;
      transactions := transactions conn;
      parse_events := parse_events conn;
      categories := categories conn ++ [{| cat_id := id; cat_code := code |}];
      changes := 1 |}, id).

(** [_ensure_category(conn, code)]. *)
Definition _ensure_category (conn : db) (code : str) : db * Z :=
  match select_category conn code with
  | Some id => (conn, id)
  | None => insert_category conn code
  end.

(** The first loop of [categorize_transactions]: the dict
    [category_ids], as the list of its items, and the connection after
    the categories are ensured. *)
Definition category_ids (conn : db) : db * list (str * Z) :=
  fold_left
    (fun acc entry =>
       let code := py (snd entry) in
       if existsb (fun kv => str_eqb (fst kv) code) (snd acc) then acc
       else
         let (conn', id) := _ensure_category (fst acc) code in
         (conn', snd acc ++ [(code, id)]))
    DEFAULT_CATEGORY_MAP (conn, []).

(** [m in s] on strings: [m] starts at some position of [s]. *)
Fixpoint starts_with (m s : str) : bool :=
  match m, s with
  | [], _ => true
  | c :: m', d :: s' => (N.eqb c d && starts_with m' s')%bool
  | _ :: _, [] => false
  end.

Fixpoint in_str (m s : str) : bool :=
  (starts_with m s
   || match s with
      | [] => false
      | _ :: s' => in_str m s'
      end)%bool.

(** The text a keyword is looked up in:
    [normalize_text((desc or "") + " " + (cp or "")).lower()]. *)
Definition base_text (desc : str) (cp : option str) : str :=
  lower (normalize_text (desc ++ py " " ++ or_empty cp)).

(** The inner loop: the code of the first keyword that [base] holds. *)
Definition choose (base : str) : option str :=
  option_map (fun e => py (snd e))
    (find (fun e => in_str (py (fst e)) base) DEFAULT_CATEGORY_MAP).

(** [SELECT id, description, counterparty_name FROM transactions WHERE
    category_id IS NULL], [fetchall()]. *)
Definition uncategorized (conn : db) : list (Z * str * option str) :=
  map (fun t => (txn_id t, txn_description t, txn_counterparty_name t))
      (filter (fun t => match txn_category_id t with
                        | None => true
                        | Some _ => false
                        end)
              (transactions conn)).

Definition with_category (t : transaction) (cat : Z) : transaction :=
  {| txn_id := txn_id t;
     txn_account_id := txn_account_id t;
     txn_document_id := txn_document_id t;
     txn_hash := txn_hash t;
     txn_booking_date := txn_booking_date t;
     txn_value_date := txn_value_date t;
     txn_amount_cents := txn_amount_cents t;
     txn_currency := txn_currency t;
     txn_debit_credit := txn_debit_credit t;
     txn_counterparty_name := txn_counterparty_name t;
     txn_counterparty_iban := txn_counterparty_iban t;
     txn_description := txn_description t;
     txn_category_id := Some cat |}.

(** [UPDATE transactions SET category_id=? WHERE id=?]. *)
Definition update_category (conn : db) (cat tx : Z) : db :=
  {| documents := documents conn;
     accounts := accounts conn;
     transactions :=
       map (fun t => if txn_id t =? tx then with_category t cat else t)
           (transactions conn);
     parse_events := parse_events conn;
     categories := categories conn;
     changes :=
       Z.of_nat (List.length (filter (fun t => txn_id t =? tx)
                                     (transactions conn))) |}.

(** [category_ids[chosen]]. *)
Definition lookup_id (ids : list (str * Z)) (code : str) : res Z :=
  match find (fun kv => str_eqb (fst kv) code) ids with
  | Some (_, id) => Ok id
  | None => Raise (Exn (py "KeyError") (py "'" ++ code ++ py "'"))
  end.

(** One turn of the loop over the rows fetched. *)
Definition categorize_row (ids : list (str * Z))
                          (cs : db * CategorizeStats)
                          (row : Z * str * option str)
  : res (db * CategorizeStats) :=
  let '(tx_id, desc, cp) := row in
  match choose (base_text desc cp) with
  | None => Ok cs
  | Some chosen =>
      cat_id <- lookup_id ids chosen ;;
      Ok (update_category (fst cs) cat_id tx_id,
          {| merchants_new := merchants_new (snd cs);
             categories_new := categories_new (snd cs);
             tx_updated := tx_updated (snd cs) + 1 |})
  end.

(** [categorize_transactions(conn)]: the connection and the statistics on
    return, or the exception raised. *)
Definition categorize_transactions (conn : db)
  : res (db * CategorizeStats) :=
  let (conn, ids) := category_ids conn in
  fold_left (fun acc row => cs <- acc ;; categorize_row ids cs row)
            (uncategorized conn)
            (Ok (conn, {| merchants_new := 0; categories_new := 0;
                          tx_updated := 0 |})).

(* ===================================================================== *)
(** * cli.py *)
(* ===================================================================== *)

(** An entry of the documents directory, a regular file that can be
    read: [str(path)], [path.suffix], the digest of its bytes, and what
    each of the three readers makes of them.  As for [csv_file], the
    bytes decode as UTF-8 when the CSV reader is the one to read them. *)
Record dir_entry := {
  de_path : str;
  de_suffix : str;
  de_sha256 : str;
  de_fieldnames : list str;
  de_records : list (list str);
  de_book : res (list str * list (list cell));
  de_pages : res (list page)
}.

Definition as_csv (e : dir_entry) : csv_file :=
  {| csv_path := de_path e; csv_sha256 := de_sha256 e;
     csv_fieldnames := de_fieldnames e; csv_records := de_records e |}.

Definition as_xls (e : dir_entry) : xls_file :=
  {| xls_path := de_path e; xls_suffix := de_suffix e;
     xls_sha256 := de_sha256 e; xls_book := de_book e |}.

Definition as_pdf (e : dir_entry) : pdf_file :=
  {| pdf_path := de_path e; pdf_sha256 := de_sha256 e;
     pdf_pages := de_pages e |}.

(** [sorted(Path(documents_dir).glob("*"))]: the paths of one directory
    compare as their texts do; the sort is stable. *)
Fixpoint insert_entry (e : dir_entry) (l : list dir_entry)
  : list dir_entry :=
  match l with
  | [] => [e]
  | x :: l' =>
      if str_leb (de_path e) (de_path x) then e :: l
      else x :: insert_entry e l'
  end.

Definition sorted_entries (l : list dir_entry) : list dir_entry :=
  fold_right insert_entry [] l.

(** The body of the loop of [ingest_documents]: the connection after the
    call made for the suffix of the path, and the exception that call
    raises, if any. *)
Definition ingest_entry (env : environment) (conn : db) (e : dir_entry)
  : db * option exn :=
  let suffix := lower (de_suffix e) in
  if str_eqb suffix (py ".csv")
  then (fst (ingest_csv_ing conn (as_csv e)), None)
  else if (str_eqb suffix (py ".xls") || str_eqb suffix (py ".xlsx"))%bool
  then match ingest_xls env conn (as_xls e) with
       | (conn', Ok _) => (conn', None)
       | (conn', Raise ex) => (conn', Some ex)
       end
  else if str_eqb suffix (py ".pdf")
  then (fst (ingest_pdf_generic env conn (as_pdf e)), None)
  else (conn, None).

(** The loop over the sorted paths.  Each of the three functions ends in
    [conn.commit()] when it returns; an exception leaves the loop and the
    function by way of [conn.close()], which drops what was written since
    the last commit.  So the database after the call is the connection
    after the last file that returned. *)
Fixpoint ingest_loop (env : environment) (conn : db)
                     (entries : list dir_entry) : db * option exn :=
  match entries with
  | [] => (conn, None)
  | e :: rest =>
      match ingest_entry env conn e with
      | (conn', None) => ingest_loop env conn' rest
      | (_, Some ex) => (conn, Some ex)
      end
  end.

(** [ingest_documents(domain_db, documents_dir)], from the connection to
    the initialised database on: the database the call leaves, and the
    exception it raises, if any.  [listing] is the directory as
    [glob("*")] lists it. *)
Definition ingest_documents (env : environment) (conn : db)
                            (listing : list dir_entry) : db * option exn :=
  ingest_loop env conn (sorted_entries listing).

(* ===================================================================== *)
(** * Notions the properties are stated with *)
(* ===================================================================== *)

Unset Implicit Arguments.

(** The text does not begin with white space. *)
Definition clean_head (s : str) : Prop :=
  match s with [] => True | c :: _ => isspace c = false end.

(** ** Results *)

(** The value a call returns, if it returns. *)
Definition value_of {A} (r : res A) : option A :=
  match r with Ok a => Some a | Raise _ => None end.

(** ** Amounts *)

(** A dot, a non-breaking space or a space. *)
Definition is_separator (c : char) : bool :=
  (N.eqb c 46 || N.eqb c nbsp || N.eqb c 32)%bool.

(** The text with every dot, non-breaking space and space taken out. *)
Definition without_separators (s : str) : str :=
  filter (fun c => negb (is_separator c)) s.

(** The decimal comma as a point. *)
Definition comma_to_point (s : str) : str :=
  map (fun c => if N.eqb c 44 then 46%N else c) s.

(** The text handed to [float] by [parse_eu_amount_to_cents]. *)
Definition amount_text (amount_str : str) : str :=
  let s := replace nbsp (py " ") (replace 46%N [] (strip amount_str)) in
  let s := replace 32%N [] s in
  if contains 44%N s then replace 44%N (py ".") s else s.

(** ** The sign convention of stored rows *)

(** The signed amount agrees with the direction. *)
Definition sign_ok (t : transaction) : Prop :=
  (txn_debit_credit t = py "DEBIT" /\ txn_amount_cents t <= 0) \/
  (txn_debit_credit t = py "CREDIT" /\ 0 <= txn_amount_cents t).

(** [conn'] has the transactions of [conn], then new ones that satisfy
    [P]. *)
Definition added (P : transaction -> Prop) (conn conn' : db) : Prop :=
  exists new, transactions conn' = transactions conn ++ new /\ Forall P new.

(** The amount of a row agrees with the direction it will be stored
    with. *)
Definition fields_ok (f : row_fields) : Prop :=
  (direction_of (rf_debit_credit f) = py "DEBIT" /\ rf_amount_cents f <= 0) \/
  (direction_of (rf_debit_credit f) = py "CREDIT" /\ 0 <= rf_amount_cents f).

(** The same, for a candidate line of a PDF. *)
Definition pdf_fields_ok (f : pdf_fields) : Prop :=
  (direction_of (pf_debit_credit_hint f) = py "DEBIT" /\ pf_amount_cents f <= 0) \/
  (direction_of (pf_debit_credit_hint f) = py "CREDIT" /\ 0 <= pf_amount_cents f).

(** ** Re-ingestion *)

(** The store holds a transaction with fingerprint [h]. *)
Definition has_hash (conn : db) (h : str) : Prop :=
  existsb (fun u => str_eqb (txn_hash u) h) (transactions conn) = true.

(** [e] is a later state of [s]: its accounts continue those of [s], and
    it holds every fingerprint [s] holds. *)
Definition covers (s e : db) : Prop :=
  (exists more, accounts e = accounts s ++ more) /\
  (forall h, has_hash s h -> has_hash e h).

(** Two states agree on everything the ingestion reads back. *)
Definition same_rows (a b : db) : Prop :=
  documents b = documents a /\ accounts b = accounts a /\
  transactions b = transactions a.

(** The document a file resolves to. *)
Definition document_of (conn : db) (f : csv_file) : Z :=
  snd (fst (register_csv conn f)).

(** Two files with the same bytes: the same digest and the same records. *)
Definition same_content (f f' : csv_file) : Prop :=
  csv_sha256 f' = csv_sha256 f /\ csv_fieldnames f' = csv_fieldnames f /\
  csv_records f' = csv_records f.

(** [ingest_csv_ing], step by step. *)
Definition csv_rows_pass (doc : Z) (f : csv_file) (cs : db * IngestStats)
  : db * IngestStats :=
  fold_left (fun x r => row_step "row error" doc x (csv_row_fields r))
            (dict_rows f) cs.

(** ** Parse events and counters of a run *)


(** The rows whose [try] block ran to its end. *)
Fixpoint passed {A} (l : list (res A)) : list A :=
  match l with
  | [] => []
  | Ok a :: l' => a :: passed l'
  | Raise _ :: l' => passed l'
  end.


(** ** Fingerprints of the rows of a run *)

(** The fingerprint [store_row] computes for a row, the account being
    resolved in the state [e]. *)
Definition row_hash (e : db) (f : row_fields) : str :=
  compute_txn_hash
    {| account_id :=
         match select_account e (py "ING") (rf_account_iban f) None with
         | Some id => id
         | None => 0
         end;
       booking_date := rf_booking_iso f;
       value_date := rf_value_date f;
       amount_cents := rf_amount_cents f;
       currency := py "EUR";
       debit_credit := direction_of (rf_debit_credit f);
       counterparty_iban_or_name :=
         match rf_counterparty_iban f with
         | Some i => i
         | None => or_empty (rf_counterparty_name f)
         end;
       normalized_description := normalize_description (rf_description f) |}.


(** The fingerprints the store holds. *)
Definition hashes (conn : db) : list str := map txn_hash (transactions conn).

(** ** The report *)




(** ** Linear patterns
    A pattern without groups, alternatives or [\b] is a sequence of
    atoms: one character of a class, or a greedy run of characters of a
    class. *)

(** The atoms of a linear pattern. *)
Inductive atom :=
| AOne (p : char -> bool)
| AMany (p : char -> bool).

(** The text after its longest prefix of characters of a class. *)
Fixpoint drop_while (p : char -> bool) (s : str) : str :=
  match s with
  | c :: s' => if p c then drop_while p s' else s
  | [] => []
  end.

(** The matcher that never gives a character back. *)
Fixpoint run (atoms : list atom) (s : str) : option str :=
  match atoms with
  | [] => Some s
  | AOne p :: rest =>
      match s with
      | c :: s' => if p c then run rest s' else None
      | [] => None
      end
  | AMany p :: rest => run rest (drop_while p s)
  end.

(** The atoms of a pattern, when it is linear. *)
Fixpoint linearize (r : re) : option (list atom) :=
  match r with
  | Chr p => Some [AOne p]
  | Eps => Some []
  | Cat r1 r2 =>
      match linearize r1, linearize r2 with
      | Some a, Some b => Some (a ++ b)
      | _, _ => None
      end
  | Rep (Chr p) lo None => Some (repeat (AOne p) lo ++ [AMany p])
  | Rep (Chr p) lo (Some hi) =>
      if (lo =? hi)%nat then Some (repeat (AOne p) lo) else None
  | _ => None
  end.

(** The backtracking matcher on atoms, in continuation style. *)
Fixpoint mtl (atoms : list atom) (cap : option str) (prev : option char)
             (s : str) (k : cont) {struct atoms} : outcome :=
  match atoms with
  | [] => k cap prev s
  | AOne p :: rest =>
      match s with
      | c :: s' => if p c then mtl rest cap (Some c) s' k else None
      | [] => None
      end
  | AMany p :: rest =>
      (fix many (prev : option char) (s : str) {struct s} : outcome :=
         match s with
         | c :: s' =>
             if p c then
               match many (Some c) s' with
               | Some x => Some x
               | None => mtl rest cap prev s k
               end
             else mtl rest cap prev s k
         | [] => mtl rest cap prev s k
         end) prev s
  end.

(** Continuations that agree everywhere. *)
Definition same_cont (k1 k2 : cont) : Prop :=
  forall cap prev s, k1 cap prev s = k2 cap prev s.

(** A continuation that does not look at the previous character. *)
Definition blind (k : cont) : Prop :=
  forall cap p1 p2 s, k cap p1 s = k cap p2 s.

(** The body of the loop of a repetition in [mt]. *)
Definition rep_loop (r1 : re) (k : cont) :=
  fix loop (fuel lo : nat) (hi : option nat) (cap : option str)
           (prev : option char) (s : str) {struct fuel} : outcome :=
    match fuel with
    | O => None
    | S fuel' =>
        let more :=
          match hi with
          | Some O => None
          | _ =>
              mt r1 cap prev s
                 (fun cap' prev' s' =>
                    if (List.length s' <? List.length s)%nat
                    then loop fuel' (pred lo) (option_map pred hi)
                              cap' prev' s'
                    else None)
          end in
        match more with
        | Some x => Some x
        | None => match lo with O => k cap prev s | S _ => None end
        end
    end.

(** The loop of [mtl] on a run of characters. *)
Definition many_loop (p : char -> bool) (rest : list atom)
                     (cap : option str) (k : cont) :=
  fix many (prev : option char) (s : str) {struct s} : outcome :=
    match s with
    | c :: s' =>
        if p c then
          match many (Some c) s' with
          | Some x => Some x
          | None => mtl rest cap prev s k
          end
        else mtl rest cap prev s k
    | [] => mtl rest cap prev s k
    end.

(** ** When nothing is given back *)

(** Whatever follows a greedy run either refuses every character of the
    run, or never fails. *)
Fixpoint decided (atoms : list atom) (k : cont) : Prop :=
  match atoms with
  | [] => True
  | AOne _ :: rest => decided rest k
  | AMany p :: rest =>
      decided rest k /\
      ((forall c s cap prev, p c = true -> mtl rest cap prev (c :: s) k = None)
       \/ (forall cap prev s, mtl rest cap prev s k <> None))
  end.

(** ** Substitution by match length *)

(** [sub_from] for a matcher given by the length of the match at the
    head of the text. *)
Fixpoint subst (M : str -> option nat) (repl : str) (skip : nat) (s : str)
  : str :=
  match s with
  | [] => []
  | c :: s' =>
      match skip with
      | S n => subst M repl n s'
      | O =>
          match M s with
          | Some (S n) => repl ++ subst M repl n s'
          | _ => c :: subst M repl O s'
          end
      end
  end.



(** The atoms end with a single character, if they are not empty. *)
Fixpoint sealed (atoms : list atom) : Prop :=
  match atoms with
  | [] => True
  | [AMany _] => False
  | _ :: rest => sealed rest
  end.

(** ** Matches that start before a token *)

(** On every text of [X], every state of the pattern fails, or accepts
    without consuming anything. *)
Fixpoint inert_all (X : str -> Prop) (atoms : list atom) : Prop :=
  ((forall x, X x -> run atoms x = None)
   \/ (forall x, X x -> run atoms x = Some x))
  /\ match atoms with
     | [] => True
     | _ :: rest => inert_all X rest
     end.

(** ** The patterns of the program as atoms *)




(** [\d{2}]. *)
Definition two_digits : list atom := [AOne isdecimal; AOne isdecimal].







(** The continuation of [match_here]. *)
Definition final : cont := fun cap _ rest => Some (cap, rest).


(** ** Tokens *)





(** ** The value date *)

(** A literal character, compared exactly. *)
Definition lit_atoms_cs (s : string) : list atom :=
  map (fun c => AOne (N.eqb c)) (py s).

(** [Valutadatum:\s*]. *)
Definition valuta_head_atoms : list atom :=
  lit_atoms_cs "Valutadatum:" ++ [AMany isspace].

(** [\d{2}-\d{2}-\d{4}]. *)
Definition date_atoms : list atom :=
  two_digits ++ lit_atoms_cs "-" ++ two_digits ++ lit_atoms_cs "-"
  ++ two_digits ++ two_digits.

(** What a match of [_VALUTADATUM_RE] at the head of [s] returns. *)
Definition valuta_at (s : str) : outcome :=
  match run valuta_head_atoms s with
  | Some s2 =>
      match run date_atoms s2 with
      | Some rest =>
          Some (Some (firstn (List.length s2 - List.length rest) s2), rest)
      | None => None
      end
  | None => None
  end.

(** [m] occurs in [s]. *)
Definition occurs (m s : str) : Prop := exists a b, s = a ++ m ++ b.

(** Texts that begin with the letter V. *)
Definition begins_V (x : str) : Prop := exists rest, x = 86%N :: rest.

(** The text [g] has the shape [dd-dd-dddd]. *)
Definition date_shaped (g : str) : Prop := run date_atoms g = Some [].

(** ** Events of a run *)

(** [conn'] has the parse events of [conn], then new ones that satisfy
    [P]. *)
Definition logged (P : parse_event -> Prop) (conn conn' : db) : Prop :=
  exists new, parse_events conn' = parse_events conn ++ new /\ Forall P new.

(** A "parse" event. *)
Definition parse_stage (e : parse_event) : Prop := ev_stage e = py "parse".

(** The parse events of the "ingest" stage. *)
Definition ingest_events (conn : db) : list parse_event :=
  filter (fun e => str_eqb (ev_stage e) (py "ingest")) (parse_events conn).


(** ** The row loop *)

(** The document a workbook resolves to. *)
Definition xls_document_of (conn : db) (f : xls_file) : Z :=
  snd (fst (register_xls conn f)).


(** ** Volatile substrings *)



(** ** Missing libraries *)

(** The library a workbook needs is not installed. *)
Definition xls_library_missing (env : environment) (f : xls_file) : Prop :=
  (if str_eqb (lower (xls_suffix f)) (py ".xlsx")
   then has_openpyxl env else has_xlrd env) = false.

(** The name of the library a workbook needs. *)
Definition xls_library (f : xls_file) : string :=
  if str_eqb (lower (xls_suffix f)) (py ".xlsx") then "openpyxl"%string
  else "xlrd"%string.

(** ** Text that holds a marker *)

(** [s.startswith(m)]. *)
Fixpoint startswith (m s : str) : bool :=
  match m, s with
  | [], _ => true
  | c :: m', d :: s' => (N.eqb c d && startswith m' s')%bool
  | _ :: _, [] => false
  end.

(** [m in s]. *)
Fixpoint holds (m s : str) : bool :=
  (startswith m s
   || match s with
      | [] => false
      | _ :: s' => holds m s'
      end)%bool.

(** ** Re-ingestion of workbooks and PDF files *)

(** Two workbooks with the same bytes: the same digest, and the same
    rows when read. *)
Definition same_book (f f' : xls_file) : Prop :=
  xls_sha256 f' = xls_sha256 f /\ xls_suffix f' = xls_suffix f /\
  xls_book f' = xls_book f.

(** Two PDF files with the same bytes: the same digest and the same
    pages. *)
Definition same_pages (f f' : pdf_file) : Prop :=
  pdf_sha256 f' = pdf_sha256 f /\ pdf_pages f' = pdf_pages f.

(** The document a PDF file resolves to. *)
Definition pdf_document_of (conn : db) (f : pdf_file) : Z :=
  snd (fst (register_pdf conn f)).

(** The statistics of a second run: nothing new. *)
Definition nothing_new (stats : IngestStats) : Prop :=
  docs_new stats = 0 /\ tx_new stats = 0.

(** ** The fingerprint, as the specification words it *)

(** The digest of the pipe-joined tuple: account id, booking date, value
    date or the empty string, amount in minor units, then currency,
    direction, normalized counterparty reference and normalized
    description in upper case. *)
Definition fingerprint_spec (account : Z) (booking : str)
           (value : option str) (amount : Z)
           (currency direction counterparty description : str) : str :=
  let bar := py "|" in
  Hashlib.sha256_hexdigest
    (Hashlib.encode_utf8
       (str_of_Z account ++ bar ++ booking ++ bar
        ++ match value with Some v => v | None => [] end ++ bar
        ++ str_of_Z amount ++ bar ++ upper currency ++ bar
        ++ upper direction ++ bar ++ upper (normalize_text counterparty)
        ++ bar ++ upper description)).

(** ** Sample inputs *)

(** The header of an ING export. *)
Definition ing_fieldnames : list str :=
  map py ["Datum"; "Naam / Omschrijving"; "Rekening"; "Tegenrekening"; "Code";
          "Af Bij"; "Bedrag (EUR)"; "Mutatiesoort"; "Mededelingen"]%string.

(** A card payment of [euros] euros. *)
Definition card_payment (euros : Z) : list str :=
  [py "20230115"; py "Albert Heijn"; py "NL01BANK0123456789"; [];
   py "BA"; py "Af"; str_of_Z euros ++ py ",00"; py "Betaalautomaat";
   py "Pasvolgnr: 001 15-01-2023 12:30 Valutadatum: 16-01-2023"].

(** A record that stops after the date. *)
Definition short_record : list str := [py "20230115"].

(** Two payments around a short record. *)
Definition statement : csv_file :=
  {| csv_path := py "statement.csv";
     csv_sha256 := py "5f1d";
     csv_fieldnames := ing_fieldnames;
     csv_records := [card_payment 50; short_record; card_payment 12] |}.

(** The same bytes under another path. *)
Definition statement_copy : csv_file :=
  {| csv_path := py "copy/statement.csv";
     csv_sha256 := py "5f1d";
     csv_fieldnames := ing_fieldnames;
     csv_records := [card_payment 50; short_record; card_payment 12] |}.


(** A debit of zero euros. *)
Definition zero_statement : csv_file :=
  {| csv_path := py "zero.csv";
     csv_sha256 := py "0b1e";
     csv_fieldnames := ing_fieldnames;
     csv_records := [card_payment 0] |}.

(** A workbook with one payment. *)
Definition workbook : xls_file :=
  {| xls_path := py "statement.xls";
     xls_suffix := py ".xls";
     xls_sha256 := py "c4a2";
     xls_book :=
       Ok (map py ["Datum"; "Naam / Omschrijving"; "Rekening"; "Af Bij";
                   "Bedrag (EUR)"]%string,
           [[CStr (py "20230115"); CStr (py "Albert Heijn");
             CStr (py "NL01BANK0123456789"); CStr (py "Af");
             CStr (py "50,00")]]) |}.

(** A machine without the optional libraries. *)
Definition bare_machine : environment :=
  {| has_xlrd := false; has_openpyxl := false; has_pdfplumber := false |}.

(** A machine with all of them. *)
Definition full_machine : environment :=
  {| has_xlrd := true; has_openpyxl := true; has_pdfplumber := true |}.

(** A stored transaction of the given category, direction and amount. *)
Definition stored (id : Z) (cat : option Z) (dir : string) (cents : Z)
  : transaction :=
  {| txn_id := id; txn_account_id := 1; txn_document_id := 1;
     txn_hash := str_of_Z id; txn_booking_date := py "2023-01-15";
     txn_value_date := None; txn_amount_cents := cents;
     txn_currency := py "EUR"; txn_debit_credit := py dir;
     txn_counterparty_name := None; txn_counterparty_iban := None;
     txn_description := []; txn_category_id := cat |}.

(** Groceries: debits of 50.00 and 12.00; rent: a debit of 900.00 and a
    credit of 1.00. *)
Definition ledger : db :=
  {| documents := []; accounts := [];
     transactions := [stored 1 (Some 1) "DEBIT" (-5000);
                      stored 2 (Some 2) "DEBIT" (-90000);
                      stored 3 (Some 1) "DEBIT" (-1200);
                      stored 4 (Some 2) "CREDIT" 100];
     parse_events := [];
     categories := [{| cat_id := 1; cat_code := py "GROCERIES" |};
                    {| cat_id := 2; cat_code := py "RENT" |}];
     changes := 0 |}.

(** ** What one run adds to the store *)

(** A transaction as a run stores it: it belongs to the document [doc],
    is in euros, and has no category yet. *)
Definition stamped (doc : Z) (t : transaction) : Prop :=
  txn_document_id t = doc /\ txn_currency t = py "EUR"
  /\ txn_category_id t = None.

(** A parse event of the document [doc]. *)
Definition event_of (doc : Z) (e : parse_event) : Prop :=
  ev_document_id e = doc.

(** From the state and counters [a] to [b], rows were only appended:
    accounts, events of [doc], and transactions of [doc], each of which
    was counted as new. *)
Definition appended (doc : Z) (a b : db * IngestStats) : Prop :=
  documents (fst b) = documents (fst a) /\
  categories (fst b) = categories (fst a) /\
  (exists more, accounts (fst b) = accounts (fst a) ++ more) /\
  (exists evs, parse_events (fst b) = parse_events (fst a) ++ evs
               /\ Forall (event_of doc) evs) /\
  (exists new, transactions (fst b) = transactions (fst a) ++ new
               /\ Forall (stamped doc) new
               /\ tx_new (snd b) = tx_new (snd a) + Z.of_nat (List.length new)) /\
  docs_new (snd b) = docs_new (snd a) /\
  tx_seen (snd a) <= tx_seen (snd b).

(** One row: appended, one more row seen, at most one more new. *)
Definition one_row (doc : Z) (a b : db * IngestStats) : Prop :=
  appended doc a b /\ tx_seen (snd b) = tx_seen (snd a) + 1
  /\ tx_new (snd b) <= tx_new (snd a) + 1.

(** ** A whole run *)

(** The digest [sha] is that of a document of the store. *)
Definition known (conn : db) (sha : str) : bool :=
  match select_document conn sha with Some _ => true | None => false end.

(** 0 for a known digest, 1 for a new one. *)
Definition fresh_count (k : bool) : Z := if k then 0 else 1.

(** What a run for the document [doc] leaves of the store [conn]:
    every table keeps its rows, in order; at most the row of [doc] is
    appended to [documents], and only when the digest was not known;
    the events and transactions appended are those of [doc]; the
    counters say how many documents and transactions were appended, and
    no more transactions are new than rows were seen. *)
Definition run_appended (doc : Z) (k : bool) (conn out : db)
           (stats : IngestStats) : Prop :=
  (exists d, documents out = documents conn ++ d
             /\ Z.of_nat (List.length d) = fresh_count k
             /\ Forall (fun x => doc_id x = doc) d) /\
  categories out = categories conn /\
  (exists more, accounts out = accounts conn ++ more) /\
  (exists evs, parse_events out = parse_events conn ++ evs
               /\ Forall (event_of doc) evs) /\
  (exists new, transactions out = transactions conn ++ new
               /\ Forall (stamped doc) new
               /\ tx_new stats = Z.of_nat (List.length new)) /\
  docs_new stats = fresh_count k /\
  0 <= tx_new stats <= tx_seen stats.

(** The state and counters after the registration of a document. *)
Definition registered (doc : Z) (k : bool) (conn c0 : db)
           (st0 : IngestStats) : Prop :=
  (exists d, documents c0 = documents conn ++ d
             /\ Z.of_nat (List.length d) = fresh_count k
             /\ Forall (fun x => doc_id x = doc) d) /\
  categories c0 = categories conn /\ accounts c0 = accounts conn /\
  transactions c0 = transactions conn /\
  (exists evs, parse_events c0 = parse_events conn ++ evs
               /\ Forall (event_of doc) evs) /\
  docs_new st0 = fresh_count k /\ tx_seen st0 = 0 /\ tx_new st0 = 0.

(** ** The integrity of the store *)

(** Row ids are not repeated, no two documents have the same digest, no
    two transactions the same fingerprint, and every transaction points
    to an account and to a document of the store. *)
Definition sound (conn : db) : Prop :=
  NoDup (map doc_id (documents conn)) /\
  NoDup (map doc_sha256 (documents conn)) /\
  NoDup (map acc_id (accounts conn)) /\
  NoDup (map txn_id (transactions conn)) /\
  NoDup (map txn_hash (transactions conn)) /\
  Forall (fun t => In (txn_account_id t) (map acc_id (accounts conn))
                   /\ In (txn_document_id t) (map doc_id (documents conn)))
         (transactions conn).

(** A step keeps the store sound and its documents and accounts known. *)
Definition keeps (doc : Z) (a b : db) : Prop :=
  sound b /\ In doc (map doc_id (documents b))
  /\ (forall x, In x (map acc_id (accounts a)) ->
                In x (map acc_id (accounts b))).

(** ** Accounts *)

(** The account row [_ensure_account] inserts. *)
Definition account_row (id : Z) (iban no : option str) : account :=
  {| acc_id := id; acc_institution := py "ING"; acc_iban := iban;
     acc_account_no := no |}.

(** Two states with the same rows in every table. *)
Definition same_tables (a b : db) : Prop :=
  documents b = documents a /\ accounts b = accounts a /\
  transactions b = transactions a /\ parse_events b = parse_events a /\
  categories b = categories a.

(** ** Records that stop short *)

(** The columns [ingest_csv_ing] reads with [.strip()] on the value. *)
Definition needed_columns : list string :=
  ["Datum"; "Mededelingen"; "Naam / Omschrijving"; "Af Bij"; "Bedrag (EUR)";
   "Rekening"]%string.

(** ** Blank rows of a workbook *)

(** What a row without values turns into. *)
Definition blank_fields : row_fields :=
  {| rf_booking_iso := [];
     rf_description := [];
     rf_value_date := None;
     rf_debit_credit := py "Af";
     rf_amount_cents := 0;
     rf_counterparty_iban := None;
     rf_counterparty_name := None;
     rf_account_iban := None |}.

(** A row without values: every cell is [None]. *)
Definition blank_row (r : list cell) : Prop := Forall (fun c => c = CNone) r.

(** The stored row carries the fields of [f]. *)
Definition carries (f : row_fields) (t : transaction) : Prop :=
  txn_booking_date t = rf_booking_iso f /\
  txn_value_date t = rf_value_date f /\
  txn_amount_cents t = rf_amount_cents f /\
  txn_debit_credit t = direction_of (rf_debit_credit f) /\
  txn_counterparty_name t = rf_counterparty_name f /\
  txn_counterparty_iban t = rf_counterparty_iban f /\
  txn_description t = rf_description f.

(** ** PDF files that cannot be read *)

(** The event recorded when a PDF file cannot be read. *)
Definition pdf_failure (doc : Z) (e : exn) : parse_event :=
  {| ev_document_id := doc; ev_stage := py "parse"; ev_ok := 0;
     ev_message :=
       if is_module_not_found e
       then py "pdfplumber not installed; cannot parse PDF."
       else row_error "pdf error" e |}.

(** ** The account of a PDF file *)

(** The key of the account of a PDF file: the first IBAN of its text,
    else the bucket of unknown accounts. *)
Definition pdf_key (full_text : str) : option str * option str :=
  match _guess_account_iban full_text with
  | Some i => (Some i, None)
  | None => (None, Some (py "UNKNOWN_PDF"))
  end.

(** ** Categories *)

(** The codes of [DEFAULT_CATEGORY_MAP], one for each keyword. *)
Definition map_codes : list str :=
  map (fun e => py (snd e)) DEFAULT_CATEGORY_MAP.

(** One turn of the first loop of [categorize_transactions]. *)
Definition ids_step (acc : db * list (str * Z)) (entry : string * string)
  : db * list (str * Z) :=
  let code := py (snd entry) in
  if existsb (fun kv => str_eqb (fst kv) code) (snd acc) then acc
  else
    let (conn', id) := _ensure_category (fst acc) code in
    (conn', snd acc ++ [(code, id)]).

(** The dict holds ids that the table gives for their codes. *)
Definition ids_ok (c : db) (ids : list (str * Z)) : Prop :=
  forall code id, lookup_id ids code = Ok id ->
                  select_category c code = Some id.

(** From [a] to [b] only categories were appended. *)
Definition grows (a b : db) : Prop :=
  documents b = documents a /\ accounts b = accounts a /\
  transactions b = transactions a /\ parse_events b = parse_events a /\
  exists new, categories b = categories a ++ new.

(** A category row that was missing from [conn]. *)
Definition created (conn : db) (x : category) : Prop :=
  In (cat_code x) map_codes /\ select_category conn (cat_code x) = None /\
  ~ In (cat_id x) (map cat_id (categories conn)).

(** The code of the first keyword the text of a transaction holds. *)
Definition keyword_code (t : transaction) : option str :=
  choose (base_text (txn_description t) (txn_counterparty_name t)).

(** The transaction has no category and its text holds a keyword. *)
Definition to_update (t : transaction) : bool :=
  match txn_category_id t, keyword_code t with
  | None, Some _ => true
  | _, _ => false
  end.

(** What a run makes of the row [t]: a row without category whose text
    holds a keyword gets the id the table gives for the code of the first
    such keyword; any other row is kept. *)
Definition categorized (out : db) (t t' : transaction) : Prop :=
  match txn_category_id t, keyword_code t with
  | None, Some code =>
      exists id, select_category out code = Some id
                 /\ t' = with_category t id
  | _, _ => t' = t
  end.

(** What one fetched row does to one stored row. *)
Definition row_update (ids : list (str * Z)) (t : transaction)
                      (row : Z * str * option str) : transaction :=
  match choose (base_text (snd (fst row)) (snd row)) with
  | None => t
  | Some code =>
      match lookup_id ids code with
      | Ok cat => if txn_id t =? fst (fst row) then with_category t cat else t
      | Raise _ => t
      end
  end.

(** The row [fetchall()] returns for a transaction. *)
Definition fetched (t : transaction) : Z * str * option str :=
  (txn_id t, txn_description t, txn_counterparty_name t).

Definition no_category (t : transaction) : bool :=
  match txn_category_id t with None => true | Some _ => false end.

(** ** A folder of files *)

(** [e] is a later state of [s]: its documents and accounts continue
    those of [s], and it holds every fingerprint [s] holds. *)
Definition extends (s e : db) : Prop :=
  (exists d, documents e = documents s ++ d) /\ covers s e.

(** The suffixes [ingest_documents] has a reader for. *)
Definition recognised (e : dir_entry) : bool :=
  let suffix := lower (de_suffix e) in
  (str_eqb suffix (py ".csv") || str_eqb suffix (py ".xls")
   || str_eqb suffix (py ".xlsx") || str_eqb suffix (py ".pdf"))%bool.

(** The entry is a workbook by its suffix. *)
Definition is_workbook (e : dir_entry) : bool :=
  let suffix := lower (de_suffix e) in
  (str_eqb suffix (py ".xls") || str_eqb suffix (py ".xlsx"))%bool.

(** The order of [sorted] on the entries of a directory. *)
Definition path_le (a b : dir_entry) : Prop :=
  str_leb (de_path a) (de_path b) = true.

(** ** Amounts with two decimals *)

(** The number a text of decimal digits stands for. *)
Definition digits_value (ds : str) : Z :=
  PyFloat.Z_of_digits (map PyFloat.digit_val ds).

(** The sign the direction token gives to an amount. *)
Definition signed (debit_credit : str) (cents : Z) : Z :=
  if str_eqb (lower (strip debit_credit)) (py "af") then - cents else cents.

(** The scan of a digit part stops at the head of [r]. *)
Definition stops (r : str) : Prop := PyFloat.digits_tail r = ([], r).

(** ** Dates *)

(** The number two decimal digits stand for. *)
Definition two_digits_value (a b : char) : Z :=
  10 * Datetime.dv a + Datetime.dv b.

(** The number four decimal digits stand for. *)
Definition four_digits_value (a b c d : char) : Z :=
  1000 * Datetime.dv a + 100 * Datetime.dv b + 10 * Datetime.dv c
  + Datetime.dv d.

(** The day and the month are those of a calendar date of year [y]. *)
Definition calendar_date (y m d : Z) : bool :=
  ((1 <=? y) && (1 <=? m) && (m <=? 12) && (1 <=? d)
   && (d <=? Datetime.days_in_month y m))%bool.

(** The text [DD-MM-YYYY] made of eight digits. *)
Definition dmy_text (d1 d2 m1 m2 y1 y2 y3 y4 : char) : str :=
  [d1; d2] ++ py "-" ++ [m1; m2] ++ py "-" ++ [y1; y2; y3; y4].

(** The text [YYYY-MM-DD] made of the same digits. *)
Definition iso_text (d1 d2 m1 m2 y1 y2 y3 y4 : char) : str :=
  [y1; y2; y3; y4] ++ py "-" ++ [m1; m2] ++ py "-" ++ [d1; d2].

(** ** The shape of a fingerprint *)

(** A lower-case hexadecimal digit. *)
Definition is_hex (c : char) : bool :=
  (in_range 48 57 c || in_range 97 102 c)%bool.

(** ** More sample inputs *)

(** What [xlrd] answers for a file that is no workbook. *)
Definition no_book : res (list str * list (list cell)) :=
  Raise (Exn (py "XLRDError") (py "Unsupported format, or corrupt file")).

(** What [pdfplumber] answers for a file that is no PDF. *)
Definition no_pages : res (list page) :=
  Raise (Exn (py "PDFSyntaxError") (py "No /Root object! - Is this really a PDF?")).

(** A workbook that does not open. *)
Definition corrupt_workbook : xls_file :=
  {| xls_path := py "docs/march.xls";
     xls_suffix := py ".xls";
     xls_sha256 := py "9e07";
     xls_book := no_book |}.

(** A workbook of three rows without values. *)
Definition blank_workbook : xls_file :=
  {| xls_path := py "docs/empty.xlsx";
     xls_suffix := py ".xlsx";
     xls_sha256 := py "1c3d";
     xls_book := Ok (map py ["Datum"; "Bedrag (EUR)"]%string,
                     [[CNone; CNone]; [CNone; CNone]; [CNone; CNone]]) |}.

(** A PDF file that does not open. *)
Definition scanned_pdf : pdf_file :=
  {| pdf_path := py "docs/scan.pdf";
     pdf_sha256 := py "ab12";
     pdf_pages := no_pages |}.

(** A PDF file of one page of text. *)
Definition text_pdf : pdf_file :=
  {| pdf_path := py "docs/january.pdf";
     pdf_sha256 := py "d00f";
     pdf_pages :=
       Ok [{| page_tables := [];
              page_text :=
                Ok (Some (py "NL01BANK0123456789 15-01-2023 Albert Heijn 50,00")) |}] |}.

(** A transaction without a category, by its description. *)
Definition purchase (id : Z) (text : string) : transaction :=
  {| txn_id := id; txn_account_id := 1; txn_document_id := 1;
     txn_hash := str_of_Z id; txn_booking_date := py "2023-01-15";
     txn_value_date := None; txn_amount_cents := -5000;
     txn_currency := py "EUR"; txn_debit_credit := py "DEBIT";
     txn_counterparty_name := None; txn_counterparty_iban := None;
     txn_description := py text; txn_category_id := None |}.

(** A store with three transactions to categorise and one category. *)
Definition inbox : db :=
  {| documents := [{| doc_id := 1; doc_path := py "docs/statement.csv";
                      doc_sha256 := py "5f1d"; doc_source_type := py "csv";
                      doc_bank_hint := Some (py "ING") |}];
     accounts := [{| acc_id := 1; acc_institution := py "ING";
                     acc_iban := Some (py "NL01BANK0123456789");
                     acc_account_no := None |}];
     transactions := [purchase 1 "Albert Heijn 1234 Amsterdam";
                      purchase 2 "Huur januari";
                      purchase 3 "Tikkie"];
     parse_events := [];
     categories := [{| cat_id := 1; cat_code := py "RENT" |}];
     changes := 0 |}.

(** The entries of a folder: an export, a workbook that does not open,
    a text file and a second export. *)
Definition export_entry : dir_entry :=
  {| de_path := py "docs/export.CSV"; de_suffix := py ".CSV";
     de_sha256 := py "5f1d"; de_fieldnames := ing_fieldnames;
     de_records := [card_payment 50];
     de_book := no_book; de_pages := no_pages |}.

Definition corrupt_entry : dir_entry :=
  {| de_path := py "docs/march.xls"; de_suffix := py ".xls";
     de_sha256 := py "9e07"; de_fieldnames := []; de_records := [];
     de_book := no_book; de_pages := no_pages |}.

Definition notes_entry : dir_entry :=
  {| de_path := py "docs/notes.txt"; de_suffix := py ".txt";
     de_sha256 := py "03af"; de_fieldnames := [py "to do"];
     de_records := []; de_book := no_book; de_pages := no_pages |}.

Definition zero_entry : dir_entry :=
  {| de_path := py "docs/zero.csv"; de_suffix := py ".csv";
     de_sha256 := py "0b1e"; de_fieldnames := ing_fieldnames;
     de_records := [card_payment 0];
     de_book := no_book; de_pages := no_pages |}.

(* ===================================================================== *)
(** * Lemmas *)
(* ===================================================================== *)

Lemma str_eqb_eq (a b : str) : str_eqb a b = true <-> a = b.
Proof.
  revert b. induction a as [|x a IH]; intros [|y b]; simpl; split; intro H;
    try reflexivity; try discriminate.
  - apply andb_true_iff in H as [H1 H2]. apply N.eqb_eq in H1.
    apply IH in H2. congruence.
  - injection H as -> ->. rewrite N.eqb_refl. simpl. now apply IH.
Qed.

Lemma str_eqb_refl (a : str) : str_eqb a a = true.
Proof. now apply str_eqb_eq. Qed.

(** ** White space at the ends *)

Lemma lstrip_spaces (w x : str) :
  forallb isspace w = true -> lstrip (w ++ x) = lstrip x.
Proof.
  induction w as [|c w IH]; simpl; intro H; [reflexivity|].
  apply andb_true_iff in H as [Hc Hw]. rewrite Hc. now apply IH.
Qed.

Lemma lstrip_split (s : str) :
  exists w, forallb isspace w = true /\ s = w ++ lstrip s.
Proof.
  induction s as [|c s [w [Hw Hs]]]; simpl.
  - exists []. now split.
  - destruct (isspace c) eqn:Hc.
    + exists (c :: w). simpl. rewrite Hc, Hw. split; [reflexivity|congruence].
    + exists []. now split.
Qed.

Lemma lstrip_clean (s : str) : clean_head (lstrip s).
Proof.
  induction s as [|c s IH]; simpl; [exact I|].
  destruct (isspace c) eqn:Hc; [exact IH|]. simpl. exact Hc.
Qed.

Lemma lstrip_id (s : str) : clean_head s -> lstrip s = s.
Proof. destruct s as [|c s]; simpl; [reflexivity|]. now intros ->. Qed.

Lemma lstrip_app_clean (x y : str) :
  lstrip x <> [] -> lstrip (x ++ y) = lstrip x ++ y.
Proof.
  induction x as [|c x IH]; simpl; intro H; [congruence|].
  destruct (isspace c); [now apply IH|reflexivity].
Qed.

Lemma lstrip_all_spaces (x : str) :
  lstrip x = [] -> forallb isspace x = true.
Proof.
  induction x as [|c x IH]; simpl; [reflexivity|].
  destruct (isspace c); [exact IH|discriminate].
Qed.

Lemma forallb_rev {A} (p : A -> bool) (l : list A) :
  forallb p (rev l) = forallb p l.
Proof.
  induction l as [|a l IH]; simpl; [reflexivity|].
  rewrite forallb_app, IH. simpl. rewrite andb_true_r. apply andb_comm.
Qed.

Lemma rstrip_spaces (x w : str) :
  forallb isspace w = true -> rstrip (x ++ w) = rstrip x.
Proof.
  intro H. unfold rstrip. rewrite rev_app_distr, lstrip_spaces; [reflexivity|].
  now rewrite forallb_rev.
Qed.

Lemma rstrip_split (s : str) :
  exists w, forallb isspace w = true /\ s = rstrip s ++ w.
Proof.
  destruct (lstrip_split (rev s)) as [w [Hw Hs]].
  exists (rev w). split; [now rewrite forallb_rev|].
  unfold rstrip. rewrite <- rev_app_distr, <- Hs. now rewrite rev_involutive.
Qed.

Lemma rstrip_nil_spaces (x : str) : forallb isspace x = true -> rstrip x = [].
Proof.
  intro H. rewrite <- (app_nil_l x). rewrite rstrip_spaces by exact H.
  reflexivity.
Qed.

(** Stripping ignores white space added at either end. *)
Lemma strip_pad (w1 x w2 : str) :
  forallb isspace w1 = true -> forallb isspace w2 = true ->
  strip (w1 ++ x ++ w2) = strip x.
Proof.
  intros H1 H2. unfold strip. rewrite lstrip_spaces by exact H1.
  destruct (lstrip x) as [|c t] eqn:Hx.
  - assert (Hall : forallb isspace (x ++ w2) = true).
    { rewrite forallb_app, H2, (lstrip_all_spaces _ Hx). reflexivity. }
    destruct (lstrip_split (x ++ w2)) as [w [Hw Hs]].
    rewrite Hs in Hall. rewrite forallb_app in Hall.
    apply andb_true_iff in Hall as [_ Hall].
    now rewrite (rstrip_nil_spaces _ Hall).
  - rewrite lstrip_app_clean by (rewrite Hx; discriminate).
    rewrite Hx. now apply rstrip_spaces.
Qed.

Lemma strip_split (s : str) :
  exists w1 w2, forallb isspace w1 = true /\ forallb isspace w2 = true /\
                s = w1 ++ strip s ++ w2.
Proof.
  destruct (lstrip_split s) as [w1 [H1 Hs]].
  destruct (rstrip_split (lstrip s)) as [w2 [H2 Ht]].
  exists w1, w2. repeat split; try assumption.
  unfold strip. now rewrite <- Ht.
Qed.

Lemma strip_idem (s : str) : strip (strip s) = strip s.
Proof.
  destruct (strip_split s) as [w1 [w2 [H1 [H2 Hs]]]].
  rewrite Hs at 2. now rewrite strip_pad.
Qed.

(** ** Results *)

Lemma bind_ok {A B} (c : res A) (k : A -> res B) (b : B) :
  bind c k = Ok b -> exists a, c = Ok a /\ k a = Ok b.
Proof. destruct c as [a|e]; simpl; [eauto|discriminate]. Qed.

Ltac inv_bind H :=
  let a := fresh "a" in
  let Ha := fresh "Ha" in
  apply bind_ok in H as [a [Ha H]].

(** ** Amounts *)

Lemma replace_cons (old : char) (new : str) (c : char) (x : str) :
  replace old new (c :: x) = (if N.eqb c old then new else [c]) ++ replace old new x.
Proof. reflexivity. Qed.

Lemma replace_app (old : char) (new a b : str) :
  replace old new (a ++ b) = replace old new a ++ replace old new b.
Proof. apply flat_map_app. Qed.

Lemma replace_separators (x : str) :
  replace 32%N [] (replace nbsp (py " ") (replace 46%N [] x))
  = without_separators x.
Proof.
  induction x as [|c x IH]; [reflexivity|].
  rewrite replace_cons, !replace_app, IH.
  unfold without_separators. cbn [filter]. unfold is_separator, nbsp.
  destruct (N.eqb c 46) eqn:E1; [reflexivity|].
  rewrite replace_cons. cbn [replace flat_map app].
  destruct (N.eqb c 160) eqn:E2; [reflexivity|].
  cbn [replace flat_map app]. destruct (N.eqb c 32) eqn:E3; reflexivity.
Qed.

Lemma replace_comma (x : str) :
  (if contains 44%N x then replace 44%N (py ".") x else x) = comma_to_point x.
Proof.
  assert (H : replace 44%N (py ".") x = comma_to_point x).
  { unfold replace, comma_to_point. induction x as [|c x IH]; simpl;
      [reflexivity|]. rewrite IH. now destruct (N.eqb c 44). }
  destruct (contains 44%N x) eqn:E; [exact H|].
  unfold contains, comma_to_point in *. clear H.
  induction x as [|c x IH]; simpl in *; [reflexivity|].
  apply orb_false_iff in E as [E1 E2].
  destruct (N.eqb_spec c 44) as [->|_]; [discriminate E1|].
  f_equal. now apply IH.
Qed.

Lemma amount_text_eq (s : str) :
  amount_text s = comma_to_point (without_separators (strip s)).
Proof.
  unfold amount_text. now rewrite replace_separators, replace_comma.
Qed.

Lemma isspace_comma_to_point (c : char) :
  isspace (if N.eqb c 44 then 46%N else c) = isspace c.
Proof. destruct (N.eqb c 44) eqn:E; [|reflexivity]. apply N.eqb_eq in E. now subst. Qed.

Lemma lstrip_comma_to_point (x : str) :
  lstrip (comma_to_point x) = comma_to_point (lstrip x).
Proof.
  unfold comma_to_point. induction x as [|c x IH]; simpl; [reflexivity|].
  rewrite isspace_comma_to_point. now destruct (isspace c).
Qed.

Lemma strip_comma_to_point (x : str) :
  strip (comma_to_point x) = comma_to_point (strip x).
Proof.
  unfold strip, rstrip. rewrite lstrip_comma_to_point.
  unfold comma_to_point at 1. rewrite <- map_rev.
  fold (comma_to_point (rev (lstrip x))).
  rewrite lstrip_comma_to_point. unfold comma_to_point. now rewrite map_rev.
Qed.

Lemma forallb_filter {A} (p q : A -> bool) (l : list A) :
  forallb p l = true -> forallb p (filter q l) = true.
Proof.
  induction l as [|a l IH]; simpl; [reflexivity|]. intro H.
  apply andb_true_iff in H as [Ha Hl]. destruct (q a); simpl;
    [rewrite Ha|]; now apply IH.
Qed.

Lemma strip_without_separators (s : str) :
  strip (without_separators (strip s)) = strip (without_separators s).
Proof.
  destruct (strip_split s) as [w1 [w2 [H1 [H2 Hs]]]].
  rewrite Hs at 2. unfold without_separators.
  rewrite !filter_app. symmetry. apply strip_pad; now apply forallb_filter.
Qed.

Lemma without_separators_idem (s : str) :
  without_separators (without_separators s) = without_separators s.
Proof.
  unfold without_separators. induction s as [|c s IH]; simpl; [reflexivity|].
  destruct (negb (is_separator c)) eqn:E; simpl; [rewrite E; now f_equal|exact IH].
Qed.

(** What [float] makes of a text depends on the stripped text only, the
    wording of the error apart. *)
Lemma float_of_str_strip (a b : str) :
  strip a = strip b ->
  value_of (PyFloat.float_of_str a) = value_of (PyFloat.float_of_str b).
Proof.
  intro H. unfold PyFloat.float_of_str. rewrite H.
  destruct (PyFloat.read_sign (strip b)) as [neg body].
  destruct (_ || _)%bool; [reflexivity|].
  destruct (str_eqb _ _); [reflexivity|].
  destruct (PyFloat.read_number body) as [[[ip fp] r]|]; [|reflexivity].
  destruct (PyFloat.read_exponent r) as [[x [|c t]]|]; reflexivity.
Qed.

Lemma parse_unfold (s dc : str) :
  parse_eu_amount_to_cents s dc =
  (val <- PyFloat.float_of_str (amount_text s) ;;
   cents <- PyFloat.round_to_int (PyFloat.mul val (PyFloat.of_Z 100)) ;;
   if str_eqb (lower (strip dc)) (py "af")
   then Ok (- Z.abs cents) else Ok (Z.abs cents)).
Proof. reflexivity. Qed.

Lemma value_of_bind {A B} (c c' : res A) (k : A -> res B) :
  value_of c = value_of c' -> value_of (bind c k) = value_of (bind c' k).
Proof.
  destruct c, c'; simpl; intro H; try discriminate; try reflexivity.
  now injection H as ->.
Qed.

(** Thousands separators are ignored wherever they stand. *)
Lemma parse_without_separators (s dc : str) :
  value_of (parse_eu_amount_to_cents s dc)
  = value_of (parse_eu_amount_to_cents (without_separators s) dc).
Proof.
  rewrite !parse_unfold. apply value_of_bind, float_of_str_strip.
  rewrite !amount_text_eq, !strip_comma_to_point. f_equal.
  rewrite !strip_without_separators. now rewrite without_separators_idem.
Qed.

(** The sign of the result is the sign the direction token asks for. *)
Lemma parse_sign (s dc : str) (c : Z) :
  parse_eu_amount_to_cents s dc = Ok c ->
  if str_eqb (lower (strip dc)) (py "af") then c <= 0 else 0 <= c.
Proof.
  rewrite parse_unfold. intro H. inv_bind H. inv_bind H.
  destruct (str_eqb _ _); injection H as <-; lia.
Qed.

(** The magnitude of the result does not depend on the direction token. *)
Lemma parse_magnitude (s dc dc' : str) :
  option_map Z.abs (value_of (parse_eu_amount_to_cents s dc))
  = option_map Z.abs (value_of (parse_eu_amount_to_cents s dc')).
Proof.
  rewrite !parse_unfold.
  destruct (PyFloat.float_of_str (amount_text s)) as [val|e]; [|reflexivity].
  simpl. destruct (PyFloat.round_to_int _) as [c|e]; [|reflexivity].
  simpl. destruct (str_eqb _ _), (str_eqb _ _); simpl; f_equal; lia.
Qed.

Lemma div_half_even_nearest (a b : Z) :
  0 < b -> Z.abs (2 * (a - b * PyFloat.div_half_even a b)) <= b.
Proof.
  intro Hb. unfold PyFloat.div_half_even.
  pose proof (Z.div_mod a b ltac:(lia)) as Hdm.
  pose proof (Z.mod_pos_bound a b Hb) as Hr.
  set (q := a / b) in *. set (r := a mod b) in *. clearbody q r.
  destruct (2 * r ?= b) eqn:E.
  - apply Z.compare_eq in E. destruct (Z.even q); lia.
  - change (2 * r < b) in E. lia.
  - change (2 * r > b) in E. lia.
Qed.

(** ** The sign convention of stored rows *)

Lemma added_refl (P : transaction -> Prop) (conn : db) : added P conn conn.
Proof. exists []. split; [now rewrite app_nil_r|constructor]. Qed.

Lemma added_trans (P : transaction -> Prop) (a b c : db) :
  added P a b -> added P b c -> added P a c.
Proof.
  intros [n1 [E1 F1]] [n2 [E2 F2]]. exists (n1 ++ n2). split.
  - now rewrite E2, E1, app_assoc.
  - apply Forall_app. now split.
Qed.

Lemma added_same (P : transaction -> Prop) (a b : db) :
  transactions b = transactions a -> added P a b.
Proof. intro H. exists []. split; [now rewrite app_nil_r|constructor]. Qed.

Lemma added_event P conn doc stage ok msg :
  added P conn (insert_parse_event conn doc stage ok msg).
Proof. now apply added_same. Qed.

Lemma added_document P conn path sha kind hint :
  added P conn (fst (insert_document conn path sha kind hint)).
Proof. now apply added_same. Qed.

Lemma added_ensure_account P conn iban no :
  added P conn (fst (_ensure_account conn iban no)).
Proof.
  unfold _ensure_account. destruct (select_account _ _ _ _); now apply added_same.
Qed.

Lemma added_insert_or_ignore (P : transaction -> Prop) conn t :
  (forall id, P {| txn_id := id;
                   txn_account_id := txn_account_id t;
                   txn_document_id := txn_document_id t;
                   txn_hash := txn_hash t;
                   txn_booking_date := txn_booking_date t;
                   txn_value_date := txn_value_date t;
                   txn_amount_cents := txn_amount_cents t;
                   txn_currency := txn_currency t;
                   txn_debit_credit := txn_debit_credit t;
                   txn_counterparty_name := txn_counterparty_name t;
                   txn_counterparty_iban := txn_counterparty_iban t;
                   txn_description := txn_description t;
                   txn_category_id := None |}) ->
  added P conn (insert_or_ignore_transaction conn t).
Proof.
  intro H. unfold insert_or_ignore_transaction.
  destruct (existsb _ _); [now apply added_same|].
  eexists. split; [reflexivity|]. constructor; [apply H|constructor].
Qed.

Lemma added_fold {A} (P : transaction -> Prop)
      (step : db * IngestStats -> A -> db * IngestStats) (rows : list A) :
  (forall cs a, added P (fst cs) (fst (step cs a))) ->
  forall cs, added P (fst cs) (fst (fold_left step rows cs)).
Proof.
  intro H. induction rows as [|a rows IH]; intro cs; simpl.
  - apply added_refl.
  - eapply added_trans; [apply H|apply IH].
Qed.

(** A direction token without surrounding white space, an amount parsed
    under it: the stored direction and the sign agree. *)
Lemma direction_sign (s dc : str) (c : Z) :
  strip dc = dc ->
  parse_eu_amount_to_cents s dc = Ok c ->
  (direction_of dc = py "DEBIT" /\ c <= 0) \/
  (direction_of dc = py "CREDIT" /\ 0 <= c).
Proof.
  intros Hs Hp. apply parse_sign in Hp. rewrite Hs in Hp.
  unfold direction_of. destruct (str_eqb _ _); [left|right]; now split.
Qed.

Lemma added_store_row doc f cs :
  fields_ok f -> added sign_ok (fst cs) (fst (store_row doc f cs)).
Proof.
  intro Hf. unfold store_row. destruct cs as [conn stats].
  destruct (_ensure_account conn (rf_account_iban f) None) as [conn1 acc] eqn:E.
  assert (H1 : added sign_ok conn conn1).
  { replace conn1 with (fst (_ensure_account conn (rf_account_iban f) None))
      by now rewrite E. apply added_ensure_account. }
  match goal with
  | |- context [insert_or_ignore_transaction conn1 ?t] =>
      assert (H2 : added sign_ok conn1 (insert_or_ignore_transaction conn1 t))
        by (apply added_insert_or_ignore; intro id; exact Hf);
      destruct (0 <? changes (insert_or_ignore_transaction conn1 t))
  end; simpl; eapply added_trans; eassumption.
Qed.

Lemma added_row_step prefix doc cs body :
  (forall f, body = Ok f -> fields_ok f) ->
  added sign_ok (fst cs) (fst (row_step prefix doc cs body)).
Proof.
  intro H. unfold row_step. destruct body as [f|e].
  - apply (added_store_row doc f (fst cs, seen (snd cs))). now apply H.
  - simpl. apply added_event.
Qed.

Lemma strip_of_ok (v : option str) (s : str) :
  strip_of v = Ok s -> strip s = s.
Proof.
  destruct v as [x|]; simpl; [|discriminate].
  intro H. injection H as <-. apply strip_idem.
Qed.

Lemma csv_row_fields_ok (row : dict_row) (f : row_fields) :
  csv_row_fields row = Ok f -> fields_ok f.
Proof.
  unfold csv_row_fields. intro H.
  inv_bind H. inv_bind H. inv_bind H. inv_bind H. inv_bind H.
  inv_bind H. inv_bind H. inv_bind H. inv_bind H.
  injection H as <-. unfold fields_ok. simpl.
  eapply direction_sign; [eapply strip_of_ok|]; eassumption.
Qed.

Lemma cell_text_strip (r : list cell) (i : option nat) :
  strip (cell_text r i) = cell_text r i.
Proof.
  unfold cell_text. destruct i as [n|]; [|reflexivity].
  destruct (nth_error r n) as [[| | |]|]; try reflexivity; apply strip_idem.
Qed.

Lemma xls_row_fields_ok env cols (r : list cell) (f : row_fields) :
  xls_row_fields env cols r = Ok f -> fields_ok f.
Proof.
  unfold xls_row_fields. intro H. inv_bind H. inv_bind H.
  injection H as <-. unfold fields_ok. simpl.
  eapply direction_sign; [|eassumption].
  unfold or_str. destruct (cell_text r (idx_afbij cols)) eqn:E.
  - reflexivity.
  - rewrite <- E. apply cell_text_strip.
Qed.

Lemma added_register_csv P conn f :
  added P conn (fst (fst (register_csv conn f))).
Proof.
  unfold register_csv. destruct (select_document _ _); simpl;
    now apply added_same.
Qed.

Lemma ingest_csv_sign (conn : db) (f : csv_file) :
  added sign_ok conn (fst (ingest_csv_ing conn f)).
Proof.
  unfold ingest_csv_ing.
  pose proof (added_register_csv sign_ok conn f) as H0.
  destruct (register_csv conn f) as [[conn0 doc] stats]. simpl in H0.
  match goal with
  | |- context [fold_left ?step ?rows ?cs] =>
      pose proof (added_fold sign_ok step rows
                    (fun x row => added_row_step "row error" doc x
                       (csv_row_fields row) (csv_row_fields_ok row)) cs) as H1;
      destruct (fold_left step rows cs) as [conn1 stats1]
  end. simpl in *.
  eapply added_trans; [exact H0|]. eapply added_trans; [exact H1|].
  apply added_event.
Qed.

Lemma added_register_xls P conn f :
  added P conn (fst (fst (register_xls conn f))).
Proof.
  unfold register_xls. destruct (select_document _ _); simpl;
    now apply added_same.
Qed.

Lemma ingest_xls_sign (env : environment) (conn : db) (f : xls_file) :
  added sign_ok conn (fst (ingest_xls env conn f)).
Proof.
  unfold ingest_xls.
  pose proof (added_register_xls sign_ok conn f) as H0.
  destruct (register_xls conn f) as [[conn0 doc] stats]. simpl in H0.
  destruct (load_rows env f) as [[headers rows]|e].
  - match goal with
    | |- context [fold_left ?step ?rows ?cs] =>
        pose proof (added_fold sign_ok step rows
                      (fun x r => added_row_step "xls row error" doc x _
                         (@xls_row_fields_ok env (resolve_columns headers) r))
                      cs) as H1;
        destruct (fold_left step rows cs) as [conn1 stats1]
    end. simpl in *.
    eapply added_trans; [exact H0|]. eapply added_trans; [exact H1|].
    apply added_event.
  - destruct (is_module_not_found e); simpl; [|exact H0].
    eapply added_trans; [exact H0|apply added_event].
Qed.

Lemma pdf_row_fields_ok cand (f : pdf_fields) :
  pdf_row_fields cand = Ok f -> pdf_fields_ok f.
Proof.
  unfold pdf_row_fields. destruct cand as [[date_str desc_raw] amt_str].
  intro H. inv_bind H. inv_bind H. injection H as <-.
  unfold pdf_fields_ok. simpl. eapply direction_sign; [|eassumption].
  now destruct (contains 45%N (strip amt_str)).
Qed.

Lemma added_pdf_row_step doc acc cs cand :
  added sign_ok (fst cs) (fst (pdf_row_step doc acc cs cand)).
Proof.
  unfold pdf_row_step. destruct (pdf_row_fields cand) as [f|e] eqn:E.
  - apply pdf_row_fields_ok in E. unfold pdf_store_row. simpl.
    match goal with
    | |- context [insert_or_ignore_transaction ?c ?t] =>
        assert (H2 : added sign_ok c (insert_or_ignore_transaction c t))
          by (apply added_insert_or_ignore; intro id; exact E);
        destruct (0 <? changes (insert_or_ignore_transaction c t))
    end; exact H2.
  - simpl. apply added_event.
Qed.

Lemma added_insert_or_ignore_account P conn inst iban no :
  added P conn (insert_or_ignore_account conn inst iban no).
Proof.
  unfold insert_or_ignore_account. destruct (select_account _ _ _ _);
    now apply added_same.
Qed.

Lemma added_pdf_parse conn doc stats f :
  added sign_ok conn (fst (fst (pdf_parse conn doc stats f))).
Proof.
  unfold pdf_parse.
  destruct (bind (pdf_pages f) _) as [texts|e]; [|apply added_refl].
  unfold pdf_account.
  destruct (match _guess_account_iban _ with Some i => _ | None => _ end)
    as [iban no].
  pose proof (added_insert_or_ignore_account sign_ok conn (py "ING") iban no)
    as H0.
  destruct (select_account _ _ _ _) as [acc|]; [|exact H0].
  match goal with
  | |- context [fold_left ?step ?rows ?cs] =>
      pose proof (added_fold sign_ok step rows
                    (fun x c => added_pdf_row_step doc acc x c) cs) as H1;
      destruct (fold_left step rows cs) as [conn1 stats1]
  end. simpl in *.
  eapply added_trans; [exact H0|]. eapply added_trans; [exact H1|].
  apply added_event.
Qed.

Lemma added_register_pdf P conn f :
  added P conn (fst (fst (register_pdf conn f))).
Proof.
  unfold register_pdf. destruct (select_document _ _); simpl;
    now apply added_same.
Qed.

Lemma ingest_pdf_sign (env : environment) (conn : db) (f : pdf_file) :
  added sign_ok conn (fst (ingest_pdf_generic env conn f)).
Proof.
  unfold ingest_pdf_generic.
  pose proof (added_register_pdf sign_ok conn f) as H0.
  destruct (register_pdf conn f) as [[conn0 doc] stats]. simpl in H0.
  destruct (has_pdfplumber env).
  - pose proof (added_pdf_parse conn0 doc stats f) as H1.
    destruct (pdf_parse conn0 doc stats f) as [[conn1 stats1] [e|]];
      simpl in *.
    + destruct (is_module_not_found e); simpl;
        (eapply added_trans; [exact H0|]; eapply added_trans; [exact H1|];
         apply added_event).
    + eapply added_trans; eassumption.
  - simpl. eapply added_trans; [exact H0|apply added_event].
Qed.

(** ** Re-ingestion *)

Lemma covers_refl (s : db) : covers s s.
Proof. split; [exists []; now rewrite app_nil_r|auto]. Qed.

Lemma covers_trans (a b c : db) : covers a b -> covers b c -> covers a c.
Proof.
  intros [[m1 E1] H1] [[m2 E2] H2]. split.
  - exists (m1 ++ m2). now rewrite E2, E1, app_assoc.
  - auto.
Qed.

Lemma covers_same (s e e' : db) :
  accounts e' = accounts e -> transactions e' = transactions e ->
  covers s e -> covers s e'.
Proof.
  intros Ea Et [[m E] H]. split.
  - exists m. congruence.
  - intros h Hh. unfold has_hash. rewrite Et. now apply H.
Qed.

Lemma has_hash_app (conn conn' : db) (new : list transaction) (h : str) :
  transactions conn' = transactions conn ++ new ->
  has_hash conn h -> has_hash conn' h.
Proof.
  unfold has_hash. intros -> H. rewrite existsb_app, H. reflexivity.
Qed.

Lemma covers_event s doc stage ok msg :
  covers s (insert_parse_event s doc stage ok msg).
Proof. apply covers_same with (e := s); auto using covers_refl. Qed.

Lemma covers_insert_or_ignore s t :
  covers s (insert_or_ignore_transaction s t).
Proof.
  unfold insert_or_ignore_transaction. destruct (existsb _ _).
  - apply covers_same with (e := s); auto using covers_refl.
  - split; [exists []; simpl; now rewrite app_nil_r|].
    intros h Hh. eapply has_hash_app; [|exact Hh]. reflexivity.
Qed.

Lemma covers_ensure_account s iban no :
  covers s (fst (_ensure_account s iban no)).
Proof.
  unfold _ensure_account. destruct (select_account _ _ _ _) as [id|].
  - apply covers_refl.
  - split; [eexists; reflexivity|auto].
Qed.

Lemma find_app {A} (p : A -> bool) (a b : list A) :
  find p (a ++ b) = match find p a with Some x => Some x | None => find p b end.
Proof.
  induction a as [|x a IH]; simpl; [reflexivity|]. now destruct (p x).
Qed.

Lemma is_same_refl (o : option str) : is_same o o = true.
Proof. destruct o; simpl; [apply str_eqb_refl|reflexivity]. Qed.

(** After [_ensure_account], the account it returns is the one every
    later state resolves the same key to. *)
Lemma ensure_account_stable s iban no e :
  covers (fst (_ensure_account s iban no)) e ->
  select_account e (py "ING") iban no = Some (snd (_ensure_account s iban no)).
Proof.
  intros [[more E] _]. unfold select_account. rewrite E.
  unfold _ensure_account, select_account in *.
  destruct (find (account_matches (py "ING") iban no) (accounts s))
    as [a|] eqn:F; simpl in *.
  - now rewrite find_app, F.
  - rewrite !find_app, F. cbn [find]. unfold account_matches at 1.
    cbn [acc_institution acc_iban acc_account_no].
    now rewrite str_eqb_refl, !is_same_refl.
Qed.

Lemma ensure_account_found e iban no id :
  select_account e (py "ING") iban no = Some id ->
  _ensure_account e iban no = (e, id).
Proof. unfold _ensure_account. now intros ->. Qed.

Lemma insert_existing (conn : db) (t : transaction) :
  has_hash conn (txn_hash t) ->
  insert_or_ignore_transaction conn t = set_changes conn 0.
Proof. unfold has_hash, insert_or_ignore_transaction. now intros ->. Qed.

Lemma has_hash_inserted (conn : db) (t : transaction) :
  has_hash (insert_or_ignore_transaction conn t) (txn_hash t).
Proof.
  unfold has_hash, insert_or_ignore_transaction.
  destruct (existsb _ (transactions conn)) eqn:E; simpl; [exact E|].
  rewrite existsb_app. simpl. rewrite str_eqb_refl. apply orb_true_iff.
  right. reflexivity.
Qed.

Lemma store_row_covers doc f cs : covers (fst cs) (fst (store_row doc f cs)).
Proof.
  unfold store_row. destruct cs as [conn stats].
  pose proof (covers_ensure_account conn (rf_account_iban f) None) as H0.
  destruct (_ensure_account conn (rf_account_iban f) None) as [conn1 acc].
  simpl in H0.
  match goal with
  | |- context [insert_or_ignore_transaction conn1 ?t] =>
      pose proof (covers_insert_or_ignore conn1 t) as H1;
      destruct (0 <? changes (insert_or_ignore_transaction conn1 t))
  end; simpl; eapply covers_trans; eassumption.
Qed.

Lemma row_step_covers prefix doc cs body :
  covers (fst cs) (fst (row_step prefix doc cs body)).
Proof.
  unfold row_step. destruct body as [f|e].
  - apply (store_row_covers doc f (fst cs, seen (snd cs))).
  - simpl. apply covers_event.
Qed.

Lemma fold_covers {A} (step : db * IngestStats -> A -> db * IngestStats)
      (rows : list A) :
  (forall cs a, covers (fst cs) (fst (step cs a))) ->
  forall cs, covers (fst cs) (fst (fold_left step rows cs)).
Proof.
  intro H. induction rows as [|a rows IH]; intro cs; simpl.
  - apply covers_refl.
  - eapply covers_trans; [apply H|apply IH].
Qed.

(** Replaying a row in a later state: the account is found, the
    fingerprint is the same, and the insert is absorbed. *)
Lemma store_row_replay doc doc' f cs e stats :
  covers (fst (store_row doc f cs)) e ->
  exists e', store_row doc' f (e, stats) = (e', stats) /\ same_rows e e'.
Proof.
  unfold store_row. destruct cs as [conn st]. intro H.
  pose proof (ensure_account_stable conn (rf_account_iban f) None) as Hacc.
  destruct (_ensure_account conn (rf_account_iban f) None) as [conn1 acc].
  simpl in Hacc.
  match type of H with
  | context [insert_or_ignore_transaction conn1 ?t] =>
      pose proof (covers_insert_or_ignore conn1 t) as H1;
      pose proof (has_hash_inserted conn1 t) as H2;
      assert (H3 : covers (insert_or_ignore_transaction conn1 t) e)
        by (destruct (0 <? changes (insert_or_ignore_transaction conn1 t));
            exact H)
  end.
  rewrite (ensure_account_found e _ _ _ (Hacc e (covers_trans _ _ _ H1 H3))).
  destruct H3 as [_ H3]. apply H3 in H2. simpl in H2.
  rewrite insert_existing by exact H2. simpl.
  eexists. split; [reflexivity|]. repeat split.
Qed.

Lemma row_step_replay prefix prefix' doc doc' body cs e stats :
  covers (fst (row_step prefix doc cs body)) e ->
  exists e', row_step prefix' doc' (e, stats) body = (e', seen stats)
             /\ same_rows e e'.
Proof.
  unfold row_step. destruct body as [f|ex]; simpl; intro H.
  - apply (store_row_replay doc doc' f (fst cs, seen (snd cs)) e (seen stats)).
    exact H.
  - eexists. split; [reflexivity|]. repeat split.
Qed.

Lemma fold_replay {A} (body : A -> res row_fields) prefix prefix' doc doc'
      (rows : list A) :
  forall cs e stats,
    covers (fst (fold_left (fun x r => row_step prefix doc x (body r))
                           rows cs)) e ->
    exists e',
      fold_left (fun x r => row_step prefix' doc' x (body r)) rows (e, stats)
      = (e', {| docs_new := docs_new stats;
                tx_seen := tx_seen stats + Z.of_nat (List.length rows);
                tx_new := tx_new stats |})
      /\ same_rows e e'.
Proof.
  induction rows as [|r rows IH]; intros cs e stats H; simpl in *.
  - exists e. split; [|repeat split]. f_equal. destruct stats; simpl.
    f_equal. lia.
  - assert (H1 : covers (fst (row_step prefix doc cs (body r))) e).
    { eapply covers_trans; [|exact H].
      apply (fold_covers (fun x r => row_step prefix doc x (body r))).
      intros. apply row_step_covers. }
    destruct (row_step_replay prefix prefix' doc doc' (body r) cs e stats H1)
      as [e1 [E1 [Sd [Sa St]]]].
    rewrite E1.
    destruct (IH (row_step prefix doc cs (body r)) e1 (seen stats))
      as [e2 [E2 [Sd2 [Sa2 St2]]]].
    { eapply covers_same; [exact Sa|exact St|exact H]. }
    exists e2. rewrite E2. split.
    + f_equal. unfold seen. simpl. f_equal. lia.
    + repeat split; congruence.
Qed.

Lemma store_row_documents doc f cs :
  documents (fst (store_row doc f cs)) = documents (fst cs).
Proof.
  unfold store_row. destruct cs as [conn stats].
  assert (H0 : documents (fst (_ensure_account conn (rf_account_iban f) None))
               = documents conn).
  { unfold _ensure_account. now destruct (select_account _ _ _ _). }
  destruct (_ensure_account conn (rf_account_iban f) None) as [conn1 acc].
  simpl in H0.
  match goal with
  | |- context [insert_or_ignore_transaction conn1 ?t] =>
      assert (H1 : documents (insert_or_ignore_transaction conn1 t)
                   = documents conn1)
        by (unfold insert_or_ignore_transaction;
            now destruct (existsb _ _));
      destruct (0 <? changes (insert_or_ignore_transaction conn1 t))
  end; simpl; congruence.
Qed.

Lemma row_step_documents prefix doc cs body :
  documents (fst (row_step prefix doc cs body)) = documents (fst cs).
Proof.
  unfold row_step. destruct body as [f|e]; [|reflexivity].
  apply (store_row_documents doc f (fst cs, seen (snd cs))).
Qed.

Lemma fold_documents {A} (body : A -> res row_fields) prefix doc
      (rows : list A) cs :
  documents (fst (fold_left (fun x r => row_step prefix doc x (body r))
                            rows cs))
  = documents (fst cs).
Proof.
  revert cs. induction rows as [|r rows IH]; intro cs; simpl;
    [reflexivity|]. rewrite IH. apply row_step_documents.
Qed.

(** After registration the digest resolves to the document returned, and
    registration touches neither accounts nor transactions. *)
Lemma register_csv_spec (conn : db) (f : csv_file) :
  let r := register_csv conn f in
  select_document (fst (fst r)) (csv_sha256 f) = Some (snd (fst r)) /\
  accounts (fst (fst r)) = accounts conn /\
  transactions (fst (fst r)) = transactions conn.
Proof.
  unfold register_csv, select_document.
  destruct (find _ (documents conn)) as [d|] eqn:F; simpl.
  - now rewrite F.
  - rewrite find_app, F. simpl. now rewrite str_eqb_refl.
Qed.

Lemma register_csv_known (conn : db) (f : csv_file) (d : Z) :
  select_document conn (csv_sha256 f) = Some d ->
  register_csv conn f
  = (insert_parse_event conn d "ingest" 1
       (py "Already imported; reprocessing parse only"), d, stats0).
Proof. unfold register_csv. now intros ->. Qed.

Lemma ingest_csv_unfold (conn : db) (f : csv_file) :
  ingest_csv_ing conn f =
  let r := register_csv conn f in
  let x := csv_rows_pass (snd (fst r)) f (fst (fst r), snd r) in
  (insert_parse_event (fst x) (snd (fst r)) "parse" 1
                      (summary "parsed rows" (snd x)),
   snd x).
Proof.
  unfold ingest_csv_ing, csv_rows_pass.
  destruct (register_csv conn f) as [[c0 d] st0]. cbn [fst snd].
  now destruct (fold_left _ _ _).
Qed.

Lemma ingest_csv_twice (conn : db) (f f' : csv_file) :
  same_content f f' ->
  let run1 := ingest_csv_ing conn f in
  let run2 := ingest_csv_ing (fst run1) f' in
  document_of (fst run1) f' = document_of conn f /\
  documents (fst run2) = documents (fst run1) /\
  accounts (fst run2) = accounts (fst run1) /\
  transactions (fst run2) = transactions (fst run1) /\
  docs_new (snd run2) = 0 /\ tx_new (snd run2) = 0.
Proof.
  intros [Hsha [Hnames Hrecs]]. cbv zeta.
  assert (Hrows : dict_rows f' = dict_rows f).
  { unfold dict_rows. now rewrite Hnames, Hrecs. }
  rewrite (ingest_csv_unfold conn f). cbv zeta.
  destruct (register_csv_spec conn f) as [Hsel [Hacc0 Htx0]].
  unfold document_of at 2.
  destruct (register_csv conn f) as [[c0 d] st0].
  cbn [fst snd] in *.
  pose proof (fold_documents csv_row_fields "row error" d (dict_rows f)
                (c0, st0)) as Hdocs.
  pose proof (fold_replay csv_row_fields "row error" "row error" d d
                (dict_rows f) (c0, st0)) as Hrep.
  fold (csv_rows_pass d f (c0, st0)) in Hdocs, Hrep.
  destruct (csv_rows_pass d f (c0, st0)) as [c1 st1].
  cbn [fst snd] in *.
  remember (insert_parse_event c1 d "parse" 1 (summary "parsed rows" st1))
    as e eqn:He.
  assert (Hsel' : select_document e (csv_sha256 f') = Some d).
  { rewrite Hsha, He. unfold select_document in *. simpl. now rewrite Hdocs. }
  rewrite (ingest_csv_unfold e f'). cbv zeta. unfold document_of.
  rewrite (register_csv_known e f' d Hsel'). cbn [fst snd].
  unfold csv_rows_pass. rewrite Hrows.
  remember (insert_parse_event e d "ingest" 1
              (py "Already imported; reprocessing parse only")) as e0 eqn:He0.
  destruct (Hrep e0 stats0) as [e1 [E1 [Sd [Sa St]]]].
  { rewrite He0, He. apply covers_same with (e := c1); auto using covers_refl. }
  rewrite E1. cbn [fst snd]. rewrite He0, He in *. simpl in *.
  repeat split; congruence.
Qed.

(** ** Parse events and counters of a run *)

Lemma store_row_events doc f cs :
  parse_events (fst (store_row doc f cs)) = parse_events (fst cs).
Proof.
  unfold store_row. destruct cs as [conn stats].
  assert (H0 : parse_events (fst (_ensure_account conn (rf_account_iban f) None))
               = parse_events conn).
  { unfold _ensure_account. now destruct (select_account _ _ _ _). }
  destruct (_ensure_account conn (rf_account_iban f) None) as [conn1 acc].
  simpl in H0.
  match goal with
  | |- context [insert_or_ignore_transaction conn1 ?t] =>
      assert (H1 : parse_events (insert_or_ignore_transaction conn1 t)
                   = parse_events conn1)
        by (unfold insert_or_ignore_transaction;
            now destruct (existsb _ _));
      destruct (0 <? changes (insert_or_ignore_transaction conn1 t))
  end; simpl; congruence.
Qed.




(** ** Fingerprints of the rows of a run *)

Lemma has_hash_iff (conn : db) (h : str) :
  has_hash conn h <-> existsb (str_eqb h) (hashes conn) = true.
Proof.
  unfold has_hash, hashes. induction (transactions conn) as [|t l IH]; simpl.
  - tauto.
  - rewrite !orb_true_iff, IH. rewrite !str_eqb_eq. intuition congruence.
Qed.

Lemma existsb_ext_iff {A} (p q : A -> bool) (l : list A) :
  (forall x, p x = q x) -> existsb p l = existsb q l.
Proof. intro H. induction l; simpl; [reflexivity|]. now rewrite H, IHl. Qed.


(** What [store_row] does to a row whose fingerprint is new. *)
Lemma store_row_fresh doc f conn stats e :
  covers (fst (store_row doc f (conn, stats))) e ->
  existsb (str_eqb (row_hash e f)) (hashes conn) = false ->
  let out := store_row doc f (conn, stats) in
  tx_new (snd out) = tx_new stats + 1 /\
  (exists t, transactions (fst out) = transactions conn ++ [t]
             /\ txn_hash t = row_hash e f).
Proof.
  unfold store_row. intros H Hnew.
  pose proof (ensure_account_stable conn (rf_account_iban f) None) as Hacc.
  assert (Ht0 : transactions (fst (_ensure_account conn (rf_account_iban f) None))
                = transactions conn).
  { unfold _ensure_account. now destruct (select_account _ _ _ _). }
  destruct (_ensure_account conn (rf_account_iban f) None) as [conn1 acc].
  simpl in Hacc, Ht0.
  match type of H with
  | context [insert_or_ignore_transaction conn1 ?t] =>
      pose proof (covers_insert_or_ignore conn1 t) as H1;
      assert (H3 : covers (insert_or_ignore_transaction conn1 t) e)
        by (destruct (0 <? changes (insert_or_ignore_transaction conn1 t));
            exact H)
  end.
  pose proof (Hacc e (covers_trans _ _ _ H1 H3)) as Hsel.
  unfold row_hash in Hnew. rewrite Hsel in Hnew.
  unfold insert_or_ignore_transaction. cbn [txn_hash]. rewrite Ht0.
  assert (E : existsb (fun u => str_eqb (txn_hash u)
                (compute_txn_hash
                   {| account_id := acc;
                      booking_date := rf_booking_iso f;
                      value_date := rf_value_date f;
                      amount_cents := rf_amount_cents f;
                      currency := py "EUR";
                      debit_credit := direction_of (rf_debit_credit f);
                      counterparty_iban_or_name :=
                        match rf_counterparty_iban f with
                        | Some i => i
                        | None => or_empty (rf_counterparty_name f)
                        end;
                      normalized_description :=
                        normalize_description (rf_description f) |}))
              (transactions conn) = false).
  { apply not_true_is_false. intro C. apply has_hash_iff in C.
    congruence. }
  rewrite E. cbv zeta. simpl. split; [reflexivity|].
  eexists. split; [reflexivity|]. simpl. unfold row_hash. now rewrite Hsel.
Qed.





(** ** The report *)














(** ** Linear patterns *)

Lemma mt_rep (r1 : re) lo hi cap prev s k :
  mt (Rep r1 lo hi) cap prev s k
  = rep_loop r1 k (S (List.length s)) lo hi cap prev s.
Proof. reflexivity. Qed.

Lemma rep_loop_S (r1 : re) k fuel lo hi cap prev s :
  rep_loop r1 k (S fuel) lo hi cap prev s
  = match
      match hi with
      | Some O => None
      | _ =>
          mt r1 cap prev s
             (fun cap' prev' s' =>
                if (List.length s' <? List.length s)%nat
                then rep_loop r1 k fuel (pred lo) (option_map pred hi)
                              cap' prev' s'
                else None)
      end
    with
    | Some x => Some x
    | None => match lo with O => k cap prev s | S _ => None end
    end.
Proof. reflexivity. Qed.

Lemma mt_ext (r : re) :
  forall k1 k2, same_cont k1 k2 ->
  forall cap prev s, mt r cap prev s k1 = mt r cap prev s k2.
Proof.
  induction r as [p| |r1 IH1 r2 IH2|r1 IH1 lo hi|r1 IH1|];
    intros k1 k2 H cap prev s.
  - simpl. destruct s as [|c s]; [reflexivity|]. now destruct (p c).
  - apply H.
  - simpl. apply IH1. intros cap' prev' s'. now apply IH2.
  - rewrite !mt_rep. generalize (S (List.length s)) as fuel.
    intro fuel. revert lo hi cap prev s.
    induction fuel as [|fuel IHf]; intros lo hi cap prev s; [reflexivity|].
    rewrite !rep_loop_S.
    assert (E : forall hi',
      mt r1 cap prev s
         (fun cap' prev' s' =>
            if (List.length s' <? List.length s)%nat
            then rep_loop r1 k1 fuel (pred lo) hi' cap' prev' s' else None)
      = mt r1 cap prev s
         (fun cap' prev' s' =>
            if (List.length s' <? List.length s)%nat
            then rep_loop r1 k2 fuel (pred lo) hi' cap' prev' s' else None)).
    { intro hi'. apply IH1. intros cap' prev' s'.
      destruct (_ <? _)%nat; [apply IHf|reflexivity]. }
    rewrite (H cap prev s).
    destruct hi as [[|h]|]; [reflexivity| |]; now rewrite E.
  - simpl. apply IH1. intros cap' prev' s'. apply H.
  - simpl. destruct (xorb _ _); [apply H|reflexivity].
Qed.

Lemma mtl_many (p : char -> bool) rest cap prev s k :
  mtl (AMany p :: rest) cap prev s k = many_loop p rest cap k prev s.
Proof. reflexivity. Qed.

Lemma many_loop_cons p rest cap k prev c s :
  many_loop p rest cap k prev (c :: s)
  = if p c then
      match many_loop p rest cap k (Some c) s with
      | Some x => Some x
      | None => mtl rest cap prev (c :: s) k
      end
    else mtl rest cap prev (c :: s) k.
Proof. reflexivity. Qed.

Lemma many_loop_nil p rest cap k prev :
  many_loop p rest cap k prev [] = mtl rest cap prev [] k.
Proof. reflexivity. Qed.

Lemma mtl_ext (atoms : list atom) :
  forall k1 k2, same_cont k1 k2 ->
  forall cap prev s, mtl atoms cap prev s k1 = mtl atoms cap prev s k2.
Proof.
  induction atoms as [|[p|p] rest IH]; intros k1 k2 H cap prev s.
  - apply H.
  - simpl. destruct s as [|c s]; [reflexivity|].
    destruct (p c); [now apply IH|reflexivity].
  - rewrite !mtl_many. revert prev.
    induction s as [|c s IHs]; intro prev.
    + rewrite !many_loop_nil. now apply IH.
    + rewrite !many_loop_cons, IHs, (IH k1 k2 H). reflexivity.
Qed.

Lemma mtl_app (a b : list atom) :
  forall cap prev s k,
    mtl (a ++ b) cap prev s k
    = mtl a cap prev s (fun cap' prev' s' => mtl b cap' prev' s' k).
Proof.
  induction a as [|[p|p] rest IH]; intros cap prev s k.
  - reflexivity.
  - simpl. destruct s as [|c s]; [reflexivity|].
    destruct (p c); [apply IH|reflexivity].
  - cbn [app]. rewrite !mtl_many. revert prev.
    induction s as [|c s IHs]; intro prev.
    + rewrite !many_loop_nil. apply IH.
    + rewrite !many_loop_cons, IHs, IH. reflexivity.
Qed.

(** [r{n,n}] on a class is [n] single characters. *)
Lemma rep_exact (p : char -> bool) (k : cont) :
  forall n fuel cap prev s,
    (List.length s < fuel)%nat ->
    rep_loop (Chr p) k fuel n (Some n) cap prev s
    = mtl (repeat (AOne p) n) cap prev s k.
Proof.
  induction n as [|n IH]; intros fuel cap prev s Hf;
    (destruct fuel as [|fuel]; [lia|]); rewrite rep_loop_S.
  - reflexivity.
  - cbn [repeat mtl mt]. destruct s as [|c s]; [reflexivity|].
    destruct (p c); [|reflexivity].
    assert (L : (List.length s <? List.length (c :: s))%nat = true)
      by (apply Nat.ltb_lt; simpl; lia).
    rewrite L. cbn [pred option_map]. simpl in Hf.
    rewrite IH by lia. now destruct (mtl _ _ _ _ _).
Qed.

(** [r*] on a class is a greedy run that may be given back. *)
Lemma rep_star (p : char -> bool) (k : cont) :
  forall s fuel cap prev,
    (List.length s < fuel)%nat ->
    rep_loop (Chr p) k fuel 0 None cap prev s
    = mtl [AMany p] cap prev s k.
Proof.
  induction s as [|c s IH]; intros fuel cap prev Hf;
    (destruct fuel as [|fuel]; [simpl in Hf; lia|]); rewrite rep_loop_S.
  - reflexivity.
  - rewrite mtl_many, many_loop_cons. cbn [mt].
    destruct (p c); [|reflexivity].
    assert (L : (List.length s <? List.length (c :: s))%nat = true)
      by (apply Nat.ltb_lt; simpl; lia).
    rewrite L. cbn [pred option_map]. simpl in Hf.
    rewrite IH by lia. now rewrite mtl_many.
Qed.

(** [r{n,}] on a class is [n] single characters, then a greedy run. *)
Lemma rep_at_least (p : char -> bool) (k : cont) :
  forall n fuel cap prev s,
    (List.length s < fuel)%nat ->
    rep_loop (Chr p) k fuel n None cap prev s
    = mtl (repeat (AOne p) n ++ [AMany p]) cap prev s k.
Proof.
  induction n as [|n IH]; intros fuel cap prev s Hf.
  - now apply rep_star.
  - destruct fuel as [|fuel]; [lia|]. rewrite rep_loop_S.
    cbn [repeat app mtl mt]. destruct s as [|c s]; [reflexivity|].
    destruct (p c); [|reflexivity].
    assert (L : (List.length s <? List.length (c :: s))%nat = true)
      by (apply Nat.ltb_lt; simpl; lia).
    rewrite L. cbn [pred option_map]. simpl in Hf.
    rewrite IH by lia. now destruct (mtl _ _ _ _ _).
Qed.

(** The matcher of a linear pattern is the matcher of its atoms. *)
Lemma mt_linear (r : re) :
  forall atoms, linearize r = Some atoms ->
  forall cap prev s k, mt r cap prev s k = mtl atoms cap prev s k.
Proof.
  induction r as [p| |r1 IH1 r2 IH2|r1 IH1 lo hi|r1 IH1|];
    intros atoms H cap prev s k; simpl in H; try discriminate.
  - now injection H as <-.
  - now injection H as <-.
  - destruct (linearize r1) as [a|]; [|discriminate].
    destruct (linearize r2) as [b|]; [|discriminate].
    injection H as <-. rewrite mtl_app. cbn [mt].
    rewrite (IH1 a eq_refl). apply mtl_ext.
    intros cap' prev' s'. now apply IH2.
  - destruct r1 as [p| | | | |]; try discriminate.
    rewrite mt_rep. destruct hi as [hi|].
    + destruct (Nat.eqb_spec lo hi) as [<-|]; [|discriminate].
      injection H as <-. apply rep_exact. lia.
    + injection H as <-. apply rep_at_least. lia.
Qed.

(** ** When nothing is given back *)

Lemma mtl_run (atoms : list atom) (k : cont) :
  blind k -> decided atoms k ->
  forall cap prev s,
    mtl atoms cap prev s k
    = match run atoms s with
      | Some rest => k cap None rest
      | None => None
      end.
Proof.
  intro Hb. induction atoms as [|[p|p] rest IH]; intros Hd cap prev s.
  - apply Hb.
  - simpl. destruct s as [|c s]; [reflexivity|].
    destruct (p c); [now apply IH|reflexivity].
  - destruct Hd as [Hd Hk]. rewrite mtl_many. cbn [run]. revert prev.
    induction s as [|c s IHs]; intro prev.
    + rewrite many_loop_nil. now apply IH.
    + rewrite many_loop_cons. cbn [drop_while].
      destruct (p c) eqn:Ep; [|now apply IH].
      rewrite IHs. destruct Hk as [Hk|Hk].
      * rewrite (Hk c s cap prev Ep).
        destruct (run rest (drop_while p s)) as [r|] eqn:Er;
          [|reflexivity].
        now destruct (k cap None r).
      * destruct (run rest (drop_while p s)) as [r|] eqn:Er.
        -- destruct (k cap None r) eqn:Ek; [reflexivity|].
           exfalso.
           pose proof (IH Hd cap None (drop_while p s)) as E.
           rewrite Er, Ek in E. now apply (Hk cap None (drop_while p s)).
        -- exfalso. pose proof (IH Hd cap None (drop_while p s)) as E.
           rewrite Er in E. now apply (Hk cap None (drop_while p s)).
Qed.

(** ** Substitution by match length *)





(** ** Facts about [run] *)

Lemma drop_while_suffix (p : char -> bool) (s : str) :
  exists m, s = m ++ drop_while p s /\ forallb p m = true.
Proof.
  induction s as [|c s [m [E F]]]; simpl.
  - now exists [].
  - destruct (p c) eqn:Ep.
    + exists (c :: m). simpl. rewrite Ep, F. split; [congruence|reflexivity].
    + now exists [].
Qed.

Lemma drop_while_all (p : char -> bool) (m q : str) :
  forallb p m = true -> drop_while p (m ++ q) = drop_while p q.
Proof.
  induction m as [|c m IH]; simpl; [reflexivity|].
  intro H. apply andb_true_iff in H as [Hc Hm]. rewrite Hc. now apply IH.
Qed.

Lemma drop_while_app (p : char -> bool) (s q : str) :
  drop_while p s <> [] -> drop_while p (s ++ q) = drop_while p s ++ q.
Proof.
  induction s as [|c s IH]; simpl; [congruence|].
  destruct (p c); [exact IH|reflexivity].
Qed.

Lemma run_suffix (atoms : list atom) :
  forall s r, run atoms s = Some r -> exists m, s = m ++ r.
Proof.
  induction atoms as [|[p|p] rest IH]; intros s r H; simpl in H.
  - injection H as <-. now exists [].
  - destruct s as [|c s]; [discriminate|]. destruct (p c); [|discriminate].
    destruct (IH s r H) as [m ->]. now exists (c :: m).
  - destruct (IH _ r H) as [m E].
    destruct (drop_while_suffix p s) as [m0 [E0 _]].
    exists (m0 ++ m). rewrite <- app_assoc, <- E. exact E0.
Qed.


Lemma sealed_needs_text (atoms : list atom) :
  sealed atoms -> atoms <> [] -> run atoms [] = None.
Proof.
  induction atoms as [|[p|p] rest IH]; intros Hs Hn; [congruence| |].
  - reflexivity.
  - simpl. destruct rest as [|a rest]; [contradiction|].
    apply IH; [exact Hs|discriminate].
Qed.

(** What a sealed pattern consumes does not depend on what follows. *)
Lemma run_sealed (atoms : list atom) :
  sealed atoms ->
  forall v r q, run atoms v = Some r -> run atoms (v ++ q) = Some (r ++ q).
Proof.
  induction atoms as [|[p|p] rest IH]; intros Hs v r q H.
  - simpl in *. now injection H as <-.
  - simpl in *. destruct v as [|c v]; [discriminate|]. simpl.
    destruct (p c); [|discriminate]. apply IH; [|exact H].
    destruct rest; [exact I|exact Hs].
  - simpl in H |- *. destruct rest as [|a rest]; [contradiction|].
    destruct (drop_while p v) as [|c t] eqn:E.
    + rewrite sealed_needs_text in H; [discriminate|exact Hs|discriminate].
    + rewrite drop_while_app by (rewrite E; discriminate). rewrite E.
      now apply IH.
Qed.

(** ** Matches that start before a token *)

Lemma inert_tail X a rest : inert_all X (a :: rest) -> inert_all X rest.
Proof. now intros [_ H]. Qed.

Lemma inert_head X atoms :
  inert_all X atoms ->
  (forall x, X x -> run atoms x = None)
  \/ (forall x, X x -> run atoms x = Some x).
Proof. destruct atoms; now intros [H _]. Qed.

(** A match begun in [p] ends in [p], at the same place whatever text of
    [X] follows. *)
Lemma run_before (X : str -> Prop) (x1 x2 : str) :
  X x1 -> X x2 ->
  forall p atoms, inert_all X atoms ->
    (run atoms (p ++ x1) = None /\ run atoms (p ++ x2) = None)
    \/ (exists l r, p = l ++ r /\ run atoms (p ++ x1) = Some (r ++ x1)
                    /\ run atoms (p ++ x2) = Some (r ++ x2)).
Proof.
  intros H1 H2. induction p as [|c p IHp]; intros atoms Hi.
  - cbn [app]. destruct (inert_head _ _ Hi) as [Hn|Hs].
    + left. now rewrite (Hn x1 H1), (Hn x2 H2).
    + right. exists [], []. now rewrite (Hs x1 H1), (Hs x2 H2).
  - revert Hi. induction atoms as [|[q|q] rest IHa]; intro Hi.
    + right. exists [], (c :: p). now repeat split.
    + cbn [app run]. destruct (q c); [|now left].
      destruct (IHp rest (inert_tail _ _ _ Hi)) as [N|[l [r [E [R1 R2]]]]];
        [now left|]. right. exists (c :: l), r. subst p. now repeat split.
    + cbn [app run drop_while]. destruct (q c) eqn:Eq.
      * destruct (IHp (AMany q :: rest) Hi) as [N|[l [r [E [R1 R2]]]]];
          [now left|]. right. exists (c :: l), r. subst p.
        now repeat split.
      * apply (IHa (inert_tail _ _ _ Hi)).
Qed.

(** ** The patterns of the program as atoms *)


Lemma space_not_decimal (c : char) : isspace c = true -> isdecimal c = false.
Proof.
  unfold isspace, isdecimal, in_range. intro H.
  destruct (N.leb_spec 48 c), (N.leb_spec c 57); try reflexivity. exfalso.
  repeat (apply orb_true_iff in H as [H|H]);
    repeat (apply andb_true_iff in H as [? H]);
    repeat match goal with
      | E : N.leb _ _ = true |- _ => apply N.leb_le in E
      | E : N.eqb _ _ = true |- _ => apply N.eqb_eq in E
      end; lia.
Qed.


Lemma decided_ones (l : list char) (f : char -> char -> bool)
      (rest : list atom) (k : cont) :
  decided rest k -> decided (map (fun c => AOne (f c)) l ++ rest) k.
Proof. intro H. induction l; simpl; assumption. Qed.














(** ** Tokens *)


















(** ** Card sequence numbers *)






(** ** The value date *)

Lemma match_here_valuta (prev : option char) (s : str) :
  match_here _VALUTADATUM_RE prev s = valuta_at s.
Proof.
  unfold match_here, valuta_at.
  set (K2 := fun (cap : option str) (prev : option char) (s2 : str) =>
               mt (Grp date_dmy_re) cap prev s2
                  (fun cap' prev' s' => mt Eps cap' prev' s' final)).
  change (mt _VALUTADATUM_RE None prev s
             (fun (cap : option str) (_ : option char) (rest : str) =>
                Some (cap, rest)))
    with (mt (Cat (lit "Valutadatum:") (star space)) None prev s K2).
  rewrite (mt_linear (Cat (lit "Valutadatum:") (star space))
             valuta_head_atoms eq_refl).
  set (K3 := fun (cap : option str) (_ : option char) (s2 : str) =>
               match run date_atoms s2 with
               | Some rest =>
                   Some (Some (firstn (List.length s2 - List.length rest) s2),
                         rest)
               | None => None
               end).
  assert (E : same_cont K2 K3).
  { intros cap pv s2. unfold K2, K3. cbn [mt].
    rewrite (mt_linear date_dmy_re date_atoms eq_refl).
    rewrite mtl_run.
    - now destruct (run date_atoms s2).
    - intros ? ? ? ?. reflexivity.
    - exact I. }
  rewrite (mtl_ext _ _ _ E).
  rewrite mtl_run.
  - unfold K3. now destruct (run valuta_head_atoms s).
  - intros ? ? ? ?. reflexivity.
  - unfold valuta_head_atoms, lit_atoms_cs.
    apply (decided_ones _ (fun c => N.eqb c)). cbn [decided]. split; [exact I|].
    left. intros c s' cap pv Hc. cbn [mtl]. unfold K3.
    cbn [date_atoms two_digits app run]. now rewrite (space_not_decimal c Hc).
Qed.

Lemma run_literal (l : list char) (T : list atom) :
  forall s r,
    run (map (fun c => AOne (N.eqb c)) l ++ T) s = Some r ->
    exists b, s = l ++ b /\ run T b = Some r.
Proof.
  induction l as [|c l IH]; intros s r H.
  - now exists s.
  - cbn [map app run] in H. destruct s as [|x s]; [discriminate|].
    destruct (N.eqb_spec c x) as [<-|]; [|discriminate].
    destruct (IH s r H) as [b [-> Hb]]. now exists b.
Qed.


Lemma occurs_cons (m s : str) (c : char) : occurs m s -> occurs m (c :: s).
Proof. intros [a [b ->]]. now exists (c :: a), b. Qed.

Lemma run_cons_one (p0 : char -> bool) (T : list atom) (c : char)
      (s r : str) :
  run (AOne p0 :: T) (c :: s) = Some r -> run T s = Some r.
Proof. simpl. now destruct (p0 c). Qed.


Lemma valuta_inert_V : inert_all begins_V (tl valuta_head_atoms).
Proof.
  cbn. repeat split;
    first [ left; intros x [rest ->]; reflexivity
          | right; intros x [rest ->]; reflexivity ].
Qed.

Lemma date_atoms_sealed : sealed date_atoms.
Proof. exact I. Qed.

Lemma valuta_at_marker_date (ws g post : str) :
  forallb isspace ws = true -> date_shaped g ->
  valuta_at (py "Valutadatum:" ++ ws ++ g ++ post) = Some (Some g, post).
Proof.
  intros Hw Hg. unfold valuta_at.
  assert (Hd : drop_while isspace (ws ++ g ++ post) = g ++ post).
  { rewrite drop_while_all by exact Hw.
    unfold date_shaped in Hg.
    destruct g as [|c g]; [discriminate|]. cbn in Hg |- *.
    destruct (isdecimal c) eqn:Ec; [|discriminate].
    destruct (isspace c) eqn:Es; [|reflexivity].
    now rewrite (space_not_decimal c Es) in Ec. }
  assert (Hh : run valuta_head_atoms (py "Valutadatum:" ++ ws ++ g ++ post)
               = Some (g ++ post)).
  { cbn. cbn in Hd. now rewrite Hd. }
  rewrite Hh.
  rewrite (run_sealed date_atoms date_atoms_sealed g [] post Hg).
  cbn [app]. rewrite length_app.
  replace (List.length g + List.length post - List.length post)%nat
    with (List.length g) by lia.
  now rewrite firstn_app, Nat.sub_diag, firstn_all, app_nil_r.
Qed.

(** The first marker that is followed by a date gives the value date. *)
Lemma search_valuta_found (pre ws g post : str) :
  ~ occurs (py "Valutadatum:") pre ->
  forallb isspace ws = true -> date_shaped g ->
  forall prev,
    search_from _VALUTADATUM_RE prev
                (pre ++ py "Valutadatum:" ++ ws ++ g ++ post)
    = Some (Some g, post).
Proof.
  intros Hn Hw Hg. set (x := py "Valutadatum:" ++ ws ++ g ++ post).
  assert (Hx : begins_V x) by (eexists; reflexivity).
  induction pre as [|c p IH]; intro prev.
  - cbn [app]. destruct x eqn:Ex; [discriminate|].
    cbn [search_from]. rewrite match_here_valuta, <- Ex.
    unfold x. now rewrite valuta_at_marker_date.
  - cbn [app search_from]. rewrite match_here_valuta.
    destruct (valuta_at (c :: p ++ x)) as [o|] eqn:E.
    + exfalso. apply Hn. unfold valuta_at in E.
      destruct (run valuta_head_atoms (c :: p ++ x)) as [s2|] eqn:E2;
        [|discriminate]. clear E.
      destruct (run_literal _ _ _ _ E2) as [b [Hb Hr]].
      cbn [run] in Hr. injection Hr as Hr.
      assert (E3 : run (tl valuta_head_atoms) (p ++ x) = Some s2)
        by (apply (run_cons_one (N.eqb 86) _ c); exact E2).
      destruct (run_before begins_V x x Hx Hx p (tl valuta_head_atoms)
                           valuta_inert_V)
        as [[N1 _]|[l [r [Ep [R1 _]]]]]; [congruence|].
      assert (Es2 : s2 = r ++ x) by congruence.
        destruct (drop_while_suffix isspace b) as [m [Em _]].
        rewrite Hr, Es2 in Em. rewrite Em in Hb.
        assert (Ec : c :: p = py "Valutadatum:" ++ m ++ r).
        { apply (app_inv_tail x). rewrite <- !app_assoc.
          cbn [app] in Hb |- *. exact Hb. }
        exists [], (m ++ r). exact Ec.
    + apply IH. intro C. apply Hn. now apply occurs_cons.
Qed.

(** ** Events of a run *)

Lemma logged_refl P conn : logged P conn conn.
Proof. exists []. split; [now rewrite app_nil_r|constructor]. Qed.

Lemma logged_trans P a b c : logged P a b -> logged P b c -> logged P a c.
Proof.
  intros [n1 [E1 F1]] [n2 [E2 F2]]. exists (n1 ++ n2). split.
  - now rewrite E2, E1, app_assoc.
  - apply Forall_app. now split.
Qed.

Lemma logged_same P a b : parse_events b = parse_events a -> logged P a b.
Proof. intro H. exists []. split; [now rewrite app_nil_r|constructor]. Qed.

Lemma logged_event (P : parse_event -> Prop) conn doc stage ok msg :
  P {| ev_document_id := doc; ev_stage := py stage; ev_ok := ok;
       ev_message := msg |} ->
  logged P conn (insert_parse_event conn doc stage ok msg).
Proof. intro H. eexists. split; [reflexivity|]. now repeat constructor. Qed.

Lemma logged_fold {A} (P : parse_event -> Prop)
      (step : db * IngestStats -> A -> db * IngestStats) (rows : list A) :
  (forall cs a, logged P (fst cs) (fst (step cs a))) ->
  forall cs, logged P (fst cs) (fst (fold_left step rows cs)).
Proof.
  intro H. induction rows as [|a rows IH]; intro cs; simpl.
  - apply logged_refl.
  - eapply logged_trans; [apply H|apply IH].
Qed.

Lemma logged_row_step prefix doc cs body :
  logged parse_stage (fst cs) (fst (row_step prefix doc cs body)).
Proof.
  unfold row_step. destruct body as [f|e].
  - apply logged_same.
    apply (store_row_events doc f (fst cs, seen (snd cs))).
  - now apply logged_event.
Qed.

Lemma logged_pdf_row_step doc acc cs cand :
  logged parse_stage (fst cs) (fst (pdf_row_step doc acc cs cand)).
Proof.
  unfold pdf_row_step. destruct (pdf_row_fields cand) as [f|e].
  - apply logged_same. unfold pdf_store_row. simpl.
    match goal with
    | |- context [insert_or_ignore_transaction ?c ?t] =>
        assert (H2 : parse_events (insert_or_ignore_transaction c t)
                     = parse_events c)
          by (unfold insert_or_ignore_transaction;
              now destruct (existsb _ _));
        destruct (0 <? changes (insert_or_ignore_transaction c t))
    end; exact H2.
  - now apply logged_event.
Qed.

Lemma ingest_events_logged (a b : db) :
  logged parse_stage a b -> ingest_events b = ingest_events a.
Proof.
  intros [new [E F]]. unfold ingest_events. rewrite E, filter_app.
  rewrite <- (app_nil_r (filter _ (parse_events a))) at 2. f_equal.
  clear E. induction F as [|e l He _ IH]; [reflexivity|]. cbn [filter].
  unfold parse_stage in He. rewrite He.
  change (str_eqb (py "parse") (py "ingest")) with false. exact IH.
Qed.

Lemma logged_register_xls P conn f :
  logged P conn (fst (fst (register_xls conn f))).
Proof.
  unfold register_xls. destruct (select_document _ _); simpl;
    now apply logged_same.
Qed.

Lemma logged_register_pdf P conn f :
  logged P conn (fst (fst (register_pdf conn f))).
Proof.
  unfold register_pdf. destruct (select_document _ _); simpl;
    now apply logged_same.
Qed.

Lemma xls_logged env conn f :
  logged parse_stage conn (fst (ingest_xls env conn f)).
Proof.
  unfold ingest_xls.
  pose proof (logged_register_xls parse_stage conn f) as H0.
  destruct (register_xls conn f) as [[conn0 doc] stats]. simpl in H0.
  destruct (load_rows env f) as [[headers rows]|e].
  - match goal with
    | |- context [fold_left ?step ?rows ?cs] =>
        pose proof (logged_fold parse_stage step rows
                      (fun x r => logged_row_step "xls row error" doc x _)
                      cs) as H1;
        destruct (fold_left step rows cs) as [conn1 stats1]
    end. simpl in *.
    eapply logged_trans; [exact H0|]. eapply logged_trans; [exact H1|].
    now apply logged_event.
  - destruct (is_module_not_found e); simpl; [|exact H0].
    eapply logged_trans; [exact H0|now apply logged_event].
Qed.

Lemma pdf_parse_logged conn doc stats f :
  logged parse_stage conn (fst (fst (pdf_parse conn doc stats f))).
Proof.
  unfold pdf_parse.
  destruct (bind (pdf_pages f) _) as [texts|e]; [|apply logged_refl].
  unfold pdf_account.
  destruct (match _guess_account_iban _ with Some i => _ | None => _ end)
    as [iban no].
  assert (H0 : logged parse_stage conn
                      (insert_or_ignore_account conn (py "ING") iban no)).
  { apply logged_same. unfold insert_or_ignore_account.
    now destruct (select_account _ _ _ _). }
  destruct (select_account _ _ _ _) as [acc|]; [|exact H0].
  match goal with
  | |- context [fold_left ?step ?rows ?cs] =>
      pose proof (logged_fold parse_stage step rows
                    (fun x c => logged_pdf_row_step doc acc x c) cs) as H1;
      destruct (fold_left step rows cs) as [conn1 stats1]
  end. simpl in *.
  eapply logged_trans; [exact H0|]. eapply logged_trans; [exact H1|].
  now apply logged_event.
Qed.

Lemma pdf_logged env conn f :
  logged parse_stage conn (fst (ingest_pdf_generic env conn f)).
Proof.
  unfold ingest_pdf_generic.
  pose proof (logged_register_pdf parse_stage conn f) as H0.
  destruct (register_pdf conn f) as [[conn0 doc] stats]. simpl in H0.
  destruct (has_pdfplumber env).
  - pose proof (pdf_parse_logged conn0 doc stats f) as H1.
    destruct (pdf_parse conn0 doc stats f) as [[conn1 stats1] [e|]];
      simpl in *.
    + destruct (is_module_not_found e); simpl;
        (eapply logged_trans; [exact H0|]; eapply logged_trans;
         [exact H1|now apply logged_event]).
    + eapply logged_trans; [exact H0|exact H1].
  - simpl. eapply logged_trans; [exact H0|now apply logged_event].
Qed.

(** ** Dates *)

Lemma round_to_int_nearest (m e n : Z) :
  PyFloat.round_to_int (PyFloat.Fin m e) = Ok n ->
  (0 <= e -> n = m * 2 ^ e) /\
  (e < 0 -> Z.abs (2 * (m - 2 ^ (- e) * n)) <= 2 ^ (- e)).
Proof.
  unfold PyFloat.round_to_int. intro H. injection H as <-. split; intro He.
  - destruct (Z.leb_spec 0 e); [reflexivity|lia].
  - destruct (Z.leb_spec 0 e); [lia|].
    apply div_half_even_nearest. apply Z.pow_pos_nonneg; lia.
Qed.


Lemma try_extract_marked (pre ws g post : str) :
  ~ occurs (py "Valutadatum:") pre ->
  forallb isspace ws = true -> date_shaped g ->
  try_extract_value_date (pre ++ py "Valutadatum:" ++ ws ++ g ++ post)
  = (d <- Datetime.strptime_dmy_iso g ;; Ok (Some d)).
Proof.
  intros Hn Hw Hg. unfold try_extract_value_date, search.
  now rewrite (search_valuta_found pre ws g post Hn Hw Hg None).
Qed.





(** ** The row loop *)






(** ** Volatile substrings *)












(** ** Rows met before *)

Lemma passed_in {A} (l : list (res A)) (a : A) :
  In a (passed l) <-> In (Ok a) l.
Proof.
  induction l as [|[b|e] l IH]; simpl.
  - tauto.
  - rewrite IH. split; intros [H|H]; auto; left; congruence.
  - rewrite IH. split; [auto|]. intros [H|H]; [discriminate|exact H].
Qed.



(** Rows whose fields are those of a row already stored leave the
    transactions and the count of new ones as they are. *)
Lemma fold_known {A} (body : A -> res row_fields) prefix doc doc0
      (rows : list A) (f0 : row_fields) (cs0 : db * IngestStats) :
  (forall f, In f (passed (map body rows)) -> f = f0) ->
  forall cs, covers (fst (store_row doc0 f0 cs0)) (fst cs) ->
    let out := fold_left (fun x r => row_step prefix doc x (body r)) rows cs in
    transactions (fst out) = transactions (fst cs)
    /\ tx_new (snd out) = tx_new (snd cs).
Proof.
  induction rows as [|r rows IH]; intros Hf cs Hc; cbn [fold_left].
  - split; reflexivity.
  - assert (Hrest : forall f, In f (passed (map body rows)) -> f = f0).
    { intros f Hin. apply Hf. cbn [map passed].
      destruct (body r); [right|]; exact Hin. }
    destruct (body r) as [f|e] eqn:Eb.
    + assert (f = f0) by (apply Hf; cbn [map passed]; rewrite Eb; now left).
      subst f.
      change (row_step prefix doc cs (Ok f0))
        with (store_row doc f0 (fst cs, seen (snd cs))).
      destruct (store_row_replay doc0 doc f0 cs0 (fst cs) (seen (snd cs)) Hc)
        as [e' [E' [Sd [Sa St]]]].
      rewrite E'.
      destruct (IH Hrest (e', seen (snd cs))) as [H1 H2].
      { cbn [fst]. eapply covers_same; [exact Sa|exact St|exact Hc]. }
      cbv zeta in H1, H2. cbn [fst snd] in H1, H2.
      split; [now rewrite H1|now rewrite H2].
    + change (row_step prefix doc cs (Raise e))
        with (insert_parse_event (fst (fst cs, seen (snd cs))) doc
                "parse" 0 (row_error prefix e),
              snd (fst cs, seen (snd cs))).
      destruct (IH Hrest
                  (insert_parse_event (fst (fst cs, seen (snd cs))) doc
                     "parse" 0 (row_error prefix e),
                   snd (fst cs, seen (snd cs)))) as [H1 H2].
      { cbn [fst snd]. eapply covers_trans; [exact Hc|apply covers_event]. }
      cbv zeta in H1, H2. cbn [fst snd] in H1, H2 |- *.
      split; [now rewrite H1|now rewrite H2].
Qed.


(** The "ingest" event of the CSV path says whether the digest was
    known. *)
Lemma csv_ingest_event (conn : db) (f : csv_file) :
  ingest_events (fst (ingest_csv_ing conn f))
  = ingest_events conn
    ++ [{| ev_document_id := document_of conn f; ev_stage := py "ingest";
           ev_ok := 1;
           ev_message :=
             match select_document conn (csv_sha256 f) with
             | Some _ => py "Already imported; reprocessing parse only"
             | None => py "New document imported"
             end |}].
Proof.
  rewrite ingest_csv_unfold. cbv zeta. unfold document_of.
  assert (H0 : ingest_events (fst (fst (register_csv conn f)))
               = ingest_events conn
                 ++ [{| ev_document_id := snd (fst (register_csv conn f));
                        ev_stage := py "ingest"; ev_ok := 1;
                        ev_message :=
                          match select_document conn (csv_sha256 f) with
                          | Some _ =>
                              py "Already imported; reprocessing parse only"
                          | None => py "New document imported"
                          end |}]).
  { unfold register_csv.
    destruct (select_document conn (csv_sha256 f));
      unfold ingest_events; simpl; rewrite filter_app; reflexivity. }
  destruct (register_csv conn f) as [[c0 d] st0]. cbn [fst snd] in *.
  rewrite <- H0. apply ingest_events_logged.
  eapply logged_trans; [|now apply logged_event].
  apply (logged_fold parse_stage). intros. apply logged_row_step.
Qed.

(** ** Missing libraries *)

Lemma xls_missing (env : environment) (conn : db) (f : xls_file) :
  xls_library_missing env f ->
  let out := ingest_xls env conn f in
  exists stats,
    snd out = Ok stats /\ tx_seen stats = 0 /\ tx_new stats = 0 /\
    transactions (fst out) = transactions conn /\
    parse_events (fst out)
    = parse_events conn
      ++ [{| ev_document_id := xls_document_of conn f;
             ev_stage := py "parse"; ev_ok := 0;
             ev_message := py "Excel parser missing: No module named '"
                           ++ py (xls_library f) ++ py "'" |}].
Proof.
  unfold xls_library_missing, xls_library. intro H. cbv zeta.
  unfold ingest_xls, xls_document_of.
  assert (H0 : transactions (fst (fst (register_xls conn f)))
               = transactions conn
               /\ parse_events (fst (fst (register_xls conn f)))
                  = parse_events conn
               /\ tx_seen (snd (register_xls conn f)) = 0
               /\ tx_new (snd (register_xls conn f)) = 0).
  { unfold register_xls.
    destruct (select_document conn (xls_sha256 f)); cbn; auto. }
  destruct H0 as [Ht [He [Hs Hn]]].
  destruct (register_xls conn f) as [[c0 d] st0]. cbn [fst snd] in *.
  unfold load_rows.
  destruct (str_eqb (lower (xls_suffix f)) (py ".xlsx")); rewrite H;
    exists st0; cbn; rewrite He; auto.
Qed.

Lemma pdf_missing (env : environment) (conn : db) (f : pdf_file) :
  has_pdfplumber env = false ->
  let out := ingest_pdf_generic env conn f in
  tx_seen (snd out) = 0 /\ tx_new (snd out) = 0 /\
  transactions (fst out) = transactions conn /\
  parse_events (fst out)
  = parse_events conn
    ++ [{| ev_document_id := snd (fst (register_pdf conn f));
           ev_stage := py "parse"; ev_ok := 0;
           ev_message := py "pdfplumber not installed; cannot parse PDF." |}].
Proof.
  intro H. cbv zeta. unfold ingest_pdf_generic.
  assert (H0 : transactions (fst (fst (register_pdf conn f)))
               = transactions conn
               /\ parse_events (fst (fst (register_pdf conn f)))
                  = parse_events conn
               /\ tx_seen (snd (register_pdf conn f)) = 0
               /\ tx_new (snd (register_pdf conn f)) = 0).
  { unfold register_pdf.
    destruct (select_document conn (pdf_sha256 f)); cbn; auto. }
  destruct H0 as [Ht [He [Hs Hn]]].
  destruct (register_pdf conn f) as [[c0 d] st0]. cbn [fst snd] in *.
  rewrite H. cbn. rewrite He. auto.
Qed.

(** ** Text that holds a marker *)

Lemma startswith_app (m b : str) : startswith m (m ++ b) = true.
Proof.
  induction m as [|c m IH]; simpl; [reflexivity|].
  now rewrite N.eqb_refl, IH.
Qed.

Lemma occurs_holds (m s : str) : occurs m s -> holds m s = true.
Proof.
  intros [a [b ->]]. induction a as [|c a IH].
  - cbn [app]. destruct (m ++ b) eqn:E; cbn [holds]; rewrite <- E;
      now rewrite startswith_app.
  - cbn [app holds]. rewrite IH. apply orb_true_r.
Qed.

Lemma holds_not_occurs (m s : str) : holds m s = false -> ~ occurs m s.
Proof. intros H C. apply occurs_holds in C. congruence. Qed.

(** ** Re-ingestion of workbooks and PDF files *)

Lemma register_xls_spec (conn : db) (f : xls_file) :
  let r := register_xls conn f in
  select_document (fst (fst r)) (xls_sha256 f) = Some (snd (fst r)) /\
  accounts (fst (fst r)) = accounts conn /\
  transactions (fst (fst r)) = transactions conn.
Proof.
  unfold register_xls, select_document.
  destruct (find _ (documents conn)) as [d|] eqn:F; simpl.
  - now rewrite F.
  - rewrite find_app, F. simpl. now rewrite str_eqb_refl.
Qed.

Lemma register_xls_known (conn : db) (f : xls_file) (d : Z) :
  select_document conn (xls_sha256 f) = Some d ->
  register_xls conn f = (conn, d, stats0).
Proof. unfold register_xls. now intros ->. Qed.

Lemma register_pdf_spec (conn : db) (f : pdf_file) :
  let r := register_pdf conn f in
  select_document (fst (fst r)) (pdf_sha256 f) = Some (snd (fst r)) /\
  accounts (fst (fst r)) = accounts conn /\
  transactions (fst (fst r)) = transactions conn.
Proof.
  unfold register_pdf, select_document.
  destruct (find _ (documents conn)) as [d|] eqn:F; simpl.
  - now rewrite F.
  - rewrite find_app, F. simpl. now rewrite str_eqb_refl.
Qed.

Lemma register_pdf_known (conn : db) (f : pdf_file) (d : Z) :
  select_document conn (pdf_sha256 f) = Some d ->
  register_pdf conn f = (conn, d, stats0).
Proof. unfold register_pdf. now intros ->. Qed.

Lemma select_document_same (a b : db) (sha : str) :
  documents b = documents a -> select_document b sha = select_document a sha.
Proof. unfold select_document. now intros ->. Qed.

(** What a first run over a workbook leaves: the digest resolves to the
    document, and the state covers the one the row loop ended in. *)
Lemma xls_first_run (env : environment) (conn : db) (f : xls_file) :
  let run1 := ingest_xls env conn f in
  let d := xls_document_of conn f in
  select_document (fst run1) (xls_sha256 f) = Some d /\
  (forall headers rows,
     load_rows env f = Ok (headers, rows) ->
     exists cs,
       covers (fst (fold_left
                      (fun x r => row_step "xls row error" d x
                         (xls_row_fields env (resolve_columns headers) r))
                      rows cs))
              (fst run1)).
Proof.
  cbv zeta. unfold ingest_xls, xls_document_of.
  destruct (register_xls_spec conn f) as [Hsel _].
  destruct (register_xls conn f) as [[c0 d] st0]. cbn [fst snd] in *.
  destruct (load_rows env f) as [[headers rows]|ex].
  - pose proof (fold_documents (xls_row_fields env (resolve_columns headers))
                  "xls row error" d rows (c0, st0)) as Hdocs.
    split.
    + destruct (fold_left _ rows (c0, st0)) as [c1 st1]. cbn [fst snd] in *.
      unfold select_document in *. simpl. now rewrite Hdocs.
    + intros h r E. injection E as <- <-. exists (c0, st0).
      destruct (fold_left _ rows (c0, st0)) as [c1 st1]. cbn [fst snd].
      apply covers_event.
  - split; [|intros; discriminate].
    destruct (is_module_not_found ex); exact Hsel.
Qed.

(** A run from a state that knows the document and covers a run over the
    same rows adds nothing. *)
Lemma xls_second_run (env : environment) (e : db) (f' : xls_file) (d : Z) :
  select_document e (xls_sha256 f') = Some d ->
  (forall headers rows,
     load_rows env f' = Ok (headers, rows) ->
     exists cs,
       covers (fst (fold_left
                      (fun x r => row_step "xls row error" d x
                         (xls_row_fields env (resolve_columns headers) r))
                      rows cs))
              e) ->
  let run2 := ingest_xls env e f' in
  xls_document_of e f' = d /\
  documents (fst run2) = documents e /\
  transactions (fst run2) = transactions e /\
  (forall stats, snd run2 = Ok stats -> nothing_new stats).
Proof.
  intros Hsel Hcov. cbv zeta. unfold ingest_xls, xls_document_of.
  rewrite (register_xls_known e f' d Hsel). cbn [fst snd].
  split; [reflexivity|].
  destruct (load_rows env f') as [[headers rows]|ex].
  - destruct (Hcov headers rows eq_refl) as [cs Hc].
    destruct (fold_replay (xls_row_fields env (resolve_columns headers))
                "xls row error" "xls row error" d d rows cs e stats0 Hc)
      as [e1 [E1 [Sd [Sa St]]]].
    rewrite E1. cbn [fst snd insert_parse_event documents transactions].
    split; [exact Sd|]. split; [exact St|].
    intros stats H. injection H as <-. split; reflexivity.
  - destruct (is_module_not_found ex); cbn [fst snd].
    + split; [reflexivity|]. split; [reflexivity|].
      intros stats H. injection H as <-. split; reflexivity.
    + split; [reflexivity|]. split; [reflexivity|].
      intros stats H. discriminate.
Qed.

Lemma ingest_xls_twice (env : environment) (conn : db) (f f' : xls_file) :
  same_book f f' ->
  let run1 := ingest_xls env conn f in
  let run2 := ingest_xls env (fst run1) f' in
  xls_document_of (fst run1) f' = xls_document_of conn f /\
  documents (fst run2) = documents (fst run1) /\
  transactions (fst run2) = transactions (fst run1) /\
  (forall stats, snd run2 = Ok stats -> nothing_new stats).
Proof.
  intros [Hsha [Hsuf Hbook]]. cbv zeta.
  assert (Hload : load_rows env f' = load_rows env f).
  { unfold load_rows. now rewrite Hsuf, Hbook. }
  destruct (xls_first_run env conn f) as [Hsel Hcov]. cbv zeta in Hsel, Hcov.
  apply xls_second_run.
  - now rewrite Hsha.
  - intros headers rows E. rewrite Hload in E. exact (Hcov headers rows E).
Qed.

(** *** PDF files *)

Lemma pdf_store_row_covers doc acc f cs :
  covers (fst cs) (fst (pdf_store_row doc acc f cs)).
Proof.
  unfold pdf_store_row. destruct cs as [conn stats]. cbn [fst].
  match goal with
  | |- context [insert_or_ignore_transaction conn ?t] =>
      pose proof (covers_insert_or_ignore conn t) as H1;
      destruct (0 <? changes (insert_or_ignore_transaction conn t))
  end; exact H1.
Qed.

Lemma pdf_row_step_covers doc acc cs cand :
  covers (fst cs) (fst (pdf_row_step doc acc cs cand)).
Proof.
  unfold pdf_row_step. destruct (pdf_row_fields cand) as [f|e].
  - apply (pdf_store_row_covers doc acc f (fst cs, seen (snd cs))).
  - apply covers_event.
Qed.

Lemma pdf_store_row_replay doc doc' acc f cs e stats :
  covers (fst (pdf_store_row doc acc f cs)) e ->
  exists e', pdf_store_row doc' acc f (e, stats) = (e', stats)
             /\ same_rows e e'.
Proof.
  unfold pdf_store_row. destruct cs as [conn st]. intro H.
  match type of H with
  | context [insert_or_ignore_transaction conn ?t] =>
      pose proof (has_hash_inserted conn t) as H2;
      assert (H3 : covers (insert_or_ignore_transaction conn t) e)
        by (destruct (0 <? changes (insert_or_ignore_transaction conn t));
            exact H)
  end.
  destruct H3 as [_ H3]. apply H3 in H2. cbn [txn_hash] in H2.
  rewrite insert_existing by exact H2. cbn.
  eexists. split; [reflexivity|]. repeat split.
Qed.

Lemma pdf_row_step_replay doc doc' acc cand cs e stats :
  covers (fst (pdf_row_step doc acc cs cand)) e ->
  exists e', pdf_row_step doc' acc (e, stats) cand = (e', seen stats)
             /\ same_rows e e'.
Proof.
  unfold pdf_row_step. destruct (pdf_row_fields cand) as [f|ex]; intro H.
  - apply (pdf_store_row_replay doc doc' acc f (fst cs, seen (snd cs)) e
             (seen stats)).
    exact H.
  - eexists. split; [reflexivity|]. repeat split.
Qed.

Lemma pdf_fold_replay doc doc' acc (cands : list (str * str * str)) :
  forall cs e stats,
    covers (fst (fold_left (pdf_row_step doc acc) cands cs)) e ->
    exists e',
      fold_left (pdf_row_step doc' acc) cands (e, stats)
      = (e', {| docs_new := docs_new stats;
                tx_seen := tx_seen stats + Z.of_nat (List.length cands);
                tx_new := tx_new stats |})
      /\ same_rows e e'.
Proof.
  induction cands as [|r cands IH]; intros cs e stats H; simpl in *.
  - exists e. split; [|repeat split]. f_equal. destruct stats; simpl.
    f_equal. lia.
  - assert (H1 : covers (fst (pdf_row_step doc acc cs r)) e).
    { eapply covers_trans; [|exact H].
      apply (fold_covers (pdf_row_step doc acc)).
      intros. apply pdf_row_step_covers. }
    destruct (pdf_row_step_replay doc doc' acc r cs e stats H1)
      as [e1 [E1 [Sd [Sa St]]]].
    rewrite E1.
    destruct (IH (pdf_row_step doc acc cs r) e1 (seen stats))
      as [e2 [E2 [Sd2 [Sa2 St2]]]].
    { eapply covers_same; [exact Sa|exact St|exact H]. }
    exists e2. rewrite E2. split.
    + f_equal. unfold seen. simpl. f_equal. lia.
    + repeat split; congruence.
Qed.

Lemma pdf_row_step_documents doc acc cs cand :
  documents (fst (pdf_row_step doc acc cs cand)) = documents (fst cs).
Proof.
  unfold pdf_row_step. destruct (pdf_row_fields cand) as [f|e];
    [|reflexivity].
  unfold pdf_store_row. cbn [fst snd].
  match goal with
  | |- context [insert_or_ignore_transaction ?c ?t] =>
      assert (H2 : documents (insert_or_ignore_transaction c t) = documents c)
        by (unfold insert_or_ignore_transaction; now destruct (existsb _ _));
      destruct (0 <? changes (insert_or_ignore_transaction c t))
  end; exact H2.
Qed.

Lemma pdf_fold_documents doc acc (cands : list (str * str * str)) cs :
  documents (fst (fold_left (pdf_row_step doc acc) cands cs))
  = documents (fst cs).
Proof.
  revert cs. induction cands as [|r cands IH]; intro cs; simpl;
    [reflexivity|]. rewrite IH. apply pdf_row_step_documents.
Qed.

(** The account an [INSERT OR IGNORE] leaves is the one every later state
    resolves the same key to, and a later [INSERT OR IGNORE] of that key
    is absorbed. *)
Lemma account_stable (s e : db) (iban no : option str) :
  covers (insert_or_ignore_account s (py "ING") iban no) e ->
  select_account e (py "ING") iban no
  = select_account (insert_or_ignore_account s (py "ING") iban no)
                   (py "ING") iban no
  /\ select_account e (py "ING") iban no <> None.
Proof.
  intros [[more E] _]. unfold select_account at 1 3. rewrite E, find_app.
  assert (F : find (account_matches (py "ING") iban no)
                   (accounts (insert_or_ignore_account s (py "ING") iban no))
              <> None).
  { unfold insert_or_ignore_account, select_account.
    destruct (find (account_matches (py "ING") iban no) (accounts s))
      as [a|] eqn:Fs; cbn [option_map].
    - cbn [set_changes accounts]. now rewrite Fs.
    - cbn [insert_account fst accounts]. rewrite find_app, Fs. cbn [find].
      unfold account_matches at 1.
      cbn [acc_institution acc_iban acc_account_no].
      rewrite str_eqb_refl, !is_same_refl. discriminate. }
  unfold select_account.
  destruct (find _ (accounts (insert_or_ignore_account s (py "ING") iban no)))
    as [a|]; [|congruence].
  split; [reflexivity|discriminate].
Qed.

Lemma insert_or_ignore_account_documents conn inst iban no :
  documents (insert_or_ignore_account conn inst iban no) = documents conn.
Proof.
  unfold insert_or_ignore_account. now destruct (select_account _ _ _ _).
Qed.

Lemma pdf_parse_documents conn doc stats f :
  documents (fst (fst (pdf_parse conn doc stats f))) = documents conn.
Proof.
  unfold pdf_parse.
  destruct (bind (pdf_pages f) _) as [texts|e]; [|reflexivity].
  unfold pdf_account.
  destruct (match _guess_account_iban _ with Some i => _ | None => _ end)
    as [iban no].
  pose proof (insert_or_ignore_account_documents conn (py "ING") iban no)
    as H0.
  destruct (select_account _ _ _ _) as [acc|]; [|exact H0].
  match goal with
  | |- context [fold_left ?step ?rows ?cs] =>
      pose proof (pdf_fold_documents doc acc rows cs) as H1;
      destruct (fold_left step rows cs) as [conn1 stats1]
  end. cbn [fst snd] in *. cbn. congruence.
Qed.

(** Parsing the same pages from a state that covers a first parse adds
    nothing. *)
Lemma pdf_parse_replay conn doc doc' st stats f e :
  covers (fst (fst (pdf_parse conn doc st f))) e ->
  exists e' stats' o,
    pdf_parse e doc' stats f = (e', stats', o) /\
    documents e' = documents e /\ transactions e' = transactions e /\
    docs_new stats' = docs_new stats /\ tx_new stats' = tx_new stats.
Proof.
  unfold pdf_parse.
  destruct (bind (pdf_pages f) _) as [texts|ex].
  2:{ intros _. exists e, stats, (Some ex). repeat split. }
  unfold pdf_account.
  destruct (match _guess_account_iban _ with Some i => _ | None => _ end)
    as [iban no].
  set (c1 := insert_or_ignore_account conn (py "ING") iban no).
  destruct (account_stable conn c1 iban no (covers_refl _)) as [_ Hsome].
  fold c1 in Hsome.
  destruct (select_account c1 (py "ING") iban no) as [acc|] eqn:Eacc;
    [|congruence].
  set (cands := _iter_tx_candidates (_extract_lines (join [10%N] texts))).
  pose proof (pdf_fold_replay doc doc' acc cands (c1, st)) as Hrep.
  pose proof (fold_covers (pdf_row_step doc acc) cands
                (fun x c => pdf_row_step_covers doc acc x c) (c1, st)) as Hcov.
  destruct (fold_left (pdf_row_step doc acc) cands (c1, st)) as [c2 st2].
  cbn [fst snd] in *. intro H.
  assert (H2 : covers c2 e).
  { eapply covers_trans; [apply covers_event|exact H]. }
  assert (H1 : covers c1 e) by (eapply covers_trans; [exact Hcov|exact H2]).
  destruct (account_stable conn e iban no H1) as [Esel _].
  fold c1 in Esel. rewrite Eacc in Esel.
  assert (Ei : insert_or_ignore_account e (py "ING") iban no
               = set_changes e 0).
  { unfold insert_or_ignore_account. now rewrite Esel. }
  rewrite Ei.
  change (select_account (set_changes e 0) (py "ING") iban no)
    with (select_account e (py "ING") iban no).
  rewrite Esel.
  destruct (Hrep (set_changes e 0) stats) as [e1 [E1 [Sd [Sa St]]]].
  { eapply covers_same; [| |exact H2]; reflexivity. }
  rewrite E1. eexists _, _, None. split; [reflexivity|].
  cbn. repeat split; assumption.
Qed.

Lemma pdf_parse_pages conn doc stats (f f' : pdf_file) :
  pdf_pages f' = pdf_pages f ->
  pdf_parse conn doc stats f' = pdf_parse conn doc stats f.
Proof. unfold pdf_parse. now intros ->. Qed.

Lemma pdf_first_run (env : environment) (conn : db) (f : pdf_file) :
  let run1 := ingest_pdf_generic env conn f in
  let d := pdf_document_of conn f in
  select_document (fst run1) (pdf_sha256 f) = Some d /\
  (has_pdfplumber env = true ->
   exists c0 st0, covers (fst (fst (pdf_parse c0 d st0 f))) (fst run1)).
Proof.
  cbv zeta. unfold ingest_pdf_generic, pdf_document_of.
  destruct (register_pdf_spec conn f) as [Hsel _].
  destruct (register_pdf conn f) as [[c0 d] st0]. cbn [fst snd] in *.
  destruct (has_pdfplumber env).
  - pose proof (pdf_parse_documents c0 d st0 f) as Hdocs.
    split.
    + destruct (pdf_parse c0 d st0 f) as [[c1 st1] [ex|]]; cbn [fst snd] in *.
      * destruct (is_module_not_found ex); cbn [fst];
          unfold select_document in *; cbn [insert_parse_event documents];
          now rewrite Hdocs.
      * unfold select_document in *. now rewrite Hdocs.
    + intros _. exists c0, st0.
      destruct (pdf_parse c0 d st0 f) as [[c1 st1] [ex|]]; cbn [fst snd].
      * destruct (is_module_not_found ex); apply covers_event.
      * apply covers_refl.
  - split; [exact Hsel|intro C; discriminate].
Qed.

Lemma pdf_second_run (env : environment) (e : db) (f' : pdf_file) (d : Z) :
  select_document e (pdf_sha256 f') = Some d ->
  (has_pdfplumber env = true ->
   exists c0 st0, covers (fst (fst (pdf_parse c0 d st0 f'))) e) ->
  let run2 := ingest_pdf_generic env e f' in
  pdf_document_of e f' = d /\
  documents (fst run2) = documents e /\
  transactions (fst run2) = transactions e /\
  nothing_new (snd run2).
Proof.
  intros He Hc. cbv zeta. unfold pdf_document_of, ingest_pdf_generic.
  rewrite (register_pdf_known e f' d He). cbn [fst snd].
  split; [reflexivity|].
  destruct (has_pdfplumber env); [|repeat split].
  destruct (Hc eq_refl) as [c0 [st0 Hcov]].
  destruct (pdf_parse_replay c0 d d st0 stats0 f' e Hcov)
    as [e' [stats' [o [E [Hd [Ht [Hn1 Hn2]]]]]]].
  rewrite E. destruct o as [ex|].
  - destruct (is_module_not_found ex); cbn; repeat split; assumption.
  - cbn. repeat split; assumption.
Qed.

Lemma ingest_pdf_twice (env : environment) (conn : db) (f f' : pdf_file) :
  same_pages f f' ->
  let run1 := ingest_pdf_generic env conn f in
  let run2 := ingest_pdf_generic env (fst run1) f' in
  pdf_document_of (fst run1) f' = pdf_document_of conn f /\
  documents (fst run2) = documents (fst run1) /\
  transactions (fst run2) = transactions (fst run1) /\
  nothing_new (snd run2).
Proof.
  intros [Hsha Hpages]. cbv zeta.
  destruct (pdf_first_run env conn f) as [Hsel Hcov]. cbv zeta in Hsel, Hcov.
  apply pdf_second_run.
  - now rewrite Hsha.
  - intro Hp. destruct (Hcov Hp) as [c0 [st0 H]]. exists c0, st0.
    now rewrite (pdf_parse_pages c0 _ st0 f f' Hpages).
Qed.

(** ** What one run adds to the store *)

Lemma appended_refl doc a : appended doc a a.
Proof.
  repeat split; try reflexivity; try lia.
  - exists []. now rewrite app_nil_r.
  - exists []. split; [now rewrite app_nil_r|constructor].
  - exists []. split; [now rewrite app_nil_r|]. split; [constructor|].
    simpl. lia.
Qed.

Lemma appended_trans doc a b c :
  appended doc a b -> appended doc b c -> appended doc a c.
Proof.
  intros (D1 & C1 & [m1 A1] & [e1 [E1 F1]] & [n1 [T1 [S1 N1]]] & K1 & L1)
         (D2 & C2 & [m2 A2] & [e2 [E2 F2]] & [n2 [T2 [S2 N2]]] & K2 & L2).
  repeat split; try congruence; try lia.
  - exists (m1 ++ m2). now rewrite A2, A1, app_assoc.
  - exists (e1 ++ e2). split; [now rewrite E2, E1, app_assoc|].
    apply Forall_app. now split.
  - exists (n1 ++ n2). split; [now rewrite T2, T1, app_assoc|].
    split; [apply Forall_app; now split|].
    rewrite N2, N1, length_app. lia.
Qed.

(** The same rows, one more row seen. *)
Lemma appended_seen doc conn stats :
  appended doc (conn, stats) (conn, seen stats).
Proof.
  repeat split; try reflexivity; simpl; try lia.
  - exists []. now rewrite app_nil_r.
  - exists []. split; [now rewrite app_nil_r|constructor].
  - exists []. split; [now rewrite app_nil_r|]. split; [constructor|].
    simpl. lia.
Qed.

Lemma appended_event doc conn stats stage ok msg :
  appended doc (conn, stats)
           (insert_parse_event conn doc stage ok msg, stats).
Proof.
  repeat split; try reflexivity; simpl; try lia.
  - exists []. now rewrite app_nil_r.
  - eexists. split; [reflexivity|]. repeat constructor.
  - exists []. split; [now rewrite app_nil_r|]. split; [constructor|].
    simpl. lia.
Qed.

Lemma appended_ensure_account doc conn stats iban no :
  appended doc (conn, stats) (fst (_ensure_account conn iban no), stats).
Proof.
  unfold _ensure_account. destruct (select_account _ _ _ _) as [id|].
  - apply appended_refl.
  - repeat split; try reflexivity; simpl; try lia.
    + eexists. reflexivity.
    + exists []. split; [now rewrite app_nil_r|constructor].
    + exists []. split; [now rewrite app_nil_r|]. split; [constructor|].
      simpl. lia.
Qed.

Lemma appended_insert_or_ignore_account doc conn stats inst iban no :
  appended doc (conn, stats)
           (insert_or_ignore_account conn inst iban no, stats).
Proof.
  unfold insert_or_ignore_account. destruct (select_account _ _ _ _) as [id|].
  - repeat split; try reflexivity; simpl; try lia.
    + exists []. now rewrite app_nil_r.
    + exists []. split; [now rewrite app_nil_r|constructor].
    + exists []. split; [now rewrite app_nil_r|]. split; [constructor|].
      simpl. lia.
  - repeat split; try reflexivity; simpl; try lia.
    + eexists. reflexivity.
    + exists []. split; [now rewrite app_nil_r|constructor].
    + exists []. split; [now rewrite app_nil_r|]. split; [constructor|].
      simpl. lia.
Qed.

(** [INSERT OR IGNORE], then the test of [changes()]: the counter moves
    exactly when a row was appended. *)
Lemma appended_insert doc conn stats (t : transaction) :
  txn_document_id t = doc -> txn_currency t = py "EUR" ->
  let conn' := insert_or_ignore_transaction conn t in
  appended doc (conn, stats)
           (if 0 <? changes conn' then (conn', count_new stats)
            else (conn', stats)).
Proof.
  intros Hd Hc. cbv zeta. unfold insert_or_ignore_transaction.
  destruct (existsb _ _); cbn [changes set_changes Z.ltb Z.compare].
  - repeat split; try reflexivity; simpl; try lia.
    + exists []. now rewrite app_nil_r.
    + exists []. split; [now rewrite app_nil_r|constructor].
    + exists []. split; [now rewrite app_nil_r|]. split; [constructor|].
      simpl. lia.
  - repeat split; try reflexivity; simpl; try lia.
    + exists []. now rewrite app_nil_r.
    + exists []. split; [now rewrite app_nil_r|constructor].
    + eexists. split; [reflexivity|]. split; [|simpl; lia].
      repeat constructor; assumption.
Qed.

Lemma appended_at_most_one (conn : db) (stats : IngestStats)
      (t : transaction) :
  let conn' := insert_or_ignore_transaction conn t in
  let out := if 0 <? changes conn' then (conn', count_new stats)
             else (conn', stats) in
  tx_seen (snd out) = tx_seen stats /\ tx_new (snd out) <= tx_new stats + 1.
Proof.
  cbv zeta. destruct (0 <? changes _); simpl; lia.
Qed.

Lemma store_row_one doc f conn stats :
  one_row doc (conn, stats) (store_row doc f (conn, seen stats)).
Proof.
  unfold store_row, one_row.
  pose proof (appended_ensure_account doc conn (seen stats)
                (rf_account_iban f) None) as H1.
  destruct (_ensure_account conn (rf_account_iban f) None) as [conn1 acc].
  cbn [fst] in H1.
  match goal with
  | |- context [insert_or_ignore_transaction conn1 ?t] =>
      pose proof (appended_insert doc conn1 (seen stats) t eq_refl eq_refl)
        as H2;
      pose proof (appended_at_most_one conn1 (seen stats) t) as H3
  end.
  cbv zeta in H2, H3.
  destruct (0 <? changes _); cbn [fst snd] in *.
  - split; [|simpl in *; lia].
    eapply appended_trans; [apply appended_seen|].
    eapply appended_trans; [exact H1|exact H2].
  - split; [|simpl in *; lia].
    eapply appended_trans; [apply appended_seen|].
    eapply appended_trans; [exact H1|exact H2].
Qed.

Lemma row_step_one prefix doc cs body :
  one_row doc cs (row_step prefix doc cs body).
Proof.
  unfold row_step. destruct cs as [conn stats]. destruct body as [f|e].
  - apply store_row_one.
  - cbn [fst snd]. split; [|simpl; lia].
    eapply appended_trans; [apply appended_seen|apply appended_event].
Qed.

Lemma pdf_row_step_one doc acc cs cand :
  one_row doc cs (pdf_row_step doc acc cs cand).
Proof.
  unfold pdf_row_step. destruct cs as [conn stats]. cbn [fst snd].
  destruct (pdf_row_fields cand) as [f|e].
  - unfold pdf_store_row.
    match goal with
    | |- context [insert_or_ignore_transaction conn ?t] =>
        pose proof (appended_insert doc conn (seen stats) t eq_refl eq_refl)
          as H2;
        pose proof (appended_at_most_one conn (seen stats) t) as H3
    end.
    cbv zeta in H2, H3.
    destruct (0 <? changes _); cbn [fst snd] in *;
      (split; [|simpl in *; lia]);
      (eapply appended_trans; [apply appended_seen|exact H2]).
  - split; [|simpl; lia].
    eapply appended_trans; [apply appended_seen|apply appended_event].
Qed.

(** A loop of such rows. *)
Lemma rows_appended {A} doc
      (step : db * IngestStats -> A -> db * IngestStats) (rows : list A) :
  (forall cs a, one_row doc cs (step cs a)) ->
  forall cs,
    let out := fold_left step rows cs in
    appended doc cs out
    /\ tx_seen (snd out) = tx_seen (snd cs) + Z.of_nat (List.length rows)
    /\ tx_new (snd out) <= tx_new (snd cs) + Z.of_nat (List.length rows).
Proof.
  intro H. induction rows as [|a rows IH]; intro cs; cbv zeta.
  - cbn [fold_left List.length]. split; [apply appended_refl|]. simpl. lia.
  - cbn [fold_left]. destruct (H cs a) as [H1 [H2 H3]].
    destruct (IH (step cs a)) as [I1 [I2 I3]]. cbv zeta in I1, I2, I3.
    split; [eapply appended_trans; eassumption|].
    rewrite I2, H2. cbn [List.length]. lia.
Qed.

(** ** A whole run *)

Lemma run_from_registered doc k conn c0 st0 out stats :
  registered doc k conn c0 st0 ->
  appended doc (c0, st0) (out, stats) ->
  tx_new stats <= tx_seen stats ->
  run_appended doc k conn out stats.
Proof.
  intros ([d [D1 [D2 D3]]] & C & A & T & [e0 [E0 F0]] & K & S & N)
         (D' & C' & [m A'] & [e1 [E1 F1]] & [n [T1 [S1 N1]]] & K' & L) Hle.
  cbn [fst snd] in *. repeat split.
  - exists d. repeat split; [congruence|assumption|assumption].
  - congruence.
  - exists m. congruence.
  - exists (e0 ++ e1). split; [now rewrite E1, E0, app_assoc|].
    apply Forall_app. now split.
  - exists n. repeat split; [congruence|assumption|lia].
  - congruence.
  - lia.
  - exact Hle.
Qed.

Lemma register_csv_registered (conn : db) (f : csv_file) :
  registered (document_of conn f) (known conn (csv_sha256 f)) conn
             (fst (fst (register_csv conn f))) (snd (register_csv conn f)).
Proof.
  unfold document_of, register_csv, known.
  destruct (select_document conn (csv_sha256 f)) as [d|]; cbn.
  - repeat split; try reflexivity.
    + exists []. repeat split; [now rewrite app_nil_r|constructor].
    + eexists. split; [reflexivity|]. repeat constructor.
  - repeat split; try reflexivity.
    + eexists. split; [reflexivity|]. split; [reflexivity|].
      repeat constructor.
    + eexists. split; [reflexivity|]. repeat constructor.
Qed.

Lemma register_xls_registered (conn : db) (f : xls_file) :
  registered (xls_document_of conn f) (known conn (xls_sha256 f)) conn
             (fst (fst (register_xls conn f))) (snd (register_xls conn f)).
Proof.
  unfold xls_document_of, register_xls, known.
  destruct (select_document conn (xls_sha256 f)) as [d|]; cbn.
  - repeat split; try reflexivity.
    + exists []. repeat split; [now rewrite app_nil_r|constructor].
    + exists []. split; [now rewrite app_nil_r|constructor].
  - repeat split; try reflexivity.
    + eexists. split; [reflexivity|]. split; [reflexivity|].
      repeat constructor.
    + exists []. split; [now rewrite app_nil_r|constructor].
Qed.

Lemma register_pdf_registered (conn : db) (f : pdf_file) :
  registered (pdf_document_of conn f) (known conn (pdf_sha256 f)) conn
             (fst (fst (register_pdf conn f))) (snd (register_pdf conn f)).
Proof.
  unfold pdf_document_of, register_pdf, known.
  destruct (select_document conn (pdf_sha256 f)) as [d|]; cbn.
  - repeat split; try reflexivity.
    + exists []. repeat split; [now rewrite app_nil_r|constructor].
    + exists []. split; [now rewrite app_nil_r|constructor].
  - repeat split; try reflexivity.
    + eexists. split; [reflexivity|]. split; [reflexivity|].
      repeat constructor.
    + exists []. split; [now rewrite app_nil_r|constructor].
Qed.

Lemma csv_run_appended (conn : db) (f : csv_file) :
  let out := ingest_csv_ing conn f in
  run_appended (document_of conn f) (known conn (csv_sha256 f)) conn
               (fst out) (snd out)
  /\ tx_seen (snd out) = Z.of_nat (List.length (dict_rows f)).
Proof.
  cbv zeta. rewrite ingest_csv_unfold. cbv zeta.
  pose proof (register_csv_registered conn f) as Hr.
  unfold document_of in *.
  destruct (register_csv conn f) as [[c0 d] st0]. cbn [fst snd] in *.
  unfold csv_rows_pass.
  destruct (rows_appended d
              (fun x r => row_step "row error" d x (csv_row_fields r))
              (dict_rows f)
              (fun cs r => row_step_one "row error" d cs (csv_row_fields r))
              (c0, st0)) as [H1 [H2 H3]].
  cbv zeta in H1, H2, H3.
  destruct (fold_left _ (dict_rows f) (c0, st0)) as [c1 st1].
  cbn [fst snd] in *.
  destruct Hr as (Hd & Hc & Ha & Ht & He & Hk & Hs & Hn).
  split.
  - apply (run_from_registered d _ conn c0 st0).
    + repeat split; assumption.
    + eapply appended_trans; [exact H1|apply appended_event].
    + lia.
  - lia.
Qed.

Lemma xls_run_appended (env : environment) (conn : db) (f : xls_file) :
  let out := ingest_xls env conn f in
  match snd out with
  | Ok stats =>
      run_appended (xls_document_of conn f) (known conn (xls_sha256 f))
                   conn (fst out) stats
      /\ tx_seen stats
         = match load_rows env f with
           | Ok (_, rows) => Z.of_nat (List.length rows)
           | Raise _ => 0
           end
  | Raise e =>
      load_rows env f = Raise e /\ is_module_not_found e = false
      /\ fst out = fst (fst (register_xls conn f))
  end.
Proof.
  cbv zeta. unfold ingest_xls.
  pose proof (register_xls_registered conn f) as Hr.
  unfold xls_document_of in *.
  destruct (register_xls conn f) as [[c0 d] st0]. cbn [fst snd] in *.
  destruct (load_rows env f) as [[headers rows]|ex].
  - destruct (rows_appended d
                (fun x r => row_step "xls row error" d x
                   (xls_row_fields env (resolve_columns headers) r))
                rows
                (fun cs r => row_step_one "xls row error" d cs
                   (xls_row_fields env (resolve_columns headers) r))
                (c0, st0)) as [H1 [H2 H3]].
    cbv zeta in H1, H2, H3.
    destruct (fold_left _ rows (c0, st0)) as [c1 st1]. cbn [fst snd] in *.
    destruct Hr as (Hd & Hc & Ha & Ht & He & Hk & Hs & Hn).
    split.
    + apply (run_from_registered d _ conn c0 st0).
      * repeat split; assumption.
      * eapply appended_trans; [exact H1|apply appended_event].
      * lia.
    + lia.
  - destruct (is_module_not_found ex) eqn:Em; cbn [fst snd].
    + destruct Hr as (Hd & Hc & Ha & Ht & He & Hk & Hs & Hn). split.
      * apply (run_from_registered d _ conn c0 st0).
        -- repeat split; assumption.
        -- apply appended_event.
        -- lia.
      * exact Hs.
    + split; [reflexivity|]. split; [exact Em|reflexivity].
Qed.

Lemma pdf_parse_appended conn doc stats f :
  let r := pdf_parse conn doc stats f in
  appended doc (conn, stats) (fst r)
  /\ tx_new (snd (fst r)) - tx_new stats
     <= tx_seen (snd (fst r)) - tx_seen stats.
Proof.
  cbv zeta. unfold pdf_parse.
  destruct (bind (pdf_pages f) _) as [texts|e];
    [|split; [apply appended_refl|simpl; lia]].
  unfold pdf_account.
  destruct (match _guess_account_iban _ with Some i => _ | None => _ end)
    as [iban no].
  pose proof (appended_insert_or_ignore_account doc conn stats (py "ING")
                iban no) as H0.
  destruct (select_account _ _ _ _) as [acc|];
    [|split; [exact H0|simpl; lia]].
  match goal with
  | |- context [fold_left ?step ?rows ?cs] =>
      destruct (rows_appended doc step rows
                  (fun x c => pdf_row_step_one doc acc x c) cs)
        as [H1 [H2 H3]];
      destruct (fold_left step rows cs) as [conn1 stats1]
  end.
  cbv zeta in H1, H2, H3. cbn [fst snd] in *. split.
  - eapply appended_trans; [exact H0|].
    eapply appended_trans; [exact H1|apply appended_event].
  - lia.
Qed.

Lemma pdf_run_appended (env : environment) (conn : db) (f : pdf_file) :
  let out := ingest_pdf_generic env conn f in
  run_appended (pdf_document_of conn f) (known conn (pdf_sha256 f)) conn
               (fst out) (snd out).
Proof.
  cbv zeta. unfold ingest_pdf_generic.
  pose proof (register_pdf_registered conn f) as Hr.
  unfold pdf_document_of in *.
  destruct (register_pdf conn f) as [[c0 d] st0]. cbn [fst snd] in *.
  assert (Hr' := Hr).
  destruct Hr' as (Hd & Hc & Ha & Ht & He & Hk & Hs & Hn).
  destruct (has_pdfplumber env).
  - destruct (pdf_parse_appended c0 d st0 f) as [H1 H2]. cbv zeta in H1, H2.
    destruct (pdf_parse c0 d st0 f) as [[c1 st1] o]. cbn [fst snd] in *.
    destruct o as [ex|].
    + destruct (is_module_not_found ex); cbn [fst snd];
        (apply (run_from_registered d _ conn c0 st0);
         [exact Hr
         |eapply appended_trans; [exact H1|apply appended_event]
         |lia]).
    + cbn [fst snd].
      apply (run_from_registered d _ conn c0 st0); [exact Hr|exact H1|lia].
  - cbn [fst snd].
    apply (run_from_registered d _ conn c0 st0);
      [exact Hr|apply appended_event|lia].
Qed.

(** ** The integrity of the store *)

Lemma max_bound (ids : list Z) (x : Z) :
  In x ids -> x <= fold_right Z.max 0 ids.
Proof.
  induction ids as [|y ids IH]; simpl; [contradiction|].
  intros [->|H]; [lia|]. specialize (IH H). lia.
Qed.

Lemma next_rowid_fresh (ids : list Z) : ~ In (next_rowid ids) ids.
Proof.
  intro H. apply max_bound in H. unfold next_rowid in H. lia.
Qed.

Lemma NoDup_snoc {A} (l : list A) (x : A) :
  NoDup l -> ~ In x l -> NoDup (l ++ [x]).
Proof.
  intros Hl Hx. induction Hl as [|y l Hy Hl IH]; simpl.
  - constructor; [intros []|constructor].
  - constructor.
    + rewrite in_app_iff. intros [H|[->|[]]]; [contradiction|].
      apply Hx. now left.
    + apply IH. intro H. apply Hx. now right.
Qed.

Lemma sound_same (a b : db) :
  documents b = documents a -> accounts b = accounts a ->
  transactions b = transactions a -> sound a -> sound b.
Proof. unfold sound. now intros -> -> ->. Qed.

Lemma sound_event conn doc stage ok msg :
  sound conn -> sound (insert_parse_event conn doc stage ok msg).
Proof. now apply sound_same. Qed.

Lemma refs_weaken (accs accs' : list Z) (docs docs' : list Z)
      (ts : list transaction) :
  (forall x, In x accs -> In x accs') -> (forall x, In x docs -> In x docs') ->
  Forall (fun t => In (txn_account_id t) accs /\ In (txn_document_id t) docs)
         ts ->
  Forall (fun t => In (txn_account_id t) accs' /\ In (txn_document_id t) docs')
         ts.
Proof.
  intros Ha Hd H. induction H as [|t ts [H1 H2] _ IH]; constructor; auto.
Qed.

Lemma find_none_not_in (conn : db) (sha : str) :
  select_document conn sha = None ->
  ~ In sha (map doc_sha256 (documents conn)).
Proof.
  unfold select_document.
  destruct (find _ (documents conn)) as [d|] eqn:F; [discriminate|].
  intros _ H. apply in_map_iff in H as [d [E Hd]].
  pose proof (find_none _ _ F d Hd) as N. cbn in N.
  rewrite E, str_eqb_refl in N. discriminate.
Qed.

Lemma select_document_in (conn : db) (sha : str) (d : Z) :
  select_document conn sha = Some d -> In d (map doc_id (documents conn)).
Proof.
  unfold select_document.
  destruct (find _ (documents conn)) as [x|] eqn:F; [|discriminate].
  intro H. injection H as <-. apply in_map. now apply find_some in F.
Qed.

Lemma select_account_in (conn : db) inst iban no (id : Z) :
  select_account conn inst iban no = Some id ->
  In id (map acc_id (accounts conn)).
Proof.
  unfold select_account.
  destruct (find _ (accounts conn)) as [x|] eqn:F; [|discriminate].
  intro H. injection H as <-. apply in_map. now apply find_some in F.
Qed.

Lemma sound_insert_document conn path sha kind hint :
  select_document conn sha = None -> sound conn ->
  sound (fst (insert_document conn path sha kind hint))
  /\ In (snd (insert_document conn path sha kind hint))
        (map doc_id (documents (fst (insert_document conn path sha kind hint)))).
Proof.
  intros Hn (H1 & H2 & H3 & H4 & H5 & H6). unfold insert_document, sound.
  cbn [fst snd documents accounts transactions].
  rewrite !map_app. cbn [map doc_id doc_sha256]. repeat split; auto.
  - apply NoDup_snoc; [exact H1|apply next_rowid_fresh].
  - apply NoDup_snoc; [exact H2|now apply find_none_not_in].
  - eapply refs_weaken; [| |exact H6]; intros x Hx; auto.
    apply in_app_iff. now left.
  - apply in_app_iff. right. now left.
Qed.

Lemma sound_insert_account conn inst iban no :
  sound conn ->
  sound (fst (insert_account conn inst iban no))
  /\ In (snd (insert_account conn inst iban no))
        (map acc_id (accounts (fst (insert_account conn inst iban no)))).
Proof.
  intros (H1 & H2 & H3 & H4 & H5 & H6). unfold insert_account, sound.
  cbn [fst snd documents accounts transactions].
  rewrite !map_app. cbn [map acc_id]. repeat split; auto.
  - apply NoDup_snoc; [exact H3|apply next_rowid_fresh].
  - eapply refs_weaken; [| |exact H6]; intros x Hx; auto.
    apply in_app_iff. now left.
  - apply in_app_iff. right. now left.
Qed.

Lemma sound_ensure_account conn iban no :
  sound conn ->
  sound (fst (_ensure_account conn iban no))
  /\ In (snd (_ensure_account conn iban no))
        (map acc_id (accounts (fst (_ensure_account conn iban no))))
  /\ documents (fst (_ensure_account conn iban no)) = documents conn.
Proof.
  intro H. unfold _ensure_account.
  destruct (select_account conn (py "ING") iban no) as [id|] eqn:E.
  - cbn [fst snd]. split; [exact H|]. split; [|reflexivity].
    now apply select_account_in in E.
  - destruct (sound_insert_account conn (py "ING") iban no H) as [S I].
    split; [exact S|]. split; [exact I|reflexivity].
Qed.

Lemma sound_insert_or_ignore_account conn inst iban no :
  sound conn -> sound (insert_or_ignore_account conn inst iban no).
Proof.
  intro H. unfold insert_or_ignore_account.
  destruct (select_account conn inst iban no).
  - now apply (sound_same conn).
  - now apply sound_insert_account.
Qed.

Lemma existsb_hash_not_in (conn : db) (h : str) :
  existsb (fun u => str_eqb (txn_hash u) h) (transactions conn) = false ->
  ~ In h (map txn_hash (transactions conn)).
Proof.
  intros E H. apply in_map_iff in H as [u [Eu Hu]].
  assert (X : existsb (fun u => str_eqb (txn_hash u) h) (transactions conn)
              = true).
  { apply existsb_exists. exists u. split; [exact Hu|].
    rewrite Eu. apply str_eqb_refl. }
  congruence.
Qed.

Lemma sound_insert_or_ignore conn (t : transaction) :
  In (txn_account_id t) (map acc_id (accounts conn)) ->
  In (txn_document_id t) (map doc_id (documents conn)) ->
  sound conn -> sound (insert_or_ignore_transaction conn t).
Proof.
  intros Ha Hd H. unfold insert_or_ignore_transaction.
  destruct (existsb _ _) eqn:E; [now apply (sound_same conn)|].
  destruct H as (H1 & H2 & H3 & H4 & H5 & H6). unfold sound.
  cbn [documents accounts transactions]. rewrite !map_app.
  cbn [map txn_id txn_hash]. repeat split; auto.
  - apply NoDup_snoc; [exact H4|apply next_rowid_fresh].
  - apply NoDup_snoc; [exact H5|now apply existsb_hash_not_in].
  - apply Forall_app. split; [exact H6|]. constructor; [|constructor].
    cbn [txn_account_id txn_document_id]. now split.
Qed.

Lemma insert_or_ignore_tables conn (t : transaction) :
  documents (insert_or_ignore_transaction conn t) = documents conn
  /\ accounts (insert_or_ignore_transaction conn t) = accounts conn.
Proof.
  unfold insert_or_ignore_transaction. now destruct (existsb _ _).
Qed.

Lemma sound_store_row doc f conn stats :
  sound conn -> In doc (map doc_id (documents conn)) ->
  keeps doc conn (fst (store_row doc f (conn, stats))).
Proof.
  intros H Hd. unfold store_row.
  destruct (sound_ensure_account conn (rf_account_iban f) None H)
    as [S1 [I1 D1]].
  pose proof (covers_ensure_account conn (rf_account_iban f) None)
    as [[more Em] _].
  destruct (_ensure_account conn (rf_account_iban f) None) as [conn1 acc].
  cbn [fst snd] in *.
  match goal with
  | |- context [insert_or_ignore_transaction conn1 ?t] =>
      pose proof (sound_insert_or_ignore conn1 t) as H2;
      pose proof (insert_or_ignore_tables conn1 t) as [T1 T2];
      cbn [txn_account_id txn_document_id] in H2;
      destruct (0 <? changes (insert_or_ignore_transaction conn1 t))
  end; cbn [fst]; (split; [apply H2; [exact I1|now rewrite D1|exact S1]|]);
    (split; [now rewrite T1, D1|]);
    intros x Hx; rewrite T2, Em, map_app; apply in_app_iff; now left.
Qed.

Lemma sound_row_step prefix doc cs body :
  sound (fst cs) -> In doc (map doc_id (documents (fst cs))) ->
  keeps doc (fst cs) (fst (row_step prefix doc cs body)).
Proof.
  intros H Hd. unfold row_step. destruct body as [f|e].
  - apply (sound_store_row doc f (fst cs) (seen (snd cs)) H Hd).
  - cbn [fst snd]. split; [now apply sound_event|]. split; [exact Hd|auto].
Qed.

Lemma sound_pdf_row_step doc acc cs cand :
  sound (fst cs) -> In doc (map doc_id (documents (fst cs))) ->
  In acc (map acc_id (accounts (fst cs))) ->
  keeps doc (fst cs) (fst (pdf_row_step doc acc cs cand)).
Proof.
  intros H Hd Ha. unfold pdf_row_step.
  destruct (pdf_row_fields cand) as [f|e].
  - unfold pdf_store_row. cbn [fst snd].
    match goal with
    | |- context [insert_or_ignore_transaction ?c ?t] =>
        pose proof (sound_insert_or_ignore c t Ha Hd H) as H2;
        pose proof (insert_or_ignore_tables c t) as [T1 T2];
        destruct (0 <? changes (insert_or_ignore_transaction c t))
    end; cbn [fst]; (split; [exact H2|]); (split; [now rewrite T1|]);
      intros x Hx; now rewrite T2.
  - cbn [fst snd]. split; [now apply sound_event|]. split; [exact Hd|auto].
Qed.

Lemma sound_fold {A} doc
      (step : db * IngestStats -> A -> db * IngestStats) (rows : list A)
      (Q : db -> Prop) :
  (forall cs a, sound (fst cs) -> In doc (map doc_id (documents (fst cs))) ->
                Q (fst cs) ->
                keeps doc (fst cs) (fst (step cs a)) /\ Q (fst (step cs a))) ->
  forall cs, sound (fst cs) -> In doc (map doc_id (documents (fst cs))) ->
             Q (fst cs) ->
             sound (fst (fold_left step rows cs)).
Proof.
  intro H. induction rows as [|a rows IH]; intros cs Hs Hd Hq; simpl.
  - exact Hs.
  - destruct (H cs a Hs Hd Hq) as [[S [D _]] Q']. now apply IH.
Qed.

Lemma sound_register_csv (conn : db) (f : csv_file) :
  sound conn ->
  sound (fst (fst (register_csv conn f)))
  /\ In (snd (fst (register_csv conn f)))
        (map doc_id (documents (fst (fst (register_csv conn f))))).
Proof.
  intro H. unfold register_csv.
  destruct (select_document conn (csv_sha256 f)) as [d|] eqn:E; cbn [fst snd].
  - split; [now apply sound_event|]. now apply select_document_in in E.
  - destruct (sound_insert_document conn (csv_path f) (csv_sha256 f)
                (py "csv") (Some (py "ING")) E H) as [S I].
    destruct (insert_document conn _ _ _ _) as [c0 d]. cbn [fst snd] in *.
    split; [now apply sound_event|exact I].
Qed.

Lemma sound_register_xls (conn : db) (f : xls_file) :
  sound conn ->
  sound (fst (fst (register_xls conn f)))
  /\ In (snd (fst (register_xls conn f)))
        (map doc_id (documents (fst (fst (register_xls conn f))))).
Proof.
  intro H. unfold register_xls.
  destruct (select_document conn (xls_sha256 f)) as [d|] eqn:E; cbn [fst snd].
  - split; [exact H|]. now apply select_document_in in E.
  - destruct (sound_insert_document conn (xls_path f) (xls_sha256 f)
                (lstrip_dots (lower (xls_suffix f))) (Some (py "ING")) E H)
      as [S I].
    destruct (insert_document conn _ _ _ _) as [c0 d]. cbn [fst snd] in *.
    split; assumption.
Qed.

Lemma sound_register_pdf (conn : db) (f : pdf_file) :
  sound conn ->
  sound (fst (fst (register_pdf conn f)))
  /\ In (snd (fst (register_pdf conn f)))
        (map doc_id (documents (fst (fst (register_pdf conn f))))).
Proof.
  intro H. unfold register_pdf.
  destruct (select_document conn (pdf_sha256 f)) as [d|] eqn:E; cbn [fst snd].
  - split; [exact H|]. now apply select_document_in in E.
  - destruct (sound_insert_document conn (pdf_path f) (pdf_sha256 f)
                (py "pdf") None E H) as [S I].
    destruct (insert_document conn _ _ _ _) as [c0 d]. cbn [fst snd] in *.
    split; assumption.
Qed.

Lemma sound_csv (conn : db) (f : csv_file) :
  sound conn -> sound (fst (ingest_csv_ing conn f)).
Proof.
  intro H. rewrite ingest_csv_unfold. cbv zeta.
  destruct (sound_register_csv conn f H) as [S I].
  destruct (register_csv conn f) as [[c0 d] st0]. cbn [fst snd] in *.
  apply sound_event. unfold csv_rows_pass.
  apply (sound_fold d _ _ (fun _ => True)); auto.
  intros cs r Hs Hd _. split; [|exact Logic.I].
  now apply sound_row_step.
Qed.

Lemma sound_xls (env : environment) (conn : db) (f : xls_file) :
  sound conn -> sound (fst (ingest_xls env conn f)).
Proof.
  intro H. unfold ingest_xls.
  destruct (sound_register_xls conn f H) as [S I].
  destruct (register_xls conn f) as [[c0 d] st0]. cbn [fst snd] in *.
  destruct (load_rows env f) as [[headers rows]|ex].
  - pose proof (sound_fold d
                  (fun x r => row_step "xls row error" d x
                     (xls_row_fields env (resolve_columns headers) r))
                  rows (fun _ => True)) as Hf.
    destruct (fold_left _ rows (c0, st0)) as [c1 st1] eqn:Ef.
    cbn [fst snd]. apply sound_event.
    change c1 with (fst (c1, st1)). rewrite <- Ef. apply Hf; auto.
    intros cs r Hs Hd _. split; [|exact Logic.I].
    now apply sound_row_step.
  - destruct (is_module_not_found ex); cbn [fst];
      [now apply sound_event|exact S].
Qed.

Lemma sound_pdf_parse conn doc stats f :
  sound conn -> In doc (map doc_id (documents conn)) ->
  sound (fst (fst (pdf_parse conn doc stats f))).
Proof.
  intros H Hd. unfold pdf_parse.
  destruct (bind (pdf_pages f) _) as [texts|e]; [|exact H].
  unfold pdf_account.
  destruct (match _guess_account_iban _ with Some i => _ | None => _ end)
    as [iban no].
  pose proof (sound_insert_or_ignore_account conn (py "ING") iban no H) as S1.
  pose proof (insert_or_ignore_account_documents conn (py "ING") iban no)
    as D1.
  destruct (select_account _ _ _ _) as [acc|] eqn:Ea; [|exact S1].
  apply select_account_in in Ea.
  match goal with
  | |- context [fold_left ?step ?rows ?cs] =>
      pose proof (sound_fold doc step rows
                    (fun c => In acc (map acc_id (accounts c)))) as Hf;
      destruct (fold_left step rows cs) as [c1 st1] eqn:Ef
  end.
  cbn [fst snd]. apply sound_event.
  change c1 with (fst (c1, st1)). rewrite <- Ef. apply Hf; cbn [fst]; auto.
  - intros cs c Hs Hdc Hq.
    destruct (sound_pdf_row_step doc acc cs c Hs Hdc Hq) as [K1 [K2 K3]].
    split; [split; [assumption|split; assumption]|]. now apply K3.
  - now rewrite D1.
Qed.

Lemma sound_pdf (env : environment) (conn : db) (f : pdf_file) :
  sound conn -> sound (fst (ingest_pdf_generic env conn f)).
Proof.
  intro H. unfold ingest_pdf_generic.
  destruct (sound_register_pdf conn f H) as [S I].
  destruct (register_pdf conn f) as [[c0 d] st0]. cbn [fst snd] in *.
  destruct (has_pdfplumber env); [|now apply sound_event].
  pose proof (sound_pdf_parse c0 d st0 f S I) as Hp.
  destruct (pdf_parse c0 d st0 f) as [[c1 st1] [ex|]]; cbn [fst snd] in *.
  - destruct (is_module_not_found ex); now apply sound_event.
  - exact Hp.
Qed.

(** ** Accounts *)

Lemma ensure_account_cases (conn : db) (iban no : option str) :
  let r := _ensure_account conn iban no in
  (select_account conn (py "ING") iban no = Some (snd r) /\ fst r = conn)
  \/ (select_account conn (py "ING") iban no = None
      /\ ~ In (snd r) (map acc_id (accounts conn))
      /\ accounts (fst r) = accounts conn ++ [account_row (snd r) iban no]
      /\ documents (fst r) = documents conn
      /\ transactions (fst r) = transactions conn
      /\ parse_events (fst r) = parse_events conn
      /\ categories (fst r) = categories conn).
Proof.
  cbv zeta. unfold _ensure_account.
  destruct (select_account conn (py "ING") iban no) as [id|] eqn:E.
  - left. split; reflexivity.
  - right. split; [reflexivity|]. cbn. split; [apply next_rowid_fresh|].
    repeat split.
Qed.

Lemma ensure_account_again (conn : db) (iban no : option str) :
  let r := _ensure_account conn iban no in
  select_account (fst r) (py "ING") iban no = Some (snd r)
  /\ _ensure_account (fst r) iban no = r.
Proof.
  cbv zeta.
  pose proof (ensure_account_stable conn iban no
                (fst (_ensure_account conn iban no)) (covers_refl _)) as H.
  split; [exact H|].
  rewrite (ensure_account_found _ _ _ _ H).
  now destruct (_ensure_account conn iban no).
Qed.

(** ** Records that stop short *)

Lemma find_all_false {A} (p : A -> bool) (l : list A) :
  (forall y, In y l -> p y = false) -> find p l = None.
Proof.
  induction l as [|y l IH]; intro H; [reflexivity|]. cbn [find].
  rewrite (H y (or_introl eq_refl)). apply IH. intros z Hz. apply H.
  now right.
Qed.

Lemma find_rev_last {A} (p : A -> bool) (a b : list A) (x : A) :
  p x = true -> (forall y, In y b -> p y = false) ->
  find p (rev (a ++ x :: b)) = Some x.
Proof.
  intros Hx Hb. rewrite rev_app_distr. cbn [rev]. rewrite <- app_assoc.
  rewrite find_app.
  assert (F : find p (rev b) = None).
  { apply find_all_false. intros y Hy. apply Hb. now apply in_rev. }
  rewrite F. cbn [app find]. now rewrite Hx.
Qed.

Lemma zip_row_app (a b : list str) (r : list str) :
  (List.length r <= List.length a)%nat ->
  zip_row (a ++ b) r = zip_row a r ++ map (fun k => (k, None)) b.
Proof.
  revert r. induction a as [|k a IH]; intros r H.
  - destruct r; [|simpl in H; lia]. cbn [app zip_row].
    induction b as [|k b IHb]; [reflexivity|]. cbn [zip_row map].
    now rewrite IHb.
  - destruct r as [|v r]; cbn [app zip_row].
    + f_equal. apply (IH []). simpl. lia.
    + f_equal. apply IH. simpl in H. lia.
Qed.

(** A column of the header that the record does not reach reads as
    [None]. *)
Lemma get_unreached (a b : list str) (key : string) (default : string)
      (r : list str) :
  (List.length r <= List.length a)%nat -> ~ In (py key) b ->
  get (zip_row (a ++ py key :: b) r) key default = None.
Proof.
  intros Hl Hb. unfold get. rewrite (zip_row_app a (py key :: b) r Hl).
  cbn [map].
  rewrite (find_rev_last (fun kv => str_eqb (fst kv) (py key))
             (zip_row a r) (map (fun k => (k, None)) b) (py key, None)).
  - reflexivity.
  - apply str_eqb_refl.
  - intros y Hy. apply in_map_iff in Hy as [k [<- Hk]]. cbn [fst].
    destruct (str_eqb k (py key)) eqn:E; [|reflexivity].
    apply str_eqb_eq in E. subst k. contradiction.
Qed.

Lemma get_none_default (row : dict_row) (key d d' : string) :
  get row key d = None -> get row key d' = None.
Proof.
  unfold get. destruct (find _ (rev row)) as [[k v]|]; [auto|discriminate].
Qed.

Lemma strip_of_some (v : option str) (s : str) :
  strip_of v = Ok s -> v <> None.
Proof. destruct v; [discriminate|intro H; discriminate H]. Qed.

(** A row that runs to its end has read a value in every needed
    column. *)
Lemma csv_row_reads (row : dict_row) (f : row_fields) :
  csv_row_fields row = Ok f ->
  forall key, In key needed_columns -> get row key "" <> None.
Proof.
  unfold csv_row_fields. intro H.
  inv_bind H. apply strip_of_some in Ha. rename Ha into H1.
  inv_bind H. apply strip_of_some in Ha. rename Ha into H2.
  inv_bind H. clear Ha.
  inv_bind H. clear Ha.
  inv_bind H. apply strip_of_some in Ha. rename Ha into H4.
  inv_bind H.
  assert (H5 : get row "Bedrag (EUR)" "0" <> None).
  { destruct (get row "Bedrag (EUR)" "0"); [discriminate|discriminate Ha]. }
  clear Ha.
  inv_bind H. clear Ha.
  inv_bind H. apply strip_of_some in Ha. rename Ha into H3.
  inv_bind H. apply strip_of_some in Ha. rename Ha into H6.
  intros key Hk. unfold needed_columns in Hk. cbn [In] in Hk.
  destruct Hk as [<-|[<-|[<-|[<-|[<-|[<-|[]]]]]]]; try assumption.
  intro C. apply H5. exact (get_none_default row _ _ _ C).
Qed.

Lemma csv_row_needs (row : dict_row) (key : string) :
  In key needed_columns -> get row key "" = None ->
  exists e, csv_row_fields row = Raise e.
Proof.
  intros Hk Hn. destruct (csv_row_fields row) as [f|e] eqn:E.
  - exfalso. exact (csv_row_reads row f E key Hk Hn).
  - now exists e.
Qed.

(** ** Blank rows of a workbook *)

Lemma blank_nth (r : list cell) (n : nat) :
  blank_row r -> nth_error r n = None \/ nth_error r n = Some CNone.
Proof.
  intro H. destruct (nth_error r n) as [c|] eqn:E; [|now left].
  right. apply nth_error_In in E.
  unfold blank_row in H. rewrite Forall_forall in H. now rewrite (H c E).
Qed.

Lemma blank_cell_text (r : list cell) (i : option nat) :
  blank_row r -> cell_text r i = [].
Proof.
  intro H. unfold cell_text. destruct i as [n|]; [|reflexivity].
  destruct (blank_nth r n H) as [-> | ->]; reflexivity.
Qed.

Lemma blank_booking (env : environment) (r : list cell) (i : option nat) :
  blank_row r -> xls_booking_iso env r i = [].
Proof.
  intro H. unfold xls_booking_iso. rewrite (blank_cell_text r i H).
  cbn [isdigit andb]. destruct (has_xlrd env); [|reflexivity].
  destruct (blank_nth r (match i with Some n => n | None => O end) H)
    as [-> | ->]; reflexivity.
Qed.

Lemma blank_row_fields (env : environment) (cols : columns) (r : list cell) :
  blank_row r -> xls_row_fields env cols r = Ok blank_fields.
Proof.
  intro H. unfold xls_row_fields.
  rewrite (blank_booking env r _ H), !(blank_cell_text r _ H).
  vm_compute. reflexivity.
Qed.

Lemma store_row_carries doc f cs :
  added (carries f) (fst cs) (fst (store_row doc f cs)).
Proof.
  unfold store_row. destruct cs as [conn stats].
  pose proof (added_ensure_account (carries f) conn (rf_account_iban f) None)
    as H1.
  destruct (_ensure_account conn (rf_account_iban f) None) as [conn1 acc].
  cbn [fst] in H1.
  match goal with
  | |- context [insert_or_ignore_transaction conn1 ?t] =>
      assert (H2 : added (carries f) conn1
                         (insert_or_ignore_transaction conn1 t))
        by (apply added_insert_or_ignore; intro id; repeat split);
      destruct (0 <? changes (insert_or_ignore_transaction conn1 t))
  end; cbn [fst]; eapply added_trans; eassumption.
Qed.

(** Rows that all carry the fields of the first one: at most one
    transaction is stored, with those fields, and exactly one when the
    store held none. *)
Lemma rows_same_once {A} (body : A -> res row_fields) prefix doc
      (r0 : A) (rows : list A) (f0 : row_fields) (cs : db * IngestStats) :
  body r0 = Ok f0 ->
  (forall x, In x (passed (map body rows)) -> x = f0) ->
  let out := fold_left (fun x r => row_step prefix doc x (body r))
                       (r0 :: rows) cs in
  added (carries f0) (fst cs) (fst out)
  /\ tx_new (snd out) <= tx_new (snd cs) + 1
  /\ (transactions (fst cs) = [] ->
      tx_new (snd out) = tx_new (snd cs) + 1
      /\ List.length (transactions (fst out)) = 1%nat).
Proof.
  intros H0 Hsame. cbv zeta. cbn [fold_left]. rewrite H0.
  destruct cs as [c0 st0].
  change (row_step prefix doc (c0, st0) (Ok f0))
    with (store_row doc f0 (c0, seen st0)).
  destruct (fold_known body prefix doc doc rows f0 (c0, seen st0)
              Hsame (store_row doc f0 (c0, seen st0)) (covers_refl _))
    as [H1 H2].
  cbv zeta in H1, H2. cbn [fst snd].
  pose proof (store_row_carries doc f0 (c0, seen st0)) as Hc.
  cbn [fst] in Hc.
  destruct (store_row_one doc f0 c0 st0) as [_ [_ Hle]]. cbn [snd] in Hle.
  split.
  - destruct Hc as [new [E F]]. exists new. split; [congruence|exact F].
  - split; [lia|]. intro Ht0.
    destruct (store_row_fresh doc f0 c0 (seen st0)
                (fst (store_row doc f0 (c0, seen st0))) (covers_refl _))
      as [Hn [t [Et _]]].
    { unfold hashes. rewrite Ht0. reflexivity. }
    cbv zeta in Hn, Et. rewrite H1, H2, Et, Hn, Ht0. cbn [seen tx_new].
    split; reflexivity.
Qed.

Lemma xls_blank_rows (env : environment) (conn : db) (f : xls_file)
      (headers : list str) (r0 : list cell) (rows : list (list cell)) :
  load_rows env f = Ok (headers, r0 :: rows) ->
  Forall blank_row (r0 :: rows) ->
  exists stats,
    snd (ingest_xls env conn f) = Ok stats /\
    tx_seen stats = Z.of_nat (List.length (r0 :: rows)) /\
    tx_new stats <= 1 /\
    added (carries blank_fields) conn (fst (ingest_xls env conn f)) /\
    (transactions conn = [] ->
     tx_new stats = 1
     /\ List.length (transactions (fst (ingest_xls env conn f))) = 1%nat).
Proof.
  intros Hl Hb.
  pose proof (xls_run_appended env conn f) as Hrun. cbv zeta in Hrun.
  unfold ingest_xls in *.
  pose proof (register_xls_registered conn f) as Hr.
  destruct (register_xls conn f) as [[c0 d] st0]. cbn [fst snd] in *.
  destruct Hr as (_ & _ & _ & Ht & _ & _ & _ & Hn).
  rewrite Hl in *.
  assert (B0 : xls_row_fields env (resolve_columns headers) r0
               = Ok blank_fields).
  { apply blank_row_fields. now inversion Hb. }
  assert (Bs : forall x,
             In x (passed (map (xls_row_fields env (resolve_columns headers))
                               rows)) -> x = blank_fields).
  { intros x Hx. apply passed_in in Hx. apply in_map_iff in Hx.
    destruct Hx as [r [Er Hr]].
    rewrite blank_row_fields in Er.
    - congruence.
    - inversion Hb as [|? ? _ Hrest]. rewrite Forall_forall in Hrest.
      now apply Hrest. }
  destruct (rows_same_once (xls_row_fields env (resolve_columns headers))
              "xls row error" d r0 rows blank_fields (c0, st0) B0 Bs)
    as [Ha [Hle Hone]].
  cbv zeta in Ha, Hle, Hone.
  destruct (fold_left _ (r0 :: rows) (c0, st0)) as [c1 st1].
  cbn [fst snd] in *. destruct Hrun as [_ Hseen].
  exists st1. split; [reflexivity|]. split; [exact Hseen|].
  split; [lia|]. split.
  - destruct Ha as [new [E F]]. exists new.
    cbn [insert_parse_event transactions]. split; [congruence|exact F].
  - intro H0. destruct Hone as [H1 H2]; [congruence|].
    cbn [insert_parse_event transactions]. split; [lia|exact H2].
Qed.

(** ** PDF files that cannot be read *)

Lemma pdf_unreadable (env : environment) (conn : db) (f : pdf_file)
      (e : exn) :
  has_pdfplumber env = true ->
  (pages <- pdf_pages f ;; page_texts pages) = Raise e ->
  let out := ingest_pdf_generic env conn f in
  parse_events (fst out)
  = parse_events conn ++ [pdf_failure (pdf_document_of conn f) e] /\
  transactions (fst out) = transactions conn /\
  accounts (fst out) = accounts conn /\
  tx_seen (snd out) = 0 /\ tx_new (snd out) = 0.
Proof.
  intros Hp He. cbv zeta. unfold ingest_pdf_generic, pdf_document_of.
  pose proof (register_pdf_registered conn f) as Hr.
  unfold pdf_document_of in Hr.
  assert (Hev : parse_events (fst (fst (register_pdf conn f)))
                = parse_events conn).
  { unfold register_pdf. now destruct (select_document _ _). }
  destruct (register_pdf conn f) as [[c0 d] st0]. cbn [fst snd] in *.
  destruct Hr as (_ & _ & Ha & Ht & _ & _ & Hs & Hn).
  rewrite Hp. unfold pdf_parse. rewrite He. unfold pdf_failure.
  destruct (is_module_not_found e); cbn; rewrite Hev; auto.
Qed.

(** ** The account of a PDF file *)

Lemma added_pdf_rows (P : transaction -> Prop) doc acc
      (cands : list (str * str * str)) :
  (forall t, txn_account_id t = acc -> txn_value_date t = None ->
             txn_counterparty_name t = None ->
             txn_counterparty_iban t = None -> P t) ->
  forall cs, added P (fst cs) (fst (fold_left (pdf_row_step doc acc) cands cs)).
Proof.
  intro HP. apply added_fold. intros cs c. unfold pdf_row_step.
  destruct (pdf_row_fields c) as [f|e]; [|apply added_event].
  unfold pdf_store_row. cbn [fst snd].
  match goal with
  | |- context [insert_or_ignore_transaction ?c ?t] =>
      assert (H2 : added P c (insert_or_ignore_transaction c t))
        by (apply added_insert_or_ignore; intro id; apply HP; reflexivity);
      destruct (0 <? changes (insert_or_ignore_transaction c t))
  end; exact H2.
Qed.

(** The transactions of a PDF run all go to one account, the one the
    key of the text resolves to afterwards; they have no value date and
    no counterparty. *)
Lemma pdf_one_account (env : environment) (conn : db) (f : pdf_file)
      (texts : list str) :
  has_pdfplumber env = true ->
  (pages <- pdf_pages f ;; page_texts pages) = Ok texts ->
  let out := ingest_pdf_generic env conn f in
  let key := pdf_key (join [10%N] texts) in
  exists acc,
    select_account (fst out) (py "ING") (fst key) (snd key) = Some acc /\
    added (fun t => txn_account_id t = acc /\ txn_value_date t = None
                    /\ txn_counterparty_name t = None
                    /\ txn_counterparty_iban t = None)
          conn (fst out) /\
    tx_seen (snd out)
    = Z.of_nat (List.length
                  (_iter_tx_candidates (_extract_lines (join [10%N] texts)))).
Proof.
  intros Hp He. cbv zeta. unfold ingest_pdf_generic.
  pose proof (register_pdf_registered conn f) as Hr.
  destruct (register_pdf conn f) as [[c0 d] st0]. cbn [fst snd] in *.
  destruct Hr as (_ & _ & Ha & Ht & _ & _ & Hs & Hn).
  rewrite Hp. unfold pdf_parse. rewrite He. unfold pdf_account, pdf_key.
  destruct (match _guess_account_iban _ with Some i => _ | None => _ end)
    as [iban no]. cbn [fst snd].
  set (c1 := insert_or_ignore_account c0 (py "ING") iban no).
  destruct (account_stable c0 c1 iban no (covers_refl _)) as [_ Hsome].
  fold c1 in Hsome.
  destruct (select_account c1 (py "ING") iban no) as [acc|] eqn:Eacc;
    [|congruence].
  set (cands := _iter_tx_candidates (_extract_lines (join [10%N] texts))).
  pose proof (added_pdf_rows
                (fun t => txn_account_id t = acc /\ txn_value_date t = None
                          /\ txn_counterparty_name t = None
                          /\ txn_counterparty_iban t = None)
                d acc cands (fun t H1 H2 H3 H4 => conj H1 (conj H2 (conj H3 H4)))
                (c1, st0)) as Hadd.
  pose proof (fold_covers (pdf_row_step d acc) cands
                (fun x c => pdf_row_step_covers d acc x c) (c1, st0)) as Hcov.
  destruct (rows_appended d (pdf_row_step d acc) cands
              (fun x c => pdf_row_step_one d acc x c) (c1, st0))
    as [_ [Hseen _]].
  cbv zeta in Hseen.
  destruct (fold_left (pdf_row_step d acc) cands (c1, st0)) as [c2 st2].
  cbn [fst snd] in *. exists acc. split; [|split].
  - assert (Hc : covers c1 (insert_parse_event c2 d "parse" 1
                              (summary "pdf parsed" st2))).
    { eapply covers_trans; [exact Hcov|apply covers_event]. }
    destruct (account_stable c0 _ iban no Hc) as [E _]. fold c1 in E.
    now rewrite E.
  - destruct Hadd as [new [E F]]. exists new. cbn. split; [|exact F].
    rewrite E. f_equal. unfold c1, insert_or_ignore_account.
    destruct (select_account c0 (py "ING") iban no); cbn; exact Ht.
  - lia.
Qed.

(** ** Categories *)

Lemma category_ids_fold (conn : db) :
  category_ids conn = fold_left ids_step DEFAULT_CATEGORY_MAP (conn, []).
Proof. reflexivity. Qed.

Lemma select_category_app (c c' : db) (more : list category) (code : str)
      (id : Z) :
  categories c' = categories c ++ more ->
  select_category c code = Some id -> select_category c' code = Some id.
Proof.
  unfold select_category. intros -> H. rewrite find_app.
  destruct (find _ (categories c)); [exact H|discriminate].
Qed.

Lemma grows_refl (a : db) : grows a a.
Proof. repeat split. exists []. now rewrite app_nil_r. Qed.

Lemma grows_trans (a b c : db) : grows a b -> grows b c -> grows a c.
Proof.
  intros (D1 & A1 & T1 & E1 & [n1 C1]) (D2 & A2 & T2 & E2 & [n2 C2]).
  repeat split; try congruence.
  exists (n1 ++ n2). now rewrite C2, C1, app_assoc.
Qed.

Lemma grows_select (a b : db) (code : str) (id : Z) :
  grows a b -> select_category a code = Some id ->
  select_category b code = Some id.
Proof.
  intros (_ & _ & _ & _ & [new C]). now apply select_category_app with new.
Qed.

Lemma ensure_category_cases (c : db) (code : str) :
  let r := _ensure_category c code in
  select_category (fst r) code = Some (snd r) /\
  ((select_category c code = Some (snd r) /\ fst r = c)
   \/ (select_category c code = None
       /\ ~ In (snd r) (map cat_id (categories c))
       /\ categories (fst r)
          = categories c ++ [{| cat_id := snd r; cat_code := code |}]
       /\ documents (fst r) = documents c
       /\ accounts (fst r) = accounts c
       /\ transactions (fst r) = transactions c
       /\ parse_events (fst r) = parse_events c)).
Proof.
  cbv zeta. unfold _ensure_category.
  destruct (select_category c code) as [id|] eqn:E; cbn [fst snd].
  - split; [exact E|left; split; reflexivity].
  - split.
    + unfold select_category in *. cbn [insert_category fst categories].
      rewrite find_app.
      destruct (find _ (categories c)); [discriminate|].
      cbn [find cat_code]. now rewrite str_eqb_refl.
    + right. split; [reflexivity|]. split; [apply next_rowid_fresh|].
      repeat split.
Qed.

Lemma ensure_category_grows (c : db) (code : str) :
  grows c (fst (_ensure_category c code)).
Proof.
  destruct (ensure_category_cases c code) as [_ [[_ E]|H]].
  - rewrite E. apply grows_refl.
  - destruct H as (_ & _ & C & D & A & T & P). repeat split; try assumption.
    eexists. exact C.
Qed.

Lemma lookup_id_app (ids more : list (str * Z)) (code : str) :
  lookup_id (ids ++ more) code
  = match lookup_id ids code with
    | Ok id => Ok id
    | Raise _ => lookup_id more code
    end.
Proof.
  unfold lookup_id. rewrite find_app.
  destruct (find _ ids) as [[k v]|]; reflexivity.
Qed.

Lemma lookup_id_absent (ids : list (str * Z)) (code : str) :
  existsb (fun kv => str_eqb (fst kv) code) ids = false ->
  exists e, lookup_id ids code = Raise e.
Proof.
  intro H. unfold lookup_id.
  rewrite (find_all_false (fun kv => str_eqb (fst kv) code) ids).
  - eexists. reflexivity.
  - intros y Hy. destruct (str_eqb (fst y) code) eqn:E; [|reflexivity].
    assert (X : existsb (fun kv => str_eqb (fst kv) code) ids = true)
      by (apply existsb_exists; exists y; now split).
    congruence.
Qed.

Lemma lookup_id_present (ids : list (str * Z)) (code : str) :
  existsb (fun kv => str_eqb (fst kv) code) ids = true ->
  exists id, lookup_id ids code = Ok id.
Proof.
  intro H. unfold lookup_id.
  destruct (find (fun kv => str_eqb (fst kv) code) ids) as [[k v]|] eqn:F.
  - now exists v.
  - apply existsb_exists in H. destruct H as [y [Hy E]].
    pose proof (find_none _ _ F y Hy) as N. cbv beta in N. congruence.
Qed.

Lemma lookup_id_single (code code' : str) (id id' : Z) :
  lookup_id [(code, id)] code' = Ok id' -> code' = code /\ id' = id.
Proof.
  unfold lookup_id. cbn [find fst].
  destruct (str_eqb code code') eqn:E; [|discriminate].
  apply str_eqb_eq in E. intro H. injection H as <-. now split.
Qed.

(** One turn keeps the dict right, adds the code of its entry to it and
    only appends to the categories. *)
Lemma ids_step_ok (c : db) (ids : list (str * Z)) (e : string * string) :
  ids_ok c ids ->
  let r := ids_step (c, ids) e in
  ids_ok (fst r) (snd r)
  /\ grows c (fst r)
  /\ (exists id, lookup_id (snd r) (py (snd e)) = Ok id)
  /\ (forall code id, lookup_id ids code = Ok id ->
                      lookup_id (snd r) code = Ok id).
Proof.
  intro H. cbv zeta. unfold ids_step. cbn [fst snd].
  destruct (existsb _ ids) eqn:X.
  - cbn [fst snd]. split; [exact H|]. split; [apply grows_refl|].
    split; [now apply lookup_id_present|auto].
  - destruct (ensure_category_cases c (py (snd e))) as [S _].
    pose proof (ensure_category_grows c (py (snd e))) as G.
    destruct (_ensure_category c (py (snd e))) as [c' id].
    cbn [fst snd] in *.
    destruct (lookup_id_absent ids _ X) as [ex Hex].
    split; [|split; [exact G|split]].
    + intros code i Hi. rewrite lookup_id_app in Hi.
      destruct (lookup_id ids code) as [j|ex'] eqn:L.
      * injection Hi as <-. apply (grows_select c c' code j G). now apply H.
      * apply lookup_id_single in Hi. destruct Hi as [-> ->]. exact S.
    + exists id. rewrite lookup_id_app, Hex. unfold lookup_id.
      cbn [find fst]. now rewrite str_eqb_refl.
    + intros code i Hi. now rewrite lookup_id_app, Hi.
Qed.

Lemma ids_fold_ok (l : list (string * string)) :
  forall (c : db) (ids : list (str * Z)),
    ids_ok c ids ->
    let r := fold_left ids_step l (c, ids) in
    ids_ok (fst r) (snd r)
    /\ grows c (fst r)
    /\ (forall e, In e l -> exists id, lookup_id (snd r) (py (snd e)) = Ok id)
    /\ (forall code id, lookup_id ids code = Ok id ->
                        lookup_id (snd r) code = Ok id).
Proof.
  induction l as [|e l IH]; intros c ids H; cbv zeta; cbn [fold_left].
  - split; [exact H|]. split; [apply grows_refl|]. split; [|auto].
    intros e [].
  - destruct (ids_step_ok c ids e H) as (H1 & G1 & [id0 L1] & K1).
    cbv zeta in H1, G1, L1, K1.
    destruct (ids_step (c, ids) e) as [c1 ids1]. cbn [fst snd] in *.
    destruct (IH c1 ids1 H1) as (H2 & G2 & L2 & K2).
    cbv zeta in H2, G2, L2, K2.
    split; [exact H2|]. split; [exact (grows_trans _ _ _ G1 G2)|]. split.
    + intros x [<-|Hx]; [|now apply L2]. exists id0. now apply K2.
    + intros code id Hc. apply K2. now apply K1.
Qed.

Lemma ids_ok_nil (c : db) : ids_ok c [].
Proof. intros code id H. discriminate H. Qed.

(** After the first loop every code of the map is in the dict, with the
    id the table gives for it. *)
Lemma category_ids_spec (conn : db) :
  let r := category_ids conn in
  grows conn (fst r) /\
  forall code, In code map_codes ->
    exists id, lookup_id (snd r) code = Ok id
               /\ select_category (fst r) code = Some id.
Proof.
  cbv zeta. rewrite category_ids_fold.
  destruct (ids_fold_ok DEFAULT_CATEGORY_MAP conn [] (ids_ok_nil conn))
    as (H & G & L & _).
  cbv zeta in H, G, L. split; [exact G|].
  intros code Hc. unfold map_codes in Hc. apply in_map_iff in Hc.
  destruct Hc as [e [<- He]]. destruct (L e He) as [id Hid].
  exists id. split; [exact Hid|]. now apply H.
Qed.

(** The rows the first loop creates. *)
Lemma ids_step_created (conn c : db) (ids : list (str * Z))
      (e : string * string) (new : list category) :
  In (py (snd e)) map_codes ->
  categories c = categories conn ++ new ->
  Forall (created conn) new -> NoDup (map cat_code new) ->
  NoDup (map cat_id new) ->
  exists more,
    categories (fst (ids_step (c, ids) e)) = categories conn ++ new ++ more
    /\ Forall (created conn) (new ++ more)
    /\ NoDup (map cat_code (new ++ more))
    /\ NoDup (map cat_id (new ++ more)).
Proof.
  intros He Hc Hf Hn Hi. unfold ids_step. cbn [fst snd].
  destruct (existsb _ ids).
  { exists []. cbn [fst]. rewrite app_nil_r. auto. }
  destruct (ensure_category_cases c (py (snd e))) as [_ [[_ E]|H]].
  - destruct (_ensure_category c (py (snd e))) as [c' id].
    cbn [fst snd] in *. subst c'. exists []. rewrite app_nil_r. auto.
  - destruct (_ensure_category c (py (snd e))) as [c' id].
    cbn [fst snd] in *. destruct H as (S & F & C & _).
    exists [{| cat_id := id; cat_code := py (snd e) |}].
    assert (Sc : forall x, In x (categories c) ->
                           str_eqb (cat_code x) (py (snd e)) = false).
    { intros x Hx. unfold select_category in S.
      destruct (find (fun c0 => str_eqb (cat_code c0) (py (snd e)))
                     (categories c)) eqn:Fd; [discriminate|].
      exact (find_none _ _ Fd x Hx). }
    split; [now rewrite C, Hc, app_assoc|]. split; [|split].
    + apply Forall_app. split; [exact Hf|]. constructor; [|constructor].
      unfold created. cbn [cat_code cat_id]. split; [exact He|]. split.
      * unfold select_category.
        rewrite (find_all_false _ (categories conn)); [reflexivity|].
        intros y Hy. apply Sc. rewrite Hc. apply in_or_app. now left.
      * intro In0. apply F. rewrite Hc, map_app. apply in_or_app. now left.
    + rewrite map_app. cbn [map cat_code]. apply NoDup_snoc; [exact Hn|].
      intro In0. apply in_map_iff in In0. destruct In0 as [x [Ex Hx]].
      assert (X : str_eqb (cat_code x) (py (snd e)) = false).
      { apply Sc. rewrite Hc. apply in_or_app. now right. }
      rewrite Ex, str_eqb_refl in X. discriminate.
    + rewrite map_app. cbn [map cat_id]. apply NoDup_snoc; [exact Hi|].
      intro In0. apply F. rewrite Hc, map_app. apply in_or_app. now right.
Qed.

Lemma ids_fold_created (conn : db) (l : list (string * string)) :
  (forall e, In e l -> In (py (snd e)) map_codes) ->
  forall (c : db) (ids : list (str * Z)) (new : list category),
    categories c = categories conn ++ new ->
    Forall (created conn) new -> NoDup (map cat_code new) ->
    NoDup (map cat_id new) ->
    exists new',
      categories (fst (fold_left ids_step l (c, ids)))
      = categories conn ++ new'
      /\ Forall (created conn) new'
      /\ NoDup (map cat_code new')
      /\ NoDup (map cat_id new').
Proof.
  induction l as [|e l IH]; intros Hl c ids new Hc Hf Hn Hi;
    cbn [fold_left].
  - exists new. auto.
  - destruct (ids_step_created conn c ids e new
                (Hl e (or_introl eq_refl)) Hc Hf Hn Hi)
      as [more (C1 & F1 & N1 & I1)].
    destruct (ids_step (c, ids) e) as [c1 ids1]. cbn [fst] in C1.
    apply (IH (fun x Hx => Hl x (or_intror Hx)) c1 ids1 (new ++ more));
      assumption.
Qed.

Lemma category_ids_created (conn : db) :
  exists new,
    categories (fst (category_ids conn)) = categories conn ++ new
    /\ Forall (created conn) new
    /\ NoDup (map cat_code new)
    /\ NoDup (map cat_id new).
Proof.
  rewrite category_ids_fold.
  apply (ids_fold_created conn DEFAULT_CATEGORY_MAP) with (new := []).
  - intros e He. unfold map_codes. apply in_map_iff. exists e.
    split; [reflexivity|exact He].
  - now rewrite app_nil_r.
  - constructor.
  - constructor.
  - constructor.
Qed.

(** When every code is in the table the first loop writes nothing. *)
Lemma ids_fold_present (l : list (string * string)) (c : db) :
  (forall e, In e l -> select_category c (py (snd e)) <> None) ->
  forall ids, fst (fold_left ids_step l (c, ids)) = c.
Proof.
  induction l as [|e l IH]; intros H ids; cbn [fold_left]; [reflexivity|].
  assert (E : fst (ids_step (c, ids) e) = c).
  { unfold ids_step. cbn [fst snd]. destruct (existsb _ ids); [reflexivity|].
    unfold _ensure_category.
    destruct (select_category c (py (snd e))) eqn:S; [reflexivity|].
    exfalso. exact (H e (or_introl eq_refl) S). }
  destruct (ids_step (c, ids) e) as [c1 ids1]. cbn [fst] in E. subst c1.
  apply IH. intros x Hx. apply H. now right.
Qed.

(** ** The rows a run updates *)

Lemma choose_in (base code : str) :
  choose base = Some code -> In code map_codes.
Proof.
  unfold choose, map_codes. intro H.
  destruct (find _ DEFAULT_CATEGORY_MAP) as [e|] eqn:F; [|discriminate].
  injection H as <-. apply in_map_iff. exists e. split; [reflexivity|].
  exact (proj1 (find_some _ _ F)).
Qed.

Lemma update_category_map (c : db) (cat tx : Z) :
  transactions (update_category c cat tx)
  = map (fun t => if txn_id t =? tx then with_category t cat else t)
        (transactions c).
Proof. reflexivity. Qed.

Lemma categorize_row_some ids cs tx desc cp code id :
  choose (base_text desc cp) = Some code -> lookup_id ids code = Ok id ->
  categorize_row ids cs (tx, desc, cp)
  = Ok (update_category (fst cs) id tx,
        {| merchants_new := merchants_new (snd cs);
           categories_new := categories_new (snd cs);
           tx_updated := tx_updated (snd cs) + 1 |}).
Proof. intros H1 H2. unfold categorize_row. now rewrite H1, H2. Qed.

Lemma categorize_row_none ids cs tx desc cp :
  choose (base_text desc cp) = None ->
  categorize_row ids cs (tx, desc, cp) = Ok cs.
Proof. intro H. unfold categorize_row. now rewrite H. Qed.

Lemma row_update_some ids t tx desc cp code id :
  choose (base_text desc cp) = Some code -> lookup_id ids code = Ok id ->
  row_update ids t (tx, desc, cp)
  = if txn_id t =? tx then with_category t id else t.
Proof. intros H1 H2. unfold row_update. cbn [fst snd]. now rewrite H1, H2. Qed.

Lemma row_update_none ids t tx desc cp :
  choose (base_text desc cp) = None -> row_update ids t (tx, desc, cp) = t.
Proof. intro H. unfold row_update. cbn [fst snd]. now rewrite H. Qed.

(** The loop over the fetched rows, as a map over the stored rows. *)
Lemma rows_fold (ids : list (str * Z)) (rows : list (Z * str * option str)) :
  (forall code, In code map_codes -> exists id, lookup_id ids code = Ok id) ->
  forall (c : db) (st : CategorizeStats),
  exists c' st',
    fold_left (fun acc row => cs <- acc ;; categorize_row ids cs row) rows
              (Ok (c, st)) = Ok (c', st')
    /\ transactions c'
       = map (fun t => fold_left (row_update ids) rows t) (transactions c)
    /\ documents c' = documents c /\ accounts c' = accounts c
    /\ parse_events c' = parse_events c /\ categories c' = categories c
    /\ merchants_new st' = merchants_new st
    /\ categories_new st' = categories_new st
    /\ tx_updated st'
       = tx_updated st
         + Z.of_nat (List.length
                       (filter (fun row =>
                                  match choose (base_text (snd (fst row))
                                                          (snd row)) with
                                  | Some _ => true
                                  | None => false
                                  end) rows)).
Proof.
  intro Hids. induction rows as [|row rows IH]; intros c st.
  - exists c, st. cbn [fold_left filter List.length]. rewrite map_id.
    repeat split. cbn. lia.
  - cbn [fold_left bind filter]. destruct row as [[tx desc] cp].
    cbn [fst snd].
    destruct (choose (base_text desc cp)) as [code|] eqn:Ch.
    + destruct (Hids code (choose_in _ _ Ch)) as [id Hid].
      rewrite (categorize_row_some ids (c, st) tx desc cp code id Ch Hid).
      destruct (IH (update_category c id tx)
                   {| merchants_new := merchants_new st;
                      categories_new := categories_new st;
                      tx_updated := tx_updated st + 1 |})
        as (c' & st' & E & T & D & A & P & C & M & N & U).
      exists c', st'. cbn [fst snd]. rewrite E. split; [reflexivity|].
      split.
      { rewrite T, update_category_map, map_map. apply map_ext.
        intro t.
        now rewrite (row_update_some ids t tx desc cp code id Ch Hid). }
      cbn [fst snd] in *.
      repeat split; try assumption.
      rewrite U. cbn [tx_updated List.length]. lia.
    + rewrite (categorize_row_none ids (c, st) tx desc cp Ch).
      destruct (IH c st) as (c' & st' & E & T & D & A & P & C & M & N & U).
      exists c', st'. rewrite E. split; [reflexivity|]. split.
      { rewrite T. apply map_ext. intro t.
        now rewrite (row_update_none ids t tx desc cp Ch). }
      repeat split; assumption.
Qed.

Lemma with_category_id (t : transaction) (cat : Z) :
  txn_id (with_category t cat) = txn_id t.
Proof. reflexivity. Qed.

Lemma row_update_id (ids : list (str * Z)) (t : transaction) row :
  txn_id (row_update ids t row) = txn_id t.
Proof.
  unfold row_update. destruct (choose _); [|reflexivity].
  destruct (lookup_id ids s); [|reflexivity].
  now destruct (txn_id t =? fst (fst row)).
Qed.

(** Rows fetched for other transactions leave [t] as it is. *)
Lemma rows_other (ids : list (str * Z)) (t : transaction)
      (ts : list transaction) :
  ~ In (txn_id t) (map txn_id ts) ->
  fold_left (row_update ids) (map fetched (filter no_category ts)) t = t.
Proof.
  induction ts as [|u ts IH]; intro H; [reflexivity|].
  cbn [map] in H. cbn [filter].
  assert (Hu : txn_id t <> txn_id u) by (intro E; apply H; left; congruence).
  assert (Hts : ~ In (txn_id t) (map txn_id ts))
    by (intro E; apply H; now right).
  destruct (no_category u); [|now apply IH].
  cbn [map fold_left].
  assert (E : row_update ids t (fetched u) = t).
  { unfold row_update, fetched. cbn [fst snd]. destruct (choose _); auto.
    destruct (lookup_id ids s); auto.
    destruct (txn_id t =? txn_id u) eqn:Q; [lia|reflexivity]. }
  rewrite E. now apply IH.
Qed.

(** What the rows fetched from [ts] do to a row of [ts] whose id is not
    repeated. *)
Lemma rows_at (ids : list (str * Z)) (pre post : list transaction)
      (t : transaction) :
  NoDup (map txn_id (pre ++ t :: post)) ->
  fold_left (row_update ids)
            (map fetched (filter no_category (pre ++ t :: post))) t
  = if no_category t then row_update ids t (fetched t) else t.
Proof.
  intro H. rewrite map_app in H. cbn [map] in H.
  assert (Hpre : ~ In (txn_id t) (map txn_id pre)).
  { intro E. apply NoDup_remove_2 in H. apply H. apply in_or_app. now left. }
  assert (Hpost : ~ In (txn_id t) (map txn_id post)).
  { intro E. apply NoDup_remove_2 in H. apply H. apply in_or_app. now right. }
  rewrite filter_app, map_app, fold_left_app.
  rewrite (rows_other ids t pre Hpre). cbn [filter].
  destruct (no_category t) eqn:N.
  - cbn [map fold_left].
    assert (Hid : ~ In (txn_id (row_update ids t (fetched t)))
                       (map txn_id post))
      by now rewrite row_update_id.
    exact (rows_other ids _ post Hid).
  - exact (rows_other ids t post Hpost).
Qed.

Lemma Forall2_map_in {A} (R : A -> A -> Prop) (f : A -> A) (l : list A) :
  (forall pre x post, l = pre ++ x :: post -> R x (f x)) ->
  Forall2 R l (map f l).
Proof.
  induction l as [|x l IH]; intro H; [constructor|].
  cbn [map]. constructor.
  - exact (H [] x l eq_refl).
  - apply IH. intros pre y post E. apply (H (x :: pre) y post).
    now rewrite E.
Qed.

Lemma count_updates (ts : list transaction) :
  List.length
    (filter (fun row => match choose (base_text (snd (fst row)) (snd row)) with
                        | Some _ => true
                        | None => false
                        end)
            (map fetched (filter no_category ts)))
  = List.length (filter to_update ts).
Proof.
  induction ts as [|t ts IH]; [reflexivity|].
  cbn [filter]. unfold no_category at 1, to_update at 1, keyword_code.
  destruct (txn_category_id t); [exact IH|].
  cbn [map filter]. unfold fetched at 1. cbn [fst snd].
  destruct (choose _); cbn [List.length]; now rewrite IH.
Qed.

(** The whole run over a store whose transaction ids are not repeated. *)
Lemma categorize_spec (conn : db) :
  NoDup (map txn_id (transactions conn)) ->
  exists out stats,
    categorize_transactions conn = Ok (out, stats)
    /\ grows conn (fst (category_ids conn))
    /\ categories out = categories (fst (category_ids conn))
    /\ documents out = documents conn /\ accounts out = accounts conn
    /\ parse_events out = parse_events conn
    /\ Forall2 (categorized out) (transactions conn) (transactions out)
    /\ merchants_new stats = 0 /\ categories_new stats = 0
    /\ tx_updated stats
       = Z.of_nat (List.length (filter to_update (transactions conn))).
Proof.
  intro Hnd. unfold categorize_transactions.
  destruct (category_ids_spec conn) as [G L]. cbv zeta in G, L.
  destruct (category_ids conn) as [c0 ids]. cbn [fst snd] in *.
  destruct G as (D0 & A0 & T0 & P0 & [new C0]).
  destruct (rows_fold ids (uncategorized c0)
              (fun code Hc => match L code Hc with
                              | ex_intro _ id (conj H _) =>
                                  ex_intro _ id H
                              end)
              c0 {| merchants_new := 0; categories_new := 0;
                    tx_updated := 0 |})
    as (out & stats & E & T & D & A & P & C & M & N & U).
  exists out, stats. split; [exact E|].
  split; [repeat split; try assumption; now exists new|].
  split; [exact C|]. split; [congruence|]. split; [congruence|].
  split; [congruence|]. split; [|split; [exact M|split; [exact N|]]].
  - rewrite T, T0. unfold uncategorized. rewrite T0.
    change (fun t => match txn_category_id t with
                     | None => true
                     | Some _ => false
                     end) with no_category.
    change (fun t => (txn_id t, txn_description t, txn_counterparty_name t))
      with fetched.
    apply Forall2_map_in. intros pre t post Et.
    rewrite Et in Hnd |- *. rewrite (rows_at ids pre post t Hnd).
    unfold categorized, no_category, keyword_code.
    destruct (txn_category_id t) as [k|]; [reflexivity|].
    unfold row_update, fetched. cbn [fst snd].
    destruct (choose _) as [code|] eqn:Ch; [|reflexivity].
    destruct (L code (choose_in _ _ Ch)) as [id [L1 L2]]. rewrite L1.
    rewrite Z.eqb_refl. exists id. split; [|reflexivity].
    unfold select_category in *. now rewrite C.
  - rewrite U. cbn [tx_updated]. rewrite Z.add_0_l. f_equal.
    unfold uncategorized. rewrite T0.
    exact (count_updates (transactions conn)).
Qed.

(** ** After a run *)

Lemma find_by_id (l : list category) (c : category) :
  NoDup (map cat_id l) -> In c l ->
  find (fun x => cat_id x =? cat_id c) l = Some c.
Proof.
  induction l as [|x l IH]; intros N H; [contradiction|].
  cbn [map] in N. apply NoDup_cons_iff in N as [N1 N2].
  cbn [find]. destruct H as [->|H].
  - now rewrite Z.eqb_refl.
  - destruct (Z.eqb_spec (cat_id x) (cat_id c)) as [E|_]; [|now apply IH].
    exfalso. apply N1. rewrite E. now apply in_map.
Qed.

(** The code the report gives for a category id the table holds once. *)
Lemma category_code_selected (out : db) (t : transaction) (code : str)
      (id : Z) :
  NoDup (map cat_id (categories out)) ->
  select_category out code = Some id ->
  category_code out (with_category t id) = code.
Proof.
  intros N S. unfold category_code, select_category in *.
  cbn [with_category txn_category_id].
  destruct (find (fun c => str_eqb (cat_code c) code) (categories out))
    as [c|] eqn:F; [|discriminate].
  injection S as <-. destruct (find_some _ _ F) as [Hin Hc].
  rewrite (find_by_id _ c N Hin). now apply str_eqb_eq.
Qed.

Lemma created_ids_fresh (conn : db) (new : list category) :
  NoDup (map cat_id (categories conn)) -> Forall (created conn) new ->
  NoDup (map cat_id new) ->
  NoDup (map cat_id (categories conn ++ new)).
Proof.
  intros N F Nn. induction new as [|x new IH] using rev_ind.
  - now rewrite app_nil_r.
  - apply Forall_app in F as [F Fx]. inversion Fx as [|? ? [_ [_ Hx]] _].
    subst. rewrite map_app in Nn. cbn [map] in Nn.
    assert (Nn' : NoDup (map cat_id new)).
    { apply NoDup_remove_1 in Nn. now rewrite app_nil_r in Nn. }
    assert (Hn : ~ In (cat_id x) (map cat_id new)).
    { apply NoDup_remove_2 in Nn. now rewrite app_nil_r in Nn. }
    rewrite app_assoc, map_app. cbn [map]. apply NoDup_snoc.
    + now apply IH.
    + rewrite map_app. intro H. apply in_app_or in H. tauto.
Qed.

(** The category ids of the table stay distinct over a run. *)
Lemma category_ids_nodup (conn : db) :
  NoDup (map cat_id (categories conn)) ->
  NoDup (map cat_id (categories (fst (category_ids conn)))).
Proof.
  intro N. destruct (category_ids_created conn) as [new (C & F & _ & I)].
  rewrite C. now apply created_ids_fresh.
Qed.

Lemma Forall2_map_eq {A B} (R : A -> A -> Prop) (f : A -> B)
      (l l' : list A) :
  (forall x y, R x y -> f y = f x) -> Forall2 R l l' -> map f l' = map f l.
Proof.
  intro H. induction 1 as [|x y l l' Hxy _ IH]; [reflexivity|].
  cbn [map]. now rewrite (H x y Hxy), IH.
Qed.

Lemma categorized_id (out : db) (t t' : transaction) :
  categorized out t t' -> txn_id t' = txn_id t.
Proof.
  unfold categorized. destruct (txn_category_id t); [now intros ->|].
  destruct (keyword_code t); [|now intros ->].
  now intros [id [_ ->]].
Qed.

(** A row a run has been over is not one to update. *)
Lemma categorized_done (out : db) (t t' : transaction) :
  categorized out t t' -> to_update t' = false.
Proof.
  unfold categorized, to_update.
  destruct (txn_category_id t) as [k|] eqn:K.
  - intros ->. now rewrite K.
  - destruct (keyword_code t) as [code|] eqn:C.
    + intros [id [_ ->]]. reflexivity.
    + intros ->. now rewrite K, C.
Qed.

Lemma categorized_kept (out : db) (t t' : transaction) :
  to_update t = false -> categorized out t t' -> t' = t.
Proof.
  unfold categorized, to_update.
  destruct (txn_category_id t); [auto|].
  destruct (keyword_code t); [discriminate|auto].
Qed.

Lemma Forall2_eq_list {A} (l l' : list A) : Forall2 (fun x y => y = x) l l' -> l' = l.
Proof. induction 1; [reflexivity|congruence]. Qed.

Lemma select_category_same (a b : db) (code : str) :
  categories a = categories b ->
  select_category a code = select_category b code.
Proof. unfold select_category. now intros ->. Qed.

(** Once every code of the map is in the table, the first loop writes
    nothing. *)
Lemma ids_settled (mid out : db) :
  categories out = categories mid ->
  (forall code, In code map_codes ->
     exists id, select_category mid code = Some id) ->
  fst (fold_left ids_step DEFAULT_CATEGORY_MAP (out, [])) = out.
Proof.
  intros C1 L. apply ids_fold_present.
  intros e He.
  assert (Hc : In (py (snd e)) map_codes).
  { unfold map_codes. apply in_map_iff. exists e.
    split; [reflexivity|exact He]. }
  destruct (L (py (snd e)) Hc) as [id S].
  rewrite (select_category_same out mid _ C1), S. discriminate.
Qed.

Lemma category_ids_settled (conn out : db) :
  categories out = categories (fst (category_ids conn)) ->
  fst (category_ids out) = out.
Proof.
  intro C1. rewrite category_ids_fold.
  apply (ids_settled (fst (category_ids conn)) out C1).
  intros code Hc. destruct (category_ids_spec conn) as [_ L].
  destruct (L code Hc) as [id [_ S]]. exists id. exact S.
Qed.

Lemma nothing_to_update (out : db) (ts ts' : list transaction) :
  Forall2 (categorized out) ts ts' ->
  forall t', In t' ts' -> to_update t' = false.
Proof.
  induction 1 as [|x y l l' Hxy _ IH]; intros t' Ht'; [contradiction|].
  destruct Ht' as [<-|Ht']; [exact (categorized_done out x y Hxy)|auto].
Qed.

Lemma categorized_all_kept (out : db) (ts ts' : list transaction) :
  (forall t, In t ts -> to_update t = false) ->
  Forall2 (categorized out) ts ts' -> ts' = ts.
Proof.
  intros Hin F. induction F as [|x y l l' Hxy _ IH]; [reflexivity|].
  rewrite (categorized_kept out x y (Hin x (or_introl eq_refl)) Hxy).
  f_equal. apply IH. intros t Ht. apply Hin. now right.
Qed.

Lemma filter_none {A} (p : A -> bool) (l : list A) :
  (forall x, In x l -> p x = false) -> filter p l = [].
Proof.
  induction l as [|x l IH]; intro H; [reflexivity|]. cbn [filter].
  rewrite (H x (or_introl eq_refl)). apply IH. intros y Hy. apply H.
  now right.
Qed.

(** A second run updates nothing. *)
Lemma categorize_again (conn out : db) (stats : CategorizeStats) :
  NoDup (map txn_id (transactions conn)) ->
  categorize_transactions conn = Ok (out, stats) ->
  exists out' stats',
    categorize_transactions out = Ok (out', stats')
    /\ same_tables out out' /\ tx_updated stats' = 0.
Proof.
  intros N E.
  destruct (categorize_spec conn N)
    as (o & s & E1 & G1 & C1 & D1 & A1 & P1 & F1 & _).
  assert (Eo : o = out) by congruence. subst o. clear E1 s.
  assert (N' : NoDup (map txn_id (transactions out))).
  { rewrite (Forall2_map_eq (categorized out) txn_id _ _
               (categorized_id out) F1). exact N. }
  destruct (categorize_spec out N')
    as (o2 & s2 & E2 & G2 & C2 & D2 & A2 & P2 & F2 & _ & _ & U2).
  pose proof (nothing_to_update out _ _ F1) as Hin.
  pose proof (category_ids_settled conn out C1) as Same.
  exists o2, s2. split; [exact E2|]. split.
  - unfold same_tables. rewrite C2, Same.
    split; [exact D2|]. split; [exact A2|].
    split; [exact (categorized_all_kept o2 _ _ Hin F2)|].
    split; [exact P2|reflexivity].
  - rewrite U2, (filter_none to_update _ Hin). reflexivity.
Qed.

(** How the report files the rows of a run. *)
Lemma categorize_report (conn out : db) (stats : CategorizeStats) :
  NoDup (map txn_id (transactions conn)) ->
  NoDup (map cat_id (categories conn)) ->
  categorize_transactions conn = Ok (out, stats) ->
  Forall2 (fun t t' =>
             txn_category_id t = None ->
             category_code out t'
             = match keyword_code t with
               | Some code => code
               | None => py "UNCATEGORIZED"
               end)
          (transactions conn) (transactions out).
Proof.
  intros N Nc E.
  destruct (categorize_spec conn N)
    as (o & s & E1 & G1 & C1 & D1 & A1 & P1 & F1 & _).
  assert (Eo : o = out) by congruence. subst o. clear E E1 s.
  assert (No : NoDup (map cat_id (categories out)))
    by (rewrite C1; exact (category_ids_nodup conn Nc)).
  clear - F1 No. induction F1 as [|x y l l' Hxy _ IH]; constructor;
    [|exact IH].
  intro K. unfold categorized in Hxy. rewrite K in Hxy.
  destruct (keyword_code x) as [code|].
  - destruct Hxy as [id [S ->]]. now apply category_code_selected.
  - subst y. unfold category_code. now rewrite K.
Qed.

(** A run keeps the integrity of the store. *)
Lemma sound_categorize (conn out : db) (stats : CategorizeStats) :
  sound conn -> categorize_transactions conn = Ok (out, stats) ->
  sound out.
Proof.
  intros S E. pose proof S as (N1 & N2 & N3 & N4 & N5 & R).
  destruct (categorize_spec conn N4)
    as (o & s & E1 & G1 & C1 & D1 & A1 & P1 & F1 & _).
  assert (Eo : o = out) by congruence. subst o. clear E E1 s.
  assert (Q : forall x y, categorized out x y ->
                          txn_hash y = txn_hash x
                          /\ txn_account_id y = txn_account_id x
                          /\ txn_document_id y = txn_document_id x).
  { clear. intros x y. unfold categorized.
    destruct (txn_category_id x); [now intros ->|].
    destruct (keyword_code x); [|now intros ->].
    now intros [id [_ ->]]. }
  unfold sound. rewrite D1, A1.
  rewrite (Forall2_map_eq (categorized out) txn_id _ _
             (categorized_id out) F1).
  rewrite (Forall2_map_eq (categorized out) txn_hash _ _
             (fun x y H => proj1 (Q x y H)) F1).
  repeat (split; [assumption|]).
  clear - F1 R Q. induction F1 as [|x y l l' Hxy _ IH]; [constructor|].
  inversion R as [|? ? Rx Rl]; subst. constructor; [|now apply IH].
  destruct (Q x y Hxy) as (_ & -> & ->). exact Rx.
Qed.

(** ** A folder of files *)

Lemma extends_refl (s : db) : extends s s.
Proof. split; [exists []; now rewrite app_nil_r|apply covers_refl]. Qed.

Lemma extends_trans (a b c : db) : extends a b -> extends b c -> extends a c.
Proof.
  intros [[d1 E1] C1] [[d2 E2] C2]. split.
  - exists (d1 ++ d2). now rewrite E2, E1, app_assoc.
  - exact (covers_trans _ _ _ C1 C2).
Qed.

Lemma extends_same (s e e' : db) :
  documents e' = documents e -> accounts e' = accounts e ->
  transactions e' = transactions e -> extends s e -> extends s e'.
Proof.
  intros Hd Ha Ht [[d E] C]. split.
  - exists d. congruence.
  - exact (covers_same s e e' Ha Ht C).
Qed.

Lemma run_appended_extends doc k conn out stats :
  run_appended doc k conn out stats -> extends conn out.
Proof.
  intros ([d [D _]] & _ & [m A] & _ & [new [T _]] & _). split.
  - now exists d.
  - split; [now exists m|]. intros h Hh. exact (has_hash_app _ _ _ _ T Hh).
Qed.

Lemma registered_extends doc k conn c0 st0 :
  registered doc k conn c0 st0 -> extends conn c0.
Proof.
  intros ([d [D _]] & _ & A & T & _). split.
  - now exists d.
  - apply covers_same with (e := conn); auto using covers_refl.
Qed.

Lemma csv_extends (conn : db) (f : csv_file) :
  extends conn (fst (ingest_csv_ing conn f)).
Proof.
  destruct (csv_run_appended conn f) as [H _]. cbv zeta in H.
  exact (run_appended_extends _ _ _ _ _ H).
Qed.

Lemma xls_extends (env : environment) (conn : db) (f : xls_file) :
  extends conn (fst (ingest_xls env conn f)).
Proof.
  pose proof (xls_run_appended env conn f) as H. cbv zeta in H.
  destruct (snd (ingest_xls env conn f)) as [stats|ex].
  - destruct H as [H _]. exact (run_appended_extends _ _ _ _ _ H).
  - destruct H as (_ & _ & ->).
    exact (registered_extends _ _ _ _ _ (register_xls_registered conn f)).
Qed.

Lemma pdf_extends (env : environment) (conn : db) (f : pdf_file) :
  extends conn (fst (ingest_pdf_generic env conn f)).
Proof.
  pose proof (pdf_run_appended env conn f) as H. cbv zeta in H.
  exact (run_appended_extends _ _ _ _ _ H).
Qed.

Lemma select_document_later (s e : db) (sha : str) (d : Z) :
  (exists more, documents e = documents s ++ more) ->
  select_document s sha = Some d -> select_document e sha = Some d.
Proof.
  unfold select_document. intros [more ->] H. rewrite find_app.
  destruct (find _ (documents s)); [exact H|discriminate].
Qed.

(** What a first run over a CSV file leaves. *)
Lemma csv_first_run (conn : db) (f : csv_file) :
  let run1 := ingest_csv_ing conn f in
  let d := document_of conn f in
  select_document (fst run1) (csv_sha256 f) = Some d /\
  exists cs,
    covers (fst (fold_left
                   (fun x r => row_step "row error" d x (csv_row_fields r))
                   (dict_rows f) cs))
           (fst run1).
Proof.
  cbv zeta. rewrite (ingest_csv_unfold conn f). cbv zeta.
  destruct (register_csv_spec conn f) as [Hsel _]. unfold document_of.
  destruct (register_csv conn f) as [[c0 d] st0]. cbn [fst snd] in *.
  pose proof (fold_documents csv_row_fields "row error" d (dict_rows f)
                (c0, st0)) as Hdocs.
  unfold csv_rows_pass. split.
  - unfold select_document in *. cbn [insert_parse_event documents].
    now rewrite Hdocs.
  - exists (c0, st0). apply covers_event.
Qed.

(** A run over a CSV file from a state that knows the document and
    covers a run over the same rows adds nothing. *)
Lemma csv_second_run (e : db) (f : csv_file) (d : Z) :
  select_document e (csv_sha256 f) = Some d ->
  (exists cs,
     covers (fst (fold_left
                    (fun x r => row_step "row error" d x (csv_row_fields r))
                    (dict_rows f) cs))
            e) ->
  let run2 := ingest_csv_ing e f in
  documents (fst run2) = documents e /\
  transactions (fst run2) = transactions e /\
  nothing_new (snd run2).
Proof.
  intros Hsel [cs Hc]. cbv zeta. rewrite (ingest_csv_unfold e f). cbv zeta.
  rewrite (register_csv_known e f d Hsel). cbn [fst snd].
  unfold csv_rows_pass.
  destruct (fold_replay csv_row_fields "row error" "row error" d d
              (dict_rows f) cs
              (insert_parse_event e d "ingest" 1
                 (py "Already imported; reprocessing parse only"))
              stats0)
    as [e1 [E1 [Sd [Sa St]]]].
  { eapply covers_trans; [exact Hc|apply covers_event]. }
  rewrite E1. cbn [fst snd insert_parse_event documents transactions].
  split; [exact Sd|]. split; [exact St|]. split; reflexivity.
Qed.

Lemma csv_replay (conn x : db) (f : csv_file) :
  extends (fst (ingest_csv_ing conn f)) x ->
  documents (fst (ingest_csv_ing x f)) = documents x /\
  transactions (fst (ingest_csv_ing x f)) = transactions x.
Proof.
  intros [Hd Hc].
  destruct (csv_first_run conn f) as [Hsel [cs Hcov]].
  cbv zeta in Hsel, Hcov.
  destruct (csv_second_run x f (document_of conn f)) as [H1 [H2 _]].
  - exact (select_document_later _ _ _ _ Hd Hsel).
  - exists cs. exact (covers_trans _ _ _ Hcov Hc).
  - split; assumption.
Qed.

Lemma xls_replay (env : environment) (conn x : db) (f : xls_file) :
  extends (fst (ingest_xls env conn f)) x ->
  documents (fst (ingest_xls env x f)) = documents x /\
  transactions (fst (ingest_xls env x f)) = transactions x.
Proof.
  intros [Hd Hc].
  destruct (xls_first_run env conn f) as [Hsel Hcov].
  cbv zeta in Hsel, Hcov.
  destruct (xls_second_run env x f (xls_document_of conn f))
    as [_ [H1 [H2 _]]].
  - exact (select_document_later _ _ _ _ Hd Hsel).
  - intros headers rows E. destruct (Hcov headers rows E) as [cs H].
    exists cs. exact (covers_trans _ _ _ H Hc).
  - split; assumption.
Qed.

Lemma pdf_replay (env : environment) (conn x : db) (f : pdf_file) :
  extends (fst (ingest_pdf_generic env conn f)) x ->
  documents (fst (ingest_pdf_generic env x f)) = documents x /\
  transactions (fst (ingest_pdf_generic env x f)) = transactions x.
Proof.
  intros [Hd Hc].
  destruct (pdf_first_run env conn f) as [Hsel Hcov].
  cbv zeta in Hsel, Hcov.
  destruct (pdf_second_run env x f (pdf_document_of conn f))
    as [_ [H1 [H2 _]]].
  - exact (select_document_later _ _ _ _ Hd Hsel).
  - intro Hp. destruct (Hcov Hp) as [c0 [st0 H]].
    exists c0, st0. exact (covers_trans _ _ _ H Hc).
  - split; assumption.
Qed.

(** Whether a workbook run raises depends on the file and the machine,
    not on the store. *)
Lemma xls_raises (env : environment) (conn : db) (f : xls_file) (ex : exn) :
  snd (ingest_xls env conn f) = Raise ex
  <-> load_rows env f = Raise ex /\ is_module_not_found ex = false.
Proof.
  unfold ingest_xls. destruct (register_xls conn f) as [[c0 d] st0].
  destruct (load_rows env f) as [[headers rows]|e0].
  - destruct (fold_left _ rows (c0, st0)). cbn [snd].
    split; [discriminate|intros [H _]; discriminate].
  - destruct (is_module_not_found e0) eqn:M; cbn [snd].
    + split; [discriminate|]. intros [H N]. injection H as ->. congruence.
    + split.
      * intro H. injection H as ->. now split.
      * intros [H _]. injection H as ->. reflexivity.
Qed.

(** An entry raises exactly when it is a workbook whose reader raises an
    error other than a missing library. *)
Lemma entry_raises (env : environment) (conn : db) (e : dir_entry)
      (ex : exn) :
  snd (ingest_entry env conn e) = Some ex
  <-> is_workbook e = true /\ load_rows env (as_xls e) = Raise ex
      /\ is_module_not_found ex = false.
Proof.
  unfold ingest_entry, is_workbook. cbv zeta.
  destruct (str_eqb (lower (de_suffix e)) (py ".csv")) eqn:C.
  - apply str_eqb_eq in C. rewrite C. cbn.
    split; [discriminate|intros [H _]; discriminate].
  - destruct (str_eqb (lower (de_suffix e)) (py ".xls")
              || str_eqb (lower (de_suffix e)) (py ".xlsx"))%bool eqn:X.
    + pose proof (xls_raises env conn (as_xls e)) as R.
      destruct (ingest_xls env conn (as_xls e)) as [c' [st|e0]];
        cbn [snd] in *.
      * split; [discriminate|]. intros [_ H]. apply R in H. discriminate.
      * split.
        -- intro H. injection H as <-. split; [reflexivity|].
           now apply R.
        -- intros [_ H]. apply R in H. now injection H as ->.
    + destruct (str_eqb (lower (de_suffix e)) (py ".pdf")); cbn [snd];
        (split; [discriminate|intros [H _]; discriminate]).
Qed.

Lemma entry_extends (env : environment) (conn : db) (e : dir_entry) :
  extends conn (fst (ingest_entry env conn e)).
Proof.
  unfold ingest_entry. cbv zeta.
  destruct (str_eqb _ (py ".csv")); [apply csv_extends|].
  destruct (_ || _)%bool.
  - pose proof (xls_extends env conn (as_xls e)) as H.
    now destruct (ingest_xls env conn (as_xls e)) as [c' [st|e0]].
  - destruct (str_eqb _ (py ".pdf")); [apply pdf_extends|apply extends_refl].
Qed.

(** An entry that did not raise, run again from a later state, does not
    raise and adds no document and no transaction. *)
Lemma entry_replay (env : environment) (conn x : db) (e : dir_entry) :
  snd (ingest_entry env conn e) = None ->
  extends (fst (ingest_entry env conn e)) x ->
  snd (ingest_entry env x e) = None /\
  documents (fst (ingest_entry env x e)) = documents x /\
  transactions (fst (ingest_entry env x e)) = transactions x.
Proof.
  intros Hn Hx.
  assert (N : snd (ingest_entry env x e) = None).
  { destruct (snd (ingest_entry env x e)) as [ex|] eqn:E; [|reflexivity].
    apply entry_raises in E. apply (entry_raises env conn) in E.
    congruence. }
  split; [exact N|]. clear Hn N. revert Hx.
  unfold ingest_entry. cbv zeta.
  destruct (str_eqb _ (py ".csv")); [apply csv_replay|].
  destruct (_ || _)%bool.
  - intro Hx. pose proof (xls_replay env conn x (as_xls e)) as H.
    destruct (ingest_xls env conn (as_xls e)) as [c' [st|e0]];
      cbn [fst] in *;
      destruct (ingest_xls env x (as_xls e)) as [c2 [st2|e2]];
      cbn [fst] in *; now apply H.
  - destruct (str_eqb _ (py ".pdf")); [apply pdf_replay|].
    intros _. split; reflexivity.
Qed.

Lemma loop_extends (env : environment) (l : list dir_entry) :
  forall conn, extends conn (fst (ingest_loop env conn l)).
Proof.
  induction l as [|e l IH]; intro conn; cbn [ingest_loop fst].
  - apply extends_refl.
  - pose proof (entry_extends env conn e) as H.
    destruct (ingest_entry env conn e) as [c1 [ex|]]; cbn [fst] in *.
    + apply extends_refl.
    + exact (extends_trans _ _ _ H (IH c1)).
Qed.

(** A run over a folder that did not raise, repeated from a later state. *)
Lemma loop_replay (env : environment) (l : list dir_entry) :
  forall conn x,
    snd (ingest_loop env conn l) = None ->
    extends (fst (ingest_loop env conn l)) x ->
    snd (ingest_loop env x l) = None /\
    documents (fst (ingest_loop env x l)) = documents x /\
    transactions (fst (ingest_loop env x l)) = transactions x.
Proof.
  induction l as [|e l IH]; intros conn x Hn Hx; cbn [ingest_loop] in *.
  - repeat split.
  - pose proof (entry_replay env conn x e) as R.
    pose proof (entry_extends env x e) as Ex.
    destruct (ingest_entry env conn e) as [c1 [ex|]];
      cbn [fst snd] in *; [discriminate|].
    destruct R as [R1 [R2 R3]]; [reflexivity| |].
    { exact (extends_trans _ _ _ (loop_extends env l c1) Hx). }
    destruct (ingest_entry env x e) as [x1 [ex|]];
      cbn [fst snd] in *; [discriminate|].
    destruct (IH c1 x1 Hn) as [I1 [I2 I3]].
    { exact (extends_trans _ _ _ Hx Ex). }
    split; [exact I1|]. split; congruence.
Qed.

(** The loop stops at the first entry that raises. *)
Lemma loop_abort (env : environment) (conn : db)
      (pre post : list dir_entry) (e : dir_entry) (ex : exn) :
  snd (ingest_loop env conn pre) = None ->
  snd (ingest_entry env (fst (ingest_loop env conn pre)) e) = Some ex ->
  ingest_loop env conn (pre ++ e :: post)
  = (fst (ingest_loop env conn pre), Some ex).
Proof.
  revert conn. induction pre as [|p pre IH]; intros conn Hn He;
    cbn [app ingest_loop fst snd] in *.
  - destruct (ingest_entry env conn e) as [c1 o]. cbn [snd] in He.
    now subst o.
  - destruct (ingest_entry env conn p) as [c1 [e1|]];
      cbn [fst snd] in *; [discriminate|].
    now apply IH.
Qed.

Lemma entry_skipped (env : environment) (conn : db) (e : dir_entry) :
  recognised e = false -> ingest_entry env conn e = (conn, None).
Proof.
  unfold recognised, ingest_entry. cbv zeta. intro H.
  apply orb_false_iff in H. destruct H as [H Hp].
  apply orb_false_iff in H. destruct H as [H Hx].
  apply orb_false_iff in H. destruct H as [Hc Hs].
  now rewrite Hc, Hs, Hx, Hp.
Qed.

(** Entries with another suffix have no effect. *)
Lemma loop_recognised (env : environment) (l : list dir_entry) :
  forall conn,
    ingest_loop env conn l = ingest_loop env conn (filter recognised l).
Proof.
  induction l as [|e l IH]; intro conn; [reflexivity|].
  cbn [filter]. destruct (recognised e) eqn:R.
  - cbn [ingest_loop]. destruct (ingest_entry env conn e) as [c1 [ex|]];
      [reflexivity|apply IH].
  - cbn [ingest_loop]. rewrite (entry_skipped env conn e R). apply IH.
Qed.

(** ** The order of the files *)

Lemma str_leb_refl (a : str) : str_leb a a = true.
Proof.
  induction a as [|x a IH]; [reflexivity|]. cbn [str_leb].
  now rewrite N.ltb_irrefl.
Qed.

Lemma str_leb_total (a b : str) : str_leb a b = true \/ str_leb b a = true.
Proof.
  revert b. induction a as [|x a IH]; intro b; [now left|].
  destruct b as [|y b]; [now right|]. cbn [str_leb].
  destruct (N.ltb x y) eqn:L1; [now left|].
  destruct (N.ltb y x) eqn:L2; [now right|]. apply IH.
Qed.

Lemma str_leb_antisym (a b : str) :
  str_leb a b = true -> str_leb b a = true -> a = b.
Proof.
  revert b. induction a as [|x a IH]; intros b H1 H2.
  - destruct b; [reflexivity|discriminate].
  - destruct b as [|y b]; [discriminate|]. cbn [str_leb] in *.
    destruct (N.ltb x y) eqn:L1.
    + destruct (N.ltb y x) eqn:L2; [|discriminate].
      apply N.ltb_lt in L1, L2. lia.
    + destruct (N.ltb y x) eqn:L2; [discriminate|].
      apply N.ltb_ge in L1, L2. f_equal; [lia|now apply IH].
Qed.

Lemma str_leb_trans (a b c : str) :
  str_leb a b = true -> str_leb b c = true -> str_leb a c = true.
Proof.
  revert b c. induction a as [|x a IH]; intros b c H1 H2; [reflexivity|].
  destruct b as [|y b]; [discriminate|].
  destruct c as [|z c]; [discriminate|]. cbn [str_leb] in *.
  destruct (N.ltb x y) eqn:L1.
  - apply N.ltb_lt in L1. destruct (N.ltb y z) eqn:L2.
    + apply N.ltb_lt in L2.
      assert (L : N.ltb x z = true) by (apply N.ltb_lt; lia).
      now rewrite L.
    + destruct (N.ltb z y) eqn:L3; [discriminate|].
      apply N.ltb_ge in L2, L3.
      assert (L : N.ltb x z = true) by (apply N.ltb_lt; lia).
      now rewrite L.
  - destruct (N.ltb y x) eqn:L1'; [discriminate|].
    apply N.ltb_ge in L1, L1'. assert (x = y) by lia. subst y.
    destruct (N.ltb x z); [reflexivity|].
    destruct (N.ltb z x); [discriminate|]. now apply IH with b.
Qed.

Lemma insert_entry_perm (e : dir_entry) (l : list dir_entry) :
  Permutation (e :: l) (insert_entry e l).
Proof.
  induction l as [|x l IH]; [apply Permutation_refl|]. cbn [insert_entry].
  destruct (str_leb (de_path e) (de_path x)); [apply Permutation_refl|].
  eapply perm_trans; [apply perm_swap|]. now apply perm_skip.
Qed.

Lemma sorted_entries_perm (l : list dir_entry) :
  Permutation l (sorted_entries l).
Proof.
  induction l as [|e l IH]; [constructor|]. cbn [sorted_entries fold_right].
  eapply perm_trans; [apply perm_skip, IH|apply insert_entry_perm].
Qed.

Lemma insert_entry_sorted (e : dir_entry) (l : list dir_entry) :
  StronglySorted path_le l -> StronglySorted path_le (insert_entry e l).
Proof.
  induction 1 as [|x l Hs IH Hx]; cbn [insert_entry].
  - repeat constructor.
  - destruct (str_leb (de_path e) (de_path x)) eqn:L.
    + constructor; [now constructor|]. constructor; [exact L|].
      rewrite Forall_forall in *. intros y Hy. unfold path_le in *.
      exact (str_leb_trans _ _ _ L (Hx y Hy)).
    + constructor; [exact IH|].
      assert (Hex : path_le x e).
      { destruct (str_leb_total (de_path x) (de_path e)) as [H|H];
          [exact H|unfold path_le; congruence]. }
      rewrite Forall_forall in *. intros y Hy.
      apply (Permutation_in _ (Permutation_sym (insert_entry_perm e l)))
        in Hy.
      destruct Hy as [<-|Hy]; [exact Hex|now apply Hx].
Qed.

Lemma sorted_entries_sorted (l : list dir_entry) :
  StronglySorted path_le (sorted_entries l).
Proof.
  induction l as [|e l IH]; [constructor|].
  cbn [sorted_entries fold_right]. now apply insert_entry_sorted.
Qed.

(** Two sorted lists of the same entries, no two of them with the same
    path, are the same list. *)
Lemma sorted_unique (l1 : list dir_entry) :
  forall l2,
    StronglySorted path_le l1 -> StronglySorted path_le l2 ->
    Permutation l1 l2 -> NoDup (map de_path l1) -> l1 = l2.
Proof.
  induction l1 as [|a l1 IH]; intros l2 S1 S2 P N.
  - apply Permutation_nil in P. now subst.
  - destruct l2 as [|b l2].
    { apply Permutation_sym, Permutation_nil in P. discriminate. }
    inversion S1 as [|? ? S1' F1]; subst.
    inversion S2 as [|? ? S2' F2]; subst.
    rewrite Forall_forall in F1, F2.
    assert (Hab : a = b).
    { assert (Ia : In a (b :: l2))
        by (apply (Permutation_in _ P); now left).
      assert (Ib : In b (a :: l1))
        by (apply (Permutation_in _ (Permutation_sym P)); now left).
      destruct Ia as [->|Ia]; [reflexivity|].
      destruct Ib as [->|Ib]; [reflexivity|].
      assert (E : de_path a = de_path b)
        by (apply str_leb_antisym; [exact (F1 b Ib)|exact (F2 a Ia)]).
      exfalso. cbn [map] in N. apply NoDup_cons_iff in N.
      destruct N as [N _]. apply N. rewrite E. now apply in_map. }
    subst b. f_equal. apply IH; try assumption.
    + exact (Permutation_cons_inv P).
    + cbn [map] in N. now apply NoDup_cons_iff in N.
Qed.

(** The order in which the directory is listed does not matter. *)
Lemma sorted_entries_listing (l l' : list dir_entry) :
  Permutation l l' -> NoDup (map de_path l) ->
  sorted_entries l = sorted_entries l'.
Proof.
  intros P N. apply sorted_unique.
  - apply sorted_entries_sorted.
  - apply sorted_entries_sorted.
  - eapply perm_trans; [apply Permutation_sym, sorted_entries_perm|].
    eapply perm_trans; [exact P|apply sorted_entries_perm].
  - apply (Permutation_NoDup (l := map de_path l)); [|exact N].
    apply Permutation_map, sorted_entries_perm.
Qed.

(** ** Integrity over a folder and a categorisation *)

Lemma sound_entry (env : environment) (conn : db) (e : dir_entry) :
  sound conn -> sound (fst (ingest_entry env conn e)).
Proof.
  intro H. unfold ingest_entry. cbv zeta.
  destruct (str_eqb _ (py ".csv")); [now apply sound_csv|].
  destruct (_ || _)%bool.
  - pose proof (sound_xls env conn (as_xls e) H) as S.
    now destruct (ingest_xls env conn (as_xls e)) as [c' [st|e0]].
  - destruct (str_eqb _ (py ".pdf")); [now apply sound_pdf|exact H].
Qed.

Lemma sound_loop (env : environment) (l : list dir_entry) :
  forall conn, sound conn -> sound (fst (ingest_loop env conn l)).
Proof.
  induction l as [|e l IH]; intros conn H; cbn [ingest_loop fst];
    [exact H|].
  pose proof (sound_entry env conn e H) as S.
  destruct (ingest_entry env conn e) as [c1 [ex|]]; cbn [fst] in *;
    [exact H|now apply IH].
Qed.

(** ** Amounts with two decimals *)

Lemma ilog2_ratio_le (n b : Z) :
  0 < n -> 0 < b ->
  let k := PyFloat.ilog2_ratio n b in
  (0 <= k -> b * 2 ^ k <= n) /\ (k < 0 -> b <= n * 2 ^ (- k)).
Proof.
  intros Hn Hb. cbv zeta. unfold PyFloat.ilog2_ratio.
  pose proof (Z.log2_spec n Hn) as [Ln1 Ln2].
  pose proof (Z.log2_spec b Hb) as [Lb1 Lb2].
  pose proof (Z.log2_nonneg n) as Pn. pose proof (Z.log2_nonneg b) as Pb.
  set (ln := Z.log2 n) in *. set (lb := Z.log2 b) in *. clearbody ln lb.
  unfold Z.succ in *.
  destruct (Z.leb_spec 0 (ln - lb)) as [K|K].
  - destruct (Z.leb_spec (b * 2 ^ (ln - lb)) n) as [T|T].
    + split; [intros _; exact T|lia].
    + assert (E : 2 ^ ln = 2 ^ lb * 2 ^ (ln - lb))
        by (rewrite <- Z.pow_add_r by lia; f_equal; lia).
      destruct (Z.eq_dec (ln - lb) 0) as [Z0|Z0].
      * split; [lia|]. intros _. rewrite Z0 in *.
        replace (- (0 - 1)) with 1 by lia. change (2 ^ 1) with 2.
        change (2 ^ 0) with 1 in E. rewrite Z.pow_add_r in Lb2 by lia.
        change (2 ^ 1) with 2 in Lb2. lia.
      * split; [|lia]. intros _.
        assert (E2 : 2 ^ (ln - lb) = 2 * 2 ^ (ln - lb - 1)).
        { replace (ln - lb) with (1 + (ln - lb - 1)) at 1 by lia.
          rewrite Z.pow_add_r by lia. reflexivity. }
        rewrite Z.pow_add_r in Lb2 by lia. change (2 ^ 1) with 2 in Lb2.
        assert (P : 0 < 2 ^ (ln - lb - 1)) by (apply Z.pow_pos_nonneg; lia).
        nia.
  - assert (E : 2 ^ lb = 2 ^ ln * 2 ^ (- (ln - lb)))
      by (rewrite <- Z.pow_add_r by lia; f_equal; lia).
    destruct (Z.leb_spec b (n * 2 ^ (- (ln - lb)))) as [T|T].
    + split; [lia|intros _; exact T].
    + split; [lia|]. intros _.
      replace (- (ln - lb - 1)) with (- (ln - lb) + 1) by lia.
      rewrite Z.pow_add_r by lia. change (2 ^ 1) with 2.
      rewrite Z.pow_add_r in Lb2 by lia. change (2 ^ 1) with 2 in Lb2.
      assert (P : 0 < 2 ^ (- (ln - lb))) by (apply Z.pow_pos_nonneg; lia).
      nia.
Qed.

(** The integer strictly nearer than a half to [a / b] is the one
    [div_half_even] returns. *)
Lemma div_half_even_unique (a b k : Z) :
  0 < b -> 2 * Z.abs (a - b * k) < b -> PyFloat.div_half_even a b = k.
Proof.
  intros Hb Hk. pose proof (div_half_even_nearest a b Hb) as Hm.
  set (m := PyFloat.div_half_even a b) in *. clearbody m.
  assert (H : Z.abs (b * (m - k)) < b) by lia.
  destruct (Z.eq_dec m k) as [E|E]; [exact E|exfalso].
  assert (H1 : 1 <= Z.abs (m - k)) by lia.
  rewrite Z.abs_mul in H. rewrite (Z.abs_eq b) in H by lia. nia.
Qed.

Lemma round64_small (a b : Z) :
  0 < a -> 0 < b ->
  let q := Z.max (PyFloat.ilog2_ratio a b - 52) (-1074) in
  q < 0 ->
  PyFloat.round64 a b
  = PyFloat.Fin (PyFloat.div_half_even (a * 2 ^ (- q)) b) q.
Proof.
  intros Ha Hb. cbv zeta. intro Hq. unfold PyFloat.round64.
  destruct (Z.eqb_spec a 0) as [E|_]; [lia|].
  rewrite (Z.abs_eq a) by lia.
  set (q := Z.max (PyFloat.ilog2_ratio a b - 52) (-1074)) in *.
  destruct (Z.leb_spec 0 q) as [C|_]; [lia|].
  destruct (Z.ltb_spec 971 q) as [C|_]; [lia|].
  destruct (Z.eqb_spec q 971) as [C|_]; [lia|].
  destruct (Z.ltb_spec a 0) as [C|_]; [lia|]. reflexivity.
Qed.

Lemma of_Z_100 : PyFloat.of_Z 100 = PyFloat.Fin (100 * 2 ^ 46) (-46).
Proof. vm_compute. reflexivity. Qed.

Lemma pow2_le_lt (k j x : Z) :
  0 <= k -> 0 <= j -> 2 ^ k <= x -> x < 2 ^ j -> k < j.
Proof.
  intros Hk Hj H1 H2. destruct (Z.lt_ge_cases k j) as [L|L]; [exact L|].
  pose proof (Z.pow_le_mono_r 2 j k ltac:(lia) L). lia.
Qed.

(** A whole number of cents below 2^51, divided by 100 and multiplied by
    100 in binary64, rounds back to itself. *)
Lemma cents_exact (n : Z) :
  0 <= n < 2 ^ 51 ->
  PyFloat.round_to_int
    (PyFloat.mul (PyFloat.round64 n 100) (PyFloat.of_Z 100)) = Ok n.
Proof.
  intros [H0 Hn]. destruct (Z.eq_dec n 0) as [->|Hz];
    [vm_compute; reflexivity|].
  assert (Hpos : 0 < n) by lia. clear H0 Hz.
  (* the first rounding *)
  destruct (ilog2_ratio_le n 100 Hpos ltac:(lia)) as [K1 _].
  cbv zeta in K1.
  pose proof (round64_small n 100 Hpos ltac:(lia)) as R1. cbv zeta in R1.
  set (q := Z.max (PyFloat.ilog2_ratio n 100 - 52) (-1074)) in *.
  assert (Hq : q <= -8).
  { unfold q. apply Z.max_lub; [|lia].
    destruct (Z.lt_ge_cases (PyFloat.ilog2_ratio n 100) 0) as [L|L]; [lia|].
    specialize (K1 L).
    assert (X : 2 ^ PyFloat.ilog2_ratio n 100 < 2 ^ 45).
    { change (2 ^ 45) with 35184372088832.
      change (2 ^ 51) with 2251799813685248 in Hn. lia. }
    pose proof (pow2_le_lt (PyFloat.ilog2_ratio n 100) 45
                  (2 ^ PyFloat.ilog2_ratio n 100) L ltac:(lia)
                  (Z.le_refl _) X). lia. }
  rewrite (R1 ltac:(lia)). clear R1 K1.
  assert (HR : 256 <= 2 ^ (- q)).
  { change 256 with (2 ^ 8). apply Z.pow_le_mono_r; lia. }
  set (R := 2 ^ (- q)) in *.
  pose proof (div_half_even_nearest (n * R) 100 ltac:(lia)) as N1.
  set (mh := PyFloat.div_half_even (n * R) 100) in *. clearbody mh.
  assert (Hmh : 0 < mh) by nia.
  (* the product *)
  rewrite of_Z_100. unfold PyFloat.mul.
  destruct (Z.leb_spec 0 (q + -46)) as [C|_]; [lia|].
  replace (- (q + -46)) with (46 + - q) by lia.
  rewrite Z.pow_add_r by lia. fold R.
  set (K := 2 ^ 46) in *.
  assert (HK : 0 < K) by (unfold K; apply Z.pow_pos_nonneg; lia).
  assert (HN : 0 < mh * (100 * K)) by nia.
  assert (HB : 0 < K * R) by nia.
  destruct (ilog2_ratio_le (mh * (100 * K)) (K * R) HN HB) as [K2 _].
  cbv zeta in K2.
  pose proof (round64_small (mh * (100 * K)) (K * R) HN HB) as R2.
  cbv zeta in R2.
  set (Q := Z.max (PyFloat.ilog2_ratio (mh * (100 * K)) (K * R) - 52)
                  (-1074)) in *.
  assert (HQ : Q <= -2).
  { unfold Q. apply Z.max_lub; [|lia].
    set (k2 := PyFloat.ilog2_ratio (mh * (100 * K)) (K * R)) in *.
    destruct (Z.lt_ge_cases k2 0) as [L|L]; [lia|].
    specialize (K2 L).
    assert (X : 2 ^ k2 < 2 ^ 51).
    { assert (Y : K * R * 2 ^ k2 < K * R * 2 ^ 51) by nia.
      apply Z.mul_lt_mono_pos_l in Y; [exact Y|exact HB]. }
    pose proof (pow2_le_lt k2 51 (2 ^ k2) L ltac:(lia) (Z.le_refl _) X).
    lia. }
  rewrite (R2 ltac:(lia)). clear R2 K2.
  assert (HP : 4 <= 2 ^ (- Q)).
  { change 4 with (2 ^ 2). apply Z.pow_le_mono_r; lia. }
  set (P := 2 ^ (- Q)) in *.
  pose proof (div_half_even_nearest (mh * (100 * K) * P) (K * R) HB) as N2.
  set (M := PyFloat.div_half_even (mh * (100 * K) * P) (K * R)) in *.
  clearbody M.
  (* the rounding to an integer *)
  unfold PyFloat.round_to_int.
  destruct (Z.leb_spec 0 Q) as [C|_]; [lia|]. fold P. f_equal.
  apply div_half_even_unique; [lia|].
  assert (E : K * R * (M - P * n)
              = (K * R * M - mh * (100 * K) * P)
                + P * K * (100 * mh - n * R)) by ring.
  assert (B1 : Z.abs (2 * (P * K * (100 * mh - n * R))) <= 100 * (P * K)).
  { replace (2 * (P * K * (100 * mh - n * R)))
      with ((P * K) * (- (2 * (n * R - 100 * mh)))) by ring.
    rewrite Z.abs_mul, Z.abs_opp, (Z.abs_eq (P * K)) by nia. nia. }
  assert (B2 : Z.abs (2 * (K * R * (M - P * n))) <= K * R + 100 * (P * K))
    by lia.
  assert (B3 : K * R + 100 * (P * K) < K * R * P) by nia.
  assert (B4 : K * R * (2 * Z.abs (M - P * n)) < K * R * P).
  { replace (K * R * (2 * Z.abs (M - P * n)))
      with (Z.abs (2 * (K * R * (M - P * n)))); [lia|].
    rewrite !Z.abs_mul, (Z.abs_eq 2), (Z.abs_eq K), (Z.abs_eq R) by lia.
    ring. }
  apply Z.mul_lt_mono_pos_l in B4; [|exact HB].
  replace (M - P * n) with (- (P * n - M)) in B4 by ring.
  rewrite Z.abs_opp in B4.
  replace (M - P * n) with (- (P * n - M)) by ring. rewrite Z.abs_opp.
  exact B4.
Qed.

(** ** The text of an amount *)

Lemma decimal_cases (c : char) :
  isdecimal c = true ->
  In c [48; 49; 50; 51; 52; 53; 54; 55; 56; 57]%N.
Proof.
  unfold isdecimal, in_range. intro H. apply andb_true_iff in H as [H1 H2].
  apply N.leb_le in H1, H2. cbn [In]. lia.
Qed.

Lemma decimal_not_space (c : char) : isdecimal c = true -> isspace c = false.
Proof.
  intro H. destruct (isspace c) eqn:E; [|reflexivity].
  apply space_not_decimal in E. congruence.
Qed.

Lemma digit_val_range (c : char) :
  isdecimal c = true -> 0 <= PyFloat.digit_val c <= 9.
Proof.
  unfold isdecimal, in_range, PyFloat.digit_val. intro H.
  apply andb_true_iff in H as [H1 H2]. apply N.leb_le in H1, H2. lia.
Qed.

Lemma Z_of_digits_from (ds : list Z) (a : Z) :
  fold_left (fun x d => 10 * x + d) ds a
  = a * 10 ^ Z.of_nat (List.length ds)
    + fold_left (fun x d => 10 * x + d) ds 0.
Proof.
  revert a. induction ds as [|d ds IH]; intro a.
  - cbn. lia.
  - cbn [fold_left List.length]. rewrite (IH (10 * a + d)), (IH (10 * 0 + d)).
    rewrite Nat2Z.inj_succ, Z.pow_succ_r by lia. ring.
Qed.

Lemma digits_value_nonneg (ds : str) :
  forallb isdecimal ds = true -> 0 <= digits_value ds.
Proof.
  unfold digits_value, PyFloat.Z_of_digits.
  assert (G : forall a, 0 <= a -> forallb isdecimal ds = true ->
                        0 <= fold_left (fun x d => 10 * x + d)
                                       (map PyFloat.digit_val ds) a).
  { induction ds as [|c ds IH]; intros a Ha H; [exact Ha|].
    cbn [map fold_left]. cbn [forallb] in H.
    apply andb_true_iff in H as [Hc Hd].
    apply IH; [|exact Hd]. pose proof (digit_val_range c Hc). lia. }
  exact (G 0 (Z.le_refl 0)).
Qed.

Lemma stops_nil : stops [].
Proof. reflexivity. Qed.

Lemma stops_point (r : str) : stops (46%N :: r).
Proof. reflexivity. Qed.

Lemma digits_tail_digits (ds r : str) :
  forallb isdecimal ds = true -> stops r ->
  PyFloat.digits_tail (ds ++ r) = (map PyFloat.digit_val ds, r).
Proof.
  intros H Hr. induction ds as [|c ds IH]; [exact Hr|].
  cbn [forallb] in H. apply andb_true_iff in H as [Hc Hd].
  cbn [app PyFloat.digits_tail map]. rewrite Hc, (IH Hd). reflexivity.
Qed.

Lemma digitpart_digits (c : char) (ds r : str) :
  isdecimal c = true -> forallb isdecimal ds = true -> stops r ->
  PyFloat.digitpart (c :: ds ++ r)
  = Some (map PyFloat.digit_val (c :: ds), r).
Proof.
  intros Hc Hd Hr. unfold PyFloat.digitpart.
  now rewrite Hc, (digits_tail_digits ds r Hd Hr).
Qed.

Lemma strip_no_space (s : str) :
  forallb (fun c => negb (isspace c)) s = true -> strip s = s.
Proof.
  intro H. unfold strip, rstrip.
  assert (C : forall x, forallb (fun c => negb (isspace c)) x = true ->
                        clean_head x).
  { intros [|c x] Hx; [exact Logic.I|]. cbn [forallb] in Hx.
    apply andb_true_iff in Hx as [Hc _]. cbn.
    now destruct (isspace c). }
  rewrite (lstrip_id s (C s H)).
  rewrite (lstrip_id (rev s)); [apply rev_involutive|].
  apply C. now rewrite forallb_rev.
Qed.

(** What [float] makes of digits, a point and two digits. *)
Lemma float_of_two_decimals (c0 : char) (ip : str) (c1 c2 : char) :
  isdecimal c0 = true -> forallb isdecimal ip = true ->
  isdecimal c1 = true -> isdecimal c2 = true ->
  PyFloat.float_of_str (c0 :: ip ++ 46%N :: [c1; c2])
  = Ok (PyFloat.round64 (digits_value (c0 :: ip ++ [c1; c2])) 100).
Proof.
  intros H0 Hi H1 H2. unfold PyFloat.float_of_str.
  assert (Hs : strip (c0 :: ip ++ 46%N :: [c1; c2])
               = c0 :: ip ++ 46%N :: [c1; c2]).
  { apply strip_no_space. cbn [forallb].
    rewrite (decimal_not_space c0 H0). cbn [negb andb].
    rewrite forallb_app. cbn [forallb].
    rewrite (decimal_not_space c1 H1), (decimal_not_space c2 H2).
    cbn [negb andb isspace]. rewrite andb_true_r.
    clear - Hi. induction ip as [|c ip IH]; [reflexivity|].
    cbn [forallb] in *. apply andb_true_iff in Hi as [Hc Hd].
    now rewrite (decimal_not_space c Hc), IH. }
  rewrite Hs.
  assert (Hsign : PyFloat.read_sign (c0 :: ip ++ 46%N :: [c1; c2])
                  = (false, c0 :: ip ++ 46%N :: [c1; c2])).
  { apply decimal_cases in H0. cbn [In] in H0.
    repeat (destruct H0 as [<-|H0]; [reflexivity|]). contradiction. }
  rewrite Hsign.
  assert (Hw : forall w : string,
             (w = "inf" \/ w = "infinity" \/ w = "nan")%string ->
             str_eqb (lower (c0 :: ip ++ 46%N :: [c1; c2])) (py w) = false).
  { intros w Hw. pose proof (decimal_cases c0 H0) as D. cbn [In] in D.
    destruct Hw as [->|[->| ->]];
      repeat (destruct D as [<-|D]; [reflexivity|]); contradiction. }
  rewrite (Hw "inf"%string), (Hw "infinity"%string), (Hw "nan"%string)
    by auto.
  cbn [orb]. unfold PyFloat.read_number.
  rewrite (digitpart_digits c0 ip (46%N :: [c1; c2]) H0 Hi
             (stops_point _)).
  change [c1; c2] with (c1 :: [c2] ++ []).
  rewrite (digitpart_digits c1 [c2] [] H1); [|cbn; now rewrite H2|exact stops_nil].
  cbn [PyFloat.read_exponent List.length app].
  unfold digits_value.
  change (c0 :: ip ++ [c1; c2]) with ((c0 :: ip) ++ [c1; c2]).
  rewrite map_app. reflexivity.
Qed.

Lemma comma_digit (c : char) :
  isdecimal c = true -> (if N.eqb c 44 then 46%N else c) = c.
Proof.
  intro H. apply decimal_cases in H. cbn [In] in H.
  repeat (destruct H as [<-|H]; [reflexivity|]). contradiction.
Qed.

Lemma comma_to_point_digits (ds : str) :
  forallb isdecimal ds = true -> comma_to_point ds = ds.
Proof.
  unfold comma_to_point. induction ds as [|c ds IH]; intro H; [reflexivity|].
  cbn [forallb] in H. apply andb_true_iff in H as [Hc Hd].
  cbn [map]. now rewrite (IH Hd), (comma_digit c Hc).
Qed.

(** An amount written with two decimals, whatever separators stand in
    it, is read to the cent. *)
Lemma amount_exact (s dc : str) (c0 : char) (ip : str) (c1 c2 : char) :
  without_separators (strip s) = c0 :: ip ++ 44%N :: [c1; c2] ->
  isdecimal c0 = true -> forallb isdecimal ip = true ->
  isdecimal c1 = true -> isdecimal c2 = true ->
  digits_value (c0 :: ip ++ [c1; c2]) < 2 ^ 51 ->
  parse_eu_amount_to_cents s dc
  = Ok (signed dc (digits_value (c0 :: ip ++ [c1; c2]))).
Proof.
  intros Hs H0 Hi H1 H2 Hb. rewrite parse_unfold, amount_text_eq, Hs.
  assert (Hc : comma_to_point (c0 :: ip ++ 44%N :: [c1; c2])
               = c0 :: ip ++ 46%N :: [c1; c2]).
  { pose proof (comma_to_point_digits ip Hi) as X.
    unfold comma_to_point in *. cbn [map]. rewrite map_app. cbn [map].
    rewrite (comma_digit c0 H0), (comma_digit c1 H1), (comma_digit c2 H2).
    f_equal. apply f_equal2; [exact X|reflexivity]. }
  rewrite Hc, (float_of_two_decimals c0 ip c1 c2 H0 Hi H1 H2).
  cbn [bind].
  assert (Hn : 0 <= digits_value (c0 :: ip ++ [c1; c2])).
  { apply digits_value_nonneg. cbn [forallb]. rewrite H0, forallb_app, Hi.
    cbn [forallb]. now rewrite H1, H2. }
  rewrite (cents_exact _ (conj Hn Hb)). cbn [bind]. unfold signed.
  rewrite (Z.abs_eq _ Hn). now destruct (str_eqb _ _).
Qed.

(** ** Dates *)

Lemma digits_of_acc (f : nat) :
  forall n acc, digits_of f n acc = digits_of f n [] ++ acc.
Proof.
  induction f as [|f IH]; intros n acc; [reflexivity|].
  cbn [digits_of]. destruct (n <? 10); [reflexivity|].
  rewrite (IH (n / 10) (_ :: acc)), (IH (n / 10) [_]).
  now rewrite <- app_assoc.
Qed.

(** Fuel beyond the number of digits changes nothing. *)
Lemma digits_of_fuel (f : nat) :
  forall f' n acc,
    0 <= n -> n < 10 ^ Z.of_nat (S f) -> n < 10 ^ Z.of_nat (S f') ->
    digits_of (S f) n acc = digits_of (S f') n acc.
Proof.
  induction f as [|f IH]; intros f' n acc Hn H1 H2.
  - change (10 ^ Z.of_nat 1) with 10 in H1. cbn [digits_of].
    destruct (Z.ltb_spec n 10) as [L|L]; [reflexivity|lia].
  - cbn [digits_of]. destruct (Z.ltb_spec n 10) as [L|L]; [reflexivity|].
    fold (digits_of (S f)). fold (digits_of f').
    destruct f' as [|f'].
    { change (10 ^ Z.of_nat 1) with 10 in H2. lia. }
    rewrite (Nat2Z.inj_succ (S f)), (Nat2Z.inj_succ (S f')) in *.
    rewrite Z.pow_succ_r in H1, H2 by lia.
    apply IH.
    + apply Z.div_pos; lia.
    + apply Z.div_lt_upper_bound; lia.
    + apply Z.div_lt_upper_bound; lia.
Qed.

Lemma pow10_log2 (n : Z) : 0 < n -> n < 10 ^ (Z.log2 n + 1).
Proof.
  intro H. pose proof (Z.log2_spec n H) as [_ L]. unfold Z.succ in L.
  pose proof (Z.log2_nonneg n) as P.
  assert (X : 2 ^ (Z.log2 n + 1) <= 10 ^ (Z.log2 n + 1))
    by (apply Z.pow_le_mono_l; lia).
  lia.
Qed.

Lemma str_of_Z_digit (r : Z) :
  0 <= r <= 9 -> str_of_Z r = [Z.to_N (48 + r)].
Proof.
  intro H.
  assert (C : r = 0 \/ r = 1 \/ r = 2 \/ r = 3 \/ r = 4 \/ r = 5 \/ r = 6
              \/ r = 7 \/ r = 8 \/ r = 9) by lia.
  repeat (destruct C as [->|C]; [reflexivity|]). now subst.
Qed.

Lemma str_of_Z_snoc (n r : Z) :
  1 <= n -> 0 <= r <= 9 ->
  str_of_Z (10 * n + r) = str_of_Z n ++ [Z.to_N (48 + r)].
Proof.
  intros Hn Hr. unfold str_of_Z.
  destruct (Z.ltb_spec (10 * n + r) 0) as [C|_]; [lia|].
  destruct (Z.ltb_spec n 0) as [C|_]; [lia|].
  rewrite !Z.abs_eq by lia. cbn [digits_of].
  destruct (Z.ltb_spec (10 * n + r) 10) as [C|_]; [lia|].
  assert (E1 : (10 * n + r) mod 10 = r).
  { rewrite Z.add_comm, Z.mul_comm, Z.mod_add by lia.
    apply Z.mod_small. lia. }
  assert (E2 : (10 * n + r) / 10 = n).
  { rewrite Z.add_comm, Z.mul_comm, Z.div_add by lia.
    rewrite Z.div_small by lia. lia. }
  rewrite E1, E2, digits_of_acc. f_equal.
  pose proof (Z.log2_nonneg (10 * n + r)) as P1.
  pose proof (Z.log2_nonneg n) as P2.
  assert (L : Z.log2 n + 1 <= Z.log2 (10 * n + r)).
  { replace (Z.log2 n + 1) with (Z.log2 (2 * n))
      by (rewrite Z.log2_double by lia; lia).
    apply Z.log2_le_mono. lia. }
  destruct (Z.to_nat (Z.log2 (10 * n + r))) as [|k] eqn:Ek; [lia|].
  apply digits_of_fuel; [lia| |].
  - rewrite <- Ek, Z2Nat.id by lia.
    pose proof (pow10_log2 n ltac:(lia)) as B.
    pose proof (Z.pow_le_mono_r 10 _ _ ltac:(lia) L). lia.
  - rewrite Nat2Z.inj_succ, Z2Nat.id by lia.
    exact (pow10_log2 n ltac:(lia)).
Qed.

Lemma repeat_snoc {A} (x : A) (k : nat) : repeat x k ++ [x] = x :: repeat x k.
Proof.
  induction k as [|k IH]; [reflexivity|]. cbn [repeat app]. now rewrite IH.
Qed.

(** One more digit at the end of a padded number. *)
Lemma zero_pad_snoc (w : nat) (n r : Z) :
  (1 <= w)%nat -> 0 <= n -> 0 <= r <= 9 ->
  zero_pad (S w) (10 * n + r) = zero_pad w n ++ [Z.to_N (48 + r)].
Proof.
  intros Hw Hn Hr. unfold zero_pad.
  destruct (Z.eq_dec n 0) as [->|Hz].
  - cbn [Z.mul Z.add]. rewrite (str_of_Z_digit r Hr).
    change (str_of_Z 0) with [48%N]. cbn [List.length].
    destruct w as [|w]; [lia|].
    replace (S (S w) - 1)%nat with (S w) by lia.
    replace (S w - 1)%nat with w by lia.
    rewrite repeat_snoc. reflexivity.
  - rewrite (str_of_Z_snoc n r ltac:(lia) Hr), length_app. cbn [List.length].
    replace (S w - (List.length (str_of_Z n) + 1))%nat
      with (w - List.length (str_of_Z n))%nat by lia.
    now rewrite app_assoc.
Qed.

Lemma dv_range (c : char) : isdecimal c = true -> 0 <= Datetime.dv c <= 9.
Proof. exact (digit_val_range c). Qed.

Lemma dv_char (c : char) :
  isdecimal c = true -> Z.to_N (48 + Datetime.dv c) = c.
Proof.
  intro H. apply decimal_cases in H. cbn [In] in H.
  repeat (destruct H as [<-|H]; [reflexivity|]). contradiction.
Qed.

Lemma zero_pad_one (c : char) :
  isdecimal c = true -> zero_pad 1 (Datetime.dv c) = [c].
Proof.
  intro H. unfold zero_pad. rewrite (str_of_Z_digit _ (dv_range c H)).
  cbn [List.length Nat.sub repeat app]. now rewrite (dv_char c H).
Qed.

Lemma zero_pad_two (a b : char) :
  isdecimal a = true -> isdecimal b = true ->
  zero_pad 2 (two_digits_value a b) = [a; b].
Proof.
  intros Ha Hb. unfold two_digits_value.
  pose proof (dv_range a Ha). pose proof (dv_range b Hb).
  rewrite zero_pad_snoc, (zero_pad_one a Ha), (dv_char b Hb) by lia.
  reflexivity.
Qed.

Lemma zero_pad_four (a b c d : char) :
  isdecimal a = true -> isdecimal b = true -> isdecimal c = true ->
  isdecimal d = true ->
  zero_pad 4 (four_digits_value a b c d) = [a; b; c; d].
Proof.
  intros Ha Hb Hc Hd. unfold four_digits_value.
  pose proof (dv_range a Ha). pose proof (dv_range b Hb).
  pose proof (dv_range c Hc). pose proof (dv_range d Hd).
  replace (1000 * Datetime.dv a + 100 * Datetime.dv b + 10 * Datetime.dv c
           + Datetime.dv d)
    with (10 * (10 * (10 * Datetime.dv a + Datetime.dv b) + Datetime.dv c)
          + Datetime.dv d) by ring.
  rewrite !zero_pad_snoc, (zero_pad_one a Ha) by lia.
  now rewrite (dv_char b Hb), (dv_char c Hc), (dv_char d Hd).
Qed.

(** The ways to read a day from two digits. *)
Lemma read_day_two (a b : char) (r : str) :
  isdecimal a = true -> isdecimal b = true ->
  Datetime.read_day (a :: b :: r)
  = (if ((1 <=? two_digits_value a b) && (two_digits_value a b <=? 31))%bool
     then [(two_digits_value a b, r)] else [])
    ++ (if N.eqb a 48 then [] else [(Datetime.dv a, b :: r)]).
Proof.
  intros Ha Hb. apply decimal_cases in Ha, Hb. cbn [In] in Ha, Hb.
  repeat (destruct Ha as [<-|Ha];
          [repeat (destruct Hb as [<-|Hb]; [reflexivity|]); contradiction|]).
  contradiction.
Qed.

Lemma read_month_two (a b : char) (r : str) :
  isdecimal a = true -> isdecimal b = true ->
  Datetime.read_month (a :: b :: r)
  = (if ((1 <=? two_digits_value a b) && (two_digits_value a b <=? 12))%bool
     then [(two_digits_value a b, r)] else [])
    ++ (if N.eqb a 48 then [] else [(Datetime.dv a, b :: r)]).
Proof.
  intros Ha Hb. apply decimal_cases in Ha, Hb. cbn [In] in Ha, Hb.
  repeat (destruct Ha as [<-|Ha];
          [repeat (destruct Hb as [<-|Hb]; [reflexivity|]); contradiction|]).
  contradiction.
Qed.

Lemma read_dash_digit (b : char) (r : str) :
  isdecimal b = true -> Datetime.read_dash (b :: r) = [].
Proof.
  intro H. apply decimal_cases in H. cbn [In] in H.
  repeat (destruct H as [<-|H]; [reflexivity|]). contradiction.
Qed.

Lemma read_year_four (a b c d : char) (r : str) :
  isdecimal a = true -> isdecimal b = true -> isdecimal c = true ->
  isdecimal d = true ->
  Datetime.read_year (a :: b :: c :: d :: r)
  = [(four_digits_value a b c d, r)].
Proof.
  intros Ha Hb Hc Hd. unfold Datetime.read_year. cbn [forallb].
  now rewrite Ha, Hb, Hc, Hd.
Qed.

(** The readings of eight digits as day, month and year. *)
Lemma read_dmy_digits (d1 d2 m1 m2 y1 y2 y3 y4 : char) :
  forallb isdecimal [d1; d2; m1; m2; y1; y2; y3; y4] = true ->
  Datetime.read_dmy (dmy_text d1 d2 m1 m2 y1 y2 y3 y4)
  = if ((1 <=? two_digits_value d1 d2) && (two_digits_value d1 d2 <=? 31)
        && (1 <=? two_digits_value m1 m2)
        && (two_digits_value m1 m2 <=? 12))%bool
    then [(two_digits_value d1 d2, two_digits_value m1 m2,
           four_digits_value y1 y2 y3 y4, [])]
    else [].
Proof.
  intro H. cbn [forallb] in H.
  repeat (apply andb_true_iff in H as [?H H]).
  unfold Datetime.read_dmy, dmy_text. cbn [app py map list_ascii_of_string].
  change (N_of_ascii "-") with 45%N.
  rewrite (read_day_two d1 d2 _ H0 H1), flat_map_app.
  match goal with
  | |- ?A ++ ?B = _ =>
      assert (E2 : B = []);
      [destruct (N.eqb d1 48); [reflexivity|]; cbn [flat_map snd];
       now rewrite (read_dash_digit d2 _ H1)
      |rewrite E2, app_nil_r; clear E2]
  end.
  destruct ((1 <=? two_digits_value d1 d2)
            && (two_digits_value d1 d2 <=? 31))%bool; [|reflexivity].
  cbn [flat_map snd fst Datetime.read_dash andb]. rewrite app_nil_r.
  rewrite (read_month_two m1 m2 _ H2 H3), flat_map_app, app_nil_r.
  match goal with
  | |- ?A ++ ?B = _ =>
      assert (E3 : B = []);
      [destruct (N.eqb m1 48); [reflexivity|]; cbn [flat_map snd];
       now rewrite (read_dash_digit m2 _ H3)
      |rewrite E3, app_nil_r; clear E3]
  end.
  destruct ((1 <=? two_digits_value m1 m2)
            && (two_digits_value m1 m2 <=? 12))%bool; [|reflexivity].
  cbn [flat_map snd fst Datetime.read_dash]. rewrite !app_nil_r.
  rewrite (read_year_four y1 y2 y3 y4 [] H4 H5 H6 H7). reflexivity.
Qed.

Lemma days_in_month_le (y m : Z) : Datetime.days_in_month y m <= 31.
Proof.
  unfold Datetime.days_in_month. destruct (m =? 2).
  - destruct (Datetime.is_leap y); lia.
  - destruct (_ || _)%bool; lia.
Qed.

(** A calendar date written [DD-MM-YYYY] becomes [YYYY-MM-DD]. *)
Lemma strptime_calendar (d1 d2 m1 m2 y1 y2 y3 y4 : char) :
  forallb isdecimal [d1; d2; m1; m2; y1; y2; y3; y4] = true ->
  calendar_date (four_digits_value y1 y2 y3 y4) (two_digits_value m1 m2)
                (two_digits_value d1 d2) = true ->
  Datetime.strptime_dmy_iso (dmy_text d1 d2 m1 m2 y1 y2 y3 y4)
  = Ok (iso_text d1 d2 m1 m2 y1 y2 y3 y4).
Proof.
  intros H Hc. unfold Datetime.strptime_dmy_iso.
  rewrite (read_dmy_digits _ _ _ _ _ _ _ _ H).
  unfold calendar_date in Hc.
  repeat (apply andb_true_iff in Hc as [Hc ?Hc]).
  pose proof (days_in_month_le (four_digits_value y1 y2 y3 y4)
                               (two_digits_value m1 m2)) as Hd.
  apply Z.leb_le in Hc, Hc0, Hc1, Hc2, Hc3.
  assert (E : ((1 <=? two_digits_value d1 d2)
               && (two_digits_value d1 d2 <=? 31)
               && (1 <=? two_digits_value m1 m2)
               && (two_digits_value m1 m2 <=? 12))%bool = true).
  { repeat (apply andb_true_iff; split); apply Z.leb_le; lia. }
  rewrite E.
  destruct (Z.ltb_spec (four_digits_value y1 y2 y3 y4) 1) as [C|_]; [lia|].
  destruct (Z.ltb_spec (Datetime.days_in_month
                          (four_digits_value y1 y2 y3 y4)
                          (two_digits_value m1 m2))
                       (two_digits_value d1 d2)) as [C|_]; [lia|].
  cbn [forallb] in H. repeat (apply andb_true_iff in H as [?H H]).
  unfold Datetime.isoformat, iso_text.
  rewrite zero_pad_four, !zero_pad_two by assumption. reflexivity.
Qed.

(** Eight digits that are no calendar date raise [ValueError]. *)
Lemma strptime_no_date (d1 d2 m1 m2 y1 y2 y3 y4 : char) :
  forallb isdecimal [d1; d2; m1; m2; y1; y2; y3; y4] = true ->
  calendar_date (four_digits_value y1 y2 y3 y4) (two_digits_value m1 m2)
                (two_digits_value d1 d2) = false ->
  exists text,
    Datetime.strptime_dmy_iso (dmy_text d1 d2 m1 m2 y1 y2 y3 y4)
    = Raise (Exn (py "ValueError") text).
Proof.
  intros H Hc. unfold Datetime.strptime_dmy_iso.
  rewrite (read_dmy_digits _ _ _ _ _ _ _ _ H).
  destruct (_ && _ && _ && _)%bool eqn:E; [|eexists; reflexivity].
  destruct (_ <? 1) eqn:Y; [eexists; reflexivity|].
  destruct (_ <? two_digits_value d1 d2) eqn:D; [eexists; reflexivity|].
  exfalso. unfold calendar_date in Hc.
  repeat (apply andb_true_iff in E as [E ?E]).
  apply Z.ltb_ge in Y, D. apply Z.leb_le in E, E0, E1, E2.
  assert (X : ((1 <=? four_digits_value y1 y2 y3 y4)
               && (1 <=? two_digits_value m1 m2)
               && (two_digits_value m1 m2 <=? 12)
               && (1 <=? two_digits_value d1 d2)
               && (two_digits_value d1 d2
                   <=? Datetime.days_in_month
                         (four_digits_value y1 y2 y3 y4)
                         (two_digits_value m1 m2)))%bool = true).
  { repeat (apply andb_true_iff; split); apply Z.leb_le; lia. }
  congruence.
Qed.

(** ** The shape of a fingerprint *)

Lemma be_bytes_length (n : nat) (x : Z) :
  List.length (Hashlib.be_bytes n x) = n.
Proof.
  revert x. induction n as [|n IH]; intro x; [reflexivity|].
  cbn [Hashlib.be_bytes]. rewrite length_app, IH. cbn. lia.
Qed.

Lemma be_bytes_range (n : nat) (x : Z) :
  Forall (fun b => 0 <= b < 256) (Hashlib.be_bytes n x).
Proof.
  revert x. induction n as [|n IH]; intro x; [constructor|].
  cbn [Hashlib.be_bytes]. apply Forall_app. split; [apply IH|].
  constructor; [|constructor]. apply Z.mod_pos_bound. lia.
Qed.

Lemma hex_digit_is_hex (x : Z) :
  0 <= x < 16 -> is_hex (Hashlib.hex_digit x) = true.
Proof.
  intro H.
  assert (C : x = 0 \/ x = 1 \/ x = 2 \/ x = 3 \/ x = 4 \/ x = 5 \/ x = 6
              \/ x = 7 \/ x = 8 \/ x = 9 \/ x = 10 \/ x = 11 \/ x = 12
              \/ x = 13 \/ x = 14 \/ x = 15) by lia.
  repeat (destruct C as [->|C]; [reflexivity|]). now subst.
Qed.

Lemma hexdigest_shape (msg : list Z) :
  List.length (Hashlib.sha256_hexdigest msg) = 64%nat
  /\ forallb is_hex (Hashlib.sha256_hexdigest msg) = true.
Proof.
  unfold Hashlib.sha256_hexdigest, Hashlib.sha256.
  set (s := Hashlib.blocks _ _ _). clearbody s.
  cbn [flat_map]. rewrite !app_nil_r.
  assert (L : forall bs : list Z,
             List.length
               (flat_map (fun b => [Hashlib.hex_digit (b / 16);
                                    Hashlib.hex_digit (b mod 16)]) bs)
             = (2 * List.length bs)%nat).
  { induction bs as [|b bs IH]; [reflexivity|].
    cbn [flat_map app List.length]. rewrite IH. lia. }
  assert (F : forall bs : list Z,
             Forall (fun b => 0 <= b < 256) bs ->
             forallb is_hex
               (flat_map (fun b => [Hashlib.hex_digit (b / 16);
                                    Hashlib.hex_digit (b mod 16)]) bs)
             = true).
  { induction 1 as [|b bs Hb _ IH]; [reflexivity|].
    cbn [flat_map app forallb]. rewrite IH, !hex_digit_is_hex.
    - reflexivity.
    - apply Z.mod_pos_bound. lia.
    - split; [apply Z.div_pos; lia|apply Z.div_lt_upper_bound; lia]. }
  split.
  - rewrite L, !length_app, !be_bytes_length. reflexivity.
  - apply F.
    repeat first [apply be_bytes_range | apply Forall_app; split].
Qed.

(** ** Entries without a reader *)

Lemma insert_entry_front (e : dir_entry) (l : list dir_entry) :
  (forall x, In x l -> path_le e x) -> insert_entry e l = e :: l.
Proof.
  destruct l as [|x l]; intro H; [reflexivity|]. cbn [insert_entry].
  now rewrite (H x (or_introl eq_refl)).
Qed.

Lemma filter_insert_entry (p : dir_entry -> bool) (e : dir_entry)
      (l : list dir_entry) :
  StronglySorted path_le l ->
  filter p (insert_entry e l)
  = if p e then insert_entry e (filter p l) else filter p l.
Proof.
  induction 1 as [|x l Hs IH Hx]; cbn [insert_entry filter].
  - now destruct (p e).
  - destruct (str_leb (de_path e) (de_path x)) eqn:E.
    + cbn [filter]. destruct (p e); [|reflexivity].
      symmetry. apply insert_entry_front. intros y Hy.
      assert (Hy' : In y (x :: l)).
      { change (In y (filter p (x :: l))) in Hy.
        now apply filter_In in Hy. }
      destruct Hy' as [<-|Hy']; [exact E|].
      rewrite Forall_forall in Hx.
      exact (str_leb_trans _ _ _ E (Hx y Hy')).
    + cbn [filter]. rewrite IH.
      destruct (p x), (p e); cbn [insert_entry]; try reflexivity.
      now rewrite E.
Qed.

(** Sorting and then dropping entries is dropping them and then
    sorting. *)
Lemma sorted_entries_filter (p : dir_entry -> bool) (l : list dir_entry) :
  filter p (sorted_entries l) = sorted_entries (filter p l).
Proof.
  induction l as [|e l IH]; [reflexivity|].
  change (sorted_entries (e :: l))
    with (insert_entry e (sorted_entries l)).
  rewrite (filter_insert_entry p e _ (sorted_entries_sorted l)).
  cbn [filter]. destruct (p e); [|exact IH].
  change (sorted_entries (e :: filter p l))
    with (insert_entry e (sorted_entries (filter p l))).
  now rewrite IH.
Qed.

Lemma documents_recognised (env : environment) (conn : db)
      (listing : list dir_entry) :
  ingest_documents env conn listing
  = ingest_documents env conn (filter recognised listing).
Proof.
  unfold ingest_documents.
  now rewrite loop_recognised, sorted_entries_filter.
Qed.

(** ** Marked dates *)

Lemma dmy_shaped (d1 d2 m1 m2 y1 y2 y3 y4 : char) :
  forallb isdecimal [d1; d2; m1; m2; y1; y2; y3; y4] = true ->
  date_shaped (dmy_text d1 d2 m1 m2 y1 y2 y3 y4).
Proof.
  intro H. cbn [forallb] in H.
  repeat (apply andb_true_iff in H as [?H H]).
  unfold date_shaped, dmy_text. cbn.
  now rewrite H0, H1, H2, H3, H4, H5, H6, H7.
Qed.

(** ** Date ranges *)

Lemma between_inverted (lo hi x : str) :
  str_leb lo hi = false -> between lo hi x = false.
Proof.
  intro H. unfold between.
  destruct (str_leb lo x) eqn:A; [|reflexivity].
  destruct (str_leb x hi) eqn:B; [|reflexivity].
  now rewrite (str_leb_trans _ _ _ A B) in H.
Qed.

Lemma report_inverted (conn : db) (start_date end_date : str) :
  str_leb start_date end_date = false ->
  spend_by_category conn start_date end_date = [].
Proof.
  intro H. unfold spend_by_category, in_range_rows.
  rewrite (filter_none _ (transactions conn)
             (fun t _ => between_inverted _ _ (txn_booking_date t) H)).
  reflexivity.
Qed.

(** ** Records that stop short, whatever follows in the header *)

Lemma get_unreached_any (a b : list str) (key : string) (default : string)
      (r : list str) :
  (List.length r <= List.length a)%nat ->
  get (zip_row (a ++ py key :: b) r) key default = None.
Proof.
  intro Hl. unfold get. rewrite (zip_row_app a (py key :: b) r Hl).
  rewrite rev_app_distr, find_app.
  destruct (find _ (rev (map _ (py key :: b)))) as [[k v]|] eqn:F.
  - apply find_some in F as [Hin _]. apply in_rev in Hin.
    apply in_map_iff in Hin as [k' [E _]]. now inversion E.
  - exfalso.
    pose proof (find_none _ _ F (py key, None)) as N. cbn [fst] in N.
    rewrite str_eqb_refl in N.
    assert (In (py key, @None str)
               (rev (map (fun k => (k, @None str)) (py key :: b)))).
    { apply in_rev. rewrite rev_involutive. now left. }
    now specialize (N H).
Qed.

Lemma csv_row_short (a b : list str) (key : string) (r : list str) :
  In key needed_columns -> (List.length r <= List.length a)%nat ->
  exists e, csv_row_fields (zip_row (a ++ py key :: b) r) = Raise e.
Proof.
  intros Hk Hl. apply (csv_row_needs _ key Hk).
  now apply get_unreached_any.
Qed.

(** ** A workbook that does not load *)

Lemma xls_load_error (env : environment) (conn : db) (f : xls_file)
      (ex : exn) :
  load_rows env f = Raise ex -> is_module_not_found ex = false ->
  ingest_xls env conn f = (fst (fst (register_xls conn f)), Raise ex).
Proof.
  intros H M. unfold ingest_xls.
  destruct (register_xls conn f) as [[c d] s]. now rewrite H, M.
Qed.

Lemma register_xls_rows (conn : db) (f : xls_file) :
  let c := fst (fst (register_xls conn f)) in
  accounts c = accounts conn /\ transactions c = transactions conn
  /\ parse_events c = parse_events conn /\ categories c = categories conn
  /\ (select_document conn (xls_sha256 f) <> None ->
      documents c = documents conn).
Proof.
  cbv zeta. unfold register_xls.
  destruct (select_document conn (xls_sha256 f)); cbn; repeat split.
  intro H. now contradiction H.
Qed.

(* ===================================================================== *)
(** * Properties of the program *)
(* ===================================================================== *)

(** C1: a run over a CSV file, a workbook or a PDF file, followed by a
    run over a file with the same bytes on the same machine, resolves to
    the same document id, adds no document and no transaction, and
    reports zero new documents and zero new transactions; an
    [INSERT OR IGNORE] of a fingerprint the store holds changes no row of
    [transactions] and leaves [changes()] at 0. *)
Theorem C1_reingestion_is_idempotent :
  (forall (conn : db) (f f' : csv_file),
     same_content f f' ->
     let run1 := ingest_csv_ing conn f in
     let run2 := ingest_csv_ing (fst run1) f' in
     document_of (fst run1) f' = document_of conn f /\
     documents (fst run2) = documents (fst run1) /\
     transactions (fst run2) = transactions (fst run1) /\
     nothing_new (snd run2)) /\
  (forall (env : environment) (conn : db) (f f' : xls_file),
     same_book f f' ->
     let run1 := ingest_xls env conn f in
     let run2 := ingest_xls env (fst run1) f' in
     xls_document_of (fst run1) f' = xls_document_of conn f /\
     documents (fst run2) = documents (fst run1) /\
     transactions (fst run2) = transactions (fst run1) /\
     (forall stats, snd run2 = Ok stats -> nothing_new stats)) /\
  (forall (env : environment) (conn : db) (f f' : pdf_file),
     same_pages f f' ->
     let run1 := ingest_pdf_generic env conn f in
     let run2 := ingest_pdf_generic env (fst run1) f' in
     pdf_document_of (fst run1) f' = pdf_document_of conn f /\
     documents (fst run2) = documents (fst run1) /\
     transactions (fst run2) = transactions (fst run1) /\
     nothing_new (snd run2)) /\
  (forall (c : db) (t : transaction),
     has_hash c (txn_hash t) ->
     transactions (insert_or_ignore_transaction c t) = transactions c
     /\ changes (insert_or_ignore_transaction c t) = 0).
Proof.
  split.
  { intros conn f f' H. cbv zeta.
    destruct (ingest_csv_twice conn f f' H) as [H1 [H2 [_ [H4 [H5 H6]]]]].
    cbv zeta in H1, H2, H4, H5, H6. unfold nothing_new. auto. }
  split; [exact ingest_xls_twice|].
  split; [exact ingest_pdf_twice|].
  intros c t H. now rewrite (insert_existing c t).
Qed.

Lemma C1_reingestion_witness :
  same_content statement statement_copy /\
  nothing_new (snd (ingest_csv_ing (fst (ingest_csv_ing empty_db statement))
                                   statement_copy)).
Proof.
  assert (H : same_content statement statement_copy)
    by (repeat split; reflexivity).
  split; [exact H|].
  exact (proj2 (proj2 (proj2
           (proj1 C1_reingestion_is_idempotent empty_db statement
              statement_copy H)))).
Defined.

(** C2: the fingerprint computed by [compute_txn_hash] is the SHA-256
    digest, in hexadecimal, of the UTF-8 bytes of the eight fields joined
    with the pipe character in the order account id, booking date, value
    date (empty when absent), amount in minor units, currency, direction,
    normalized counterparty reference, normalized description, the last
    four in upper case; for account 1, booking date 2023-01-15, no value
    date, -5000 cents, eur, debit, an IBAN and "Albert Heijn" this is the
    digest that begins fd3a21e7. *)
Theorem C2_fingerprint_layout :
  (forall inp : TxnHashInput,
     compute_txn_hash inp
     = fingerprint_spec (account_id inp) (booking_date inp) (value_date inp)
         (amount_cents inp) (currency inp) (debit_credit inp)
         (counterparty_iban_or_name inp) (normalized_description inp)) /\
  compute_txn_hash
    {| account_id := 1; booking_date := py "2023-01-15"; value_date := None;
       amount_cents := -5000; currency := py "eur";
       debit_credit := py "debit";
       counterparty_iban_or_name := py " NL01BANK0123456789 ";
       normalized_description := py "Albert Heijn" |}
  = py "fd3a21e7ef1129b4d5cc1039e4315b6e3ae07904b42db82b8521f4c9c0d59eb8".
Proof.
  split.
  - intro inp. unfold compute_txn_hash, fingerprint_spec, hash_parts, or_empty.
    reflexivity.
  - vm_compute. reflexivity.
Qed.

(** C3: [parse_eu_amount_to_cents] hands to [float] the stripped text
    with every dot, non-breaking space and space taken out and the comma
    turned into a point; the result is, up to sign, the integer nearest to
    the product of that float and 100; it is never positive when the
    direction token is "af" in any letter case and never negative
    otherwise, whatever sign the text carries; "1.234,56" with "Bij"
    (stored as CREDIT) gives 123456 and "50,00" with "Af" (stored as
    DEBIT) gives -5000. *)
Theorem C3_amount_parsing :
  (parse_eu_amount_to_cents (py "1.234,56") (py "Bij") = Ok 123456
   /\ direction_of (py "Bij") = py "CREDIT") /\
  (parse_eu_amount_to_cents (py "50,00") (py "Af") = Ok (-5000)
   /\ direction_of (py "Af") = py "DEBIT") /\
  parse_eu_amount_to_cents (py "-50,00") (py "Bij") = Ok 5000 /\
  (forall s dc : str,
     parse_eu_amount_to_cents s dc
     = (val <- PyFloat.float_of_str
                 (comma_to_point (without_separators (strip s))) ;;
        cents <- PyFloat.round_to_int (PyFloat.mul val (PyFloat.of_Z 100)) ;;
        if str_eqb (lower (strip dc)) (py "af")
        then Ok (- Z.abs cents) else Ok (Z.abs cents))) /\
  (forall (m e n : Z),
     PyFloat.round_to_int (PyFloat.Fin m e) = Ok n ->
     (0 <= e -> n = m * 2 ^ e)
     /\ (e < 0 -> Z.abs (2 * (m - 2 ^ (- e) * n)) <= 2 ^ (- e))) /\
  (forall (s dc : str) (c : Z),
     parse_eu_amount_to_cents s dc = Ok c ->
     if str_eqb (lower (strip dc)) (py "af") then c <= 0 else 0 <= c) /\
  (forall s dc dc' : str,
     option_map Z.abs (value_of (parse_eu_amount_to_cents s dc))
     = option_map Z.abs (value_of (parse_eu_amount_to_cents s dc'))).
Proof.
  split; [split; vm_compute; reflexivity|].
  split; [split; vm_compute; reflexivity|].
  split; [vm_compute; reflexivity|].
  split; [intros s dc; rewrite parse_unfold, amount_text_eq; reflexivity|].
  split; [exact round_to_int_nearest|].
  split; [exact parse_sign|exact parse_magnitude].
Qed.

Lemma C3_amount_parsing_witness :
  parse_eu_amount_to_cents (py "50,00") (py "aF ") = Ok (-5000) /\ -5000 <= 0.
Proof.
  assert (H : parse_eu_amount_to_cents (py "50,00") (py "aF ") = Ok (-5000))
    by (vm_compute; reflexivity).
  split; [exact H|].
  exact (proj1 (proj2 (proj2 (proj2 (proj2 (proj2 C3_amount_parsing)))))
           (py "50,00") (py "aF ") (-5000) H).
Defined.




(** C5: when the library that reads a workbook, or [pdfplumber], cannot
    be imported, the call returns its statistics without raising, with no
    row seen and no transaction added, and records one failed "parse"
    event for the document that names what is missing. *)
Theorem C5_missing_library :
  (forall (env : environment) (conn : db) (f : xls_file),
     xls_library_missing env f ->
     let out := ingest_xls env conn f in
     exists stats,
       snd out = Ok stats /\ tx_seen stats = 0 /\ tx_new stats = 0 /\
       transactions (fst out) = transactions conn /\
       parse_events (fst out)
       = parse_events conn
         ++ [{| ev_document_id := xls_document_of conn f;
                ev_stage := py "parse"; ev_ok := 0;
                ev_message := py "Excel parser missing: No module named '"
                              ++ py (xls_library f) ++ py "'" |}]) /\
  (forall (env : environment) (conn : db) (f : pdf_file),
     has_pdfplumber env = false ->
     let out := ingest_pdf_generic env conn f in
     tx_seen (snd out) = 0 /\ tx_new (snd out) = 0 /\
     transactions (fst out) = transactions conn /\
     parse_events (fst out)
     = parse_events conn
       ++ [{| ev_document_id := snd (fst (register_pdf conn f));
              ev_stage := py "parse"; ev_ok := 0;
              ev_message :=
                py "pdfplumber not installed; cannot parse PDF." |}]).
Proof. split; [exact xls_missing|exact pdf_missing]. Qed.

Lemma C5_missing_library_witness :
  xls_library_missing bare_machine workbook /\
  exists stats,
    snd (ingest_xls bare_machine empty_db workbook) = Ok stats
    /\ tx_seen stats = 0.
Proof.
  assert (H : xls_library_missing bare_machine workbook) by reflexivity.
  split; [exact H|].
  destruct (proj1 C5_missing_library bare_machine empty_db workbook H)
    as [stats [E [Hs _]]].
  exists stats. split; [exact E|exact Hs].
Defined.







(** C8: the CSV path records one "ingest" event for the document, whose
    text says whether the digest was new or known; the workbook path and
    the PDF path record no "ingest" event, whatever the file: they
    register the document and go on to the rows. *)
Theorem C8_ingest_event_on_csv_path_only :
  (forall (conn : db) (f : csv_file),
     ingest_events (fst (ingest_csv_ing conn f))
     = ingest_events conn
       ++ [{| ev_document_id := document_of conn f;
              ev_stage := py "ingest"; ev_ok := 1;
              ev_message :=
                match select_document conn (csv_sha256 f) with
                | Some _ => py "Already imported; reprocessing parse only"
                | None => py "New document imported"
                end |}]) /\
  (forall (env : environment) (conn : db) (f : xls_file),
     ingest_events (fst (ingest_xls env conn f)) = ingest_events conn) /\
  (forall (env : environment) (conn : db) (f : pdf_file),
     ingest_events (fst (ingest_pdf_generic env conn f))
     = ingest_events conn) /\
  (List.length (documents (fst (ingest_xls full_machine empty_db workbook)))
   = 1%nat
   /\ map ev_stage
          (parse_events (fst (ingest_xls full_machine empty_db workbook)))
      = [py "parse"]).
Proof.
  split; [exact csv_ingest_event|].
  split; [intros; apply ingest_events_logged, xls_logged|].
  split; [intros; apply ingest_events_logged, pdf_logged|].
  split; vm_compute; reflexivity.
Qed.




(** C10, as worded: a debit of 0,00 is stored as DEBIT with the amount
    0, which is not negative. *)
Lemma C10_zero_debit_not_negative :
  map (fun t => (txn_debit_credit t, txn_amount_cents t))
      (transactions (fst (ingest_csv_ing empty_db zero_statement)))
  = [(py "DEBIT", 0)].
Proof. vm_compute. reflexivity. Qed.

(** C10: every transaction that a run of the CSV, workbook or PDF path
    adds to the store is a DEBIT with an amount that is not positive or a
    CREDIT with an amount that is not negative; the stored direction is
    DEBIT exactly when the direction token is "af" in any letter case. *)
Theorem C10_sign_convention :
  (forall (conn : db) (f : csv_file),
     added sign_ok conn (fst (ingest_csv_ing conn f))) /\
  (forall (env : environment) (conn : db) (f : xls_file),
     added sign_ok conn (fst (ingest_xls env conn f))) /\
  (forall (env : environment) (conn : db) (f : pdf_file),
     added sign_ok conn (fst (ingest_pdf_generic env conn f))) /\
  (forall dc : str,
     (direction_of dc = py "DEBIT" <-> lower dc = py "af")
     /\ (direction_of dc = py "CREDIT" <-> lower dc <> py "af")).
Proof.
  split; [exact ingest_csv_sign|].
  split; [exact ingest_xls_sign|].
  split; [exact ingest_pdf_sign|].
  intro dc. unfold direction_of.
  destruct (str_eqb (lower dc) (py "af")) eqn:E.
  - apply str_eqb_eq in E. split; split; intro H;
      try reflexivity; try assumption; try discriminate; congruence.
  - assert (N : lower dc <> py "af").
    { intro C. apply str_eqb_eq in C. congruence. }
    split; split; intro H; try reflexivity; try assumption;
      try discriminate; congruence.
Qed.

(** * Further properties *)
(** ** tools/normalization.py *)

(** X1: an amount text that, stripped and without its dots, spaces and
    non-breaking spaces, is one or more digits, a comma and two digits
    parses to exactly that many cents when they are fewer than 2^51:
    the binary floating-point product and its rounding lose nothing.  The
    result is negative for the direction "af" and positive for any
    other. *)
Theorem X1_two_decimal_amounts_are_exact (s dc : str) (c0 : char)
        (ip : str) (c1 c2 : char) :
  without_separators (strip s) = c0 :: ip ++ 44%N :: [c1; c2] ->
  isdecimal c0 = true -> forallb isdecimal ip = true ->
  isdecimal c1 = true -> isdecimal c2 = true ->
  digits_value (c0 :: ip ++ [c1; c2]) < 2 ^ 51 ->
  parse_eu_amount_to_cents s dc
  = Ok (signed dc (digits_value (c0 :: ip ++ [c1; c2]))).
Proof. exact (amount_exact s dc c0 ip c1 c2). Qed.

Lemma X1_two_decimal_amounts_witness :
  parse_eu_amount_to_cents (py " 12.345,67 ") (py "Af") = Ok (-1234567).
Proof.
  exact (X1_two_decimal_amounts_are_exact
           (py " 12.345,67 ") (py "Af") 49%N (py "2345") 54%N 55%N
           eq_refl eq_refl eq_refl eq_refl eq_refl eq_refl).
Defined.

(** X2: the date DD-MM-YYYY of eight decimal digits that follows the
    first "Valutadatum:" of a text is returned as YYYY-MM-DD exactly when
    day and month are those of a calendar date of a year from 1 on;
    otherwise [try_extract_value_date] raises a [ValueError] and returns
    nothing. *)
Theorem X2_value_date_is_a_calendar_date (pre ws post : str)
        (d1 d2 m1 m2 y1 y2 y3 y4 : char) :
  holds (py "Valutadatum:") pre = false -> forallb isspace ws = true ->
  forallb isdecimal [d1; d2; m1; m2; y1; y2; y3; y4] = true ->
  match try_extract_value_date
          (pre ++ py "Valutadatum:" ++ ws
               ++ dmy_text d1 d2 m1 m2 y1 y2 y3 y4 ++ post) with
  | Ok v =>
      calendar_date (four_digits_value y1 y2 y3 y4) (two_digits_value m1 m2)
                    (two_digits_value d1 d2) = true
      /\ v = Some (iso_text d1 d2 m1 m2 y1 y2 y3 y4)
  | Raise e =>
      calendar_date (four_digits_value y1 y2 y3 y4) (two_digits_value m1 m2)
                    (two_digits_value d1 d2) = false
      /\ exn_name e = py "ValueError"
  end.
Proof.
  intros Hn Hw Hd. apply holds_not_occurs in Hn.
  rewrite (try_extract_marked pre ws _ post Hn Hw
             (dmy_shaped d1 d2 m1 m2 y1 y2 y3 y4 Hd)).
  destruct (calendar_date _ _ _) eqn:C.
  - rewrite (strptime_calendar _ _ _ _ _ _ _ _ Hd C). cbn [bind].
    split; reflexivity.
  - destruct (strptime_no_date _ _ _ _ _ _ _ _ Hd C) as [text ->].
    cbn [bind]. split; reflexivity.
Qed.

Lemma X2_value_date_witness :
  try_extract_value_date (py "Pasvolgnr: 001 Valutadatum: 29-02-2024 AH")
  = Ok (Some (py "2024-02-29"))
  /\ exists e,
       try_extract_value_date (py "Valutadatum:31-02-2023") = Raise e
       /\ exn_name e = py "ValueError".
Proof.
  split.
  - pose proof (X2_value_date_is_a_calendar_date
                  (py "Pasvolgnr: 001 ") (py " ") (py " AH")
                  50%N 57%N 48%N 50%N 50%N 48%N 50%N 52%N
                  eq_refl eq_refl eq_refl) as H.
    change (match try_extract_value_date
                    (py "Pasvolgnr: 001 Valutadatum: 29-02-2024 AH") with
            | Ok v => true = true /\ v = Some (py "2024-02-29")
            | Raise e => true = false /\ exn_name e = py "ValueError"
            end) in H.
    destruct (try_extract_value_date
                (py "Pasvolgnr: 001 Valutadatum: 29-02-2024 AH")) as [v|e].
    + destruct H as [_ ->]. reflexivity.
    + destruct H as [H _]. discriminate H.
  - pose proof (X2_value_date_is_a_calendar_date
                  [] [] [] 51%N 49%N 48%N 50%N 50%N 48%N 50%N 51%N
                  eq_refl eq_refl eq_refl) as H.
    change (match try_extract_value_date (py "Valutadatum:31-02-2023") with
            | Ok v => false = true /\ v = Some (py "2023-02-31")
            | Raise e => false = false /\ exn_name e = py "ValueError"
            end) in H.
    destruct (try_extract_value_date (py "Valutadatum:31-02-2023"))
      as [v|e].
    + destruct H as [H _]. discriminate H.
    + exists e. split; [reflexivity|exact (proj2 H)].
Defined.

(** X3: the fingerprint of a transaction is a text of 64 characters,
    each a digit or a letter from a to f, whatever the fields. *)
Theorem X3_fingerprint_is_64_hex_digits (inp : TxnHashInput) :
  List.length (compute_txn_hash inp) = 64%nat
  /\ forallb is_hex (compute_txn_hash inp) = true.
Proof. unfold compute_txn_hash. apply hexdigest_shape. Qed.

(** ** tools/csv_ingest.py *)

(** X4: [_ensure_account] finds or creates.  Either the key is that of
    an account of the store, whose id is returned and nothing is written;
    or it is not, and one account row with a fresh id is appended, the
    other tables being left alone.  Either way the key resolves to the
    returned id afterwards, and a second call returns the same id and
    writes nothing. *)
Theorem X4_ensure_account_finds_or_creates (conn : db)
        (iban no : option str) :
  let r := _ensure_account conn iban no in
  ((select_account conn (py "ING") iban no = Some (snd r) /\ fst r = conn)
   \/ (select_account conn (py "ING") iban no = None
       /\ ~ In (snd r) (map acc_id (accounts conn))
       /\ accounts (fst r) = accounts conn ++ [account_row (snd r) iban no]
       /\ documents (fst r) = documents conn
       /\ transactions (fst r) = transactions conn
       /\ parse_events (fst r) = parse_events conn
       /\ categories (fst r) = categories conn))
  /\ select_account (fst r) (py "ING") iban no = Some (snd r)
  /\ _ensure_account (fst r) iban no = r.
Proof.
  cbv zeta. split; [exact (ensure_account_cases conn iban no)|].
  exact (ensure_account_again conn iban no).
Qed.

(** X5: a record of a CSV file that stops before one of the six columns
    read with [.strip()] ("Datum", "Mededelingen", "Naam / Omschrijving",
    "Af Bij", "Bedrag (EUR)", "Rekening") makes the [try] block of its
    row raise, whatever the record holds before. *)
Theorem X5_short_record_fails (a b : list str) (key : string)
        (r : list str) :
  In key needed_columns -> (List.length r <= List.length a)%nat ->
  exists e, csv_row_fields (zip_row (a ++ py key :: b) r) = Raise e.
Proof. exact (csv_row_short a b key r). Qed.

Lemma X5_short_record_witness :
  exists e, csv_row_fields (zip_row ing_fieldnames short_record) = Raise e.
Proof.
  exact (X5_short_record_fails
           [py "Datum"] (skipn 2 ing_fieldnames) "Naam / Omschrijving"
           short_record (or_intror (or_intror (or_introl eq_refl)))
           (le_n 1)).
Defined.

(** ** The three ingestion functions *)

(** X6: a run only appends.  Each of the three functions keeps the rows
    of every table, in order; it appends one document row exactly when
    the digest was not known, and then reports [docs_new] 1, else 0; the
    parse events it appends are those of the document; the transactions
    it appends belong to the document, are in EUR and have no category,
    and [tx_new] is their number, which is at most [tx_seen].  A CSV run
    sees every record of the file, a workbook run every data row. *)
Theorem X6_a_run_only_appends :
  (forall (conn : db) (f : csv_file),
     let out := ingest_csv_ing conn f in
     run_appended (document_of conn f) (known conn (csv_sha256 f)) conn
                  (fst out) (snd out)
     /\ tx_seen (snd out) = Z.of_nat (List.length (dict_rows f))) /\
  (forall (env : environment) (conn : db) (f : xls_file),
     let out := ingest_xls env conn f in
     match snd out with
     | Ok stats =>
         run_appended (xls_document_of conn f) (known conn (xls_sha256 f))
                      conn (fst out) stats
         /\ tx_seen stats
            = match load_rows env f with
              | Ok (_, rows) => Z.of_nat (List.length rows)
              | Raise _ => 0
              end
     | Raise e =>
         load_rows env f = Raise e /\ is_module_not_found e = false
         /\ fst out = fst (fst (register_xls conn f))
     end) /\
  (forall (env : environment) (conn : db) (f : pdf_file),
     let out := ingest_pdf_generic env conn f in
     run_appended (pdf_document_of conn f) (known conn (pdf_sha256 f)) conn
                  (fst out) (snd out)).
Proof.
  split; [exact csv_run_appended|].
  split; [exact xls_run_appended|exact pdf_run_appended].
Qed.

(** X7: the three functions and the loop over a folder keep the
    integrity of the store: row ids stay distinct in each table, no two
    documents share a digest, no two transactions share a fingerprint,
    and every transaction points to an account and a document of the
    store. *)
Theorem X7_ingestion_keeps_integrity (conn : db) :
  sound conn ->
  (forall f : csv_file, sound (fst (ingest_csv_ing conn f))) /\
  (forall (env : environment) (f : xls_file),
     sound (fst (ingest_xls env conn f))) /\
  (forall (env : environment) (f : pdf_file),
     sound (fst (ingest_pdf_generic env conn f))) /\
  (forall (env : environment) (listing : list dir_entry),
     sound (fst (ingest_documents env conn listing))).
Proof.
  intro H.
  split; [intro f; exact (sound_csv conn f H)|].
  split; [intros env f; exact (sound_xls env conn f H)|].
  split; [intros env f; exact (sound_pdf env conn f H)|].
  intros env listing. exact (sound_loop env _ conn H).
Qed.

Lemma X7_ingestion_keeps_integrity_witness :
  sound empty_db /\ sound (fst (ingest_csv_ing empty_db statement)).
Proof.
  assert (H : sound empty_db).
  { repeat split; constructor. }
  split; [exact H|].
  exact (proj1 (X7_ingestion_keeps_integrity empty_db H) statement).
Defined.

(** ** tools/excel_ingest.py *)

(** X8: when loading a workbook raises anything but a
    [ModuleNotFoundError], [ingest_xls] raises it to its caller: by then
    it has written the document row, when the digest was new, and nothing
    else, no parse event either. *)
Theorem X8_workbook_load_error_is_raised (env : environment) (conn : db)
        (f : xls_file) (ex : exn) :
  load_rows env f = Raise ex -> is_module_not_found ex = false ->
  let out := ingest_xls env conn f in
  snd out = Raise ex
  /\ fst out = fst (fst (register_xls conn f))
  /\ accounts (fst out) = accounts conn
  /\ transactions (fst out) = transactions conn
  /\ parse_events (fst out) = parse_events conn
  /\ categories (fst out) = categories conn.
Proof.
  intros H M. cbv zeta. rewrite (xls_load_error env conn f ex H M).
  cbn [fst snd]. split; [reflexivity|]. split; [reflexivity|].
  destruct (register_xls_rows conn f) as (A & T & P & C & _).
  repeat split; assumption.
Qed.

Lemma X8_workbook_load_error_witness :
  snd (ingest_xls full_machine empty_db corrupt_workbook)
  = Raise (Exn (py "XLRDError") (py "Unsupported format, or corrupt file"))
  /\ parse_events (fst (ingest_xls full_machine empty_db corrupt_workbook))
     = [].
Proof.
  pose proof (X8_workbook_load_error_is_raised
                full_machine empty_db corrupt_workbook _ eq_refl eq_refl)
    as H.
  cbv zeta in H. split; [exact (proj1 H)|].
  exact (proj1 (proj2 (proj2 (proj2 (proj2 H))))).
Defined.

(** X9: the rows of a workbook that hold no value are not skipped: each
    is read as a debit of 0 cents with empty date and description, so
    together they add at most one transaction, and exactly one when the
    store held none. *)
Theorem X9_blank_rows_become_one_transaction (env : environment)
        (conn : db) (f : xls_file) (headers : list str) (r0 : list cell)
        (rows : list (list cell)) :
  load_rows env f = Ok (headers, r0 :: rows) ->
  Forall blank_row (r0 :: rows) ->
  exists stats,
    snd (ingest_xls env conn f) = Ok stats /\
    tx_seen stats = Z.of_nat (List.length (r0 :: rows)) /\
    tx_new stats <= 1 /\
    added (carries blank_fields) conn (fst (ingest_xls env conn f)) /\
    (transactions conn = [] ->
     tx_new stats = 1
     /\ List.length (transactions (fst (ingest_xls env conn f))) = 1%nat).
Proof. exact (xls_blank_rows env conn f headers r0 rows). Qed.

Lemma X9_blank_rows_witness :
  exists stats,
    snd (ingest_xls full_machine empty_db blank_workbook) = Ok stats
    /\ tx_seen stats = 3 /\ tx_new stats = 1.
Proof.
  assert (Hb : Forall blank_row
                 [[CNone; CNone]; [CNone; CNone]; [CNone; CNone]]).
  { repeat constructor. }
  destruct (X9_blank_rows_become_one_transaction
              full_machine empty_db blank_workbook _ _ _ eq_refl Hb)
    as (stats & E & S & _ & _ & N).
  exists stats. split; [exact E|]. split; [exact S|].
  exact (proj1 (N eq_refl)).
Defined.

(** ** tools/pdf_ingest.py *)

(** X10: when [pdfplumber] is there and opening the file or reading a
    page raises, [ingest_pdf_generic] does not raise: it records one
    failed "parse" event for the document, "pdf error: " with the name
    and the text of the exception (the missing-library text for a
    [ModuleNotFoundError]), sees no row, and adds no account and no
    transaction. *)
Theorem X10_unreadable_pdf_fails_with_one_event (env : environment)
        (conn : db) (f : pdf_file) (e : exn) :
  has_pdfplumber env = true ->
  (pages <- pdf_pages f ;; page_texts pages) = Raise e ->
  let out := ingest_pdf_generic env conn f in
  parse_events (fst out)
  = parse_events conn ++ [pdf_failure (pdf_document_of conn f) e] /\
  transactions (fst out) = transactions conn /\
  accounts (fst out) = accounts conn /\
  tx_seen (snd out) = 0 /\ tx_new (snd out) = 0.
Proof. exact (pdf_unreadable env conn f e). Qed.

Lemma X10_unreadable_pdf_witness :
  parse_events (fst (ingest_pdf_generic full_machine empty_db scanned_pdf))
  = [{| ev_document_id := 1; ev_stage := py "parse"; ev_ok := 0;
        ev_message :=
          py "pdf error: PDFSyntaxError: No /Root object! - Is this really a PDF?" |}].
Proof.
  exact (proj1 (X10_unreadable_pdf_fails_with_one_event
                  full_machine empty_db scanned_pdf _ eq_refl eq_refl)).
Defined.

(** X11: the transactions of one PDF run all go to one account: the
    account of the first IBAN of the text, or the account numbered
    "UNKNOWN_PDF" when the text holds none; the key resolves to that
    account after the run.  They have no value date and no counterparty,
    and the run sees one row for each candidate line. *)
Theorem X11_pdf_rows_go_to_one_account (env : environment) (conn : db)
        (f : pdf_file) (texts : list str) :
  has_pdfplumber env = true ->
  (pages <- pdf_pages f ;; page_texts pages) = Ok texts ->
  let out := ingest_pdf_generic env conn f in
  let key := pdf_key (join [10%N] texts) in
  exists acc,
    select_account (fst out) (py "ING") (fst key) (snd key) = Some acc /\
    added (fun t => txn_account_id t = acc /\ txn_value_date t = None
                    /\ txn_counterparty_name t = None
                    /\ txn_counterparty_iban t = None)
          conn (fst out) /\
    tx_seen (snd out)
    = Z.of_nat (List.length
                  (_iter_tx_candidates (_extract_lines (join [10%N] texts)))).
Proof. exact (pdf_one_account env conn f texts). Qed.

Lemma X11_pdf_rows_witness :
  exists acc,
    select_account (fst (ingest_pdf_generic full_machine empty_db text_pdf))
                   (py "ING") (Some (py "NL01BANK0123456789")) None
    = Some acc.
Proof.
  destruct (X11_pdf_rows_go_to_one_account
              full_machine empty_db text_pdf
              [py "NL01BANK0123456789 15-01-2023 Albert Heijn 50,00"]
              eq_refl eq_refl) as [acc [H _]].
  exists acc. exact H.
Defined.

(** ** cli.py *)

(** X12: [ingest_documents] ignores the entries of the folder whose
    suffix, in lower case, is none of ".csv", ".xls", ".xlsx" and ".pdf":
    the call does what it does for the folder without them. *)
Theorem X12_other_files_are_ignored (env : environment) (conn : db)
        (listing : list dir_entry) :
  ingest_documents env conn listing
  = ingest_documents env conn (filter recognised listing).
Proof. exact (documents_recognised env conn listing). Qed.

(** X13: [ingest_documents] does not depend on the order in which the
    folder lists its entries, their paths being distinct. *)
Theorem X13_listing_order_is_irrelevant (env : environment) (conn : db)
        (l l' : list dir_entry) :
  Permutation l l' -> NoDup (map de_path l) ->
  ingest_documents env conn l = ingest_documents env conn l'.
Proof.
  intros P N. unfold ingest_documents.
  now rewrite (sorted_entries_listing l l' P N).
Qed.

Lemma X13_listing_order_witness :
  ingest_documents full_machine empty_db [zero_entry; export_entry]
  = ingest_documents full_machine empty_db [export_entry; zero_entry].
Proof.
  apply X13_listing_order_is_irrelevant.
  - apply perm_swap.
  - constructor; [|constructor; [intros []|constructor]].
    intros [H|[]]. discriminate H.
Defined.

(** X14: a folder that was ingested without an exception can be
    ingested again: the second call raises nothing either and adds no
    document and no transaction. *)
Theorem X14_second_pass_adds_nothing (env : environment) (conn : db)
        (listing : list dir_entry) :
  snd (ingest_documents env conn listing) = None ->
  let out := fst (ingest_documents env conn listing) in
  snd (ingest_documents env out listing) = None
  /\ documents (fst (ingest_documents env out listing)) = documents out
  /\ transactions (fst (ingest_documents env out listing))
     = transactions out.
Proof.
  intro H. cbv zeta. unfold ingest_documents in *.
  exact (loop_replay env _ conn _ H (extends_refl _)).
Qed.

Lemma X14_second_pass_witness :
  let out :=
    fst (ingest_documents full_machine empty_db
                          [notes_entry; export_entry]) in
  transactions (fst (ingest_documents full_machine out
                                      [notes_entry; export_entry]))
  = transactions out.
Proof.
  cbv zeta.
  exact (proj2 (proj2 (X14_second_pass_adds_nothing
                         full_machine empty_db [notes_entry; export_entry]
                         eq_refl))).
Defined.

(** X15: a workbook whose loading raises anything but a
    [ModuleNotFoundError] ends the call: [ingest_documents] raises that
    exception, the entries after the workbook in path order are not
    read, and the database keeps what the entries before it left, without
    the document row of the workbook. *)
Theorem X15_failing_workbook_ends_the_call (env : environment) (conn : db)
        (listing pre post : list dir_entry) (e : dir_entry) (ex : exn) :
  sorted_entries listing = pre ++ e :: post ->
  snd (ingest_loop env conn pre) = None ->
  is_workbook e = true -> load_rows env (as_xls e) = Raise ex ->
  is_module_not_found ex = false ->
  ingest_documents env conn listing
  = (fst (ingest_loop env conn pre), Some ex).
Proof.
  intros S Hp W L M. unfold ingest_documents. rewrite S.
  apply (loop_abort env conn pre post e ex Hp).
  apply entry_raises. repeat split; assumption.
Qed.

Lemma X15_failing_workbook_witness :
  ingest_documents full_machine empty_db
                   [zero_entry; corrupt_entry; export_entry]
  = (fst (ingest_loop full_machine empty_db [export_entry]),
     Some (Exn (py "XLRDError")
               (py "Unsupported format, or corrupt file"))).
Proof.
  exact (X15_failing_workbook_ends_the_call
           full_machine empty_db [zero_entry; corrupt_entry; export_entry]
           [export_entry] [zero_entry] corrupt_entry _
           eq_refl eq_refl eq_refl eq_refl eq_refl).
Defined.

(** ** tools/categorizer.py *)

(** X16: over a store whose transaction ids are distinct,
    [categorize_transactions] raises nothing and touches no document,
    account or parse event.  A transaction that has a category keeps it;
    one that has none and whose normalised text, in lower case, holds a
    keyword gets the id of the category of the first such keyword of the
    map, and is otherwise unchanged; any other transaction is unchanged.
    [tx_updated] is the number of transactions that got a category;
    [merchants_new] and [categories_new] are 0, whatever was created. *)
Theorem X16_categorisation_row_by_row (conn : db) :
  NoDup (map txn_id (transactions conn)) ->
  exists out stats,
    categorize_transactions conn = Ok (out, stats)
    /\ documents out = documents conn /\ accounts out = accounts conn
    /\ parse_events out = parse_events conn
    /\ Forall2 (categorized out) (transactions conn) (transactions out)
    /\ tx_updated stats
       = Z.of_nat (List.length (filter to_update (transactions conn)))
    /\ merchants_new stats = 0 /\ categories_new stats = 0.
Proof.
  intro N.
  destruct (categorize_spec conn N)
    as (out & stats & E & _ & _ & D & A & P & F & M & C & U).
  exists out, stats. repeat split; assumption.
Qed.

Lemma X16_categorisation_witness :
  NoDup (map txn_id (transactions inbox))
  /\ exists out stats,
       categorize_transactions inbox = Ok (out, stats)
       /\ tx_updated stats = 2 /\ categories_new stats = 0.
Proof.
  assert (N : NoDup (map txn_id (transactions inbox))).
  { repeat constructor; cbn; intuition discriminate. }
  split; [exact N|].
  destruct (X16_categorisation_row_by_row inbox N)
    as (out & stats & E & _ & _ & _ & _ & U & _ & C).
  exists out, stats. split; [exact E|]. split; [exact U|exact C].
Defined.

(** X17: [categorize_transactions] creates each category code of the
    map that the table lacks once, with a fresh id, after the rows the
    table has, and creates nothing else; afterwards every code of the
    map is in the table. *)
Theorem X17_missing_categories_are_created_once (conn : db) :
  NoDup (map txn_id (transactions conn)) ->
  exists out stats new,
    categorize_transactions conn = Ok (out, stats)
    /\ categories out = categories conn ++ new
    /\ Forall (created conn) new
    /\ NoDup (map cat_code new) /\ NoDup (map cat_id new)
    /\ forall code, In code map_codes ->
                    exists id, select_category out code = Some id.
Proof.
  intro N.
  destruct (categorize_spec conn N)
    as (out & stats & E & _ & C & _).
  destruct (category_ids_created conn) as (new & Cn & F & N1 & N2).
  exists out, stats, new. split; [exact E|].
  split; [now rewrite C|]. split; [exact F|]. split; [exact N1|].
  split; [exact N2|].
  intros code Hc. destruct (category_ids_spec conn) as [_ L].
  destruct (L code Hc) as [id [_ S]]. exists id.
  now rewrite (select_category_same out (fst (category_ids conn)) code C).
Qed.

Lemma X17_missing_categories_witness :
  NoDup (map txn_id (transactions inbox))
  /\ exists out stats,
       categorize_transactions inbox = Ok (out, stats)
       /\ exists id, select_category out (py "GROCERIES") = Some id.
Proof.
  assert (N : NoDup (map txn_id (transactions inbox))).
  { repeat constructor; cbn; intuition discriminate. }
  split; [exact N|].
  destruct (X17_missing_categories_are_created_once inbox N)
    as (out & stats & new & E & _ & _ & _ & _ & S).
  exists out, stats. split; [exact E|].
  apply S. left. reflexivity.
Defined.

(** X18: after [categorize_transactions], over a store whose
    transaction and category ids are distinct, the report files every
    transaction that had no category under the code of the first keyword
    its text holds, and under "UNCATEGORIZED" when it holds none. *)
Theorem X18_report_after_categorisation (conn : db) :
  NoDup (map txn_id (transactions conn)) ->
  NoDup (map cat_id (categories conn)) ->
  exists out stats,
    categorize_transactions conn = Ok (out, stats)
    /\ Forall2 (fun t t' =>
                  txn_category_id t = None ->
                  category_code out t'
                  = match keyword_code t with
                    | Some code => code
                    | None => py "UNCATEGORIZED"
                    end)
               (transactions conn) (transactions out).
Proof.
  intros N Nc.
  destruct (categorize_spec conn N) as (out & stats & E & _).
  exists out, stats. split; [exact E|].
  exact (categorize_report conn out stats N Nc E).
Qed.

Lemma X18_report_after_categorisation_witness :
  NoDup (map txn_id (transactions inbox))
  /\ NoDup (map cat_id (categories inbox))
  /\ exists out stats,
       categorize_transactions inbox = Ok (out, stats)
       /\ List.length (transactions out) = 3%nat.
Proof.
  assert (N : NoDup (map txn_id (transactions inbox))).
  { repeat constructor; cbn; intuition discriminate. }
  assert (Nc : NoDup (map cat_id (categories inbox))).
  { repeat constructor; cbn; intuition discriminate. }
  split; [exact N|]. split; [exact Nc|].
  destruct (X18_report_after_categorisation inbox N Nc)
    as (out & stats & E & F).
  exists out, stats. split; [exact E|].
  apply Forall2_length in F. now rewrite <- F.
Defined.

(** X19: a second run of [categorize_transactions] changes nothing:
    it leaves every table as the first run left it and reports no
    transaction updated. *)
Theorem X19_second_categorisation_changes_nothing (conn : db) :
  NoDup (map txn_id (transactions conn)) ->
  exists out stats out' stats',
    categorize_transactions conn = Ok (out, stats)
    /\ categorize_transactions out = Ok (out', stats')
    /\ same_tables out out' /\ tx_updated stats' = 0.
Proof.
  intro N.
  destruct (categorize_spec conn N) as (out & stats & E & _).
  destruct (categorize_again conn out stats N E)
    as (out' & stats' & E' & S & U).
  exists out, stats, out', stats'. repeat split; try assumption; apply S.
Qed.

Lemma X19_second_categorisation_witness :
  NoDup (map txn_id (transactions inbox))
  /\ exists out stats out' stats',
       categorize_transactions inbox = Ok (out, stats)
       /\ categorize_transactions out = Ok (out', stats')
       /\ tx_updated stats' = 0.
Proof.
  assert (N : NoDup (map txn_id (transactions inbox))).
  { repeat constructor; cbn; intuition discriminate. }
  split; [exact N|].
  destruct (X19_second_categorisation_changes_nothing inbox N)
    as (out & stats & out' & stats' & E & E' & _ & U).
  exists out, stats, out', stats'. split; [exact E|].
  split; [exact E'|exact U].
Defined.

(** X20: [categorize_transactions] keeps the integrity of the store:
    over a store with distinct ids, digests and fingerprints whose
    transactions point to rows of the store, it raises nothing and leaves
    such a store. *)
Theorem X20_categorisation_keeps_integrity (conn : db) :
  sound conn ->
  exists out stats,
    categorize_transactions conn = Ok (out, stats) /\ sound out.
Proof.
  intro S. pose proof S as (_ & _ & _ & N & _).
  destruct (categorize_spec conn N) as (out & stats & E & _).
  exists out, stats. split; [exact E|].
  exact (sound_categorize conn out stats S E).
Qed.

Lemma X20_categorisation_keeps_integrity_witness :
  sound inbox
  /\ exists out stats,
       categorize_transactions inbox = Ok (out, stats) /\ sound out.
Proof.
  assert (S : sound inbox).
  { unfold sound. vm_compute. repeat split;
      first [ repeat (apply NoDup_cons; [simpl; intuition congruence|]);
              apply NoDup_nil
            | repeat (apply Forall_cons; [split; left; reflexivity|]);
              apply Forall_nil ]. }
  split; [exact S|].
  exact (X20_categorisation_keeps_integrity inbox S).
Defined.

(** ** agents/spending_tools.py *)

(** X21: a date range whose start sorts after its end selects no
    transaction: the report has no row. *)
Theorem X21_inverted_range_reports_nothing (conn : db)
        (start_date end_date : str) :
  str_leb start_date end_date = false ->
  spend_by_category conn start_date end_date = [].
Proof. exact (report_inverted conn start_date end_date). Qed.

Lemma X21_inverted_range_witness :
  spend_by_category ledger (py "2023-02-01") (py "2023-01-01") = [].
Proof.
  exact (X21_inverted_range_reports_nothing
           ledger (py "2023-02-01") (py "2023-01-01") eq_refl).
Defined.
